(** * Nested-sampling core: integral state, live-point store, classical loop
      and importance proposal

    A shallow embedding of [flowproposal/nestedsampler.py],
    [nessai/proposal/importance.py] and [nessai/importancesampler.py].

    Python exceptions are values of [exn] carried by [result]; loops that
    Python runs with [while] take a fuel argument and answer [Diverge] when it
    runs out.  Floating-point data is kept behind the [Number] interface, with
    two instances: [binary64], the IEEE doubles that NumPy and Python use, and
    [exact], the extended rationals (the same operations without rounding).
    NumPy's transcendental functions and the helpers of
    [flowproposal/posterior.py] are parameters gathered in [NumPy]. *)

From Stdlib Require Import String.
From Stdlib Require Import QArith Qcanon.
From Stdlib Require Import Floats.
From Stdlib Require Import ZArith Bool Lia.
From Stdlib Require Import List Sorted Permutation.
From coqutil Require Import Datatypes.RecordSettersUsingExistingGetters.
Import ListNotations.

Close Scope Qc_scope.
Close Scope Q_scope.
Close Scope Z_scope.
Close Scope float_scope.
Open Scope nat_scope.

Set Implicit Arguments.

(** ** Exceptions and results *)

Inductive exn : Type :=
| ZeroDivisionError
| OverflowError
| IndexError
| ValueError (msg : string)
| RuntimeError (msg : string)
| AttributeError (msg : string)
| TypeError (msg : string)
| KeyError
| AssertionError.

Inductive result (A : Type) : Type :=
| Ok (a : A)
| Raise (e : exn)
| Diverge.

Arguments Ok {A} a.
Arguments Raise {A} e.
Arguments Diverge {A}.

Definition bind {A B : Type} (r : result A) (k : A -> result B) : result B :=
  match r with
  | Ok a => k a
  | Raise e => Raise e
  | Diverge => Diverge
  end.

Notation "x <- c ;; k" := (bind c (fun x => k))
  (at level 61, c at next level, right associativity).
Notation "' p <- c ;; k" := (bind c (fun p => k))
  (at level 61, p pattern, c at next level, right associativity).

Definition is_ok {A : Type} (r : result A) : bool :=
  match r with Ok _ => true | _ => false end.


(** ** Python sequences *)

(** [l[i]] with Python's negative indices; [IndexError] outside the range. *)
Definition py_getitem {A : Type} (l : list A) (i : Z) : result A :=
  let n := Z.of_nat (length l) in
  let j := if (i <? 0)%Z then (i + n)%Z else i in
  if ((0 <=? j) && (j <? n))%Z
  then match nth_error l (Z.to_nat j) with
       | Some a => Ok a
       | None => Raise IndexError
       end
  else Raise IndexError.

(** A slice bound [i] clipped to the range [0, n] as Python's [slice.indices]
    does for step 1. *)
Definition py_clip (n : Z) (i : Z) : Z :=
  let j := if (i <? 0)%Z then (i + n)%Z else i in
  Z.max 0 (Z.min n j).

Definition py_bound (n : Z) (dflt : Z) (b : option Z) : Z :=
  match b with Some i => py_clip n i | None => dflt end.

(** [l[start:stop]] *)
Definition py_slice {A : Type} (l : list A) (start stop : option Z) : list A :=
  let n := Z.of_nat (length l) in
  let a := py_bound n 0%Z start in
  let b := py_bound n n stop in
  firstn (Z.to_nat (b - a)) (skipn (Z.to_nat a) l).



(** Python's [a % b] and [a // b] on integers. *)
Definition py_mod (a b : Z) : result Z :=
  if (b =? 0)%Z then Raise ZeroDivisionError else Ok (a mod b)%Z.

Definition py_floordiv (a b : Z) : result Z :=
  if (b =? 0)%Z then Raise ZeroDivisionError else Ok (a / b)%Z.

(** [deque.append] on a deque of maximal length [maxlen >= 0]: when the
    deque is full the oldest entry leaves. *)
Definition deque_append {A : Type} (maxlen : Z) (d : list A) (x : A) : list A :=
  let d' := d ++ [x] in
  skipn (length d' - Z.to_nat maxlen) d'.

(** ** Numbers *)

(** The arithmetic the samplers use.  [of_int] is Python's conversion of an
    [int] operand to [float]; it has no result ([OverflowError]) when the
    integer is too large.  [ftrunc] is Python's [int(x)], the truncation
    towards zero; it has no result on NaN and the infinities. *)
Class Number (F : Type) : Type := {
  f0 : F;
  f1 : F;
  fadd : F -> F -> F;
  fsub : F -> F -> F;
  fmul : F -> F -> F;
  fdiv : F -> F -> F;
  fopp : F -> F;
  finf : F;
  fnan : F;
  feqb : F -> F -> bool;
  fltb : F -> F -> bool;
  fleb : F -> F -> bool;
  isnan : F -> bool;
  isfinite : F -> bool;
  of_int : Z -> option F;
  ftrunc : F -> option Z
}.

Definition fneginf {F : Type} {num : Number F} : F := fopp finf.

(** *** IEEE binary64 *)

(** Round-to-nearest-even conversion of an integer, as CPython's
    [PyLong_AsDouble]; integers that round to infinity are refused. *)
Definition float_of_int (z : Z) : option float :=
  let f := SF2Prim (binary_normalize prec emax z 0%Z false) in
  if PrimFloat.is_infinity f then None else Some f.

Definition float_trunc (x : float) : option Z :=
  match Prim2SF x with
  | S754_zero _ => Some 0%Z
  | S754_finite s m e =>
      let v := if (0 <=? e)%Z then (Zpos m * 2 ^ e)%Z
               else (Zpos m / 2 ^ (- e))%Z in
      Some (if s then (- v)%Z else v)
  | S754_infinity _ | S754_nan => None
  end.

#[export] Instance binary64 : Number float := {
  f0 := PrimFloat.zero;
  f1 := PrimFloat.one;
  fadd := PrimFloat.add;
  fsub := PrimFloat.sub;
  fmul := PrimFloat.mul;
  fdiv := PrimFloat.div;
  fopp := PrimFloat.opp;
  finf := PrimFloat.infinity;
  fnan := PrimFloat.nan;
  feqb := PrimFloat.eqb;
  fltb := PrimFloat.ltb;
  fleb := PrimFloat.leb;
  isnan := PrimFloat.is_nan;
  isfinite := PrimFloat.is_finite;
  of_int := float_of_int;
  ftrunc := float_trunc
}.

(** *** Exact arithmetic on the extended rationals *)

Inductive xreal : Type :=
| XFin (q : Qc)
| XPInf
| XNInf
| XNaN.

Definition xinf_of_sign (c : comparison) : xreal :=
  match c with Eq => XNaN | Gt => XPInf | Lt => XNInf end.

Definition xopp (a : xreal) : xreal :=
  match a with
  | XFin q => XFin (- q)
  | XPInf => XNInf
  | XNInf => XPInf
  | XNaN => XNaN
  end.

Definition xadd (a b : xreal) : xreal :=
  match a, b with
  | XNaN, _ | _, XNaN => XNaN
  | XFin p, XFin q => XFin (p + q)
  | XPInf, XNInf | XNInf, XPInf => XNaN
  | XPInf, _ | _, XPInf => XPInf
  | XNInf, _ | _, XNInf => XNInf
  end.

Definition xsub (a b : xreal) : xreal := xadd a (xopp b).

Definition xmul (a b : xreal) : xreal :=
  match a, b with
  | XNaN, _ | _, XNaN => XNaN
  | XFin p, XFin q => XFin (p * q)
  | XFin p, XPInf | XPInf, XFin p => xinf_of_sign (p ?= 0)%Qc
  | XFin p, XNInf | XNInf, XFin p => xinf_of_sign (CompOpp (p ?= 0)%Qc)
  | XPInf, XPInf | XNInf, XNInf => XPInf
  | XPInf, XNInf | XNInf, XPInf => XNInf
  end.

Definition xdiv (a b : xreal) : xreal :=
  match a, b with
  | XNaN, _ | _, XNaN => XNaN
  | XFin p, XFin q =>
      if Qc_eq_dec q 0%Qc then xinf_of_sign (p ?= 0)%Qc else XFin (p / q)
  | XFin _, (XPInf | XNInf) => XFin 0
  | XPInf, XFin q => match (q ?= 0)%Qc with Lt => XNInf | _ => XPInf end
  | XNInf, XFin q => match (q ?= 0)%Qc with Lt => XPInf | _ => XNInf end
  | (XPInf | XNInf), (XPInf | XNInf) => XNaN
  end.

Definition xcompare (a b : xreal) : option comparison :=
  match a, b with
  | XNaN, _ | _, XNaN => None
  | XFin p, XFin q => Some (p ?= q)%Qc
  | XNInf, XNInf | XPInf, XPInf => Some Eq
  | XNInf, _ | _, XPInf => Some Lt
  | XPInf, _ | _, XNInf => Some Gt
  end.

Definition xeqb (a b : xreal) : bool :=
  match xcompare a b with Some Eq => true | _ => false end.
Definition xltb (a b : xreal) : bool :=
  match xcompare a b with Some Lt => true | _ => false end.
Definition xleb (a b : xreal) : bool :=
  match xcompare a b with Some (Lt | Eq) => true | _ => false end.

Definition xisnan (a : xreal) : bool :=
  match a with XNaN => true | _ => false end.
Definition xisfinite (a : xreal) : bool :=
  match a with XFin _ => true | _ => false end.

Definition Qc_of_Z (z : Z) : Qc := Q2Qc (inject_Z z).

Definition xtrunc (a : xreal) : option Z :=
  match a with
  | XFin q => Some (Z.quot (Qnum q) (Zpos (Qden q)))
  | _ => None
  end.

#[export] Instance exact : Number xreal := {
  f0 := XFin 0;
  f1 := XFin 1;
  fadd := xadd;
  fsub := xsub;
  fmul := xmul;
  fdiv := xdiv;
  fopp := xopp;
  finf := XPInf;
  fnan := XNaN;
  feqb := xeqb;
  fltb := xltb;
  fleb := xleb;
  isnan := xisnan;
  isfinite := xisfinite;
  of_int := fun z => Some (XFin (Qc_of_Z z));
  ftrunc := xtrunc
}.

(** Python's [a / b] on two integers, and [x / n] on a float and an
    integer.  (For integers beyond [2^53] Python rounds the exact quotient;
    here both are converted first.) *)
Definition int_true_div {F : Type} {num : Number F} (a b : Z) : result F :=
  if (b =? 0)%Z then Raise ZeroDivisionError
  else match of_int a, of_int b with
       | Some x, Some y => Ok (fdiv x y)
       | _, _ => Raise OverflowError
       end.

Definition float_div_int {F : Type} {num : Number F} (x : F) (n : Z) : result F :=
  match of_int n with
  | None => Raise OverflowError
  | Some y => if (n =? 0)%Z then Raise ZeroDivisionError else Ok (fdiv x y)
  end.

(** A decimal literal [a / b] of the source, such as [1.2] for [12 / 10]. *)
Definition literal {F : Type} {num : Number F} (a b : Z) : F :=
  match of_int a, of_int b with
  | Some x, Some y => fdiv x y
  | _, _ => fnan
  end.

(** Python's [max(a, b)]: [b] when [b > a], else [a]. *)
Definition py_max {F : Type} {num : Number F} (a b : F) : F :=
  if fltb a b then b else a.

(** *** What the proofs use of a number system *)

(** NumPy's order on floats, with NaN sorted last: the [LT] of its sorting
    and searching routines. *)
Definition np_less {F : Type} {num : Number F} (a b : F) : bool :=
  fltb a b || (isnan b && negb (isnan a)).

(** The facts about the arithmetic that the proofs rely on; both instances
    satisfy them. *)
Class NumberLaws (F : Type) {num : Number F} : Prop := {
  isnan_f0 : isnan f0 = false;
  isnan_fnan : isnan fnan = true;
  isfinite_neginf : isfinite fneginf = false;
  fltb_trans : forall a b c, fltb a b = true -> fltb b c = true -> fltb a c = true;
  fleb_trans : forall a b c, fleb a b = true -> fleb b c = true -> fleb a c = true;
  fleb_fltb_trans : forall a b c, fleb a b = true -> fltb b c = true -> fltb a c = true;
  fltb_fleb : forall a b, fltb a b = true -> fleb a b = true;
  fltb_not_fleb : forall a b, fltb a b = true -> fleb b a = false;
  fleb_total : forall a b, isnan a = false -> isnan b = false ->
                           fltb a b = false -> fleb b a = true;
  fleb_not_nan : forall a b, fleb a b = true -> isnan a = false /\ isnan b = false;
  fltb_not_nan : forall a b, fltb a b = true -> isnan a = false /\ isnan b = false
}.

Arguments NumberLaws F {num}.

(** ** External numerical functions *)

(** NumPy's and SciPy's transcendental functions, and the two helpers that
    [nestedsampler.py] imports from [flowproposal/posterior.py] ([logsubexp]
    and [log_integrate_log_trap]), whose source is not part of the files
    embedded here: they are parameters of every definition that calls them.
    [logsubexp] is the value [x + log1p(-exp(y - x))] that the helper
    computes once it has checked its arguments (the check is
    [Integral.py_logsubexp]); [log_integrate_log_trap] works on whole
    histories and may raise, so it gives a result. *)
Record NumPy (F : Type) : Type := {
  np_exp : F -> F;
  np_log : F -> F;
  np_sqrt : F -> F;
  np_mean : list F -> F;
  np_logaddexp : F -> F -> F;
  sp_logsumexp : list F -> F;
  sp_entropy : list F -> F;
  logsubexp : F -> F -> F;
  log_integrate_log_trap : list F -> list F -> result F
}.

(** ** The integral state: [_NSintegralState] *)

Module Integral.

Section State.
Context {F : Type} {num : Number F}.
Variable np : NumPy F.

Record NSintegralState : Type := {
  nlive : Z;
  iteration : Z;
  logZ : F;
  oldZ : F;
  logw : F;
  info : list F;
  logLs : list F;
  log_vols : list F;
  gradients : list F
}.

(** [reset]: the state at [logZ = -inf], for a given [nlive]. *)
Definition initial (n : Z) : NSintegralState :=
  {| nlive := n;
     iteration := 0%Z;
     logZ := fneginf;
     oldZ := fneginf;
     logw := f0;
     info := [f0];
     logLs := [fneginf];
     log_vols := [f0];
     gradients := [f0] |}.

Definition reset (s : NSintegralState) : NSintegralState := initial (nlive s).

(** [- 1.0 / nlive] for a Python integer [nlive]. *)
Definition neg_one_over (n : Z) : result F :=
  match of_int n with
  | None => Raise OverflowError
  | Some x => if (n =? 0)%Z then Raise ZeroDivisionError
              else Ok (fdiv (fopp f1) x)
  end.

(** [logsubexp(x, y)] of [posterior.py]: the helper refuses [x < y] with
    [RuntimeError] (the message goes on with the two numbers) and otherwise
    returns [x + log1p(-exp(y - x))]. *)
Definition py_logsubexp (x y : F) : result F :=
  if fltb x y
  then Raise (RuntimeError "cannot take log of negative number")
  else Ok (logsubexp np x y).

(** The information estimate that [increment] computes from the old and
    the new [logZ], the weight [Wt], [logL] and the last entry of [info],
    before its NaN test. *)
Definition information (old newZ Wt logL last : F) : F :=
  fsub (fadd (fmul (np_exp np (fsub Wt newZ)) logL)
             (fmul (np_exp np (fsub old newZ)) (fadd last old)))
       newZ.

(** [increment(logL, nlive=None)].  [logL] is a NumPy scalar (the callers
    pass a field of a live point), so the division in the gradient follows
    IEEE and never raises.  The test [logL <= self.logLs[-1]] only logs a
    warning; its read of [logLs[-1]] is kept.  [logsubexp(0, logt)] raises
    when [logt] is above zero, which a negative count gives. *)
Definition increment (s : NSintegralState) (logL : F) (nlive_arg : option Z)
  : result NSintegralState :=
  _ <- py_getitem (logLs s) (-1) ;;
  let n := match nlive_arg with None => nlive s | Some n => n end in
  let old := logZ s in
  logt <- neg_one_over n ;;
  shrink <- py_logsubexp f0 logt ;;
  let Wt := fadd (fadd (logw s) logL) shrink in
  let newZ := np_logaddexp np (logZ s) Wt in
  info' <- (if isfinite old && isfinite newZ && isfinite logL then
              last <- py_getitem (info s) (-1) ;;
              let i := information old newZ Wt logL last in
              let i := if isnan i then f0 else i in
              Ok (info s ++ [i])
            else Ok (info s)) ;;
  let logw' := fadd (logw s) logt in
  let logLs' := logLs s ++ [logL] in
  let log_vols' := log_vols s ++ [logw'] in
  a <- py_getitem logLs' (-1) ;;
  b <- py_getitem logLs' (-2) ;;
  c <- py_getitem log_vols' (-1) ;;
  d <- py_getitem log_vols' (-2) ;;
  Ok {| nlive := nlive s;
        iteration := (iteration s + 1)%Z;
        logZ := newZ;
        oldZ := oldZ s;
        logw := logw';
        info := info';
        logLs := logLs';
        log_vols := log_vols';
        gradients := gradients s ++ [fdiv (fsub a b) (fsub c d)] |}.

(** [finalise()]: the trapezoidal refinement; [logZ] is replaced by the
    value of [log_integrate_log_trap], which is also returned. *)
Definition finalise (s : NSintegralState) : result (NSintegralState * F) :=
  z <- log_integrate_log_trap np (logLs s) (log_vols s) ;;
  Ok ({| nlive := nlive s;
         iteration := iteration s;
         logZ := z;
         oldZ := oldZ s;
         logw := logw s;
         info := info s;
         logLs := logLs s;
         log_vols := log_vols s;
         gradients := gradients s |}, z).

(** A sequence of [increment] calls, each with its [logL] and optional
    [nlive] override. *)
Fixpoint increments (s : NSintegralState) (calls : list (F * option Z))
  : result NSintegralState :=
  match calls with
  | [] => Ok s
  | (logL, n) :: rest => s' <- increment s logL n ;; increments s' rest
  end.

(** The live-point count a call divides by is usable: non-zero,
    convertible to a float, and with [-1/n] not above zero, which is what
    [logsubexp(0, logt)] asks for.  The positive counts that convert are
    the usable ones. *)
Definition usable_nlive (n : Z) : bool :=
  negb (n =? 0)%Z &&
  match of_int n with
  | Some x => negb (fltb f0 (fdiv (fopp f1) x))
  | None => false
  end.

Definition call_usable (s : NSintegralState) (c : F * option Z) : bool :=
  usable_nlive (match snd c with None => nlive s | Some n => n end).

(** The shape the history lists keep. *)
Record history_shape (s : NSintegralState) : Prop := {
  shape_vols : length (log_vols s) = length (logLs s);
  shape_grad : length (gradients s) = length (logLs s);
  shape_iter : iteration s = (Z.of_nat (length (logLs s)) - 1)%Z;
  shape_info_pos : 1 <= length (info s);
  shape_info_le : length (info s) <= length (logLs s)
}.






End State.

Arguments NSintegralState F : clear implicits.

End Integral.

(** ** An executable environment *)

(** The max-plus approximation of the log-space functions: [logaddexp] and
    [logsumexp] become a maximum (NaN propagates), [logsubexp a b] becomes
    [a], and the remaining functions are constant (the trapezoidal integral
    always returns).  The properties below hold
    for every environment; this one is used to run the model on concrete
    inputs. *)
Definition fmax_nan {F : Type} {num : Number F} (a b : F) : F :=
  if isnan a || isnan b then fnan else if fltb a b then b else a.

Definition np_tropical {F : Type} {num : Number F} : NumPy F :=
  {| np_exp := fun _ => f1;
     np_log := fun _ => f0;
     np_sqrt := fun x => x;
     np_mean := fun l => match l with [] => fnan | x :: _ => x end;
     np_logaddexp := fmax_nan;
     sp_logsumexp := fun l => fold_right fmax_nan fneginf l;
     sp_entropy := fun _ => f0;
     logsubexp := fun a _ => a;
     log_integrate_log_trap := fun _ _ => Ok f0 |}.

(** The same environment with a two-valued exponential, [0] below zero and
    [1] from zero on, so that the weights of the information estimate can
    vanish. *)
Definition np_step {F : Type} {num : Number F} : NumPy F :=
  {| np_exp := fun x => if fltb x f0 then f0 else f1;
     np_log := np_log np_tropical;
     np_sqrt := np_sqrt np_tropical;
     np_mean := np_mean np_tropical;
     np_logaddexp := np_logaddexp np_tropical;
     sp_logsumexp := sp_logsumexp np_tropical;
     sp_entropy := sp_entropy np_tropical;
     logsubexp := logsubexp np_tropical;
     log_integrate_log_trap := log_integrate_log_trap np_tropical |}.



(** ** NumPy one-dimensional arrays *)

(** [a[i] = v]: negative indices count from the end; [IndexError] outside. *)
Definition np_setitem {A : Type} (l : list A) (i : Z) (v : A) : result (list A) :=
  let n := Z.of_nat (length l) in
  let j := if (i <? 0)%Z then (i + n)%Z else i in
  if ((0 <=? j) && (j <? n))%Z
  then Ok (firstn (Z.to_nat j) l ++ v :: skipn (S (Z.to_nat j)) l)
  else Raise IndexError.

(** [a[start:stop] = rhs]: the right-hand side must have the length of the
    slice, or length one (it is then broadcast); NumPy raises [ValueError]
    otherwise.  The right-hand side is read before anything is written. *)
Definition np_setslice {A : Type} (l : list A) (start stop : option Z)
  (rhs : list A) : result (list A) :=
  let n := Z.of_nat (length l) in
  let a := py_bound n 0%Z start in
  let b := py_bound n n stop in
  let m := Z.to_nat (b - a) in
  let pre := firstn (Z.to_nat a) l in
  let post := skipn (Z.to_nat a + m) l in
  if length rhs =? m then Ok (pre ++ rhs ++ post)
  else match rhs with
       | [x] => Ok (pre ++ repeat x m ++ post)
       | _ => Raise (ValueError "could not broadcast input array")
       end.

(** [np.searchsorted(a, v)] with the default [side='left']: NumPy's binary
    search, which halves the interval [min, max) on the test
    [a[mid] < v]. *)
Fixpoint binsearch {F : Type} {num : Number F} (fuel : nat) (a : list F) (v : F)
  (lo hi : nat) : nat :=
  match fuel with
  | 0 => lo
  | S fuel' =>
      if lo <? hi then
        let mid := lo + (hi - lo) / 2 in
        if np_less (nth mid a fnan) v
        then binsearch fuel' a v (S mid) hi
        else binsearch fuel' a v lo mid
      else lo
  end.

Definition np_searchsorted {F : Type} {num : Number F} (a : list F) (v : F) : nat :=
  binsearch (length a) a v 0 (length a).

(** [np.searchsorted(a, keys)] for an array of keys: one loop searches for
    the keys in turn and keeps the interval [min, max) from one key to the
    next, resetting one end only: when the previous key is below the present
    one the upper end goes back to the length of [a], otherwise the lower
    end goes back to [0] and the upper end moves up by one.  On a sorted
    [a] every key gets the position that a search of its own gives; on an
    unsorted [a] the positions depend on the keys before. *)
Fixpoint searchsorted_from {F : Type} {num : Number F} (a : list F) (last : F)
  (lo hi : nat) (keys : list F) : list nat :=
  match keys with
  | [] => []
  | v :: rest =>
      let lo' := if np_less last v then lo else 0 in
      let hi' := if np_less last v then length a
                 else if hi <? length a then S hi else length a in
      let r := binsearch (length a) a v lo' hi' in
      r :: searchsorted_from a v r r rest
  end.

Definition np_searchsorted_keys {F : Type} {num : Number F} (a keys : list F)
  : list nat :=
  match keys with
  | [] => []
  | v :: _ => searchsorted_from a v 0 (length a) keys
  end.

(** ** The live-point store of the classical sampler *)

Module LiveStore.

Section Store.
Context {F : Type} {num : Number F}.

(** A row of the structured array: the model's parameters, then [logP] and
    [logL]. *)
Record LivePoint : Type := {
  params : list F;
  logP : F;
  logL : F
}.

(** [NestedSampler.insert_live_point]; returns the updated array and the
    insertion index. *)
Definition insert_live_point (live_points : list LivePoint)
  (live_point : LivePoint) : result (list LivePoint * Z) :=
  let index := Z.of_nat (np_searchsorted (map logL live_points) (logL live_point)) in
  lp1 <- np_setslice live_points None (Some (index - 1)%Z)
           (py_slice live_points (Some 1%Z) (Some index)) ;;
  lp2 <- np_setitem lp1 (index - 1) live_point ;;
  Ok (lp2, (index - 1)%Z).

(** The array is ascending by [logL]. *)
Definition le_logL (p q : LivePoint) : Prop := fleb (logL p) (logL q) = true.

Definition ascending (live_points : list LivePoint) : Prop :=
  Sorted le_logL live_points.

(** The rank of a likelihood in the array: how many rows lie strictly
    below it. *)
Definition rank (live_points : list LivePoint) (v : F) : nat :=
  length (filter (fun p => fltb (logL p) v) live_points).

(** The new point's likelihood is above that of the worst live point. *)
Definition above_worst (live_points : list LivePoint) (live_point : LivePoint) : Prop :=
  exists worst rest, live_points = worst :: rest /\
                     fltb (logL worst) (logL live_point) = true.

(** [np.sort(live_points, order='logL')]: records are compared on [logL]
    first and then on the remaining fields in the order of the dtype (the
    parameters, then [logP]), each with NumPy's order on doubles.  The sort
    is modelled as an insertion sort under that comparison; two records that
    compare equal on every field are interchangeable. *)
Definition double_compare (a b : F) : comparison :=
  if np_less a b then Lt else if np_less b a then Gt else Eq.

Fixpoint lex_compare (x y : list F) : comparison :=
  match x, y with
  | [], [] => Eq
  | [], _ :: _ => Lt
  | _ :: _, [] => Gt
  | a :: x', b :: y' =>
      match double_compare a b with
      | Eq => lex_compare x' y'
      | c => c
      end
  end.

Definition sort_key (p : LivePoint) : list F :=
  logL p :: params p ++ [logP p].

Definition row_less (p q : LivePoint) : bool :=
  match lex_compare (sort_key p) (sort_key q) with Lt => true | _ => false end.

Fixpoint insert_row (p : LivePoint) (l : list LivePoint) : list LivePoint :=
  match l with
  | [] => [p]
  | q :: l' => if row_less q p then q :: insert_row p l' else p :: q :: l'
  end.

Definition np_sort_logL (l : list LivePoint) : list LivePoint :=
  fold_right insert_row [] l.

(** NumPy's order on [logL], NaN last: no row is strictly below the row
    before it. *)
Definition np_ascending (live_points : list LivePoint) : Prop :=
  Sorted (fun p q => np_less (logL q) (logL p) = false) live_points.

End Store.

Arguments LivePoint F : clear implicits.

(** A row of doubles with one parameter [x], [logP = 0] and [logL = x]. *)
Definition row (x : float) : LivePoint float :=
  {| params := [x]; logP := 0%float; logL := x |}.

End LiveStore.

(** ** The classical nested sampler: [NestedSampler] *)

Module Classical.
Import LiveStore.

(** The proposal objects and the user model are external collaborators: the
    sampler reaches them through the methods below.  A method that changes
    its object returns the new object. *)
Class ProposalAPI (F : Type) {num : Number F} (P : Type) : Type := {
  prop_initialised : P -> bool;
  prop_initialise : P -> P;
  prop_pool : P -> bool;
  prop_close_pool : P -> P;
  prop_populated : P -> bool;
  prop_training_count : P -> Z;
  prop_population_acceptance : P -> option F;
  prop_r : P -> F;
  prop_set_ns_acceptance : P -> F -> P;
  prop_reset_model_weights : P -> P;
  prop_train : P -> list (LivePoint F) -> P;
  prop_draw : P -> LivePoint F -> P * LivePoint F
}.

Class ModelAPI (F : Type) {num : Number F} (M : Type) : Type := {
  model_new_point : M -> M * LivePoint F;
  model_log_prior : M -> LivePoint F -> F;
  model_evaluate_log_likelihood : M -> LivePoint F -> M * F;
  model_likelihood_evaluations : M -> Z
}.

Arguments ProposalAPI F {num} P.
Arguments ModelAPI F {num} M.

Section Sampler.
Context {F : Type} {num : Number F}.
Context {P : Type} {papi : ProposalAPI F P}.
Context {M : Type} {mapi : ModelAPI F M}.
Variable np : NumPy F.

(** [compute_indices_ks_test] of [flowproposal/utils.py], whose source is
    not part of the files embedded here: a parameter.  It returns the
    statistic and a p-value, or no p-value. *)
Variable compute_indices_ks_test : list Z -> Z -> F * option F.

(** What the sampler sends to the outside: files, plots, the KS log line. *)
Inductive event : Type :=
| EvKSTest (rolling : bool) (indices : list Z)
| EvPlotIndices
| EvPlotState
| EvCheckpoint
| EvWriteNestedSamples
| EvWriteEvidence.

Definition is_ks_test (e : event) : bool :=
  match e with EvKSTest _ _ => true | _ => false end.

(** A two-argument [np.concatenate] takes a one-dimensional array or a
    scalar record (a zero-dimensional array) in each place. *)
Inductive ndarray : Type :=
| Array1 (rows : list (LivePoint F))
| Scalar0 (row : LivePoint F).

Definition np_concatenate (arrays : list ndarray) : result (list (LivePoint F)) :=
  fold_right
    (fun a acc =>
       match a with
       | Array1 rows => r <- acc ;; Ok (rows ++ r)
       | Scalar0 _ =>
           Raise (ValueError "zero-dimensional arrays cannot be concatenated")
       end)
    (Ok []) arrays.

Record NestedSampler : Type := {
  model : M;
  nlive : Z;
  live_points : option (list (LivePoint F));
  prior_sampling : bool;
  accepted : Z;
  rejected : Z;
  acceptance : F;
  checkpointing : bool;
  last_updated : Z;
  iteration : Z;
  acceptance_history : list F;
  mean_acceptance_history : list F;
  block_acceptance : F;
  mean_block_acceptance : F;
  block_iteration : Z;
  retrain_acceptance : bool;
  insertion_indices : list Z;
  rolling_p : list F;
  resumed : bool;
  tolerance : F;
  condition : F;
  logLmin : F;
  logLmax : F;
  nested_samples : list (LivePoint F);
  state : Integral.NSintegralState F;
  plot : bool;
  likelihood_evaluations : list Z;
  training_iterations : list Z;
  likelihood_calls : Z;
  min_likelihood : list F;
  max_likelihood : list F;
  logZ_history : list F;
  dZ_history : list F;
  population_acceptance : list F;
  population_radii : list F;
  population_iterations : list Z;
  max_iteration : option Z;
  acceptance_threshold : F;
  uninformed_acceptance_threshold : F;
  train_on_empty : bool;
  force_train : bool;
  cooldown : Z;
  memory : Z;
  reset_weights : Z;
  training_frequency : option Z;
  max_count : Z;
  initialised : bool;
  flow_proposal : P;
  uninformed_proposal : P;
  using_flow : bool;
  uninformed_sampling : bool;
  maximum_uninformed : Z;
  info : list F;
  trace : list event
}.


(** [self.proposal] is one of the two proposal objects. *)
Definition proposal (s : NestedSampler) : P :=
  if using_flow s then flow_proposal s else uninformed_proposal s.

Definition set_proposal (s : NestedSampler) (p : P) : NestedSampler :=
  if using_flow s then s <| flow_proposal := p |>
  else s <| uninformed_proposal := p |>.

Definition emit (s : NestedSampler) (e : event) : NestedSampler :=
  s <| trace := trace s ++ [e] |>.

(** Reading [self.live_points] when it is still [None] is a [TypeError]. *)
Definition get_live_points (s : NestedSampler) : result (list (LivePoint F)) :=
  match live_points s with
  | Some l => Ok l
  | None => Raise (TypeError "'NoneType' object is not subscriptable")
  end.

(** [mean_acceptance]: the mean of the last [nlive // 10] acceptances. *)
Definition mean_acceptance (s : NestedSampler) : F :=
  np_mean np (acceptance_history s).

(** [check_insertion_indices(rolling)] (no file name is ever passed). *)
Definition check_insertion_indices (s : NestedSampler) (rolling : bool)
  : NestedSampler :=
  let indices :=
    if rolling
    then py_slice (insertion_indices s) (Some (- nlive s)%Z) None
    else insertion_indices s in
  let '(_, p) := compute_indices_ks_test indices (nlive s) in
  let s := emit s (EvKSTest rolling indices) in
  match p with
  | Some pv => if rolling then s <| rolling_p := rolling_p s ++ [pv] |> else s
  | None => s
  end.

(** [checkpoint()]: the pickle is written. *)
Definition checkpoint (s : NestedSampler) : NestedSampler := emit s EvCheckpoint.

(** The training set built in [check_state]. *)
Definition training_set (s : NestedSampler) : result (list (LivePoint F)) :=
  training_data <- get_live_points s ;;
  if (memory s =? 0)%Z then Ok training_data
  else if length (nested_samples s) =? 0 then Ok training_data
  else if (memory s <=? Z.of_nat (length (nested_samples s)))%Z then
    x <- py_getitem (nested_samples s) (- memory s) ;;
    np_concatenate [Array1 training_data; Scalar0 x]
  else Ok training_data.

(** The training step of [check_state]: its innermost [else] branch. *)
Definition train_proposal (s : NestedSampler) : result NestedSampler :=
  let s :=
    if negb (reset_weights s =? 0)%Z &&
       (prop_training_count (proposal s) mod reset_weights s =? 0)%Z
    then set_proposal s (prop_reset_model_weights (proposal s))
    else s in
  training_data <- training_set s ;;
  let s := set_proposal s (prop_train (proposal s) training_data) in
  let s := s <| training_iterations := training_iterations s ++ [iteration s] |>
             <| last_updated := iteration s |>
             <| block_iteration := 0%Z |>
             <| block_acceptance := f0 |> in
  Ok (if checkpointing s then checkpoint s else s).

(** [(iteration - last_updated) % training_frequency] is zero;
    [training_frequency] is an integer or [np.inf] ([None] here). *)
Definition at_training_frequency (s : NestedSampler) : result bool :=
  let d := (iteration s - last_updated s)%Z in
  match training_frequency s with
  | None => Ok (d =? 0)%Z
  | Some t => m <- py_mod d t ;; Ok (m =? 0)%Z
  end.

(** [check_state(force=False, rejected=False)]. *)
Definition check_state (s : NestedSampler) (force rejected : bool)
  : result NestedSampler :=
  (* leaving uninformed sampling *)
  r <- (if uninformed_sampling s then
          if fltb (mean_acceptance s) (uninformed_acceptance_threshold s)
             || (maximum_uninformed s <=? iteration s)%Z
          then
            if prop_pool (proposal s)
            then Raise (AttributeError "porposal")
            else
              let s := s <| using_flow := true |> in
              let s := set_proposal s
                         (prop_set_ns_acceptance (proposal s)
                                                 (mean_block_acceptance s)) in
              Ok (Some (s <| uninformed_sampling := false |>))
          else Ok None
        else Ok (Some s)) ;;
  match r with
  | None => Ok s
  | Some s =>
      (* should the proposal be trained *)
      train <- (if force then Ok true
                else if fltb (mean_block_acceptance s) (acceptance_threshold s)
                        && (iteration s - last_updated s <? cooldown s)%Z
                        && retrain_acceptance s then Ok true
                else if rejected
                        && fltb (mean_block_acceptance s) (acceptance_threshold s)
                        && retrain_acceptance s then Ok true
                else at_training_frequency s) ;;
      let empty := negb (prop_populated (proposal s)) && train_on_empty s in
      let train := train || empty in
      let force := force || (empty && force_train s) in
      if train then
        if (iteration s - last_updated s <? cooldown s)%Z && negb force
        then Ok s
        else if resumed s then Ok (s <| resumed := false |>)
        else train_proposal s
      else Ok s
  end.


(** [update_state(force=False)], block by block: the population statistics
    of the proposal, the histories kept every [nlive // 10] iterations, and
    the diagnostics run every [nlive] iterations. *)
Definition update_population (s : NestedSampler) : NestedSampler :=
  match prop_population_acceptance (proposal s) with
  | Some pa =>
      s <| population_acceptance := population_acceptance s ++ [pa] |>
        <| population_radii := population_radii s ++ [prop_r (proposal s)] |>
        <| population_iterations := population_iterations s ++ [iteration s] |>
  | None => s
  end.

Definition update_histories (s : NestedSampler) (force : bool)
  : result NestedSampler :=
  m <- py_mod (iteration s) (nlive s / 10) ;;
  Ok (if (m =? 0)%Z || force then
        s <| likelihood_evaluations :=
               likelihood_evaluations s ++ [model_likelihood_evaluations (model s)] |>
          <| min_likelihood := min_likelihood s ++ [logLmin s] |>
          <| max_likelihood := max_likelihood s ++ [logLmax s] |>
          <| logZ_history := logZ_history s ++ [Integral.logZ (state s)] |>
          <| dZ_history := dZ_history s ++ [condition s] |>
          <| mean_acceptance_history :=
               mean_acceptance_history s ++ [mean_acceptance s] |>
      else s).

(** [ax.plot(x, y)] of matplotlib, which refuses two sequences of
    different lengths; what it draws is part of the event of
    [plot_state]. *)
Definition plt_plot (x y : nat) : result unit :=
  if x =? y then Ok tt
  else Raise (ValueError "x and y must have same first dimension").

(** [plot_state()]: the iterations that the recorded histories belong to
    are [np.arange(len(min_likelihood)) * (nlive // 10)], and the last of
    them is overwritten by the current iteration, [it[-1] = self.iteration],
    which raises [IndexError] while nothing has been recorded.  The
    histories are then drawn against these iterations, the first
    [g = min(len(gradients), iteration)] gradients against [np.arange(g)],
    and the population histories against the population iterations; the
    figure that results is one event. *)
Definition plot_state (s : NestedSampler) : result NestedSampler :=
  let it := map (fun k => (Z.of_nat k * (nlive s / 10))%Z)
                (seq 0 (length (min_likelihood s))) in
  _ <- py_getitem it (-1) ;;
  _ <- plt_plot (length it) (length (min_likelihood s)) ;;
  _ <- plt_plot (length it) (length (max_likelihood s)) ;;
  let g := Z.min (Z.of_nat (length (Integral.gradients (state s))))
                 (iteration s) in
  _ <- plt_plot (Z.to_nat g)
         (length (py_slice (Integral.gradients (state s)) None (Some g))) ;;
  _ <- plt_plot (length it) (length (likelihood_evaluations s)) ;;
  _ <- plt_plot (length it) (length (logZ_history s)) ;;
  _ <- plt_plot (length it) (length (dZ_history s)) ;;
  _ <- plt_plot (length it) (length (mean_acceptance_history s)) ;;
  _ <- plt_plot (length (population_iterations s))
         (length (population_acceptance s)) ;;
  _ <- plt_plot (length (population_iterations s))
         (length (population_radii s)) ;;
  Ok (emit s EvPlotState).

(** The histories that are recorded together have one length, and so have
    the population histories. *)
Definition histories_aligned (s : NestedSampler) : bool :=
  (length (min_likelihood s) =? length (max_likelihood s))
  && (length (min_likelihood s) =? length (likelihood_evaluations s))
  && (length (min_likelihood s) =? length (logZ_history s))
  && (length (min_likelihood s) =? length (dZ_history s))
  && (length (min_likelihood s) =? length (mean_acceptance_history s))
  && (length (population_iterations s) =? length (population_acceptance s))
  && (length (population_iterations s) =? length (population_radii s)).

(** The gradients that are drawn are as many as [np.arange(g)]; they are
    whenever the iteration is not negative. *)
Definition gradients_drawable (s : NestedSampler) : bool :=
  let g := Z.min (Z.of_nat (length (Integral.gradients (state s))))
                 (iteration s) in
  Z.to_nat g =? length (py_slice (Integral.gradients (state s)) None (Some g)).

(** [plot_state] finds sequences of matching lengths. *)
Definition plot_ready (s : NestedSampler) : bool :=
  histories_aligned s && gradients_drawable s.

Definition plot_diagnostics (s : NestedSampler) (force : bool)
  : result NestedSampler :=
  if plot s then
    plot_state (if negb force then emit s EvPlotIndices else s)
  else Ok s.

Definition reset_block (s : NestedSampler) : NestedSampler :=
  if uninformed_sampling s
  then s <| block_acceptance := f0 |> <| block_iteration := 0%Z |>
  else s.

Definition update_diagnostics (s : NestedSampler) (force : bool)
  : result NestedSampler :=
  m <- py_mod (iteration s) (nlive s) ;;
  if (m =? 0)%Z || force then
    s <- plot_diagnostics
           (if negb force then check_insertion_indices s true else s) force ;;
    Ok (reset_block s)
  else Ok s.

Definition update_state (s : NestedSampler) (force : bool) : result NestedSampler :=
  s <- update_histories (update_population s) force ;;
  s <- update_diagnostics s force ;;
  Ok (set_proposal s (prop_set_ns_acceptance (proposal s) (mean_block_acceptance s))).

(** [update_state] calls [plot_state]: plots are on and the diagnostics
    are due ([iteration % nlive == 0], or [force]). *)
Definition plots_due (s : NestedSampler) (force : bool) : bool :=
  plot s && ((iteration s mod nlive s =? 0)%Z || force).

(** [update_state] reaches [plot_state] with nothing recorded: plots are
    on, the call is not forced, the diagnostics are due
    ([iteration % nlive == 0]), and the histories, empty so far, are not
    ([iteration % (nlive // 10) != 0]). *)
Definition plots_unrecorded (s : NestedSampler) (force : bool) : bool :=
  plot s && negb force
  && (iteration s mod nlive s =? 0)%Z
  && negb (iteration s mod (nlive s / 10) =? 0)%Z
  && (length (min_likelihood s) =? 0).

(** The likelihood of a candidate is evaluated unless its [logL] field is
    already non-zero. *)
Definition evaluate_candidate (s : NestedSampler) (newparam : LivePoint F)
  : NestedSampler * LivePoint F :=
  if feqb (LiveStore.logL newparam) f0 then
    let '(m, l) := model_evaluate_log_likelihood (model s) newparam in
    (s <| model := m |>, newparam <| LiveStore.logL := l |>)
  else (s, newparam).

(** The acceptance test of [yield_sample] on a candidate whose [logP] has
    been set: the sampler, the candidate and whether it is accepted. *)
Definition accept_candidate (s : NestedSampler) (newparam : LivePoint F)
  : NestedSampler * LivePoint F * bool :=
  if negb (feqb (LiveStore.logP newparam) fneginf) then
    let '(s, newparam) := evaluate_candidate s newparam in
    if fltb (logLmin s) (LiveStore.logL newparam)
    then (s <| logLmax := py_max (logLmax s) (LiveStore.logL newparam) |>,
          newparam, true)
    else (s, newparam, false)
  else (s, newparam, false).

(** [yield_sample(oldparam)], up to its first [yield]: the rejection loop.
    [counter] is the number of draws made so far. *)
Fixpoint yield_sample (fuel : nat) (s : NestedSampler) (oldparam : LivePoint F)
  (counter : Z) : result (NestedSampler * (Z * LivePoint F)) :=
  match fuel with
  | 0 => Diverge
  | S fuel' =>
      let counter := (counter + 1)%Z in
      let '(p, newparam) := prop_draw (proposal s) oldparam in
      let s := set_proposal s p in
      let newparam :=
        newparam <| LiveStore.logP := model_log_prior (model s) newparam |> in
      let '(s, newparam, accepted) := accept_candidate s newparam in
      if accepted then Ok (s, (counter, newparam))
      else
        rate <- int_true_div 1 counter ;;
        if fltb rate (acceptance_threshold s)
        then Ok (s <| max_count := (max_count s + 1)%Z |>, (counter, oldparam))
        else if negb (prop_populated (proposal s))
        then Ok (s, (counter, oldparam))
        else yield_sample fuel' s oldparam counter
  end.

(** The replacement loop of [consume_sample]. *)
Fixpoint replace_worst (fuel : nat) (s : NestedSampler) (worst : LivePoint F)
  (count : Z) : result (NestedSampler * Z) :=
  match fuel with
  | 0 => Diverge
  | S fuel' =>
      '(s, (c, proposed)) <- yield_sample fuel' s worst 0 ;;
      let count := (count + c)%Z in
      if fltb (logLmin s) (LiveStore.logL proposed) then
        lp <- get_live_points s ;;
        '(lp', index) <- insert_live_point lp proposed ;;
        rate <- int_true_div 1 count ;;
        Ok (s <| live_points := Some lp' |>
              <| insertion_indices := insertion_indices s ++ [index] |>
              <| accepted := (accepted s + 1)%Z |>
              <| block_acceptance := fadd (block_acceptance s) rate |>
              <| acceptance_history :=
                   deque_append (nlive s / 10) (acceptance_history s) rate |>,
            count)
      else
        let s := s <| rejected := (rejected s + 1)%Z |> in
        s <- check_state s false true ;;
        let s := if (block_iteration s =? 0)%Z
                 then s <| block_iteration := (block_iteration s + 1)%Z |>
                 else s in
        replace_worst fuel' s worst count
  end.

(** [consume_sample()]. *)
Definition consume_sample (fuel : nat) (s : NestedSampler) : result NestedSampler :=
  lp <- get_live_points s ;;
  worst <- py_getitem lp 0 ;;
  let s := s <| logLmin := LiveStore.logL worst |> in
  st <- Integral.increment np (state s) (LiveStore.logL worst) None ;;
  let s := s <| state := st |>
             <| nested_samples := nested_samples s ++ [worst] |> in
  shrink <- int_true_div (iteration s) (nlive s) ;;
  let s := s <| condition :=
                  fsub (np_logaddexp np (Integral.logZ (state s))
                                     (fsub (logLmax s) shrink))
                       (Integral.logZ (state s)) |>
             <| iteration := (iteration s + 1)%Z |>
             <| block_iteration := (block_iteration s + 1)%Z |> in
  '(s, count) <- replace_worst fuel s worst 0 ;;
  acc <- int_true_div (accepted s) (accepted s + rejected s) ;;
  mba <- float_div_int (block_acceptance s) (block_iteration s) ;;
  Ok (s <| acceptance := acc |> <| mean_block_acceptance := mba |>).

(** The test that [populate_live_points] puts on a sample, and the
    finiteness of its two densities. *)
Definition kept_by_populate (p : LivePoint F) : bool :=
  negb (feqb (LiveStore.logP p) fneginf) &&
  negb (feqb (LiveStore.logL p) fneginf).

Definition finite_point (p : LivePoint F) : bool :=
  isfinite (LiveStore.logP p) && isfinite (LiveStore.logL p).

(** [populate_live_points()]: the points stored so far are [stored]. *)
Fixpoint populate_loop (fuel : nat) (s : NestedSampler)
  (stored : list (LivePoint F)) : result (NestedSampler * list (LivePoint F)) :=
  if (nlive s <=? Z.of_nat (length stored))%Z then Ok (s, stored)
  else
    match fuel with
    | 0 => Diverge
    | S fuel' =>
        let '(m, seed) := model_new_point (model s) in
        let s := s <| model := m |> in
        '(s, (_, live_point)) <- yield_sample fuel' s seed 0 ;;
        if kept_by_populate live_point
        then populate_loop fuel' s (stored ++ [live_point])
        else populate_loop fuel' s stored
    end.

Definition populate_live_points (fuel : nat) (s : NestedSampler)
  : result NestedSampler :=
  if (nlive s <? 0)%Z
  then Raise (ValueError "negative dimensions are not allowed")
  else
    '(s, stored) <- populate_loop fuel s [] ;;
    Ok (s <| live_points := Some (np_sort_logL stored) |>).

(** [initialise(live_points=True)]. *)
Definition initialise (fuel : nat) (s : NestedSampler) (with_live_points : bool)
  : result NestedSampler :=
  let flag0 := negb (prop_initialised (flow_proposal s)) in
  let s := if flag0
           then s <| flow_proposal := prop_initialise (flow_proposal s) |>
           else s in
  let flag1 := negb (prop_initialised (uninformed_proposal s)) in
  let s := if flag1
           then s <| uninformed_proposal := prop_initialise (uninformed_proposal s) |>
           else s in
  let s := s <| using_flow := negb (iteration s <? maximum_uninformed s)%Z |> in
  let flag2 := with_live_points &&
               match live_points s with None => true | Some _ => false end in
  s <- (if flag2 then populate_live_points fuel s else Ok s) ;;
  Ok (if flag0 && flag1 && flag2 then s <| initialised := true |> else s).

(** The [while] loop of [nested_sampling_loop]. *)
Fixpoint sampling_loop (fuel : nat) (s : NestedSampler) : result NestedSampler :=
  if fltb (tolerance s) (condition s) then
    match fuel with
    | 0 => Diverge
    | S fuel' =>
        s <- check_state s false false ;;
        s <- consume_sample fuel' s ;;
        s <- update_state s false ;;
        if match max_iteration s with
           | Some mx => (mx <=? iteration s)%Z
           | None => false
           end
        then Ok s
        else sampling_loop fuel' s
    end
  else Ok s.

(** The final adjustments: one [increment] per remaining live point, with
    [nlive - i] for the point at position [i], and the point is appended to
    [nested_samples]. *)
Fixpoint final_increments (s : NestedSampler) (i : Z)
  (points : list (LivePoint F)) : result NestedSampler :=
  match points with
  | [] => Ok s
  | p :: rest =>
      st <- Integral.increment np (state s) (LiveStore.logL p)
              (Some (nlive s - i)%Z) ;;
      final_increments
        (s <| state := st |> <| nested_samples := nested_samples s ++ [p] |>)
        (i + 1)%Z rest
  end.

(** The calls that the final adjustments make on the integral state. *)
Fixpoint exit_calls (n i : Z) (points : list (LivePoint F)) : list (F * option Z) :=
  match points with
  | [] => []
  | p :: rest => (LiveStore.logL p, Some (n - i)%Z) :: exit_calls n (i + 1) rest
  end.

(** [nested_sampling_loop] from the end of the [while] loop on: the pool is
    closed, the final adjustments are made, the evidence is refined and
    the results are written. *)
Definition close_pool_if_open (s : NestedSampler) : NestedSampler :=
  if prop_pool (proposal s)
  then set_proposal s (prop_close_pool (proposal s))
  else s.

Definition refine_evidence (s : NestedSampler) : result NestedSampler :=
  '(st, _) <- Integral.finalise np (state s) ;;
  let s := s <| state := st |> in
  Ok (s <| info := Integral.info (state s) |>
        <| likelihood_calls := model_likelihood_evaluations (model s) |>).

Definition write_results (s : NestedSampler) (save : bool) : NestedSampler :=
  if save then emit (emit s EvWriteNestedSamples) EvWriteEvidence else s.

Definition final_checks (s : NestedSampler) : NestedSampler :=
  let s := check_insertion_indices s false in
  if checkpointing s then checkpoint s else s.

Definition finish_sampling (s : NestedSampler) (save : bool)
  : result (NestedSampler * (F * list (LivePoint F))) :=
  let s := close_pool_if_open s in
  lp <- get_live_points s ;;
  s <- final_increments s 0 lp ;;
  s <- update_state s true ;;
  s <- refine_evidence s ;;
  let s := final_checks (write_results s save) in
  Ok (s, (Integral.logZ (state s), nested_samples s)).

(** What leaving the loop does to a sampler [s] whose store is [lp]: the
    integral state goes through one [increment] per live point, in the order
    of the store, the point at position [k] with the override [nlive - k],
    which gives the state [st].  When [log_integrate_log_trap] returns [z]
    on the histories of [st], [finalise] replaces [logZ] by [z], changes
    nothing else and returns [z]; the live points have joined the nested
    samples; the final KS test runs on the sampler so refined and is the
    only KS test of the phase; the evidence [z] and the nested samples are
    returned.  When [log_integrate_log_trap] fails, the phase fails with
    it. *)
Definition exit_contract (s : NestedSampler) (lp : list (LivePoint F))
  (save : bool) : Prop :=
  exists st,
    Integral.increments np (state s) (exit_calls (nlive s) 0 lp) = Ok st /\
    (forall k p, nth_error lp k = Some p ->
       nth_error (exit_calls (nlive s) 0 lp) k =
         Some (LiveStore.logL p, Some (nlive s - (0 + Z.of_nat k))%Z)) /\
    length (exit_calls (nlive s) 0 lp) = length lp /\
    (ascending lp ->
       Sorted (fun a b => fleb a b = true)
              (map fst (exit_calls (nlive s) 0 lp))) /\
    (forall z,
       log_integrate_log_trap np (Integral.logLs st) (Integral.log_vols st)
         = Ok z ->
       exists s' refined pre post,
         Integral.finalise np st = Ok (state s', z) /\
         Integral.logZ (state s') = z /\
         Integral.logLs (state s') = Integral.logLs st /\
         Integral.log_vols (state s') = Integral.log_vols st /\
         Integral.info (state s') = Integral.info st /\
         Integral.iteration (state s') = Integral.iteration st /\
         finish_sampling s save = Ok (s', (z, nested_samples s ++ lp)) /\
         nested_samples s' = nested_samples s ++ lp /\
         s' = final_checks refined /\
         state refined = state s' /\
         trace s' = trace s ++ pre
                    ++ [EvKSTest false (insertion_indices s)] ++ post /\
         existsb is_ks_test (pre ++ post) = false) /\
    (forall e,
       log_integrate_log_trap np (Integral.logLs st) (Integral.log_vols st)
         = Raise e ->
       finish_sampling s save = Raise e) /\
    (log_integrate_log_trap np (Integral.logLs st) (Integral.log_vols st)
       = Diverge ->
     finish_sampling s save = Diverge).

(** [nested_sampling_loop(save=True)]; [None] stands for the [0] that the
    prior-sampling branch returns. *)
Definition nested_sampling_loop (fuel : nat) (s : NestedSampler) (save : bool)
  : result (NestedSampler * option (F * list (LivePoint F))) :=
  s <- (if initialised s then Ok s else initialise fuel s true) ;;
  if prior_sampling s then
    if (0 <? nlive s)%Z
    then Raise (AttributeError "params")
    else Ok (if save
             then emit (emit s EvWriteNestedSamples) EvWriteEvidence
             else s, None)
  else
    s <- update_state s false ;;
    s <- sampling_loop fuel s ;;
    '(s, r) <- finish_sampling s save ;;
    Ok (s, Some r).

(** The part of the sampler that leaving the loop works on. *)
Record same_core (s s' : NestedSampler) : Prop := {
  core_nlive : nlive s' = nlive s;
  core_state : state s' = state s;
  core_nested : nested_samples s' = nested_samples s;
  core_live : live_points s' = live_points s;
  core_indices : insertion_indices s' = insertion_indices s;
  core_checkpointing : checkpointing s' = checkpointing s;
  core_model : model s' = model s;
  core_plot : plot s' = plot s;
  core_uninformed : uninformed_sampling s' = uninformed_sampling s;
  core_iteration : iteration s' = iteration s
}.

End Sampler.

Arguments NestedSampler F P M : clear implicits.

End Classical.

(** ** Stand-ins for the collaborators *)

(** A proposal that replays a tape of points, and a model whose likelihood
    is the first parameter of the point and whose prior draws are a fixed
    point; they instantiate the sampler on concrete inputs. *)
Module Doubles.
Import LiveStore Classical.

Section Doubles.
Context {F : Type} {num : Number F}.

#[export] Instance tape_proposal : ProposalAPI F (list (LivePoint F)) := {
  prop_initialised := fun _ => true;
  prop_initialise := fun p => p;
  prop_pool := fun _ => false;
  prop_close_pool := fun p => p;
  prop_populated := fun p => match p with [] => false | _ :: _ => true end;
  prop_training_count := fun _ => 0%Z;
  prop_population_acceptance := fun _ => None;
  prop_r := fun _ => f0;
  prop_set_ns_acceptance := fun p _ => p;
  prop_reset_model_weights := fun p => p;
  prop_train := fun p _ => p;
  prop_draw := fun p old => match p with
                            | [] => ([], old)
                            | x :: rest => (rest, x)
                            end
}.

#[export] Instance counting_model : ModelAPI F Z := {
  model_new_point := fun m => (m, {| params := [f0]; logP := f0; logL := f0 |});
  model_log_prior := fun _ p => logP p;
  model_evaluate_log_likelihood := fun m p => ((m + 1)%Z, hd f0 (params p));
  model_likelihood_evaluations := fun m => m
}.

(** A sampler in flow mode with [n] live points, as [__init__] leaves it
    (output, seed and timing attributes aside). *)
Definition fresh_sampler (n : Z) (tape : list (LivePoint F))
  : NestedSampler F (list (LivePoint F)) Z :=
  {| model := 0%Z;
     nlive := n;
     live_points := None;
     prior_sampling := false;
     accepted := 0%Z;
     rejected := 1%Z;
     acceptance := f0;
     checkpointing := true;
     last_updated := 0%Z;
     iteration := 0%Z;
     acceptance_history := [];
     mean_acceptance_history := [];
     block_acceptance := f1;
     mean_block_acceptance := f1;
     block_iteration := 0%Z;
     retrain_acceptance := true;
     insertion_indices := [];
     rolling_p := [];
     resumed := false;
     tolerance := f0;
     condition := finf;
     logLmin := fneginf;
     logLmax := fneginf;
     nested_samples := [];
     state := Integral.initial n;
     plot := true;
     likelihood_evaluations := [];
     training_iterations := [];
     likelihood_calls := 0%Z;
     min_likelihood := [];
     max_likelihood := [];
     logZ_history := [];
     dZ_history := [];
     population_acceptance := [];
     population_radii := [];
     population_iterations := [];
     max_iteration := None;
     acceptance_threshold := f0;
     uninformed_acceptance_threshold := f0;
     train_on_empty := true;
     force_train := true;
     cooldown := 100%Z;
     memory := 0%Z;
     reset_weights := 1%Z;
     training_frequency := Some 1000%Z;
     max_count := 0%Z;
     initialised := false;
     flow_proposal := tape;
     uninformed_proposal := [];
     using_flow := true;
     uninformed_sampling := false;
     maximum_uninformed := 0%Z;
     info := [];
     trace := [] |}.

(** A KS test that never has a p-value to report. *)
Definition no_ks_test (indices : list Z) (n : Z) : F * option F := (f0, None).

End Doubles.

End Doubles.

(** ** The importance sampler: [ImportanceFlowProposal] *)

Module Importance.

(** Keys of the dictionaries [n_draws] and [n_requested]. *)
Inductive level_key : Type :=
| Initial
| Level (k : Z).

Definition level_key_eqb (a b : level_key) : bool :=
  match a, b with
  | Initial, Initial => true
  | Level i, Level j => (i =? j)%Z
  | _, _ => false
  end.

(** A Python dictionary of integers, in insertion order. *)
Definition counts : Type := list (level_key * Z).

Fixpoint dict_get (d : counts) (k : level_key) : result Z :=
  match d with
  | [] => Raise KeyError
  | (k', v) :: rest => if level_key_eqb k k' then Ok v else dict_get rest k
  end.

Fixpoint dict_set (d : counts) (k : level_key) (v : Z) : counts :=
  match d with
  | [] => [(k, v)]
  | (k', v') :: rest =>
      if level_key_eqb k k' then (k', v) :: rest else (k', v') :: dict_set rest k v
  end.

(** [d[k] += n] *)
Definition dict_add (d : counts) (k : level_key) (n : Z) : result counts :=
  v <- dict_get d k ;; Ok (dict_set d k (v + n)%Z).

(** [a[mask]] for a boolean mask: the lengths must agree. *)
Fixpoint np_mask {A : Type} (mask : list bool) (a : list A) : result (list A) :=
  match mask, a with
  | [], [] => Ok []
  | b :: mask', v :: a' =>
      r <- np_mask mask' a' ;; Ok (if b then v :: r else r)
  | _, _ => Raise IndexError
  end.

(** Element-wise [&] of two boolean arrays of one length. *)
Fixpoint np_band (a b : list bool) : result (list bool) :=
  match a, b with
  | [], [] => Ok []
  | u :: a', v :: b' => r <- np_band a' b' ;; Ok ((u && v) :: r)
  | _, _ => Raise (ValueError "operands could not be broadcast together")
  end.

(** [np.argmax] of a boolean array: the first [True], 0 when there is none;
    an empty array is refused. *)
Fixpoint first_true (a : list bool) : option nat :=
  match a with
  | [] => None
  | true :: _ => Some 0
  | false :: rest => option_map S (first_true rest)
  end.

Definition np_argmax (a : list bool) : result Z :=
  match a with
  | [] => Raise (ValueError "attempt to get argmax of an empty sequence")
  | _ => Ok (match first_true a with Some i => Z.of_nat i | None => 0%Z end)
  end.

(** [np.cumsum] of a boolean array. *)
Fixpoint np_cumsum (acc : Z) (a : list bool) : list Z :=
  match a with
  | [] => []
  | b :: rest => let acc := (acc + if b then 1 else 0)%Z in acc :: np_cumsum acc rest
  end.

(** [np.insert(a, idx, values)] for arrays [idx] and [values] of one length:
    [values[k]] goes before the original position [idx[k]], values with one
    index staying in their order. *)
Fixpoint values_at {A : Type} (i : nat) (idx : list nat) (values : list A) : list A :=
  match idx, values with
  | j :: idx', v :: values' =>
      if j =? i then v :: values_at i idx' values' else values_at i idx' values'
  | _, _ => []
  end.

Fixpoint np_insert_from {A : Type} (i : nat) (a : list A) (idx : list nat)
  (values : list A) : list A :=
  match a with
  | [] => values_at i idx values
  | u :: a' => values_at i idx values ++ u :: np_insert_from (S i) a' idx values
  end.

Definition np_insert {A : Type} (a : list A) (idx : list nat) (values : list A)
  : result (list A) :=
  if negb (length idx =? length values)
  then Raise (ValueError "shape mismatch")
  else if existsb (fun j => length a <? j) idx
  then Raise IndexError
  else Ok (np_insert_from 0 a idx values).

Section Proposal.
Context {F : Type} {num : Number F}.
Variable np : NumPy F.

(** A two-dimensional array: its second dimension and its rows. *)
Record matrix : Type := {
  ncols : nat;
  mrows : list (list F)
}.

(** A row of a structured array gives a value to every field name; the
    fields that exist are those of the array's dtype.  The dtype is built by
    [get_dtype] from the model's names and the reserved fields of
    [nessai.config]; the list of its field names is a parameter of the
    functions below, and all the arrays of a run share it. *)
Definition Sample : Type := string -> F.

Definition upd (s : Sample) (name : string) (v : F) : Sample :=
  fun k => if String.eqb k name then v else s k.

Definition has_field (dtype : list string) (name : string) : bool :=
  existsb (String.eqb name) dtype.

(** [a[name]]: [ValueError] when the dtype has no field of that name. *)
Definition get_column (dtype : list string) (name : string) (a : list Sample)
  : result (list F) :=
  if has_field dtype name then Ok (map (fun s => s name) a)
  else Raise (ValueError ("no field of name " ++ name)).

Fixpoint set_fields (name : string) (values : list F) (a : list Sample)
  : list Sample :=
  match values, a with
  | v :: values', s :: a' => upd s name v :: set_fields name values' a'
  | _, _ => []
  end.

(** [a[name] = values]: [ValueError] when the dtype has no field of that
    name, or when the shapes do not fit. *)
Definition set_column (dtype : list string) (name : string) (values : list F)
  (a : list Sample) : result (list Sample) :=
  if has_field dtype name then
    if length values =? length a then Ok (set_fields name values a)
    else match values with
         | [v] => Ok (map (fun s => upd s name v) a)
         | _ => Raise (ValueError "could not broadcast input array")
         end
  else Raise (ValueError ("no field of name " ++ name)).

(** [a + b] on one-dimensional arrays, with broadcasting of length one. *)
Definition vadd (a b : list F) : result (list F) :=
  if length a =? length b then Ok (map (fun '(u, v) => fadd u v) (combine a b))
  else match a, b with
       | [u], _ => Ok (map (fadd u) b)
       | _, [v] => Ok (map (fun u => fadd u v) a)
       | _, _ => Raise (ValueError "operands could not be broadcast together")
       end.

Definition vadd_scalar (a : list F) (c : F) : list F := map (fun u => fadd u c) a.

Fixpoint mapM {A B : Type} (f : A -> result B) (l : list A) : result (list B) :=
  match l with
  | [] => Ok []
  | a :: rest => b <- f a ;; r <- mapM f rest ;; Ok (b :: r)
  end.

(** [np.log] of a Python integer: NumPy takes it as a 64-bit integer,
    signed or unsigned, and has no [log] for a larger one. *)
Definition np_log_int (n : Z) : result F :=
  if (- 2 ^ 63 <=? n)%Z && (n <? 2 ^ 64)%Z then
    match of_int n with
    | Some v => Ok (np_log np v)
    | None => Raise OverflowError
    end
  else Raise (TypeError "loop of ufunc does not support argument 0 of type int").

Definition np_log_count (n : option Z) : result F :=
  match n with
  | Some k => np_log_int k
  | None => Raise (TypeError "loop of ufunc does not support argument 0 of type NoneType")
  end.

(** [np.fromiter(values, int)] *)
Definition np_fromiter_int (values : list Z) : result (list Z) :=
  if forallb (fun v => (- 2 ^ 63 <=? v)%Z && (v <? 2 ^ 63)%Z) values
  then Ok values
  else Raise OverflowError.

End Proposal.

Arguments matrix F : clear implicits.
Arguments Sample F : clear implicits.

(** The combined flow model of [nessai.flowmodel] is an external
    collaborator, reached through these methods. *)
Class FlowAPI (F : Type) {num : Number F} (Fl : Type) : Type := {
  flow_n_models : Fl -> nat;
  flow_add_new_flow : Fl -> bool -> Fl;
  flow_train : Fl -> list (list F) -> option (list F) -> Fl;
  flow_sample_and_log_prob : Fl -> Z -> Fl * (list (list F) * list F);
  flow_log_prob_all : Fl -> list (list F) -> bool -> matrix F;
  flow_log_prob_ith : Fl -> list (list F) -> Z -> list F
}.

Arguments FlowAPI F {num} Fl.

(** The user's model and what rests on it.  [rescale] and [inverse_rescale]
    stand for the two methods of that name of the proposal, which compose the
    model's maps to and from the unit hypercube with the reparameterisation
    of [nessai.utils.rescaling]; [isfinite_struct] is the helper of
    [nessai.utils.structures].  [evaluate_log_likelihood] is the model's
    method applied to an array, [evaluate_log_likelihood_row] the same
    method applied to one row. *)
Record ImportanceModel (F : Type) : Type := {
  in_bounds : list (Sample F) -> list bool;
  log_prior : list (Sample F) -> list F;
  has_vectorised_likelihood : bool;
  evaluate_log_likelihood : list (Sample F) -> list F;
  evaluate_log_likelihood_row : Sample F -> F;
  batch_evaluate_log_likelihood : list (Sample F) -> list F;
  rescale : list (Sample F) -> list (list F) * list F;
  inverse_rescale : list (list F) -> list (Sample F) * list F;
  isfinite_struct : list (Sample F) -> list bool
}.


Section FlowProposal.
Context {F : Type} {num : Number F}.
Context {Fl : Type} {fapi : FlowAPI F Fl}.
Variable np : NumPy F.
Variable md : ImportanceModel F.

(** The attributes of the proposal that the methods below read or write;
    [flow] is the combined flow model that [initialise] creates. *)
Record ImportanceFlowProposal : Type := {
  level_count : Z;
  draw_count : Z;
  beta : F;
  reset_flows : bool;
  weighted_kl : bool;
  weights_include_likelihood : bool;
  reweight_draws : bool;
  combined_proposal : bool;
  initial_draws : Z;
  initial_log_q : F;
  n_draws : counts;
  n_requested : counts;
  level_entropy : list F;
  dtype : list string;
  flow : Fl
}.

(** [update_annealing(beta)] *)
Definition update_annealing (p : ImportanceFlowProposal) (b : option F)
  : result ImportanceFlowProposal :=
  match b with
  | None => Ok p
  | Some v =>
      if feqb v f0 then Ok p
      else if fltb f0 v && fltb v f1 then Ok (p <| beta := v |>)
      else Raise (ValueError "Annealing must be between 0 and 1")
  end.

(** [__init__], with the flow and the dtype that it is to work with. *)
Definition new_proposal (fields : list string) (fl : Fl) (draws : Z)
  (weighted include_likelihood reset combined reweight : bool) (b : option F)
  : result ImportanceFlowProposal :=
  log_q <- np_log_int np draws ;;
  update_annealing
    {| level_count := -1;
       draw_count := 0;
       beta := match b with None => f1 | Some v => v end;
       reset_flows := reset;
       weighted_kl := weighted;
       weights_include_likelihood := include_likelihood;
       reweight_draws := reweight;
       combined_proposal := combined;
       initial_draws := draws;
       initial_log_q := log_q;
       n_draws := [(Initial, draws)];
       n_requested := [(Initial, draws)];
       level_entropy := [];
       dtype := fields;
       flow := fl |} b.

(** [unnormalised_weights] and [poolsize]. *)
Definition unnormalised_weights (p : ImportanceFlowProposal) : counts :=
  if reweight_draws p then n_requested p else n_draws p.

Definition poolsize (p : ImportanceFlowProposal) : result (list Z) :=
  values <- np_fromiter_int (map snd (unnormalised_weights p)) ;;
  Ok (skipn 1 values).

(** [a + b] for a two-dimensional [a] with [m] columns and a
    one-dimensional [b]. *)
Definition madd_row (m : nat) (a : list (list F)) (b : list F)
  : result (list (list F)) :=
  if (length b =? m) || (length b =? 1) || (m =? 1)
  then mapM (fun r => vadd r b) a
  else Raise (ValueError "operands could not be broadcast together").

(** [a += b[:, np.newaxis]] for a two-dimensional [a]: one entry of [b] per
    row, or a single entry for all rows. *)
Definition madd_column (a : list (list F)) (b : list F) : result (list (list F)) :=
  if length b =? length a
  then Ok (map (fun '(r, c) => vadd_scalar r c) (combine a b))
  else match b with
       | [c] => Ok (map (fun r => vadd_scalar r c) a)
       | _ => Raise (ValueError "non-broadcastable output operand")
       end.

(** [np.concatenate([a, b[:, np.newaxis]], axis=1)] *)
Definition mappend_column (a : list (list F)) (b : list F) : result (list (list F)) :=
  if length b =? length a
  then Ok (map (fun '(r, c) => r ++ [c]) (combine a b))
  else Raise (ValueError "all the input array dimensions must match").

(** [assert b] *)
Definition check (b : bool) : result unit :=
  if b then Ok tt else Raise AssertionError.

(** [_compute_log_Q_combined], up to its two NaN checks: the log-density of
    the flows at each sample, without the prior component. *)
Definition combined_terms (p : ImportanceFlowProposal) (x_prime : list (list F))
  (log_q_j : option (list F)) (n : option Z) (log_j : list F) : result (list F) :=
  match log_q_j with
  | Some lq =>
      if flow_n_models (flow p) =? 1 then
        ln <- np_log_count np n ;;
        vadd (vadd_scalar lq ln) log_j
      else
        let log_q_all := flow_log_prob_all (flow p) x_prime true in
        let m := ncols log_q_all in
        _ <- check (length (mrows log_q_all) =? length x_prime) ;;
        sizes <- poolsize p ;;
        lp <- mapM (np_log_int np) (firstn m sizes) ;;
        a <- madd_row m (mrows log_q_all) lp ;;
        ln <- np_log_count np n ;;
        log_q <- mappend_column a (vadd_scalar lq ln) ;;
        _ <- check (m =? flow_n_models (flow p) - 1) ;;
        log_q <- madd_column log_q log_j ;;
        Ok (map (sp_logsumexp np) log_q)
  | None =>
      let log_q_all := flow_log_prob_all (flow p) x_prime false in
      let m := ncols log_q_all in
      _ <- check (length (mrows log_q_all) =? length x_prime) ;;
      sizes <- poolsize p ;;
      lp <- mapM (np_log_int np) sizes ;;
      log_q <- madd_row m (mrows log_q_all) lp ;;
      _ <- check (m =? flow_n_models (flow p)) ;;
      log_q <- madd_column log_q log_j ;;
      Ok (map (sp_logsumexp np) log_q)
  end.

(** The end of [_compute_log_Q_combined]: the prior component is added
    between two NaN checks. *)
Definition add_prior_component (p : ImportanceFlowProposal) (log_Q : list F)
  : result (list F) :=
  if existsb isnan log_Q
  then Raise (ValueError "There is a NaN in log q before initial!")
  else
    let log_Q := map (np_logaddexp np (initial_log_q p)) log_Q in
    if existsb isnan log_Q
    then Raise (ValueError "There is a NaN in log g!")
    else Ok log_Q.

Definition _compute_log_Q_combined (p : ImportanceFlowProposal)
  (x_prime : list (list F)) (log_q_j : option (list F)) (n : option Z)
  (log_j : list F) : result (list F) :=
  log_Q <- combined_terms p x_prime log_q_j n log_j ;;
  add_prior_component p log_Q.

Definition _compute_log_Q_independent (log_q : option (list F)) (n : option Z)
  (log_j : list F) : result (list F) :=
  match log_q with
  | None => Raise (TypeError "unsupported operand type(s) for +: 'NoneType'")
  | Some lq =>
      a <- vadd lq log_j ;;
      ln <- np_log_count np n ;;
      Ok (vadd_scalar a ln)
  end.

Definition compute_log_Q (p : ImportanceFlowProposal) (x_prime : list (list F))
  (log_q : option (list F)) (n : option Z) (log_j : list F) : result (list F) :=
  if combined_proposal p
  then _compute_log_Q_combined p x_prime log_q n log_j
  else _compute_log_Q_independent log_q n log_j.

(** [x['logW'] = - x['logQ']] *)
Definition set_logW (p : ImportanceFlowProposal) (a : list (Sample F))
  : result (list (Sample F)) :=
  q <- get_column (dtype p) "logQ" a ;;
  set_column (dtype p) "logW" (map fopp q) a.

(** [(x['logL'] >= logL_min)] *)
Definition above (p : ImportanceFlowProposal) (logL_min : F) (a : list (Sample F))
  : result (list bool) :=
  l <- get_column (dtype p) "logL" a ;;
  Ok (map (fun v => fleb logL_min v) l).

Definition np_sum (a : list bool) : Z :=
  Z.of_nat (length (filter (fun b => b) a)).

(** One pass through the body of the loop of [draw]: the candidates that
    survive the two masks, with [logQ], [logP] and [logW] set, and how many
    of them count as accepted; [None] when a mask is empty and the loop
    goes on to its next pass. *)
Definition draw_batch (p : ImportanceFlowProposal) (n n_draw : Z)
  (logL_min : option F)
  : result (ImportanceFlowProposal * option (list (Sample F) * Z)) :=
  let '(fl, (x_prime, log_q)) := flow_sample_and_log_prob (flow p) n_draw in
  let p := p <| flow := fl |> in
  let '(xs, log_j_inv) := inverse_rescale md x_prime in
  let '(x_check, log_j) := rescale md xs in
  acc <- np_band (in_bounds md xs) (isfinite_struct md xs) ;;
  acc <- np_band acc (map (forallb isfinite) x_check) ;;
  acc <- np_band acc (map (forallb isfinite) x_prime) ;;
  acc <- np_band acc (map isfinite log_j) ;;
  acc <- np_band acc (map isfinite log_j_inv) ;;
  acc <- np_band acc (map isfinite log_q) ;;
  if negb (existsb (fun b => b) acc) then Ok (p, None)
  else
    xs <- np_mask acc xs ;;
    x_prime <- np_mask acc x_prime ;;
    log_j <- np_mask acc log_j ;;
    log_q <- np_mask acc log_q ;;
    log_Q <- compute_log_Q p x_prime (Some log_q) (Some n) log_j ;;
    xs <- set_column (dtype p) "logQ" log_Q xs ;;
    xs <- set_column (dtype p) "logP" (log_prior md xs) xs ;;
    xs <- set_logW p xs ;;
    lp <- get_column (dtype p) "logP" xs ;;
    lw <- get_column (dtype p) "logW" xs ;;
    accept <- np_band (map isfinite lp) (map isfinite lw) ;;
    if negb (existsb (fun b => b) accept) then Ok (p, None)
    else
      xs <- np_mask accept xs ;;
      match logL_min with
      | Some lmin =>
          xs <- set_column (dtype p) "logl"
                  (batch_evaluate_log_likelihood md xs) xs ;;
          m <- above p lmin xs ;;
          Ok (p, Some (xs, np_sum m))
      | None => Ok (p, Some (xs, Z.of_nat (length xs)))
      end.

(** The [while] loop of [draw]. *)
Fixpoint draw_loop (fuel : nat) (p : ImportanceFlowProposal) (n n_draw : Z)
  (logL_min : option F) (samples : list (Sample F)) (n_accepted : Z)
  : result (ImportanceFlowProposal * list (Sample F)) :=
  if (n_accepted <? n)%Z && (0 <? n_draw)%Z then
    match fuel with
    | 0 => Diverge
    | S fuel' =>
        '(p, batch) <- draw_batch p n n_draw logL_min ;;
        match batch with
        | None => draw_loop fuel' p n n_draw logL_min samples n_accepted
        | Some (xs, m) =>
            draw_loop fuel' p n n_draw logL_min (samples ++ xs)
              (n_accepted + m)
        end
    end
  else Ok (p, samples).

(** [int(c * n)] for a float [c] and an integer [n]. *)
Definition scaled_count (c : F) (n : Z) : result Z :=
  match of_int n with
  | None => Raise OverflowError
  | Some v =>
      match ftrunc (fmul c v) with
      | Some k => Ok k
      | None => Raise OverflowError
      end
  end.

(** The samples that [draw] keeps once the loop has ended. *)
Definition trim_samples (p : ImportanceFlowProposal) (n : Z)
  (logL_min : option F) (samples : list (Sample F))
  : result (list (Sample F)) :=
  match logL_min with
  | None => Ok (py_slice samples None (Some n))
  | Some lmin =>
      m <- above p lmin samples ;;
      let possible_idx := np_cumsum 0 m in
      idx <- np_argmax (map (fun c => (n <=? c)%Z) possible_idx) ;;
      let samples := py_slice samples None (Some (idx + 1)%Z) in
      _ <- check (n <=? Z.of_nat (length samples))%Z ;;
      _ <- above p lmin samples ;;
      Ok samples
  end.

(** [draw(n, logL_min=None)] *)
Definition draw (fuel : nat) (p : ImportanceFlowProposal) (n : Z)
  (logL_min : option F)
  : result (ImportanceFlowProposal * list (Sample F)) :=
  let truthy := match logL_min with
                | Some v => negb (feqb v f0)
                | None => false
                end in
  n_draw <- (if truthy then scaled_count (literal 12 10) n
             else scaled_count (literal 101 100) n) ;;
  requested <- dict_add (n_requested p) (Level (level_count p)) n ;;
  let p := p <| n_requested := requested |> in
  '(p, samples) <- draw_loop fuel p n n_draw logL_min [] 0 ;;
  samples <- trim_samples p n logL_min samples ;;
  drawn <- dict_add (n_draws p) (Level (level_count p))
             (Z.of_nat (length samples)) ;;
  let p := p <| n_draws := drawn |> in
  samples <- match logL_min with
             | Some _ =>
                 let '(prime_samples, log_j) := rescale md samples in
                 log_Q <- compute_log_Q p prime_samples None None log_j ;;
                 samples <- set_column (dtype p) "logQ" log_Q samples ;;
                 set_logW p samples
             | None => Ok samples
             end ;;
  q <- get_column (dtype p) "logQ" samples ;;
  let entr := sp_entropy np (map (np_exp np) q) in
  Ok (p <| level_entropy := level_entropy p ++ [entr] |>
        <| draw_count := (draw_count p + 1)%Z |>,
      samples).

(** [get_proposal_log_prob(it)], applied to the rescaled samples. *)
Definition proposal_log_prob (p : ImportanceFlowProposal) (i : Z)
  (x_prime : list (list F)) : result (list F) :=
  if (i =? -1)%Z then Ok (map (fun _ => f0) x_prime)
  else if (i <? Z.of_nat (flow_n_models (flow p)))%Z
  then Ok (flow_log_prob_ith (flow p) x_prime i)
  else Raise (ValueError "").

(** [a op b] element by element, [b] of the length of [a] or of length
    one. *)
Definition zip_with (op : F -> F -> F) (a b : list F) : result (list F) :=
  if length b =? length a
  then Ok (map (fun '(u, v) => op u v) (combine a b))
  else match b with
       | [v] => Ok (map (fun u => op u v) a)
       | _ => Raise (ValueError "operands could not be broadcast together")
       end.

(** [update_samples(samples)]: the array is updated in place; the updated
    array is the result. *)
Definition update_samples (p : ImportanceFlowProposal) (samples : list (Sample F))
  : result (list (Sample F)) :=
  if (level_count p <? 0)%Z
  then Raise (RuntimeError "Cannot update samples unless a level has been constructed!")
  else
    match dict_get (n_draws p) (Level (level_count p)) with
    | Raise KeyError =>
        Raise (RuntimeError "Must draw samples from the new level before updating any existing samples!")
    | Raise e => Raise e
    | Diverge => Diverge
    | Ok _ =>
        let '(xp, log_j) := rescale md samples in
        log_q <- proposal_log_prob p (level_count p) xp ;;
        a <- vadd log_q log_j ;;
        weight <- dict_get (unnormalised_weights p) (Level (level_count p)) ;;
        lw <- np_log_int np weight ;;
        let new_log_Q := vadd_scalar a lw in
        old <- get_column (dtype p) "logQ" samples ;;
        merged <- (if length old =? length new_log_Q
                   then Ok (map (fun '(u, v) => np_logaddexp np u v)
                                (combine old new_log_Q))
                   else match old, new_log_Q with
                        | [u], _ => Ok (map (np_logaddexp np u) new_log_Q)
                        | _, [v] => Ok (map (fun u => np_logaddexp np u v) old)
                        | _, _ => Raise (ValueError "operands could not be broadcast together")
                        end) ;;
        samples <- set_column (dtype p) "logQ" merged samples ;;
        set_logW p samples
    end.

(** The term that [update_samples] merges into the [logQ] of the samples:
    [log_q + log_j + np.log(unnormalised_weights[level_count])]. *)
Definition new_log_Q (p : ImportanceFlowProposal) (samples : list (Sample F))
  : result (list F) :=
  let '(xp, log_j) := rescale md samples in
  log_q <- proposal_log_prob p (level_count p) xp ;;
  a <- vadd log_q log_j ;;
  weight <- dict_get (unnormalised_weights p) (Level (level_count p)) ;;
  lw <- np_log_int np weight ;;
  Ok (vadd_scalar a lw).

(** What [update_samples] makes of a sample and its new term. *)
Definition merged_sample (s : Sample F) (v : F) : Sample F :=
  let q := np_logaddexp np (s "logQ"%string) v in
  upd (upd s "logQ" q) "logW" (fopp q).

(** [train(samples)], with the defaults for its other arguments: the
    directories and the plots aside, a new level is opened and a new flow
    is added and trained. *)
Definition train (p : ImportanceFlowProposal) (samples : list (Sample F))
  : result ImportanceFlowProposal :=
  let level := (level_count p + 1)%Z in
  let p := p <| level_count := level |>
             <| n_draws := dict_set (n_draws p) (Level level) 0 |> in
  let p := p <| n_requested := dict_set (n_requested p) (Level level) 0 |> in
  let '(x_prime, _) := rescale md samples in
  _ <- match concat x_prime with
       | [] => Raise (ValueError "zero-size array to reduction operation minimum which has no identity")
       | _ => Ok tt
       end ;;
  weights <- (if weighted_kl p then
                lw <- get_column (dtype p) "logW" samples ;;
                log_weights <-
                  (if weights_include_likelihood p then
                     ll <- get_column (dtype p) "logL" samples ;;
                     vadd lw (map (fmul (beta p)) ll)
                   else Ok lw) ;;
                let norm := sp_logsumexp np log_weights in
                Ok (Some (map (fun w => np_exp np (fsub w norm)) log_weights))
              else Ok None) ;;
  let fl := flow_add_new_flow (flow p) (reset_flows p) in
  _ <- check (Z.of_nat (flow_n_models fl) =? level + 1)%Z ;;
  Ok (p <| flow := flow_train fl x_prime weights |>).

(** [compute_kl_between_proposals(x, p_it, q_it)] *)
Definition compute_kl_between_proposals (p : ImportanceFlowProposal)
  (xs : list (Sample F)) (p_it q_it : option Z) : result F :=
  let '(x_prime, log_j) := rescale md xs in
  let p_it := match p_it with
              | Some i => i
              | None => (Z.of_nat (flow_n_models (flow p)) - 1)%Z
              end in
  let q_it := match q_it with
              | Some i => i
              | None => (Z.of_nat (flow_n_models (flow p)) - 2)%Z
              end in
  if (p_it =? q_it)%Z then Raise (ValueError "p and q must be different")
  else if (p_it <? -1)%Z || (q_it <? -1)%Z
  then Raise (ValueError "Invalid p_it or q_it")
  else
    log_p <- proposal_log_prob p p_it x_prime ;;
    log_q <- proposal_log_prob p q_it x_prime ;;
    log_p <- (if (-1 <? p_it)%Z then zip_with fadd log_p log_j else Ok log_p) ;;
    log_q <- (if (-1 <? q_it)%Z then zip_with fadd log_q log_j else Ok log_q) ;;
    let norm_p := sp_logsumexp np log_p in
    let log_p := map (fun v => fsub v norm_p) log_p in
    let norm_q := sp_logsumexp np log_q in
    let log_q := map (fun v => fsub v norm_q) log_q in
    d <- (if length log_p =? length log_q
          then Ok (map (fun '(u, v) => fsub u v) (combine log_p log_q))
          else match log_p, log_q with
               | [u], _ => Ok (map (fsub u) log_q)
               | _, [v] => Ok (map (fun u => fsub u v) log_p)
               | _, _ => Raise (ValueError "operands could not be broadcast together")
               end) ;;
    Ok (np_mean np d).

End FlowProposal.

Arguments ImportanceFlowProposal F Fl : clear implicits.

(** ** The importance sampler: [ImportanceNestedSampler] *)

Section Sampler.
Context {F : Type} {num : Number F}.
Context {Fl : Type} {fapi : FlowAPI F Fl}.
Variable np : NumPy F.
Variable md : ImportanceModel F.

(** The attributes of the sampler that the methods below read or write;
    [pool] tells whether a pool of processes is configured, and the two
    histories are the entries [n_added] and [kl_proposals] of [history]. *)
Record ImportanceNestedSampler : Type := {
  nlive : Z;
  leaky : bool;
  replace_all : bool;
  _update_nested_samples : bool;
  pool : bool;
  likelihood_evaluations : Z;
  iteration : Z;
  min_logL : F;
  live_points : option (list (Sample F));
  nested_samples : list (Sample F);
  training_points : list (Sample F);
  proposal : ImportanceFlowProposal F Fl;
  history_n_added : list Z;
  history_kl_proposals : list F
}.

(** [get_proposal()], with no configuration of the user's. *)
Definition get_proposal (fields : list string) (fl : Fl) (n : Z) (replace : bool)
  : result (ImportanceFlowProposal F Fl) :=
  new_proposal np fields fl n true false false (negb replace) false None.

(** [log_likelihood(samples)]: the array is updated in place. *)
Definition log_likelihood (s : ImportanceNestedSampler) (samples : list (Sample F))
  : result (ImportanceNestedSampler * list (Sample F)) :=
  let fields := dtype (proposal s) in
  if pool s then
    samples' <- set_column fields "logL"
                  (map (evaluate_log_likelihood_row md) samples) samples ;;
    Ok (s <| likelihood_evaluations :=
               (likelihood_evaluations s + Z.of_nat (length samples))%Z |>,
        samples')
  else if has_vectorised_likelihood md then
    samples' <- set_column fields "logL"
                  (evaluate_log_likelihood md samples) samples ;;
    Ok (s, samples')
  else
    samples' <- set_column fields "logL"
                  (map (evaluate_log_likelihood_row md) samples) samples ;;
    Ok (s, samples').

(** [update_level()] *)
Definition update_level (s : ImportanceNestedSampler)
  : result ImportanceNestedSampler :=
  _ <- get_column (dtype (proposal s)) "logW" (training_points s) ;;
  p <- train np md (proposal s) (training_points s) ;;
  kl <- compute_kl_between_proposals np md p (training_points s)
          (Some (iteration s - 1)%Z) (Some (iteration s)) ;;
  Ok (s <| proposal := p |>
        <| history_kl_proposals := history_kl_proposals s ++ [kl] |>).

(** [update_live_points()] *)
Definition update_live_points (s : ImportanceNestedSampler)
  : result ImportanceNestedSampler :=
  match live_points s with
  | None => Ok s
  | Some lp =>
      lp' <- update_samples np md (proposal s) lp ;;
      Ok (s <| live_points := Some lp' |>)
  end.

(** [update_nested_samples()] *)
Definition update_nested_samples (s : ImportanceNestedSampler)
  : result ImportanceNestedSampler :=
  ns <- update_samples np md (proposal s) (nested_samples s) ;;
  Ok (s <| nested_samples := ns |>).

(** [draw_n_samples(n)] *)
Definition draw_n_samples (fuel : nat) (s : ImportanceNestedSampler) (n : Z)
  : result (ImportanceNestedSampler * list (Sample F)) :=
  let logL_min := if negb (leaky s) then Some (min_logL s) else None in
  '(p, new_points) <- draw np md fuel (proposal s) n logL_min ;;
  let s := s <| proposal := p |> in
  if leaky s then log_likelihood s new_points
  else Ok (s, new_points).

(** [a.sort(order='logL')]: the rows are compared on [logL], then on the
    other fields in the order of the dtype. *)
Definition order_key (fields : list string) (r : Sample F) : list F :=
  r "logL"%string :: map r (filter (fun k => negb (String.eqb k "logL")) fields).

Definition sample_less (fields : list string) (a b : Sample F) : bool :=
  match LiveStore.lex_compare (order_key fields a) (order_key fields b) with
  | Lt => true
  | _ => false
  end.

Fixpoint insert_sample (fields : list string) (r : Sample F) (l : list (Sample F))
  : list (Sample F) :=
  match l with
  | [] => [r]
  | q :: l' =>
      if sample_less fields r q then r :: q :: l'
      else q :: insert_sample fields r l'
  end.

Definition np_sort_order (fields : list string) (a : list (Sample F))
  : result (list (Sample F)) :=
  if has_field fields "logL"
  then Ok (fold_left (fun acc r => insert_sample fields r acc) a [])
  else Raise (ValueError "unknown field name: logL").

(** [add_to_nested_samples(samples)] *)
Definition add_to_nested_samples (s : ImportanceNestedSampler)
  (samples : list (Sample F)) : ImportanceNestedSampler :=
  s <| nested_samples := nested_samples s ++ samples |>.

(** [np.insert(live, np.searchsorted(live['logL'], new['logL']), new)] *)
Definition merge_points (fields : list string) (live new : list (Sample F))
  : result (list (Sample F)) :=
  keys <- get_column fields "logL" live ;;
  values <- get_column fields "logL" new ;;
  np_insert live (np_searchsorted_keys keys values) new.

(** [add_and_update_points(n)], the plot aside. *)
Definition add_and_update_points (fuel : nat) (s : ImportanceNestedSampler) (n : Z)
  : result ImportanceNestedSampler :=
  '(s, new_points) <- draw_n_samples fuel s n ;;
  let fields := dtype (proposal s) in
  new_points <- np_sort_order fields new_points ;;
  new_points <-
    match of_int (iteration s) with
    | Some i => set_column fields "it" [i] new_points
    | None => Raise OverflowError
    end ;;
  _ <- get_column fields "logW" new_points ;;
  s <- update_live_points s ;;
  s <- (if _update_nested_samples s then update_nested_samples s else Ok s) ;;
  let s := s <| history_n_added :=
                  history_n_added s ++ [Z.of_nat (length new_points)] |> in
  if leaky s then
    match live_points s with
    | None => Ok (s <| live_points := Some new_points |>)
    | Some lp =>
        lp' <- merge_points fields lp new_points ;;
        Ok (s <| live_points := Some lp' |>)
    end
  else
    m <- above (proposal s) (min_logL s) new_points ;;
    cut <- np_argmax m ;;
    let s := add_to_nested_samples s (py_slice new_points None (Some cut)) in
    match live_points s with
    | None => Raise (TypeError "'NoneType' object is not subscriptable")
    | Some lp =>
        lp' <- merge_points fields lp (py_slice new_points (Some cut) None) ;;
        Ok (s <| live_points := Some lp' |>)
    end.

(** The statements of the body of the loop of [nested_sampling_loop] that
    follow [remove_points], up to the increment of the iteration. *)
Definition update_and_add (fuel : nat) (s : ImportanceNestedSampler)
  (n_remove : Z) : result ImportanceNestedSampler :=
  s <- update_level s ;;
  let n_add := if replace_all s then nlive s else n_remove in
  s <- add_and_update_points fuel s n_add ;;
  Ok (s <| iteration := (iteration s + 1)%Z |>).

End Sampler.

Arguments ImportanceNestedSampler F Fl : clear implicits.

(** ** What is stated of the samples *)

(** The stored [logW] is the negation of the stored [logQ]. *)
Definition weight_consistent {F : Type} {num : Number F} (s : Sample F) : Prop :=
  s "logW"%string = fopp (s "logQ"%string).

(** [logQ] is at least the prior term [initial_log_q]. *)
Definition above_prior {F : Type} {num : Number F} {Fl : Type}
  (p : ImportanceFlowProposal F Fl) (s : Sample F) : Prop :=
  fleb (initial_log_q p) (s "logQ"%string) = true.

(** [np.logaddexp] does not fall below its first argument, unless its
    result is NaN. *)
Definition logaddexp_bounds {F : Type} {num : Number F} (np : NumPy F) : Prop :=
  forall a b : F,
    isnan (np_logaddexp np a b) = false ->
    fleb a (np_logaddexp np a b) = true.

(** A pass of [update_samples] does not lower [logQ], unless it becomes
    NaN. *)
Definition not_lowered {F : Type} {num : Number F} (s s' : Sample F) : Prop :=
  isnan (s' "logQ"%string) = false ->
  fleb (s "logQ"%string) (s' "logQ"%string) = true.

End Importance.

(** ** Stand-ins for the flow and the model *)

(** A combined flow whose every flow samples the origin and has one
    log-density everywhere, and a model with the one parameter [x], a flat
    prior, the identity as rescaling and [x] itself as log-likelihood; they
    instantiate the proposal and the sampler on concrete inputs. *)
Module ImportanceDoubles.
Import Importance.

Section Doubles.
Context {F : Type} {num : Number F}.

Record flat_flow : Type := {
  flows : nat;
  density : F
}.

#[export] Instance flat_flow_api : FlowAPI F flat_flow := {
  flow_n_models := flows;
  flow_add_new_flow := fun fl _ => {| flows := S (flows fl); density := density fl |};
  flow_train := fun fl _ _ => fl;
  flow_sample_and_log_prob := fun fl n =>
    (fl, (repeat [f0] (Z.to_nat n), repeat (density fl) (Z.to_nat n)));
  flow_log_prob_all := fun fl xs exclude_last =>
    let m := if exclude_last then flows fl - 1 else flows fl in
    {| ncols := m; mrows := map (fun _ => repeat (density fl) m) xs |};
  flow_log_prob_ith := fun fl xs _ => map (fun _ => density fl) xs
}.

Definition row_of (v : F) : Sample F :=
  fun k => if String.eqb k "x" then v else f0.

Definition line_model : ImportanceModel F :=
  {| in_bounds := map (fun _ => true);
     log_prior := map (fun _ => f0);
     has_vectorised_likelihood := false;
     evaluate_log_likelihood := map (fun s => s "x"%string);
     evaluate_log_likelihood_row := fun s => s "x"%string;
     batch_evaluate_log_likelihood := map (fun s => s "x"%string);
     rescale := fun xs => (map (fun s => [s "x"%string]) xs, map (fun _ => f0) xs);
     inverse_rescale := fun xp => (map (fun r => row_of (hd f0 r)) xp,
                                   map (fun _ => f0) xp);
     isfinite_struct := map (fun _ => true) |}.

(** The dtype with every reserved field. *)
Definition all_fields : list string :=
  ["x"; "logP"; "logL"; "it"; "logW"; "logQ"; "logG"]%string.

(** A proposal with one initial draw whose first level has been trained,
    with [drawn] samples drawn from it so far. *)
Definition level_zero (combined : bool) (fl : flat_flow) (drawn : Z)
  : ImportanceFlowProposal F flat_flow :=
  {| level_count := 0;
     draw_count := 0;
     beta := f1;
     reset_flows := false;
     weighted_kl := true;
     weights_include_likelihood := false;
     reweight_draws := false;
     combined_proposal := combined;
     initial_draws := 1;
     initial_log_q := f0;
     n_draws := [(Initial, 1%Z); (Level 0, drawn)];
     n_requested := [(Initial, 1%Z); (Level 0, drawn)];
     level_entropy := [];
     dtype := all_fields;
     flow := fl |}.

(** A sampler at its first level, with one live point. *)
Definition first_level (is_leaky : bool) (fl : flat_flow)
  : ImportanceNestedSampler F flat_flow :=
  {| nlive := 1;
     leaky := is_leaky;
     replace_all := false;
     _update_nested_samples := false;
     pool := false;
     likelihood_evaluations := 0;
     iteration := 0;
     min_logL := fneginf;
     live_points := Some [row_of f0];
     nested_samples := [];
     training_points := [row_of f0];
     proposal := level_zero true fl 0;
     history_n_added := [];
     history_kl_proposals := [] |}.

End Doubles.

End ImportanceDoubles.

(** ** What the steps of the classical sampler write *)

(** Each relation says that a step leaves every attribute of the sampler
    alone but the listed ones. *)
Module ClassicalFrames.
Import LiveStore Classical.

Section Frames.
Context {F : Type} {P M : Type}.

(** The rejection loop of [yield_sample]: the model (its evaluation
    count), the two proposals, [logLmax] and [max_count]. *)
Definition drawing_writes (s s' : NestedSampler F P M) : Prop :=
  s' = s <| model := model s' |>
         <| flow_proposal := flow_proposal s' |>
         <| uninformed_proposal := uninformed_proposal s' |>
         <| logLmax := logLmax s' |>
         <| max_count := max_count s' |>.

(** [check_state]: the choice of proposal, the proposals, the training
    record, the block counters and the checkpoint. *)
Definition training_writes (s s' : NestedSampler F P M) : Prop :=
  s' = s <| using_flow := using_flow s' |>
         <| flow_proposal := flow_proposal s' |>
         <| uninformed_proposal := uninformed_proposal s' |>
         <| uninformed_sampling := uninformed_sampling s' |>
         <| resumed := resumed s' |>
         <| training_iterations := training_iterations s' |>
         <| last_updated := last_updated s' |>
         <| block_iteration := block_iteration s' |>
         <| block_acceptance := block_acceptance s' |>
         <| trace := trace s' |>.

(** The replacement loop of [consume_sample]: what the two steps above
    write, the counters of accepted and rejected points, the acceptance
    history, the store and the insertion indices. *)
Definition replacing_writes (s s' : NestedSampler F P M) : Prop :=
  s' = s <| model := model s' |>
         <| flow_proposal := flow_proposal s' |>
         <| uninformed_proposal := uninformed_proposal s' |>
         <| logLmax := logLmax s' |>
         <| max_count := max_count s' |>
         <| using_flow := using_flow s' |>
         <| uninformed_sampling := uninformed_sampling s' |>
         <| resumed := resumed s' |>
         <| training_iterations := training_iterations s' |>
         <| last_updated := last_updated s' |>
         <| block_iteration := block_iteration s' |>
         <| block_acceptance := block_acceptance s' |>
         <| trace := trace s' |>
         <| rejected := rejected s' |>
         <| accepted := accepted s' |>
         <| acceptance_history := acceptance_history s' |>
         <| live_points := live_points s' |>
         <| insertion_indices := insertion_indices s' |>.

End Frames.

End ClassicalFrames.

(** ** A proposal with a pool *)

(** A proposal that is nothing but the flag telling whether its pool is
    open, and a sampler that is about to leave uninformed sampling with it. *)
Module PoolDoubles.
Import LiveStore Classical Doubles.

Section Doubles.
Context {F : Type} {num : Number F}.

#[export] Instance flag_proposal : ProposalAPI F bool := {
  prop_initialised := fun _ => true;
  prop_initialise := fun p => p;
  prop_pool := fun p => p;
  prop_close_pool := fun _ => false;
  prop_populated := fun _ => true;
  prop_training_count := fun _ => 1%Z;
  prop_population_acceptance := fun _ => None;
  prop_r := fun _ => f0;
  prop_set_ns_acceptance := fun p _ => p;
  prop_reset_model_weights := fun p => p;
  prop_train := fun p _ => p;
  prop_draw := fun p old => (p, old)
}.

Definition uninformed_sampler (pool_open : bool) (limit : Z)
  : NestedSampler F bool Z :=
  {| model := 0%Z;
     nlive := 10;
     live_points := Some [];
     prior_sampling := false;
     accepted := 0%Z;
     rejected := 1%Z;
     acceptance := f0;
     checkpointing := true;
     last_updated := 0%Z;
     iteration := 0%Z;
     acceptance_history := [f1];
     mean_acceptance_history := [];
     block_acceptance := f1;
     mean_block_acceptance := f1;
     block_iteration := 0%Z;
     retrain_acceptance := true;
     insertion_indices := [];
     rolling_p := [];
     resumed := false;
     tolerance := f0;
     condition := finf;
     logLmin := fneginf;
     logLmax := fneginf;
     nested_samples := [];
     state := Integral.initial 10;
     plot := true;
     likelihood_evaluations := [];
     training_iterations := [];
     likelihood_calls := 0%Z;
     min_likelihood := [];
     max_likelihood := [];
     logZ_history := [];
     dZ_history := [];
     population_acceptance := [];
     population_radii := [];
     population_iterations := [];
     max_iteration := None;
     acceptance_threshold := f0;
     uninformed_acceptance_threshold := f0;
     train_on_empty := true;
     force_train := true;
     cooldown := 100%Z;
     memory := 0%Z;
     reset_weights := 1%Z;
     training_frequency := Some 1000%Z;
     max_count := 0%Z;
     initialised := true;
     flow_proposal := false;
     uninformed_proposal := pool_open;
     using_flow := false;
     uninformed_sampling := true;
     maximum_uninformed := limit;
     info := [];
     trace := [] |}.

End Doubles.

End PoolDoubles.

(** ** Live points: [nessai/livepoint.py] *)

(** The conversions between plain arrays and structured arrays.  Every
    field of a dtype is a double, so a dtype is the list of its field
    names. *)
Module LivePointArrays.
Import Importance.

Section Arrays.
Context {F : Type} {num : Number F}.

(** [get_dtype(names, non_sampling_parameters=True)] *)
Definition get_dtype (names : list string) (non_sampling_parameters : bool)
  : list string :=
  names ++ (if non_sampling_parameters then ["logP"; "logL"] else [])%string.

(** A structured array with its dtype. *)
Record struct_array : Type := {
  fields : list string;
  records : list (Sample F)
}.

(** NumPy refuses a dtype in which a field name occurs twice.  (Field
    names are taken to be non-empty strings; NumPy gives an empty name a
    default one.) *)
Fixpoint nodupb (l : list string) : bool :=
  match l with
  | [] => true
  | x :: rest => negb (existsb (String.eqb x) rest) && nodupb rest
  end.

Definition np_dtype (names : list string) : result (list string) :=
  if nodupb names then Ok names
  else Raise (ValueError "field occurs more than once").

(** The plain arrays that the conversions take: of one or two
    dimensions. *)
Inductive plain_array : Type :=
| Array1 (l : list F)
| Array2 (m : matrix F).

Definition size (a : plain_array) : nat :=
  match a with
  | Array1 l => length l
  | Array2 m => length (mrows m) * ncols m
  end.

(** [array[..., i]] on a two-dimensional array. *)
Definition column (m : matrix F) (i : nat) : result (list F) :=
  if i <? ncols m then Ok (map (fun r => nth i r f0) (mrows m))
  else Raise IndexError.

(** The loop [for i, n in enumerate(names): struct_array[n] = array[..., i]]
    from position [i] on. *)
Fixpoint fill_columns (dtype : list string) (m : matrix F) (i : nat)
  (names : list string) (rows : list (Sample F)) : result (list (Sample F)) :=
  match names with
  | [] => Ok rows
  | n :: rest =>
      c <- column m i ;;
      rows <- set_column dtype n c rows ;;
      fill_columns dtype m (S i) rest rows
  end.

(** What the loop makes of one record [s] and its row [r] of the array. *)
Fixpoint fill_row (r : list F) (i : nat) (names : list string) (s : Sample F)
  : Sample F :=
  match names with
  | [] => s
  | n :: rest => fill_row r (S i) rest (upd s n (nth i r f0))
  end.

(** The number of columns of the array, once [array[np.newaxis, :]] has
    made two dimensions of one. *)
Definition columns (a : plain_array) : nat :=
  match a with
  | Array1 l => length l
  | Array2 m => ncols m
  end.

(** [numpy_array_to_live_points(array, names)] *)
Definition numpy_array_to_live_points (array : plain_array) (names : list string)
  : result struct_array :=
  dtype <- np_dtype (get_dtype names true) ;;
  if size array =? 0 then Ok {| fields := dtype; records := [] |}
  else
    let m := match array with
             | Array1 l => {| ncols := length l; mrows := [l] |}
             | Array2 m => m
             end in
    rows <- fill_columns dtype m 0 names
              (repeat (fun _ => f0) (length (mrows m))) ;;
    Ok {| fields := dtype; records := rows |}.

(** [live_points_to_array(live_points, names=None)]: the fields [names] of
    every record, as a two-dimensional array.  Indexing with a list of
    names raises [KeyError] at the first name that is no field and refuses a
    name given twice; an empty list is not a list of names but an empty
    integer index, which selects no record and keeps every field; and
    [structured_to_unstructured] refuses an array without fields. *)
Definition live_points_to_array (live_points : struct_array)
  (names : option (list string)) : result (matrix F) :=
  let names := match names with
               | Some l => l
               | None => fields live_points
               end in
  if negb (forallb (has_field (fields live_points)) names) then Raise KeyError
  else if negb (nodupb names)
  then Raise (ValueError "name already used as a name or title")
  else match names with
       | [] =>
           match fields live_points with
           | [] => Raise (ValueError "arr has no fields. Unable to guess dtype")
           | all => Ok {| ncols := length all; mrows := [] |}
           end
       | _ => Ok {| ncols := length names;
                    mrows := map (fun s => map s names) (records live_points) |}
       end.

End Arrays.

Arguments struct_array F : clear implicits.
Arguments plain_array F : clear implicits.

End LivePointArrays.

(** ** NumPy's order on an array of doubles *)

Module NumPyOrder.

Section Order.
Context {F : Type} {num : Number F}.

(** [a] comes no later than [b] in NumPy's order, where NaN is last. *)
Definition np_le (a b : F) : Prop := np_less b a = false.

(** The array is in the order that [np.sort] gives. *)
Definition np_sorted (a : list F) : Prop := Sorted np_le a.

End Order.

End NumPyOrder.

(** ** What is stated of the importance sampler's arrays and errors *)

Module ImportanceNotions.

(** The values that [np.insert] is given for the indices satisfying [P],
    in their order. *)
Fixpoint values_where {A : Type} (P : nat -> bool) (idx : list nat)
  (values : list A) : list A :=
  match idx, values with
  | j :: idx', v :: values' =>
      if P j then v :: values_where P idx' values'
      else values_where P idx' values'
  | _, _ => []
  end.

(** The call raises no [RuntimeError]. *)
Definition no_runtime_error {A : Type} (r : result A) : Prop :=
  forall msg, r <> Raise (RuntimeError msg).

End ImportanceNotions.

(** ** The categorical distribution: [nessai/distributions.py] *)

(** [CategoricalDistribution] for classes that are integers, with arrays
    of samples of one dimension. *)
Module Categorical.

(** [np.unique] of an array of integers: its values in ascending order,
    each once. *)
Fixpoint insert_unique (v : Z) (l : list Z) : list Z :=
  match l with
  | [] => [v]
  | u :: rest =>
      if (v <? u)%Z then v :: l
      else if (v =? u)%Z then l
      else u :: insert_unique v rest
  end.

Definition np_unique (l : list Z) : list Z := fold_right insert_unique [] l.

(** The count that [np.unique(..., return_counts=True)] gives for [u]. *)
Definition np_count (u : Z) (l : list Z) : Z :=
  Z.of_nat (length (filter (Z.eqb u) l)).

(** [sorted(l)] *)
Fixpoint insert_sorted (v : Z) (l : list Z) : list Z :=
  match l with
  | [] => [v]
  | u :: rest => if (v <? u)%Z then v :: l else u :: insert_sorted v rest
  end.

Definition py_sorted (l : list Z) : list Z := fold_right insert_sorted [] l.

(** [l.index(v)] *)
Fixpoint py_index (l : list Z) (v : Z) : result nat :=
  match l with
  | [] => Raise (ValueError "value is not in list")
  | u :: rest => if (u =? v)%Z then Ok 0 else i <- py_index rest v ;; Ok (S i)
  end.

(** [l[i] = v] on a list, for an index that is not negative. *)
Fixpoint list_setitem {A : Type} (l : list A) (i : nat) (v : A) : result (list A) :=
  match l, i with
  | [], _ => Raise IndexError
  | _ :: rest, 0 => Ok (v :: rest)
  | u :: rest, S i' => r <- list_setitem rest i' v ;; Ok (u :: r)
  end.

(** The array that [np.squeeze(np.array(samples))] gives for samples of one
    dimension: a single sample becomes an array of no dimension. *)
Inductive samples_array : Type :=
| Scalar (v : Z)
| Vector (l : list Z).

Definition np_squeeze (l : list Z) : samples_array :=
  match l with
  | [v] => Scalar v
  | _ => Vector l
  end.

Definition to_list (a : samples_array) : list Z :=
  match a with
  | Scalar v => [v]
  | Vector l => l
  end.

(** [np.concatenate([a, b], axis=-1)] *)
Definition np_concatenate (a b : samples_array) : result samples_array :=
  match a, b with
  | Vector x, Vector y => Ok (Vector (x ++ y))
  | _, _ => Raise (ValueError "zero-dimensional arrays cannot be concatenated")
  end.

Section Distribution.
Context {F : Type} {num : Number F}.
Variable np : NumPy F.

Record CategoricalDistribution : Type := {
  n : option Z;
  classes : option (list Z);
  p : option (list F);
  samples : option samples_array
}.

(** [c / size] for a count of NumPy's and an integer. *)
Definition np_true_divide (c size : Z) : result F :=
  match of_int c, of_int size with
  | Some x, Some y => Ok (fdiv x y)
  | _, _ => Raise OverflowError
  end.

(** The loop [for u, c in zip(unique, counts)] of [update_samples]. *)
Fixpoint assign_probabilities (known stored : list Z) (unique : list Z)
  (probs : list F) : result (list F) :=
  match unique with
  | [] => Ok probs
  | u :: rest =>
      v <- np_true_divide (np_count u stored) (Z.of_nat (length stored)) ;;
      i <- py_index known u ;;
      probs <- list_setitem probs i v ;;
      assign_probabilities known stored rest probs
  end.

(** [update_samples(samples, reset=False)] *)
Definition update_samples (d : CategoricalDistribution) (new : list Z)
  (reset : bool) : result CategoricalDistribution :=
  let arr := np_squeeze new in
  let found := np_unique new in
  known <- match classes d with
           | None => Ok found
           | Some known =>
               if forallb (fun c => existsb (Z.eqb c) known) found
               then Ok known
               else Raise (RuntimeError "New samples contain different classes")
           end ;;
  count <- match n d with
           | None => Ok (Z.of_nat (length found))
           | Some k =>
               if (k <? Z.of_nat (length found))%Z
               then Raise (RuntimeError "Categorical distribution has fewer classes")
               else Ok k
           end ;;
  stored <- (if reset then Ok arr
             else match samples d with
                  | None => Ok arr
                  | Some old => np_concatenate old arr
                  end) ;;
  probs <- assign_probabilities known (to_list stored)
             (np_unique (to_list stored)) (repeat f0 (Z.to_nat count)) ;;
  Ok {| n := Some count;
        classes := Some known;
        p := Some probs;
        samples := Some stored |}.

(** [__init__(n=None, classes=None, p=None, samples=None)] *)
Definition new_distribution (n0 : option Z) (classes0 : option (list Z))
  (p0 : option (list F)) (samples0 : option (list Z))
  : result CategoricalDistribution :=
  let given := match classes0 with
               | Some (_ :: _) => true
               | _ => false
               end in
  let len := match classes0 with
             | Some l => Z.of_nat (length l)
             | None => 0%Z
             end in
  n1 <- (if given then
           match n0 with
           | None => Ok (Some len)
           | Some k =>
               if (k =? len)%Z then Ok (Some k)
               else Raise (ValueError "Number of classes does not match `n`")
           end
         else Ok n0) ;;
  p1 <- (if given then
           match p0, n1 with
           | None, Some k =>
               q <- float_div_int f1 k ;; Ok (Some (repeat q (Z.to_nat k)))
           | _, _ => Ok p0
           end
         else Ok p0) ;;
  let d := {| n := n1;
              classes := option_map py_sorted classes0;
              p := p1;
              samples := None |} in
  match samples0 with
  | Some l => update_samples d l false
  | None => Ok d
  end.

(** [log_prob(samples)] *)
Definition log_prob (d : CategoricalDistribution) (xs : list Z)
  : result (list F) :=
  match classes d, p d with
  | Some cs, Some ps =>
      Ok (fold_left
            (fun acc '(c, q) =>
               map (fun '(x, lp) => if (x =? c)%Z then np_log np q else lp)
                 (combine xs acc))
            (combine cs ps) (repeat f0 (length xs)))
  | _, _ => Raise (TypeError "'NoneType' object is not iterable")
  end.

(** The log-probability that [log_prob] is to give for one sample: that of
    the last class equal to it, 0 when there is none. *)
Fixpoint class_log_prob (cs : list Z) (ps : list F) (x : Z) (dflt : F) : F :=
  match cs, ps with
  | c :: cs', q :: ps' =>
      class_log_prob cs' ps' x (if (x =? c)%Z then np_log np q else dflt)
  | _, _ => dflt
  end.

(** The frequency of a class among the samples, as [update_samples]
    computes it. *)
Definition frequency_of (stored : list Z) (c : Z) (q : F) : Prop :=
  exists x y,
    of_int (np_count c stored) = Some x /\
    of_int (Z.of_nat (length stored)) = Some y /\
    q = fdiv x y.

(** Python's [sum(p)]: the entries are added from the left, starting
    from [0]. *)
Definition py_sum (l : list F) : F := fold_left fadd l f0.

End Distribution.

Arguments CategoricalDistribution F : clear implicits.

(** A distribution as [CategoricalDistribution()] builds it. *)
Definition unset {F : Type} : CategoricalDistribution F :=
  {| n := None; classes := None; p := None; samples := None |}.

End Categorical.

(** ** The importance sampler: a level added after sampling *)

Module PostSampling.
Import Importance.

Section Sampler.
Context {F : Type} {num : Number F}.
Context {Fl : Type} {fapi : FlowAPI F Fl}.
Variable np : NumPy F.
Variable md : ImportanceModel F.

(** [self.state.update_evidence_from_nested_samples], a method of the
    integral state of [nessai.evidence]: an external collaborator, which may
    raise. *)
Variable update_evidence_from_nested_samples : list (Sample F) -> result unit.

(** [add_level_post_sampling(samples, n)].  [update_live_points] is given
    the new samples, which [update_samples] updates in place;
    [update_nested_samples], a method without parameters, is called with
    [n]. *)
Definition add_level_post_sampling (fuel : nat)
  (s : ImportanceNestedSampler F Fl) (samples : list (Sample F)) (n : Z)
  : result (ImportanceNestedSampler F Fl) :=
  p <- train np md (proposal s) samples ;;
  let s := s <| proposal := p |> in
  '(s, new_samples) <- draw_n_samples np md fuel s n ;;
  new_samples <- update_samples np md (proposal s) new_samples ;;
  _ <- (if _update_nested_samples s
        then Raise (TypeError "update_nested_samples() takes 1 positional argument but 2 were given")
        else Ok tt) ;;
  let s := add_to_nested_samples s new_samples in
  _ <- update_evidence_from_nested_samples (nested_samples s) ;;
  Ok s.

End Sampler.

End PostSampling.

(** * Properties *)

Unset Implicit Arguments.

(** ** Results and Python sequences *)

Lemma bind_ok {A B : Type} (r : result A) (k : A -> result B) (b : B) :
  bind r k = Ok b -> exists a, r = Ok a /\ k a = Ok b.
Proof. destruct r as [a| |]; simpl; intros H; try discriminate; eauto. Qed.

Lemma py_getitem_last {A : Type} (l : list A) (x : A) :
  py_getitem (l ++ [x]) (-1) = Ok x.
Proof.
  unfold py_getitem. rewrite length_app. simpl length.
  replace (-1 <? 0)%Z with true by reflexivity.
  assert (E : (-1 + Z.of_nat (length l + 1))%Z = Z.of_nat (length l)) by lia.
  rewrite E.
  replace ((0 <=? Z.of_nat (length l)) && (Z.of_nat (length l) <? Z.of_nat (length l + 1)))%Z
    with true by (symmetry; apply andb_true_intro; split; [apply Z.leb_le|apply Z.ltb_lt]; lia).
  rewrite Nat2Z.id, nth_error_app2 by lia.
  rewrite Nat.sub_diag. reflexivity.
Qed.

Lemma py_getitem_in_range {A : Type} (l : list A) (i : Z) :
  (- Z.of_nat (length l) <= i < Z.of_nat (length l))%Z ->
  exists a, py_getitem l i = Ok a.
Proof.
  intros Hi. unfold py_getitem.
  set (n := Z.of_nat (length l)) in *.
  set (j := if (i <? 0)%Z then (i + n)%Z else i).
  assert (Hj : (0 <= j < n)%Z).
  { subst j. destruct (i <? 0)%Z eqn:E.
    - apply Z.ltb_lt in E. lia.
    - apply Z.ltb_ge in E. lia. }
  replace ((0 <=? j) && (j <? n))%Z with true
    by (symmetry; apply andb_true_intro; split; [apply Z.leb_le|apply Z.ltb_lt]; lia).
  destruct (nth_error l (Z.to_nat j)) eqn:E; eauto.
  apply nth_error_None in E. lia.
Qed.

(** ** The two number systems satisfy the laws *)

Module NumberFacts.

(** *** Comparison of specification floats *)

Ltac sf_compare_cases :=
  repeat match goal with
  | H : context [Pos.compare_cont Eq ?a ?b] |- _ =>
      change (Pos.compare_cont Eq a b) with (Pos.compare a b) in H
  | |- context [Pos.compare_cont Eq ?a ?b] =>
      change (Pos.compare_cont Eq a b) with (Pos.compare a b)
  end;
  repeat match goal with
  | H : context [Z.compare ?a ?b] |- _ => destruct (Z.compare_spec a b)
  | |- context [Z.compare ?a ?b] => destruct (Z.compare_spec a b)
  | H : context [Pos.compare ?a ?b] |- _ => destruct (Pos.compare_spec a b)
  | |- context [Pos.compare ?a ?b] => destruct (Pos.compare_spec a b)
  end;
  simpl in *; subst; try discriminate; try reflexivity; try lia.

Ltac sf_destruct x :=
  destruct x as [[|]|[|]| |[|] ? ?].

Lemma SFcompare_refl (a : spec_float) :
  a <> S754_nan -> SFcompare a a = Some Eq.
Proof.
  destruct a as [[|]|[|]| |[|] m e]; intros H; try reflexivity; try congruence;
    unfold SFcompare; rewrite Z.compare_refl;
    change (Pos.compare_cont Eq m m) with (Pos.compare m m);
    rewrite Pos.compare_refl; reflexivity.
Qed.

Lemma SFltb_trans (a b c : spec_float) :
  SFltb a b = true -> SFltb b c = true -> SFltb a c = true.
Proof.
  unfold SFltb, SFcompare.
  sf_destruct a; sf_destruct b; try discriminate;
    sf_destruct c; try discriminate; try reflexivity;
    intros H1 H2; sf_compare_cases.
Qed.

Lemma SFleb_trans (a b c : spec_float) :
  SFleb a b = true -> SFleb b c = true -> SFleb a c = true.
Proof.
  unfold SFleb, SFcompare.
  sf_destruct a; sf_destruct b; try discriminate;
    sf_destruct c; try discriminate; try reflexivity;
    intros H1 H2; sf_compare_cases.
Qed.

Lemma SFleb_SFltb_trans (a b c : spec_float) :
  SFleb a b = true -> SFltb b c = true -> SFltb a c = true.
Proof.
  unfold SFleb, SFltb, SFcompare.
  sf_destruct a; sf_destruct b; try discriminate;
    sf_destruct c; try discriminate; try reflexivity;
    intros H1 H2; sf_compare_cases.
Qed.

Lemma SFltb_SFleb (a b : spec_float) :
  SFltb a b = true -> SFleb a b = true.
Proof.
  unfold SFleb, SFltb. destruct (SFcompare a b) as [[| |]|]; congruence.
Qed.

Lemma SFltb_not_SFleb (a b : spec_float) :
  SFltb a b = true -> SFleb b a = false.
Proof.
  unfold SFleb, SFltb, SFcompare.
  sf_destruct a; sf_destruct b; try discriminate; try reflexivity;
    intros H1; sf_compare_cases.
Qed.

Lemma SFleb_total (a b : spec_float) :
  a <> S754_nan -> b <> S754_nan -> SFltb a b = false -> SFleb b a = true.
Proof.
  unfold SFleb, SFltb, SFcompare.
  sf_destruct a; sf_destruct b; try discriminate; try reflexivity;
    try congruence; intros _ _ H1; sf_compare_cases.
Qed.

Lemma SFcompare_some_not_nan (a b : spec_float) (c : comparison) :
  SFcompare a b = Some c -> a <> S754_nan /\ b <> S754_nan.
Proof.
  sf_destruct a; sf_destruct b; simpl; intros H; try discriminate;
    split; discriminate.
Qed.

Lemma is_nan_false_iff (x : float) :
  PrimFloat.is_nan x = false <-> Prim2SF x <> S754_nan.
Proof.
  unfold PrimFloat.is_nan. rewrite FloatAxioms.eqb_spec. unfold SFeqb. split.
  - intros H E. rewrite E in H. discriminate.
  - intros H. rewrite SFcompare_refl by assumption. reflexivity.
Qed.

Lemma SFleb_not_nan (a b : spec_float) :
  SFleb a b = true -> a <> S754_nan /\ b <> S754_nan.
Proof.
  unfold SFleb. destruct (SFcompare a b) as [c|] eqn:E; try discriminate.
  intros _. exact (SFcompare_some_not_nan _ _ _ E).
Qed.

Lemma SFltb_not_nan (a b : spec_float) :
  SFltb a b = true -> a <> S754_nan /\ b <> S754_nan.
Proof.
  intros H. apply SFleb_not_nan, SFltb_SFleb, H.
Qed.

#[export] Instance binary64_laws : NumberLaws float.
Proof.
  constructor; simpl.
  - reflexivity.
  - reflexivity.
  - reflexivity.
  - intros a b c. rewrite !ltb_spec. apply SFltb_trans.
  - intros a b c. rewrite !leb_spec. apply SFleb_trans.
  - intros a b c. rewrite leb_spec, !ltb_spec. apply SFleb_SFltb_trans.
  - intros a b. rewrite leb_spec, ltb_spec. apply SFltb_SFleb.
  - intros a b. rewrite leb_spec, ltb_spec. apply SFltb_not_SFleb.
  - intros a b Ha Hb. rewrite leb_spec, ltb_spec.
    apply SFleb_total; apply is_nan_false_iff; assumption.
  - intros a b. rewrite leb_spec, !is_nan_false_iff. apply SFleb_not_nan.
  - intros a b. rewrite ltb_spec, !is_nan_false_iff. apply SFltb_not_nan.
Qed.

(** *** Signs through rounding *)

(** The sign that a specification float carries, NaN carrying any. *)
Definition signed (s : bool) (a : spec_float) : Prop :=
  match a with
  | S754_nan => True
  | S754_zero t | S754_infinity t | S754_finite t _ _ => t = s
  end.

Lemma binary_round_aux_signed (s : bool) (m e : Z) (l : location) :
  signed s (binary_round_aux prec emax s m e l).
Proof.
  unfold binary_round_aux.
  destruct (shr_fexp prec emax m e l) as [mrs e'].
  destruct (shr_fexp prec emax _ e' loc_Exact) as [mrs2 e2].
  destruct (shr_m mrs2); [reflexivity| |exact I].
  destruct (e2 <=? emax - prec)%Z; reflexivity.
Qed.

Lemma binary_round_signed (s : bool) (m : positive) (e : Z) :
  signed s (binary_round prec emax s m e).
Proof.
  unfold binary_round. destruct (shl_align _ _ _) as [mz ez].
  apply binary_round_aux_signed.
Qed.

Lemma binary_normalize_signed (m e : Z) :
  (0 <= m)%Z -> signed false (binary_normalize prec emax m e false).
Proof.
  intros H. destruct m as [|p|p]; [reflexivity| |lia].
  apply binary_round_signed.
Qed.

Lemma SFldexp_signed (s : bool) (a : spec_float) (e : Z) :
  signed s a -> signed s (SFldexp prec emax a e).
Proof.
  destruct a as [t|t| |t m x]; simpl; intros H; try exact H.
  subst t. apply binary_round_signed.
Qed.

Lemma SF2Prim_signed (a : spec_float) :
  signed false a -> signed false (Prim2SF (SF2Prim a)).
Proof.
  destruct a as [t|t| |t m x]; simpl; intros H; try subst t;
    try (vm_compute; reflexivity).
  unfold Z.ldexp. rewrite ldshiftexp_spec.
  apply SFldexp_signed. rewrite of_uint63_spec.
  apply binary_normalize_signed. apply Uint63.to_Z_bounded.
Qed.

(** [-1/x] is not above zero when [x] is not negative. *)
Lemma neg_quotient_not_above_zero (x : float) :
  signed false (Prim2SF x) -> PrimFloat.ltb 0 (PrimFloat.div (- 1) x) = false.
Proof.
  intros H. rewrite ltb_spec, div_spec.
  change (Prim2SF (-1)%float) with (S754_finite true 4503599627370496 (-52)).
  change (Prim2SF 0%float) with (S754_zero false).
  unfold SF64div, SFdiv.
  destruct (Prim2SF x) as [t|t| |t m e]; simpl in H; try subst t;
    try reflexivity.
  destruct (SFdiv_core_binary _ _ _ _ _ _) as [[mz ez] lz].
  pose proof (binary_round_aux_signed (xorb true false) mz ez lz) as Hs.
  destruct (binary_round_aux _ _ _ _ _ _) as [t|t| |t m' e']; simpl in Hs;
    try subst t; reflexivity.
Qed.

(** The conversion of a positive integer is not negative. *)
Lemma float_of_int_signed (n : Z) (x : float) :
  (0 <= n)%Z -> float_of_int n = Some x -> signed false (Prim2SF x).
Proof.
  unfold float_of_int. intros Hn H.
  destruct (PrimFloat.is_infinity _); [discriminate|]. injection H as <-.
  apply SF2Prim_signed, binary_normalize_signed. exact Hn.
Qed.

(** *** The extended rationals *)







End NumberFacts.

(** ** The integral state *)

Lemma py_getitem_snoc_m2 {A : Type} (l : list A) (x : A) :
  1 <= length l -> exists b, py_getitem (l ++ [x]) (-2) = Ok b.
Proof.
  intros H. apply py_getitem_in_range. rewrite length_app. simpl. lia.
Qed.

Module IntegralFacts.
Import Integral.

Section Generic.
Context {F : Type} {num : Number F}.
Variable np : NumPy F.

Lemma neg_one_over_usable (n : Z) :
  usable_nlive n = true ->
  exists x, of_int n = Some x /\
            neg_one_over n = Ok (fdiv (fopp f1) x) /\
            fltb f0 (fdiv (fopp f1) x) = false.
Proof.
  unfold usable_nlive, neg_one_over. intros H.
  apply andb_prop in H. destruct H as [Hz Hc].
  destruct (of_int n) as [x|]; [|discriminate].
  exists x. split; [reflexivity|].
  apply negb_true_iff in Hz. rewrite Hz.
  apply negb_true_iff in Hc. split; [reflexivity|exact Hc].
Qed.

Lemma neg_one_over_ok_usable (n : Z) (t : F) :
  neg_one_over n = Ok t -> fltb f0 t = false -> usable_nlive n = true.
Proof.
  unfold usable_nlive, neg_one_over.
  destruct (of_int n); [|discriminate].
  destruct (n =? 0)%Z; [discriminate|].
  intros E Ht. injection E as <-. rewrite Ht. reflexivity.
Qed.

Lemma py_getitem_m1 {A : Type} (l : list A) (d : A) :
  1 <= length l -> py_getitem l (-1) = Ok (last l d).
Proof.
  intros H. assert (Hl : l <> []) by (destruct l; [simpl in H; lia|discriminate]).
  rewrite (app_removelast_last d Hl) at 1. apply py_getitem_last.
Qed.

(** One call of [increment] on a well-shaped state. *)
Lemma increment_shape (s : NSintegralState F) (logL : F) (narg : option Z) :
  history_shape s ->
  call_usable s (logL, narg) = true ->
  exists s' logt,
    increment np s logL narg = Ok s' /\
    neg_one_over (match narg with None => nlive s | Some n => n end) = Ok logt /\
    history_shape s' /\
    nlive s' = nlive s /\
    logw s' = fadd (logw s) logt /\
    logLs s' = logLs s ++ [logL] /\
    log_vols s' = log_vols s ++ [fadd (logw s) logt] /\
    fltb f0 logt = false /\
    logZ s' = np_logaddexp np (logZ s)
                (fadd (fadd (logw s) logL) (logsubexp np f0 logt)) /\
    info s' =
      if isfinite (logZ s) && isfinite (logZ s') && isfinite logL
      then info s ++
           [let i := information np (logZ s) (logZ s')
                       (fadd (fadd (logw s) logL) (logsubexp np f0 logt))
                       logL (last (info s) f0) in
            if isnan i then f0 else i]
      else info s.
Proof.
  intros [Hv Hg Hi Hp Hl] Hu.
  destruct (neg_one_over_usable _ Hu) as (x & Hx & Hn & Hgd). simpl in Hn.
  destruct (py_getitem_in_range (logLs s) (-1)%Z) as [a0 Ha0]; [lia|].
  pose proof (py_getitem_m1 (info s) f0 Hp) as Hi0.
  destruct (py_getitem_snoc_m2 (logLs s) logL) as [b Hb]; [lia|].
  destruct (py_getitem_snoc_m2 (log_vols s)
              (fadd (logw s) (fdiv (fopp f1) x))) as [d Hd]; [lia|].
  unfold increment. rewrite Ha0. simpl bind. rewrite Hn. simpl bind.
  unfold py_logsubexp. rewrite Hgd. simpl bind.
  destruct (isfinite (logZ s) &&
            isfinite (np_logaddexp np (logZ s)
               (fadd (fadd (logw s) logL)
                     (logsubexp np f0 (fdiv (fopp f1) x)))) &&
            isfinite logL) eqn:Efin;
    [rewrite Hi0|]; simpl bind;
    rewrite !py_getitem_last, Hb, Hd; simpl bind;
    eexists; eexists; (split; [reflexivity|]);
    (split; [reflexivity|]); simpl;
    (split; [constructor; simpl; rewrite ?length_app; simpl; lia|]);
    repeat (split; [reflexivity|]);
    (split; [exact Hgd|]); (split; [reflexivity|]);
    rewrite Efin; reflexivity.
Qed.

(** A call that returns has divided by a usable count. *)
Lemma increment_ok_usable (s s' : NSintegralState F) (logL : F)
  (narg : option Z) :
  increment np s logL narg = Ok s' -> call_usable s (logL, narg) = true.
Proof.
  unfold increment, call_usable. cbn [snd]. intros H.
  destruct (py_getitem (logLs s) (-1)) as [a0| |]; try discriminate.
  cbn [bind] in H.
  destruct (neg_one_over _) as [logt| |] eqn:En; try discriminate.
  cbn [bind] in H. unfold py_logsubexp in H.
  destruct (fltb f0 logt) eqn:Eg; [discriminate|].
  exact (neg_one_over_ok_usable _ _ En Eg).
Qed.

(** What a returning call has done, on a well-shaped state. *)
Lemma increment_ok_spec (s s' : NSintegralState F) (logL : F)
  (narg : option Z) :
  history_shape s ->
  increment np s logL narg = Ok s' ->
  exists logt,
    neg_one_over (match narg with None => nlive s | Some n => n end) = Ok logt /\
    fltb f0 logt = false /\
    history_shape s' /\
    logZ s' = np_logaddexp np (logZ s)
                (fadd (fadd (logw s) logL) (logsubexp np f0 logt)) /\
    info s' =
      if isfinite (logZ s) && isfinite (logZ s') && isfinite logL
      then info s ++
           [let i := information np (logZ s) (logZ s')
                       (fadd (fadd (logw s) logL) (logsubexp np f0 logt))
                       logL (last (info s) f0) in
            if isnan i then f0 else i]
      else info s.
Proof.
  intros Hs E.
  destruct (increment_shape s logL narg Hs (increment_ok_usable _ _ _ _ E))
    as (s1 & logt & E1 & Ht & Hs1 & _ & _ & _ & _ & Hg & Hz & Hi).
  rewrite E in E1. injection E1 as <-.
  exists logt. split; [exact Ht|]. split; [exact Hg|]. split; [exact Hs1|].
  split; [exact Hz|exact Hi].
Qed.

(** On a well-shaped state a call returns exactly when its count is
    usable. *)
Lemma increment_returns_iff (s : NSintegralState F) (logL : F)
  (narg : option Z) :
  history_shape s ->
  (exists s', increment np s logL narg = Ok s') <->
  call_usable s (logL, narg) = true.
Proof.
  intros Hs. split.
  - intros [s' E]. exact (increment_ok_usable _ _ _ _ E).
  - intros Hu. destruct (increment_shape s logL narg Hs Hu) as (s' & _ & E & _).
    exists s'. exact E.
Qed.

(** A call with an unusable count does not return. *)
Lemma increment_unusable (s : NSintegralState F) (logL : F) (narg : option Z) :
  call_usable s (logL, narg) = false ->
  forall s', increment np s logL narg <> Ok s'.
Proof.
  intros Hu s' E. rewrite (increment_ok_usable _ _ _ _ E) in Hu. discriminate.
Qed.

Lemma calls_usable_nlive (calls : list (F * option Z)) (s s' : NSintegralState F) :
  nlive s' = nlive s ->
  forallb (call_usable s') calls = forallb (call_usable s) calls.
Proof.
  intros E. induction calls as [|c rest IH]; [reflexivity|].
  simpl. rewrite IH. unfold call_usable. rewrite E. reflexivity.
Qed.

(** A run of calls, all of them usable, from a well-shaped state. *)
Lemma increments_shape (calls : list (F * option Z)) :
  forall s : NSintegralState F,
    history_shape s ->
    forallb (call_usable s) calls = true ->
    exists s', increments np s calls = Ok s' /\
               history_shape s' /\
               nlive s' = nlive s /\
               logLs s' = logLs s ++ map fst calls.
Proof.
  induction calls as [|[logL narg] rest IH]; intros s Hs Hu.
  - exists s. simpl. rewrite app_nil_r. auto.
  - simpl in Hu. apply andb_prop in Hu. destruct Hu as [Hc Hr].
    destruct (increment_shape s logL narg Hs Hc)
      as (s1 & logt & E & _ & Hs1 & Hn1 & _ & HL & _).
    assert (Hr' : forallb (call_usable s1) rest = true).
    { rewrite (calls_usable_nlive rest s s1 Hn1). exact Hr. }
    destruct (IH s1 Hs1 Hr') as (s2 & E2 & Hs2 & Hn2 & HL2).
    exists s2. simpl. rewrite E. simpl. split; [exact E2|].
    split; [exact Hs2|]. split; [congruence|].
    rewrite HL2, HL, <- app_assoc. reflexivity.
Qed.

Lemma initial_shape (n : Z) : history_shape (initial (F:=F) n).
Proof. constructor; simpl; lia. Qed.

(** A run that returns was made of usable calls, and keeps the shape. *)
Lemma increments_ok_shape (calls : list (F * option Z)) :
  forall s s' : NSintegralState F,
    history_shape s ->
    increments np s calls = Ok s' ->
    forallb (call_usable s) calls = true /\ history_shape s'.
Proof.
  induction calls as [|[logL narg] rest IH]; intros s s' Hs H.
  - injection H as <-. split; [reflexivity|exact Hs].
  - cbn [increments] in H.
    destruct (increment np s logL narg) as [s1| |] eqn:E1; try discriminate.
    cbn [bind] in H.
    pose proof (increment_ok_usable _ _ _ _ E1) as Hc.
    destruct (increment_shape s logL narg Hs Hc)
      as (s1' & logt & E & _ & Hs1 & Hn1 & _).
    rewrite E1 in E. injection E as <-.
    destruct (IH s1 s' Hs1 H) as [Hr Hs'].
    split; [|exact Hs']. cbn [forallb]. rewrite Hc.
    rewrite <- (calls_usable_nlive rest s s1 Hn1). exact Hr.
Qed.


End Generic.

(** In double precision the positive counts that convert are usable. *)
Lemma usable_nlive_double (n : Z) :
  (0 < n)%Z -> of_int (F:=float) n <> None ->
  usable_nlive (F:=float) n = true.
Proof.
  intros Hp Hc. unfold usable_nlive.
  destruct (Z.eqb_spec n 0) as [->|_]; [lia|]. cbn [negb andb].
  destruct (of_int (F:=float) n) as [x|] eqn:Ex; [|contradiction].
  apply negb_true_iff.
  apply NumberFacts.neg_quotient_not_above_zero.
  apply (NumberFacts.float_of_int_signed n); [lia|exact Ex].
Qed.

(** C1 (amended): a sequence of [increment] calls after [reset] returns
    exactly when every call divides by a usable live-point count (non-zero,
    convertible to a float, with [-1/nlive] not above zero; any other count
    makes its call raise), and every run that returns leaves [log_vols],
    [logLs] and [gradients] with one common length,
    [iteration = len(logLs) - 1], and [info] non-empty and no longer than
    [logLs] (an entry is pushed to [info] only when the old [logZ], the new
    [logZ] and [logL] are finite).  In double precision every positive count
    that converts to a float is usable. *)
Theorem history_lengths :
  (forall (F : Type) (num : Number F) (np : NumPy F) (n : Z)
          (calls : list (F * option Z)),
      (forallb (call_usable (initial n)) calls = true <->
       exists s, increments np (initial n) calls = Ok s) /\
      (forall s, increments np (initial n) calls = Ok s -> history_shape s)) /\
  (forall n : Z,
      (0 < n)%Z -> of_int (F:=float) n <> None ->
      usable_nlive (F:=float) n = true).
Proof.
  split.
  - intros F num np n calls. split; [split|].
    + intros Hu.
      destruct (increments_shape np calls _ (initial_shape n) Hu)
        as (s & E & _).
      exists s. exact E.
    + intros [s E].
      exact (proj1 (increments_ok_shape np calls _ s (initial_shape n) E)).
    + intros s E.
      exact (proj2 (increments_ok_shape np calls _ s (initial_shape n) E)).
  - exact usable_nlive_double.
Qed.

End IntegralFacts.

Module IntegralCases.
Import Integral IntegralFacts.

(** C1, witness: three calls on a state of a thousand live points, the last
    with an override, return and keep the shape; with the count [-2] the
    call raises [RuntimeError] in [logsubexp], and the run does not
    return. *)
Lemma history_lengths_witness :
  (exists s, increments (np_tropical (F:=float)) (initial 1000)
               [((-3)%float, None); ((-2)%float, None); ((-1)%float, Some 7%Z)]
             = Ok s /\ history_shape s) /\
  increment (np_tropical (F:=float)) (initial 1000) 1%float (Some (-2)%Z)
    = Raise (RuntimeError "cannot take log of negative number") /\
  ~ (exists s, increments (np_tropical (F:=float)) (initial 1000)
                 [(1%float, Some (-2)%Z)] = Ok s) /\
  usable_nlive (F:=float) 1000 = true.
Proof.
  destruct history_lengths as [Hg Hd].
  pose proof (Hg float _ np_tropical 1000%Z
                [((-3)%float, None); ((-2)%float, None); ((-1)%float, Some 7%Z)])
    as [[H1 _] H2].
  pose proof (Hg float _ np_tropical 1000%Z [(1%float, Some (-2)%Z)])
    as [[_ H3] _].
  split; [|split; [|split]].
  - destruct (H1 eq_refl) as [s E]. exists s. split; [exact E|exact (H2 s E)].
  - reflexivity.
  - intros H. specialize (H3 H). vm_compute in H3. discriminate.
  - apply (Hd 1000%Z); [reflexivity|discriminate].
Defined.

(** C1, counterexample: the first call after [reset] finds [logZ = -inf], so
    nothing is pushed to [info]: it keeps one entry while [logLs] has two,
    whatever the numerical environment. *)
Lemma info_shorter_than_logLs :
  exists (n : Z) (logL : float), forall np : NumPy float,
  exists s, increment np (initial n) logL None = Ok s /\
            length (info s) <> length (logLs s) /\
            length (info s) = 1 /\ length (logLs s) = 2.
Proof.
  exists 1000%Z, (-5)%float. intros np.
  eexists. split; [vm_compute; reflexivity|].
  simpl. repeat split. discriminate.
Qed.

End IntegralCases.

(** ** The volume history in exact arithmetic and in doubles *)

Module VolumeFacts.
Import Integral IntegralFacts.

Lemma Qc_of_Z_add (a b : Z) : Qc_of_Z (a + b) = (Qc_of_Z a + Qc_of_Z b)%Qc.
Proof.
  unfold Qc_of_Z, Qcplus. apply Q2Qc_eq_iff. cbn [this Q2Qc].
  rewrite !Qred_correct, inject_Z_plus. reflexivity.
Qed.

Lemma Qc_of_Z_opp (a : Z) : Qc_of_Z (- a) = (- Qc_of_Z a)%Qc.
Proof.
  unfold Qc_of_Z, Qcopp. apply Q2Qc_eq_iff. cbn [this Q2Qc].
  rewrite !Qred_correct, inject_Z_opp. reflexivity.
Qed.


Lemma Qc_of_Z_nonzero (n : Z) : n <> 0%Z -> Qc_of_Z n <> 0%Qc.
Proof.
  intros Hn E. apply Q2Qc_eq_iff in E.
  apply Hn. apply (inject_Z_injective n 0). exact E.
Qed.









Section Accumulation.
Context {F : Type} {num : Number F} {laws : NumberLaws F}.
Variable np : NumPy F.



End Accumulation.




(** Why strict decrease needs its condition in double precision: at
    [-2^53] the step [-1/1] is absorbed, the sum being rounded back to
    [-2^53]. *)
Lemma step_absorbed :
  let logt := fdiv (fopp f1) 1%float in
  let x := (-9007199254740992)%float in
  fadd x logt = x /\ fltb (fadd x logt) x = false.
Proof. split; vm_compute; reflexivity. Qed.

End VolumeFacts.

(** ** NumPy arrays *)

Module ArrayFacts.

Lemma py_clip_in_range (n i : Z) : (0 <= i <= n)%Z -> py_clip n i = i.
Proof.
  intros H. unfold py_clip. destruct (Z.ltb_spec i 0); lia.
Qed.

Lemma np_setitem_in_range {A : Type} (l : list A) (i : nat) (v : A) :
  i < length l ->
  np_setitem l (Z.of_nat i) v = Ok (firstn i l ++ v :: skipn (S i) l).
Proof.
  intros H. unfold np_setitem.
  destruct (Z.ltb_spec (Z.of_nat i) 0); [lia|].
  replace ((0 <=? Z.of_nat i) && (Z.of_nat i <? Z.of_nat (length l)))%Z
    with true
    by (symmetry; apply andb_true_intro; split;
        [apply Z.leb_le|apply Z.ltb_lt]; lia).
  rewrite Nat2Z.id. reflexivity.
Qed.

(** [l[:i] = rhs] when [rhs] has the length of the slice. *)
Lemma np_setslice_prefix {A : Type} (l rhs : list A) (i : nat) :
  i <= length l -> length rhs = i ->
  np_setslice l None (Some (Z.of_nat i)) rhs = Ok (rhs ++ skipn i l).
Proof.
  intros Hi Hr. unfold np_setslice, py_bound.
  rewrite py_clip_in_range by lia.
  rewrite Z.sub_0_r, Nat2Z.id. simpl.
  rewrite Hr, Nat.eqb_refl. reflexivity.
Qed.

(** [l[1:r]] for [1 <= r <= len(l)]. *)
Lemma py_slice_from_one {A : Type} (l : list A) (r : nat) :
  1 <= r <= length l ->
  py_slice l (Some 1%Z) (Some (Z.of_nat r)) = firstn (r - 1) (skipn 1 l).
Proof.
  intros H. unfold py_slice, py_bound.
  rewrite !py_clip_in_range by lia.
  replace (Z.to_nat (Z.of_nat r - 1)) with (r - 1) by lia.
  reflexivity.
Qed.

Section Search.
Context {F : Type} {num : Number F}.
Variables (a : list F) (v : F).

Let below (i : nat) : bool := np_less (nth i a fnan) v.

(** The search never leaves its interval. *)
Lemma binsearch_bounds (fuel : nat) :
  forall lo hi, lo <= hi -> lo <= binsearch fuel a v lo hi <= hi.
Proof.
  induction fuel as [|fuel IH]; intros lo hi H; cbn [binsearch]; [lia|].
  destruct (Nat.ltb_spec lo hi) as [Hlt|Hge]; [|lia].
  assert (Hm : lo <= lo + (hi - lo) / 2 < hi).
  { split; [lia|]. pose proof (Nat.div_lt (hi - lo) 2). lia. }
  destruct (np_less _ v).
  - specialize (IH (S (lo + (hi - lo) / 2)) hi). lia.
  - specialize (IH lo (lo + (hi - lo) / 2)). lia.
Qed.

(** If the first element is below the key, the search answers at least 1. *)
Lemma binsearch_positive (fuel : nat) :
  below 0 = true ->
  forall lo hi, hi - lo <= fuel -> lo <= hi -> (lo = 0 -> 1 <= hi) ->
                1 <= binsearch fuel a v lo hi.
Proof.
  intros H0. induction fuel as [|fuel IH]; intros lo hi Hf H Hz; cbn [binsearch]; [lia|].
  destruct (Nat.ltb_spec lo hi) as [Hlt|Hge]; [|lia].
  assert (Hm : lo <= lo + (hi - lo) / 2 < hi).
  { split; [lia|]. pose proof (Nat.div_lt (hi - lo) 2). lia. }
  destruct (np_less (nth (lo + (hi - lo) / 2) a fnan) v) eqn:E.
  - pose proof (binsearch_bounds fuel (S (lo + (hi - lo) / 2)) hi). lia.
  - apply IH; try lia. intros ->.
    destruct (Nat.eq_dec ((hi - 0) / 2) 0) as [Ez|]; [|lia].
    rewrite Ez in E. unfold below in H0. simpl in E. congruence.
Qed.

(** On an array where [a[i] < v] is downward closed, the search returns the
    boundary between the elements below the key and the others. *)
Lemma binsearch_boundary (fuel : nat) :
  (forall i j, i <= j -> j < length a -> below j = true -> below i = true) ->
  forall lo hi,
    hi - lo <= fuel -> lo <= hi <= length a ->
    (forall i, i < lo -> below i = true) ->
    (forall i, hi <= i < length a -> below i = false) ->
    let r := binsearch fuel a v lo hi in
    (forall i, i < r -> below i = true) /\
    (forall i, r <= i < length a -> below i = false).
Proof.
  intros Hmono. induction fuel as [|fuel IH]; intros lo hi Hf H Hlo Hhi; cbn [binsearch].
  - split; [exact Hlo|]. intros i Hi. apply Hhi. lia.
  - destruct (Nat.ltb_spec lo hi) as [Hlt|Hge].
    2:{ split; [exact Hlo|]. intros i Hi. apply Hhi. lia. }
    assert (Hm : lo <= lo + (hi - lo) / 2 < hi).
    { split; [lia|]. pose proof (Nat.div_lt (hi - lo) 2). lia. }
    destruct (np_less (nth (lo + (hi - lo) / 2) a fnan) v) eqn:E.
    + apply IH; try lia; [|exact Hhi].
      intros i Hi. apply (Hmono i (lo + (hi - lo) / 2)); [lia|lia|exact E].
    + apply IH; try lia; [exact Hlo|].
      intros i Hi. destruct (below i) eqn:Ei; [|reflexivity].
      rewrite <- E. symmetry.
      apply (Hmono (lo + (hi - lo) / 2) i); [lia|lia|exact Ei].
Qed.

End Search.

End ArrayFacts.

(** ** The live-point store *)

Module LiveStoreFacts.
Import LiveStore ArrayFacts.

Lemma StronglySorted_app_inv {A : Type} (R : A -> A -> Prop) (l1 l2 : list A) :
  StronglySorted R (l1 ++ l2) ->
  StronglySorted R l1 /\ StronglySorted R l2 /\
  Forall (fun x => Forall (R x) l2) l1.
Proof.
  induction l1 as [|x l1 IH]; simpl; intros H.
  - repeat split; [constructor|exact H|constructor].
  - apply StronglySorted_inv in H. destruct H as [H1 H2].
    destruct (IH H1) as (Ha & Hb & Hc).
    apply Forall_app in H2. destruct H2 as [H2 H3].
    repeat split; [constructor; assumption|exact Hb|constructor; assumption].
Qed.

Lemma StronglySorted_insert_mid {A : Type} (R : A -> A -> Prop)
  (l1 l2 : list A) (x : A) :
  (forall a b c, R a b -> R b c -> R a c) ->
  StronglySorted R l1 -> StronglySorted R l2 ->
  Forall (fun a => R a x) l1 -> Forall (R x) l2 ->
  StronglySorted R (l1 ++ x :: l2).
Proof.
  intros Htr H1 H2 Hl Hr. induction l1 as [|a l1 IH]; simpl.
  - constructor; assumption.
  - apply StronglySorted_inv in H1. destruct H1 as [H1 Ha].
    apply Forall_cons_iff in Hl. destruct Hl as [Hax Hl].
    constructor; [apply IH; assumption|].
    apply Forall_app. split; [exact Ha|].
    constructor; [exact Hax|].
    eapply Forall_impl; [|exact Hr]. intros b Hb. exact (Htr _ _ _ Hax Hb).
Qed.

Lemma Forall_firstn_nth {A : Type} (P : A -> Prop) (l : list A) (r : nat) (d : A) :
  r <= length l -> (forall i, i < r -> P (nth i l d)) -> Forall P (firstn r l).
Proof.
  intros Hr H. apply Forall_nth. intros i d' Hi.
  rewrite length_firstn in Hi.
  rewrite (nth_indep _ d' d) by (rewrite length_firstn; exact Hi).
  rewrite nth_firstn. destruct (Nat.ltb_spec i r); [|lia]. apply H. lia.
Qed.

Lemma Forall_skipn_nth {A : Type} (P : A -> Prop) (l : list A) (r : nat) (d : A) :
  (forall i, r <= i < length l -> P (nth i l d)) -> Forall P (skipn r l).
Proof.
  intros H. apply Forall_nth. intros i d' Hi.
  rewrite length_skipn in Hi.
  rewrite (nth_indep _ d' d) by (rewrite length_skipn; exact Hi).
  rewrite nth_skipn. apply H. lia.
Qed.

Section Facts.
Context {F : Type} {num : Number F} {laws : NumberLaws F}.

Lemma ascending_strongly (store : list (LivePoint F)) :
  ascending store -> StronglySorted le_logL store.
Proof.
  apply Sorted_StronglySorted. intros p q s. unfold le_logL. apply fleb_trans.
Qed.

Lemma np_less_key (a v : F) : isnan v = false -> np_less a v = fltb a v.
Proof.
  intros H. unfold np_less. rewrite H. simpl. apply orb_false_r.
Qed.

Lemma nth_logL (store : list (LivePoint F)) (d : LivePoint F) (i : nat) :
  i < length store -> nth i (map logL store) fnan = logL (nth i store d).
Proof.
  intros H. rewrite (nth_indep _ fnan (logL d)) by (rewrite length_map; exact H).
  apply map_nth.
Qed.

(** What the search gives on an ascending store whose worst point lies below
    the key: a boundary [r >= 1] with the rows before it strictly below the
    key and the key at most the rows from it on. *)
Lemma searchsorted_boundary (store : list (LivePoint F)) (new : LivePoint F) :
  ascending store -> above_worst store new ->
  let r := np_searchsorted (map logL store) (logL new) in
  1 <= r <= length store /\
  Forall (fun p => fltb (logL p) (logL new) = true) (firstn r store) /\
  Forall (fun p => fltb (logL p) (logL new) = false /\
                   fleb (logL new) (logL p) = true) (skipn r store).
Proof.
  intros Hasc (worst & rest & -> & Hw).
  pose proof (ascending_strongly _ Hasc) as Hss.
  destruct (fltb_not_nan _ _ Hw) as [Hwn Hnn].
  set (store := worst :: rest) in *.
  set (a := map logL store). set (v := logL new).
  assert (Hlen : length a = length store) by apply length_map.
  assert (Hbelow : forall i, i < length store ->
            np_less (nth i a fnan) v = fltb (logL (nth i store new)) v).
  { intros i Hi. unfold a. rewrite (nth_logL store new i Hi).
    apply np_less_key. exact Hnn. }
  assert (Hsorted : forall i j, i < j -> j < length store ->
            fleb (logL (nth i store new)) (logL (nth j store new)) = true).
  { clear -Hss. induction Hss as [|p l Hs IH Hp]; intros i j Hij Hj.
    - simpl in Hj. lia.
    - destruct j as [|j]; [lia|]. simpl in Hj. destruct i as [|i].
      + simpl. rewrite Forall_forall in Hp. apply (Hp (nth j l new)).
        apply nth_In. lia.
      + simpl. apply IH; lia. }
  assert (Hmono : forall i j, i <= j -> j < length a ->
            np_less (nth j a fnan) v = true -> np_less (nth i a fnan) v = true).
  { intros i j Hij Hj. rewrite Hlen in Hj. rewrite !Hbelow by lia.
    destruct (Nat.eq_dec i j) as [->|Hne]; [auto|].
    intros Hjv. apply (fleb_fltb_trans _ (logL (nth j store new))); [|exact Hjv].
    apply Hsorted; lia. }
  assert (H0 : np_less (nth 0 a fnan) v = true).
  { rewrite Hbelow by (simpl; lia). exact Hw. }
  unfold np_searchsorted. fold a. fold v.
  pose proof (binsearch_bounds a v (length a) 0 (length a) (Nat.le_0_l _)) as Hb.
  pose proof (binsearch_positive a v (length a) H0 0 (length a)) as Hpos.
  destruct (binsearch_boundary a v (length a) Hmono 0 (length a))
    as [Hlo Hhi]; try lia.
  set (r := binsearch (length a) a v 0 (length a)) in *.
  assert (Hr : 1 <= r <= length store).
  { split; [|lia]. apply Hpos; try lia. intros _. rewrite Hlen. simpl. lia. }
  split; [exact Hr|]. split.
  - apply (Forall_firstn_nth _ store r new); [lia|].
    intros i Hi. rewrite <- Hbelow by lia. apply Hlo. exact Hi.
  - apply (Forall_skipn_nth _ store r new).
    intros i Hi. rewrite <- Hbelow by lia.
    assert (E : np_less (nth i a fnan) v = false) by (apply Hhi; lia).
    split; [exact E|].
    rewrite Hbelow in E by lia.
    apply fleb_total; [| |exact E]; [|exact Hnn].
    assert (H0i : fleb (logL (nth 0 store new)) (logL (nth i store new)) = true)
      by (apply Hsorted; lia).
    apply (fleb_not_nan _ _ H0i).
Qed.

Lemma filter_all_true {A : Type} (f : A -> bool) (l : list A) :
  Forall (fun x => f x = true) l -> filter f l = l.
Proof.
  induction 1 as [|x l Hx _ IH]; simpl; [reflexivity|].
  rewrite Hx, IH. reflexivity.
Qed.

Lemma filter_all_false {A : Type} (f : A -> bool) (l : list A) :
  Forall (fun x => f x = false) l -> filter f l = [].
Proof.
  induction 1 as [|x l Hx _ IH]; simpl; [reflexivity|].
  rewrite Hx, IH. reflexivity.
Qed.

(** The array after a successful insertion at search result [r >= 1]. *)
Lemma insert_live_point_at (store : list (LivePoint F)) (new : LivePoint F) (r : nat) :
  np_searchsorted (map logL store) (logL new) = r ->
  1 <= r <= length store ->
  insert_live_point store new =
    Ok (firstn (r - 1) (skipn 1 store) ++ new :: skipn r store,
        (Z.of_nat r - 1)%Z).
Proof.
  intros Hs Hr. unfold insert_live_point. rewrite Hs.
  rewrite py_slice_from_one by exact Hr.
  set (rhs := firstn (r - 1) (skipn 1 store)).
  assert (Hlen : length rhs = r - 1).
  { unfold rhs. rewrite length_firstn, length_skipn. lia. }
  replace (Z.of_nat r - 1)%Z with (Z.of_nat (r - 1)) by lia.
  rewrite np_setslice_prefix by (try exact Hlen; lia).
  cbn [bind].
  rewrite np_setitem_in_range
    by (rewrite length_app, length_skipn, Hlen; lia).
  cbn [bind].
  rewrite firstn_app, skipn_app, Hlen.
  rewrite <- Hlen at 1. rewrite firstn_all.
  replace (r - 1 - (r - 1)) with 0 by lia.
  replace (S (r - 1) - (r - 1)) with 1 by lia.
  rewrite (skipn_all2 rhs) by lia.
  rewrite skipn_skipn.
  replace (1 + (r - 1)) with r by lia.
  rewrite firstn_O, app_nil_r. reflexivity.
Qed.

(** C3: on a store that is ascending by [logL], for a new point whose [logL]
    is strictly above that of the rank-0 element, the search result [k] is
    the rank of [new.logL] (the number of rows strictly below it) and is
    never 0; [insert_live_point] succeeds and returns [k - 1]; the store keeps
    its length, is still ascending, holds the new point in slot [k - 1], and
    the returned index lies in [0, nlive). *)
Theorem insert_keeps_sorted (store : list (LivePoint F)) (new : LivePoint F) :
  ascending store -> above_worst store new ->
  let k := np_searchsorted (map logL store) (logL new) in
  k = rank store (logL new) /\
  k <> 0 /\
  exists store',
    insert_live_point store new = Ok (store', (Z.of_nat k - 1)%Z) /\
    length store' = length store /\
    ascending store' /\
    nth_error store' (k - 1) = Some new /\
    (0 <= Z.of_nat k - 1 < Z.of_nat (length store))%Z.
Proof.
  intros Hasc Habove k.
  destruct (searchsorted_boundary store new Hasc Habove) as (Hr & Hlo & Hhi).
  fold k in Hr, Hlo, Hhi.
  pose proof (ascending_strongly _ Hasc) as Hss.
  destruct Habove as (worst & rest & Hstore & Hw).
  split.
  { unfold rank. rewrite <- (firstn_skipn k store) at 1.
    rewrite filter_app, filter_all_true, filter_all_false.
    - rewrite app_nil_r, length_firstn. lia.
    - eapply Forall_impl; [|exact Hhi]. intros p [Hp _]. exact Hp.
    - exact Hlo. }
  split; [lia|].
  exists (firstn (k - 1) (skipn 1 store) ++ new :: skipn k store).
  split; [apply insert_live_point_at; [reflexivity|exact Hr]|].
  assert (Hlen : length (firstn (k - 1) (skipn 1 store)) = k - 1)
    by (rewrite length_firstn, length_skipn; lia).
  split; [rewrite length_app, Hlen; cbn [length]; rewrite length_skipn; lia|].
  split.
  - apply StronglySorted_Sorted.
    rewrite <- (firstn_skipn k store) in Hss.
    apply StronglySorted_app_inv in Hss. destruct Hss as (Hs1 & Hs2 & _).
    assert (Hfirst : firstn k store = worst :: firstn (k - 1) (skipn 1 store)).
    { rewrite Hstore. destruct k as [|k']; [lia|].
      simpl. rewrite Nat.sub_0_r. reflexivity. }
    rewrite Hfirst in Hs1, Hlo.
    apply StronglySorted_inv in Hs1. destruct Hs1 as [Hs1 _].
    apply Forall_cons_iff in Hlo. destruct Hlo as [_ Hlo].
    apply StronglySorted_insert_mid.
    + intros a b c. unfold le_logL. apply fleb_trans.
    + exact Hs1.
    + exact Hs2.
    + eapply Forall_impl; [|exact Hlo]. intros p Hp. apply fltb_fleb. exact Hp.
    + eapply Forall_impl; [|exact Hhi]. intros p [_ Hp]. exact Hp.
  - split; [|lia].
    rewrite nth_error_app2 by lia. rewrite Hlen, Nat.sub_diag. reflexivity.
Qed.

End Facts.

Section Partial.
Context {F : Type} {num : Number F}.

Lemma insert_rank_zero (store : list (LivePoint F)) (new : LivePoint F) :
  np_searchsorted (map logL store) (logL new) = 0 ->
  2 <= length store ->
  insert_live_point store new =
    Raise (ValueError "could not broadcast input array").
Proof.
  intros Hs Hn. unfold insert_live_point. rewrite Hs.
  unfold py_slice, np_setslice, py_bound, py_clip. simpl Z.of_nat.
  destruct store as [|p [|q rest]]; simpl in Hn; try lia.
  set (n := Z.of_nat (length (p :: q :: rest))).
  assert (Hnz : (2 <= n)%Z) by (unfold n; simpl length; lia).
  replace (0 - 1 <? 0)%Z with true by reflexivity.
  replace (1 <? 0)%Z with false by reflexivity.
  replace (0 <? 0)%Z with false by reflexivity.
  replace (Z.max 0 (Z.min n 0)) with 0%Z by lia.
  replace (Z.max 0 (Z.min n 1)) with 1%Z by lia.
  replace (Z.max 0 (Z.min n (0 - 1 + n))) with (n - 1)%Z by lia.
  simpl firstn at 1. simpl length at 1.
  destruct (Nat.eqb_spec 0 (Z.to_nat (n - 1 - 0))) as [E|_]; [lia|].
  reflexivity.
Qed.

Lemma insert_rank_zero_single (p new : LivePoint F) :
  np_searchsorted (map logL [p]) (logL new) = 0 ->
  insert_live_point [p] new = Ok ([new], (-1)%Z).
Proof.
  intros Hs. unfold insert_live_point. rewrite Hs. reflexivity.
Qed.

(** C10 (amended): [insert_live_point] is partial.  When the search yields
    rank 0 the function computes index -1 and, on a store of at least two
    points, the shift assigns an empty slice to a slice of length
    [nlive - 1] and the call fails with [ValueError]; on a store of a single
    point both slices are empty, nothing fails, the point is overwritten and
    -1 is returned.  When the new [logL] is above that of the rank-0 element
    the call succeeds and the index lies in [0, nlive - 1]. *)
Theorem insert_partial (store : list (LivePoint F)) (new : LivePoint F) :
  (np_searchsorted (map logL store) (logL new) = 0 ->
   (2 <= length store ->
    insert_live_point store new =
      Raise (ValueError "could not broadcast input array")) /\
   (length store = 1 -> insert_live_point store new = Ok ([new], (-1)%Z))) /\
  (above_worst store new ->
   exists store' index,
     insert_live_point store new = Ok (store', index) /\
     (0 <= index <= Z.of_nat (length store) - 1)%Z).
Proof.
  split.
  - intros Hs. split.
    + apply insert_rank_zero. exact Hs.
    + intros H1. destruct store as [|p [|q rest]]; try discriminate.
      apply insert_rank_zero_single. exact Hs.
  - intros (worst & rest & Hstore & Hw).
    set (a := map logL store). set (v := logL new).
    assert (Hlen : length a = length store) by apply length_map.
    assert (H0 : np_less (nth 0 a fnan) v = true).
    { unfold a. rewrite Hstore. simpl. unfold np_less. fold v in Hw.
      rewrite Hw. reflexivity. }
    pose proof (binsearch_bounds a v (length a) 0 (length a) (Nat.le_0_l _)) as Hb.
    assert (Hpos : 1 <= binsearch (length a) a v 0 (length a)).
    { apply binsearch_positive; try lia; [exact H0|].
      intros _. rewrite Hlen, Hstore. simpl. lia. }
    eexists. eexists. split.
    + apply insert_live_point_at; [reflexivity|].
      unfold np_searchsorted. fold a. fold v. lia.
    + unfold np_searchsorted. fold a. fold v. lia.
Qed.

End Partial.

End LiveStoreFacts.

Module LiveStoreCases.
Import LiveStore LiveStoreFacts.

(** C3, witness: inserting 2.5 into the store 1, 2, 3, 4. *)
Lemma insert_keeps_sorted_witness :
  let store := map row [1; 2; 3; 4]%float in
  let new := row 2.5%float in
  let k := np_searchsorted (map logL store) (logL new) in
  k = rank store (logL new) /\
  k <> 0 /\
  exists store',
    insert_live_point store new = Ok (store', (Z.of_nat k - 1)%Z) /\
    length store' = length store /\
    ascending store' /\
    nth_error store' (k - 1) = Some new /\
    (0 <= Z.of_nat k - 1 < Z.of_nat (length store))%Z.
Proof.
  apply (insert_keeps_sorted (laws:=NumberFacts.binary64_laws)
           (map row [1; 2; 3; 4]%float) (row 2.5%float)).
  - repeat constructor.
  - eexists. eexists. split; reflexivity.
Defined.

(** C10, witness: rank 0 on a store of two points fails; a point above the
    worst one is inserted. *)
Lemma insert_partial_witness :
  insert_live_point (map row [1; 2]%float) (row 0%float)
    = Raise (ValueError "could not broadcast input array") /\
  exists store' index,
    insert_live_point (map row [1; 2]%float) (row 1.5%float) = Ok (store', index) /\
    (0 <= index <= Z.of_nat (length (map row [1; 2]%float)) - 1)%Z.
Proof.
  split.
  - apply (proj1 (insert_partial (map row [1; 2]%float) (row 0%float)));
      [reflexivity|simpl; lia].
  - apply (proj2 (insert_partial (map row [1; 2]%float) (row 1.5%float))).
    eexists. eexists. split; reflexivity.
Defined.

(** C10, counterexample: on a store of one point, a new point that is not
    above it gets rank 0, and the call does not fail: the only slot is
    overwritten and -1 is returned. *)
Lemma insert_single_point_no_error :
  exists (store : list (LivePoint float)) (new : LivePoint float),
    length store = 1 /\
    ~ above_worst store new /\
    np_searchsorted (map logL store) (logL new) = 0 /\
    insert_live_point store new = Ok ([new], (-1)%Z).
Proof.
  exists [row 1%float], (row 0%float).
  split; [reflexivity|]. split.
  - intros (worst & rest & E & H). injection E as <- <-.
    vm_compute in H. discriminate.
  - split; reflexivity.
Qed.

End LiveStoreCases.

(** ** The classical sampler: the training set *)

Module TrainingFacts.
Import LiveStore Classical.

Section Facts.
Context {F : Type} {num : Number F}.
Context {P : Type} {papi : ProposalAPI F P}.
Context {M : Type} {mapi : ModelAPI F M}.
Variable np : NumPy F.
Variable compute_indices_ks_test : list Z -> Z -> F * option F.

Lemma training_set_set_proposal (s : NestedSampler F P M) (p : P) :
  training_set (set_proposal s p) = training_set s.
Proof. unfold set_proposal. destruct (using_flow s); reflexivity. Qed.

Lemma memory_slot_exists (s : NestedSampler F P M) :
  (0 < memory s <= Z.of_nat (length (nested_samples s)))%Z ->
  exists x, py_getitem (nested_samples s) (- memory s) = Ok x.
Proof. intros H. apply py_getitem_in_range. lia. Qed.

(** With [memory = m] and at least [m] nested samples, the training set is
    never built: the single record [nested_samples[-m]] is handed to
    [np.concatenate], which refuses it. *)
Lemma training_set_memory (s : NestedSampler F P M) (lp : list (LivePoint F)) :
  live_points s = Some lp ->
  (0 < memory s <= Z.of_nat (length (nested_samples s)))%Z ->
  training_set s =
    Raise (ValueError "zero-dimensional arrays cannot be concatenated").
Proof.
  intros Hlp Hm. destruct (memory_slot_exists s Hm) as [x Hx].
  unfold training_set, get_live_points. rewrite Hlp. cbn [bind].
  destruct (Z.eqb_spec (memory s) 0); [lia|].
  destruct (Nat.eqb_spec (length (nested_samples s)) 0); [lia|].
  destruct (Z.leb_spec (memory s) (Z.of_nat (length (nested_samples s)))); [|lia].
  rewrite Hx. reflexivity.
Qed.

Lemma training_set_no_memory (s : NestedSampler F P M) (lp : list (LivePoint F)) :
  live_points s = Some lp ->
  (memory s = 0 \/ Z.of_nat (length (nested_samples s)) < memory s)%Z ->
  training_set s = Ok lp.
Proof.
  intros Hlp Hm. unfold training_set, get_live_points. rewrite Hlp. cbn [bind].
  destruct (Z.eqb_spec (memory s) 0); [reflexivity|].
  destruct (Nat.eqb_spec (length (nested_samples s)) 0); [reflexivity|].
  destruct (Z.leb_spec (memory s) (Z.of_nat (length (nested_samples s)))); [lia|].
  reflexivity.
Qed.

(** A forced [check_state] in flow mode, not just resumed, reaches the
    training step. *)
Lemma check_state_forced (s : NestedSampler F P M) :
  uninformed_sampling s = false -> resumed s = false ->
  check_state np s true false = train_proposal s.
Proof.
  intros Hu Hr. unfold check_state. rewrite Hu. cbn [bind].
  rewrite Hr. rewrite andb_false_r. reflexivity.
Qed.

(** C8: the training step of [check_state].  With the memory option unset,
    or fewer nested samples than [memory], the training set is the current
    live points alone.  With [memory = m] and at least [m] nested samples the
    code does not build the live points followed by the last [m] nested
    samples: it indexes the single record [nested_samples[-m]] and the
    concatenation raises [ValueError], so a forced [check_state] fails before
    the proposal is trained. *)
Theorem training_set_contract (s : NestedSampler F P M) (lp : list (LivePoint F)) :
  live_points s = Some lp ->
  ((memory s = 0 \/ Z.of_nat (length (nested_samples s)) < memory s)%Z ->
   training_set s = Ok lp) /\
  ((0 < memory s <= Z.of_nat (length (nested_samples s)))%Z ->
   training_set s =
     Raise (ValueError "zero-dimensional arrays cannot be concatenated") /\
   (uninformed_sampling s = false -> resumed s = false ->
    check_state np s true false =
      Raise (ValueError "zero-dimensional arrays cannot be concatenated"))).
Proof.
  intros Hlp. split; [apply training_set_no_memory; exact Hlp|].
  intros Hm. split; [apply training_set_memory with lp; assumption|].
  intros Hu Hr. rewrite check_state_forced by assumption.
  unfold train_proposal.
  destruct (negb (reset_weights s =? 0)%Z &&
            (prop_training_count (proposal s) mod reset_weights s =? 0)%Z).
  - rewrite training_set_set_proposal.
    rewrite (training_set_memory s lp Hlp Hm). reflexivity.
  - rewrite (training_set_memory s lp Hlp Hm). reflexivity.
Qed.

End Facts.

End TrainingFacts.

Module TrainingCases.
Import LiveStore Classical Doubles TrainingFacts.

(** C8, witness: two live points, three nested samples and [memory = 2]:
    the training set should be the two live points followed by the last
    two nested samples; the code raises instead. *)
Lemma training_set_contract_witness :
  let s := (fresh_sampler 10 [])
             <| live_points := Some [row 1; row 2] |>
             <| nested_samples := [row (-3); row (-2); row (-1)] |>
             <| memory := 2%Z |> in
  training_set s =
    Raise (ValueError "zero-dimensional arrays cannot be concatenated") /\
  (uninformed_sampling s = false -> resumed s = false ->
   check_state np_tropical s true false =
     Raise (ValueError "zero-dimensional arrays cannot be concatenated")).
Proof.
  intros s.
  apply (proj2 (training_set_contract np_tropical s [row 1; row 2] eq_refl)).
  vm_compute. split; [reflexivity|discriminate].
Defined.

End TrainingCases.

(** ** The classical sampler: leaving the loop *)

Module ExitFacts.
Import LiveStore Classical.

(** Reduce the field updates of a record. *)
Ltac record_simpl :=
  cbn; unfold RecordSettersUsingExistingGetters.const; cbn.

Section Facts.
Context {F : Type} {num : Number F}.
Context {P : Type} {papi : ProposalAPI F P}.
Context {M : Type} {mapi : ModelAPI F M}.
Variable np : NumPy F.
Variable compute_indices_ks_test : list Z -> Z -> F * option F.

Lemma same_core_refl (s : NestedSampler F P M) : same_core s s.
Proof. constructor; reflexivity. Qed.

Lemma same_core_trans (a b c : NestedSampler F P M) :
  same_core a b -> same_core b c -> same_core a c.
Proof. intros [] []. constructor; congruence. Qed.

Lemma set_proposal_core (s : NestedSampler F P M) (p : P) :
  same_core s (set_proposal s p) /\ trace (set_proposal s p) = trace s.
Proof.
  unfold set_proposal. destruct (using_flow s); split;
    try constructor; reflexivity.
Qed.

Lemma update_population_core (s : NestedSampler F P M) :
  same_core s (update_population s) /\ trace (update_population s) = trace s.
Proof.
  unfold update_population.
  destruct (prop_population_acceptance (proposal s)); split;
    try constructor; reflexivity.
Qed.

Lemma py_slice_prefix_exact {A : Type} (l : list A) (g : Z) :
  (0 <= g <= Z.of_nat (length l))%Z ->
  length (py_slice l None (Some g)) = Z.to_nat g.
Proof.
  intros Hg. unfold py_slice. cbn [py_bound]. rewrite Z.sub_0_r.
  change (Z.to_nat 0) with 0. cbn [skipn].
  rewrite length_firstn. unfold py_clip.
  destruct (g <? 0)%Z eqn:E; [apply Z.ltb_lt in E; lia|]. lia.
Qed.

Lemma gradients_drawable_nonneg (s : NestedSampler F P M) :
  (0 <= iteration s)%Z -> gradients_drawable s = true.
Proof.
  intros Hi. unfold gradients_drawable. apply Nat.eqb_eq. symmetry.
  apply py_slice_prefix_exact. lia.
Qed.

(** What [plot_state] does: [IndexError] while nothing is recorded,
    [ValueError] for sequences of different lengths, and the figure
    otherwise. *)
Lemma plot_state_outcome (s : NestedSampler F P M) :
  (length (min_likelihood s) = 0 -> plot_state s = Raise IndexError) /\
  (1 <= length (min_likelihood s) -> plot_ready s = true ->
   plot_state s = Ok (emit s EvPlotState)) /\
  (1 <= length (min_likelihood s) -> plot_ready s = false ->
   plot_state s
   = Raise (ValueError "x and y must have same first dimension")).
Proof.
  split; [|split].
  - intros H. unfold plot_state. rewrite H. reflexivity.
  - intros H Hr. unfold plot_state.
    destruct (py_getitem_in_range
                (map (fun k => (Z.of_nat k * (nlive s / 10))%Z)
                     (seq 0 (length (min_likelihood s)))) (-1)%Z) as [a ->].
    { rewrite length_map, length_seq. lia. }
    cbn [bind]. rewrite length_map, length_seq.
    unfold plot_ready, histories_aligned, gradients_drawable in Hr.
    repeat (apply andb_prop in Hr; destruct Hr as [Hr ?]).
    unfold plt_plot. rewrite Nat.eqb_refl. cbn [bind].
    repeat match goal with
    | H : (_ =? _) = true |- _ => rewrite H; clear H; cbn [bind]
    end.
    reflexivity.
  - intros H Hr. unfold plot_state.
    destruct (py_getitem_in_range
                (map (fun k => (Z.of_nat k * (nlive s / 10))%Z)
                     (seq 0 (length (min_likelihood s)))) (-1)%Z) as [a ->].
    { rewrite length_map, length_seq. lia. }
    cbn [bind]. rewrite length_map, length_seq.
    unfold plot_ready, histories_aligned, gradients_drawable in Hr.
    unfold plt_plot. rewrite Nat.eqb_refl. cbn [bind].
    repeat match goal with
    | |- context [if ?a =? ?b then _ else _] =>
        destruct (a =? b); cbn [bind andb] in *; try reflexivity
    end.
    discriminate.
Qed.

Lemma update_population_ready (s : NestedSampler F P M) :
  histories_aligned (update_population s) = histories_aligned s /\
  gradients_drawable (update_population s) = gradients_drawable s.
Proof.
  unfold update_population.
  destruct (prop_population_acceptance (proposal s)); [|split; reflexivity].
  split; [|reflexivity]. unfold histories_aligned. record_simpl.
  rewrite !length_app. cbn [length]. rewrite !Nat.add_1_r. reflexivity.
Qed.

Lemma update_histories_forced (s : NestedSampler F P M) :
  (nlive s / 10 <> 0)%Z ->
  exists s', update_histories np s true = Ok s' /\
             same_core s s' /\ trace s' = trace s /\
             1 <= length (min_likelihood s') /\
             plot_ready s' = plot_ready s.
Proof.
  intros Hn. unfold update_histories, py_mod.
  destruct (Z.eqb_spec (nlive s / 10) 0) as [E|_]; [contradiction|].
  cbn [bind]. rewrite orb_true_r.
  eexists. split; [reflexivity|]. split; [constructor; reflexivity|].
  split; [reflexivity|]. split.
  - record_simpl. rewrite length_app. cbn. lia.
  - unfold plot_ready, histories_aligned, gradients_drawable. record_simpl.
    rewrite !length_app. cbn [length]. rewrite !Nat.add_1_r. reflexivity.
Qed.

(** [update_histories], forced or not. *)
Lemma update_histories_outcome (s : NestedSampler F P M) (force : bool) :
  (nlive s / 10 <> 0)%Z ->
  exists s', update_histories np s force = Ok s' /\
             nlive s' = nlive s /\ iteration s' = iteration s /\
             plot s' = plot s /\
             length (min_likelihood s')
             = (if (iteration s mod (nlive s / 10) =? 0)%Z || force
                then S (length (min_likelihood s))
                else length (min_likelihood s)) /\
             plot_ready s' = plot_ready s.
Proof.
  intros Hn. unfold update_histories, py_mod.
  destruct (Z.eqb_spec (nlive s / 10) 0) as [E|_]; [contradiction|].
  cbn [bind]. eexists. split; [reflexivity|].
  destruct ((iteration s mod (nlive s / 10) =? 0)%Z || force);
    [|repeat split].
  split; [reflexivity|]. split; [reflexivity|]. split; [reflexivity|]. split.
  - record_simpl. rewrite length_app. cbn. lia.
  - unfold plot_ready, histories_aligned, gradients_drawable. record_simpl.
    rewrite !length_app. cbn [length]. rewrite !Nat.add_1_r. reflexivity.
Qed.

Lemma update_diagnostics_forced (s : NestedSampler F P M) :
  nlive s <> 0%Z ->
  1 <= length (min_likelihood s) ->
  (plot s = true -> plot_ready s = true) ->
  exists s', update_diagnostics compute_indices_ks_test s true = Ok s' /\
             same_core s s' /\
             trace s' = trace s ++ (if plot s then [EvPlotState] else []).
Proof.
  intros Hn Hm Hr. unfold update_diagnostics, py_mod.
  destruct (Z.eqb_spec (nlive s) 0) as [E|_]; [contradiction|].
  cbn [bind negb]. rewrite orb_true_r.
  unfold plot_diagnostics. cbn [negb].
  destruct (plot s) eqn:Hp.
  - rewrite (proj1 (proj2 (plot_state_outcome s)) Hm (Hr eq_refl)).
    cbn [bind]. eexists. split; [reflexivity|].
    unfold reset_block, emit.
    destruct (uninformed_sampling s) eqn:Hu; cbn; rewrite ?Hp, ?Hu;
      (split; [constructor; cbn; rewrite ?Hp, ?Hu; reflexivity|]);
      reflexivity.
  - cbn [bind]. eexists. split; [reflexivity|].
    unfold reset_block.
    destruct (uninformed_sampling s) eqn:Hu; cbn; rewrite ?Hp, ?Hu;
      (split; [constructor; cbn; rewrite ?Hp, ?Hu; reflexivity|]);
      cbn; rewrite ?app_nil_r; reflexivity.
Qed.

(** A forced [update_state] records histories and plots; it runs no KS test
    and leaves the integral state, the samples and the indices alone. *)
Lemma update_state_forced (s : NestedSampler F P M) :
  (nlive s / 10 <> 0)%Z ->
  (plot s = true -> plot_ready s = true) ->
  exists s', update_state np compute_indices_ks_test s true = Ok s' /\
             same_core s s' /\
             trace s' = trace s ++ (if plot s then [EvPlotState] else []).
Proof.
  intros Hn Hr. assert (Hn0 : nlive s <> 0%Z).
  { intros E. rewrite E in Hn. apply Hn. reflexivity. }
  destruct (update_population_core s) as [C0 T0].
  destruct (update_population_ready s) as [A0 G0].
  destruct (update_histories_forced (update_population s))
    as (s1 & E1 & C1 & T1 & M1 & R1).
  { rewrite (core_nlive C0). exact Hn. }
  destruct (update_diagnostics_forced s1) as (s2 & E2 & C2 & T2).
  { rewrite (core_nlive C1), (core_nlive C0). exact Hn0. }
  { exact M1. }
  { rewrite (core_plot C1), (core_plot C0), R1. unfold plot_ready.
    rewrite A0, G0. exact Hr. }
  unfold update_state. rewrite E1. cbn [bind]. rewrite E2. cbn [bind].
  eexists. split; [reflexivity|].
  destruct (set_proposal_core s2
              (prop_set_ns_acceptance (proposal s2) (mean_block_acceptance s2)))
    as [C3 T3].
  split.
  - eapply same_core_trans; [|exact C3].
    eapply same_core_trans; [|exact C2].
    eapply same_core_trans; [exact C0|exact C1].
  - rewrite T3, T2, T1, T0, (core_plot C1), (core_plot C0). reflexivity.
Qed.

Lemma close_pool_aligned (s : NestedSampler F P M) :
  histories_aligned (close_pool_if_open s) = histories_aligned s.
Proof.
  unfold close_pool_if_open, set_proposal.
  destruct (prop_pool (proposal s)); [|reflexivity].
  destruct (using_flow s); reflexivity.
Qed.

Lemma close_pool_core (s : NestedSampler F P M) :
  same_core s (close_pool_if_open s) /\ trace (close_pool_if_open s) = trace s.
Proof.
  unfold close_pool_if_open. destruct (prop_pool (proposal s)).
  - apply set_proposal_core.
  - split; [apply same_core_refl|reflexivity].
Qed.

(** The final adjustments: the integral state goes through [exit_calls] and
    the live points are appended to the nested samples. *)
Lemma final_increments_spec (lp : list (LivePoint F)) :
  forall (s : NestedSampler F P M) (i : Z),
    Integral.history_shape (state s) ->
    (forall j, (0 <= j < Z.of_nat (length lp))%Z ->
               Integral.usable_nlive (F:=F) (nlive s - (i + j)) = true) ->
    exists st,
      Integral.increments np (state s) (exit_calls (nlive s) i lp) = Ok st /\
      Integral.history_shape st /\
      final_increments np s i lp =
        Ok (s <| state := st |> <| nested_samples := nested_samples s ++ lp |>).
Proof.
  induction lp as [|p rest IH]; intros s i Hs Hu.
  - exists (state s). split; [reflexivity|]. split; [exact Hs|].
    cbn [final_increments]. rewrite app_nil_r. destruct s. reflexivity.
  - assert (Hc : Integral.call_usable (state s)
                   (LiveStore.logL p, Some (nlive s - i)%Z) = true).
    { unfold Integral.call_usable. cbn [snd].
      replace (nlive s - i)%Z with (nlive s - (i + 0))%Z by lia.
      apply Hu. cbn [length]. lia. }
    destruct (IntegralFacts.increment_shape np (state s) (LiveStore.logL p)
                (Some (nlive s - i)%Z) Hs Hc)
      as (st1 & logt & E1 & _ & Hs1 & _).
    destruct (IH (s <| state := st1 |>
                    <| nested_samples := nested_samples s ++ [p] |>) (i + 1)%Z)
      as (st & E & Hst & Ef).
    + exact Hs1.
    + intros j Hj. cbn [nlive set].
      replace (nlive s - (i + 1 + j))%Z with (nlive s - (i + (j + 1)))%Z by lia.
      apply Hu. cbn [length]. lia.
    + exists st. cbn [exit_calls Integral.increments final_increments].
      rewrite E1. cbn [bind]. split; [exact E|]. split; [exact Hst|].
      rewrite Ef. clear. destruct s. cbn. rewrite <- app_assoc. reflexivity.
Qed.

Lemma exit_calls_nth (n : Z) (lp : list (LivePoint F)) :
  forall (i : Z) (k : nat) (p : LivePoint F),
    nth_error lp k = Some p ->
    nth_error (exit_calls n i lp) k =
      Some (LiveStore.logL p, Some (n - (i + Z.of_nat k))%Z).
Proof.
  induction lp as [|q rest IH]; intros i k p Hk.
  - destruct k; discriminate.
  - destruct k as [|k]; cbn [exit_calls nth_error] in *.
    + injection Hk as ->. replace (i + Z.of_nat 0)%Z with i by lia. reflexivity.
    + rewrite (IH (i + 1)%Z k p Hk). do 3 f_equal. lia.
Qed.

Lemma exit_calls_logLs (n : Z) (lp : list (LivePoint F)) :
  forall i, map fst (exit_calls n i lp) = map LiveStore.logL lp.
Proof.
  induction lp as [|q rest IH]; intros i; cbn [exit_calls map fst];
    [reflexivity|]. rewrite IH. reflexivity.
Qed.

(** [finalise] replaces [logZ] by the value of [log_integrate_log_trap],
    returns that value, and fails as the helper does. *)
Lemma finalise_spec (st : Integral.NSintegralState F) :
  match log_integrate_log_trap np (Integral.logLs st) (Integral.log_vols st) with
  | Ok z =>
      exists st', Integral.finalise np st = Ok (st', z) /\
                  Integral.logZ st' = z /\
                  Integral.logLs st' = Integral.logLs st /\
                  Integral.log_vols st' = Integral.log_vols st /\
                  Integral.info st' = Integral.info st /\
                  Integral.iteration st' = Integral.iteration st
  | Raise e => Integral.finalise np st = Raise e
  | Diverge => Integral.finalise np st = Diverge
  end.
Proof.
  unfold Integral.finalise.
  destruct (log_integrate_log_trap np _ _) as [z|e|]; cbn [bind];
    [|reflexivity|reflexivity].
  eexists. split; [reflexivity|]. repeat split.
Qed.

(** Writing and the final checks, on any sampler. *)
Lemma final_steps_spec (s : NestedSampler F P M) (save : bool) :
  let s' := final_checks compute_indices_ks_test (write_results s save) in
  state s' = state s /\
  nested_samples s' = nested_samples s /\
  trace s' = trace s
             ++ (if save then [EvWriteNestedSamples; EvWriteEvidence] else [])
             ++ [EvKSTest false (insertion_indices s)]
             ++ (if checkpointing s then [EvCheckpoint] else []).
Proof.
  unfold final_checks, check_insertion_indices, write_results,
    checkpoint, emit.
  destruct save; record_simpl;
    destruct (compute_indices_ks_test (insertion_indices s) (nlive s)) as [d [pv|]];
    record_simpl; destruct (checkpointing s); record_simpl;
    rewrite <- ?app_assoc, ?app_nil_r; cbn; repeat split; reflexivity.
Qed.

(** C4: when the loop is left, with the store holding [nlive] live points
    (at least ten, as [update_state] needs), the sampler calls
    [state.increment] once per live point, in the order of the store (which is
    ascending by likelihood when the store is), with the override
    [nlive - i] for the point at position [i]; it appends every live point to
    [nested_samples]; [finalise] then replaces [logZ] by
    [log_integrate_log_trap(logLs, log_vols)] and returns that value; the
    final KS test is run on the sampler so refined, and it is the only KS
    test of this phase.  ([log_integrate_log_trap] is a helper outside the
    embedded files: should it fail, the phase fails with it.  With plots
    on, the forced [update_state] draws the state, for which the recorded
    histories must have one length and the iteration must not be
    negative.) *)
Theorem finish_sampling_spec (s : NestedSampler F P M)
  (lp : list (LivePoint F)) (save : bool) :
  live_points s = Some lp ->
  Z.of_nat (length lp) = nlive s ->
  (nlive s / 10 <> 0)%Z ->
  Integral.history_shape (state s) ->
  (forall k, (1 <= k <= nlive s)%Z -> Integral.usable_nlive (F:=F) k = true) ->
  (plot s = true -> histories_aligned s = true /\ (0 <= iteration s)%Z) ->
  exit_contract np compute_indices_ks_test s lp save.
Proof.
  intros Hlp Hlen Hn Hs Hu Hplot. unfold exit_contract.
  destruct (close_pool_core s) as [C0 T0].
  set (s0 := close_pool_if_open s) in *.
  destruct (final_increments_spec lp s0 0) as (st & E & Hst & Ef).
  { rewrite (core_state C0). exact Hs. }
  { intros j Hj. rewrite (core_nlive C0). apply Hu. lia. }
  rewrite (core_state C0), (core_nlive C0) in E.
  set (s1 := s0 <| state := st |>
                <| nested_samples := nested_samples s0 ++ lp |>) in *.
  destruct (update_state_forced s1) as (s2 & E2 & C2 & T2).
  { change (nlive s1) with (nlive s0). rewrite (core_nlive C0). exact Hn. }
  { change (plot s1) with (plot s0). rewrite (core_plot C0). intros Hp.
    destruct (Hplot Hp) as [Ha Hi]. unfold plot_ready.
    change (histories_aligned s1) with (histories_aligned s0).
    unfold s0. rewrite close_pool_aligned, Ha.
    apply gradients_drawable_nonneg.
    change (iteration s1) with (iteration s0).
    rewrite (core_iteration C0). exact Hi. }
  assert (Hst2 : state s2 = st) by (rewrite (core_state C2); reflexivity).
  assert (Hns2 : nested_samples s2 = nested_samples s ++ lp).
  { rewrite (core_nested C2). change (nested_samples s1)
      with (nested_samples s0 ++ lp). rewrite (core_nested C0). reflexivity. }
  assert (Hrun : finish_sampling np compute_indices_ks_test s save =
                 (r <- refine_evidence np s2 ;;
                  let s' := final_checks compute_indices_ks_test
                              (write_results r save) in
                  Ok (s', (Integral.logZ (state s'), nested_samples s')))).
  { unfold finish_sampling. fold s0. unfold get_live_points.
    rewrite (core_live C0), Hlp. cbn [bind]. rewrite Ef. cbn [bind].
    fold s1. rewrite E2. cbn [bind]. reflexivity. }
  pose proof (finalise_spec st) as Hfin.
  exists st.
  split; [exact E|].
  split; [intros k p Hk; apply exit_calls_nth; exact Hk|].
  split; [rewrite <- (length_map fst), exit_calls_logLs, length_map; reflexivity|].
  split.
  { intros Hasc. rewrite exit_calls_logLs. clear -Hasc.
    induction Hasc as [|p l Hl IH Hp]; cbn [map]; constructor; [exact IH|].
    destruct Hp; cbn [map]; constructor. assumption. }
  split.
  - intros z Hz. rewrite Hz in Hfin.
    destruct Hfin as (st' & Hf & Hz' & HL & HV & HI & Hit).
    set (r := s2 <| state := st' |> <| info := Integral.info st' |>
                 <| likelihood_calls :=
                      model_likelihood_evaluations (model s2) |>).
    assert (Hr : refine_evidence np s2 = Ok r).
    { unfold refine_evidence. rewrite Hst2, Hf. cbn [bind]. reflexivity. }
    destruct (final_steps_spec r save) as (Fs & Fn & Ft).
    set (refined := write_results r save) in *.
    set (s' := final_checks compute_indices_ks_test refined) in *.
    assert (Hs' : state s' = st') by (rewrite Fs; reflexivity).
    exists s', refined,
      ((if plot s then [EvPlotState] else [])
       ++ (if save then [EvWriteNestedSamples; EvWriteEvidence] else [])),
      (if checkpointing s then [EvCheckpoint] else []).
    rewrite Hs'.
    split; [exact Hf|]. split; [exact Hz'|]. split; [exact HL|].
    split; [exact HV|]. split; [exact HI|]. split; [exact Hit|].
    split.
    { rewrite Hrun, Hr. cbn [bind]. fold refined. fold s'.
      rewrite Hs', Hz', Fn. change (nested_samples r) with (nested_samples s2).
      rewrite Hns2. reflexivity. }
    split; [rewrite Fn; exact Hns2|].
    split; [reflexivity|].
    split.
    { unfold refined, write_results, emit. destruct save; reflexivity. }
    split.
    + rewrite Ft. change (trace r) with (trace s2). rewrite T2.
      change (insertion_indices r) with (insertion_indices s2).
      change (checkpointing r) with (checkpointing s2).
      change (trace s1) with (trace s0). rewrite T0.
      rewrite (core_indices C2), (core_checkpointing C2).
      change (insertion_indices s1) with (insertion_indices s0).
      change (checkpointing s1) with (checkpointing s0).
      change (plot s1) with (plot s0).
      rewrite (core_indices C0), (core_checkpointing C0),
        (core_plot C0).
      rewrite <- !app_assoc. reflexivity.
    + destruct (plot s), save, (checkpointing s); reflexivity.
  - split.
    + intros e He. rewrite He in Hfin.
      rewrite Hrun. unfold refine_evidence. rewrite Hst2, Hfin. reflexivity.
    + intros He. rewrite He in Hfin.
      rewrite Hrun. unfold refine_evidence. rewrite Hst2, Hfin. reflexivity.
Qed.

End Facts.

End ExitFacts.

Module ExitCases.
Import LiveStore Classical Doubles ExitFacts.

(** C4, witness: ten live points with likelihoods 1 to 10. *)
Lemma finish_sampling_spec_witness :
  let lp := map row [1; 2; 3; 4; 5; 6; 7; 8; 9; 10]%float in
  exit_contract np_tropical no_ks_test
    ((fresh_sampler 10 []) <| live_points := Some lp |>) lp true.
Proof.
  intros lp.
  apply (finish_sampling_spec np_tropical no_ks_test
           ((fresh_sampler 10 []) <| live_points := Some lp |>) lp true).
  - reflexivity.
  - reflexivity.
  - vm_compute. discriminate.
  - apply IntegralFacts.initial_shape.
  - intros k Hk. cbn in Hk.
    assert (Hc : (k = 1 \/ k = 2 \/ k = 3 \/ k = 4 \/ k = 5 \/ k = 6 \/ k = 7
                  \/ k = 8 \/ k = 9 \/ k = 10)%Z) by lia.
    repeat (destruct Hc as [->|Hc]; [reflexivity|]). subst k. reflexivity.
  - intros _. split; [reflexivity|cbn; lia].
Defined.

End ExitCases.

(** ** The classical sampler: populating the store *)

Module PopulateFacts.
Import LiveStore Classical ExitFacts.

Section Facts.
Context {F : Type} {num : Number F}.
Context {P : Type} {papi : ProposalAPI F P}.
Context {M : Type} {mapi : ModelAPI F M}.

Ltac split_cases H :=
  repeat match type of H with
  | context [let '(_, _) := ?x in _] => destruct x eqn:?
  | context [if ?b then _ else _] => destruct b eqn:?
  | context [match ?x with Ok _ => _ | Raise _ => _ | Diverge => _ end] =>
      destruct x eqn:?
  | bind ?x _ = _ => destruct x eqn:?; cbn [bind] in H
  end.

Lemma nlive_set_proposal (s : NestedSampler F P M) (p : P) :
  nlive (set_proposal s p) = nlive s.
Proof. apply (core_nlive (proj1 (set_proposal_core s p))). Qed.

Lemma accept_candidate_nlive (s : NestedSampler F P M) (x : LivePoint F) :
  nlive (fst (fst (accept_candidate s x))) = nlive s.
Proof.
  unfold accept_candidate, evaluate_candidate.
  destruct (negb (feqb (logP x) fneginf)); [|reflexivity].
  destruct (feqb (logL x) f0).
  - destruct (model_evaluate_log_likelihood (model s) x) as [m l].
    destruct (fltb _ _); reflexivity.
  - destruct (fltb _ _); reflexivity.
Qed.

(** The rejection loop leaves [nlive] alone. *)
Lemma yield_sample_nlive (fuel : nat) :
  forall (s : NestedSampler F P M) (old : LivePoint F) (c : Z) s' r,
    yield_sample fuel s old c = Ok (s', r) -> nlive s' = nlive s.
Proof.
  induction fuel as [|fuel IH]; intros s old c s' r H; [discriminate|].
  cbn [yield_sample] in H.
  destruct (prop_draw (proposal s) old) as [p newparam].
  match type of H with
  | context [accept_candidate ?a ?b] =>
      pose proof (accept_candidate_nlive a b) as Hn;
      destruct (accept_candidate a b) as [[s1 x1] acc]
  end.
  cbn [fst] in Hn. rewrite nlive_set_proposal in Hn.
  destruct acc.
  - injection H as <- _. exact Hn.
  - destruct (int_true_div 1 (c + 1)) as [rate| |]; try discriminate.
    cbn [bind] in H.
    destruct (fltb rate (acceptance_threshold s1)).
    + injection H as <- _. exact Hn.
    + destruct (negb (prop_populated (proposal s1))).
      * injection H as <- _. exact Hn.
      * apply IH in H. congruence.
Qed.

(** The population loop stops with exactly [nlive] points, each of which
    passed the test. *)
Lemma populate_loop_spec (fuel : nat) :
  forall (s : NestedSampler F P M) (stored : list (LivePoint F)) s' out,
    populate_loop fuel s stored = Ok (s', out) ->
    Forall (fun p => kept_by_populate p = true) stored ->
    (Z.of_nat (length stored) <= nlive s)%Z ->
    Forall (fun p => kept_by_populate p = true) out /\
    Z.of_nat (length out) = nlive s /\
    nlive s' = nlive s.
Proof.
  induction fuel as [|fuel IH]; intros s stored s' out H Hk Hl.
  - cbn [populate_loop] in H.
    destruct (Z.leb_spec (nlive s) (Z.of_nat (length stored))); [|discriminate].
    injection H as <- <-. repeat split; [exact Hk|lia].
  - cbn [populate_loop] in H.
    destruct (Z.leb_spec (nlive s) (Z.of_nat (length stored))) as [Hge|Hlt].
    { injection H as <- <-. repeat split; [exact Hk|lia]. }
    destruct (model_new_point (model s)) as [m seed].
    destruct (yield_sample fuel (s <| model := m |>) seed 0)
      as [[s1 [c live_point]]| |] eqn:Ey; try discriminate.
    cbn [bind] in H.
    apply yield_sample_nlive in Ey. change (nlive s <| model := m |>)
      with (nlive s) in Ey.
    destruct (kept_by_populate live_point) eqn:Ek.
    + apply IH in H.
      * rewrite Ey in H. exact H.
      * apply Forall_app. split; [exact Hk|]. constructor; [exact Ek|constructor].
      * rewrite length_app, Ey. cbn [length]. lia.
    + apply IH in H.
      * rewrite Ey in H. exact H.
      * exact Hk.
      * rewrite Ey. lia.
Qed.

Lemma insert_row_length (p : LivePoint F) (l : list (LivePoint F)) :
  length (insert_row p l) = S (length l).
Proof.
  induction l as [|q l IH]; cbn [insert_row]; [reflexivity|].
  destruct (row_less q p); cbn [length]; rewrite ?IH; reflexivity.
Qed.

Lemma insert_row_Forall (Q : LivePoint F -> Prop) (p : LivePoint F)
  (l : list (LivePoint F)) :
  Q p -> Forall Q l -> Forall Q (insert_row p l).
Proof.
  intros Hp Hl. induction Hl as [|q l Hq Hl IH]; cbn [insert_row].
  - constructor; [exact Hp|constructor].
  - destruct (row_less q p); constructor; auto.
Qed.

Lemma np_sort_length (l : list (LivePoint F)) :
  length (np_sort_logL l) = length l.
Proof.
  induction l as [|p l IH]; cbn [np_sort_logL fold_right length]; [reflexivity|].
  fold (np_sort_logL l). rewrite insert_row_length, IH. reflexivity.
Qed.

Lemma np_sort_Forall (Q : LivePoint F -> Prop) (l : list (LivePoint F)) :
  Forall Q l -> Forall Q (np_sort_logL l).
Proof.
  induction 1 as [|p l Hp Hl IH]; cbn [np_sort_logL fold_right].
  - constructor.
  - apply insert_row_Forall; assumption.
Qed.

Section Order.
Context {laws : NumberLaws F}.

Lemma np_less_asym (a b : F) : np_less a b = true -> np_less b a = false.
Proof.
  unfold np_less. intros H. apply orb_true_iff in H.
  apply orb_false_iff. destruct H as [H|H].
  - destruct (fltb_not_nan _ _ H) as [Ha Hb]. rewrite Ha. split.
    + pose proof (fltb_not_fleb _ _ H) as Hn.
      destruct (fltb b a) eqn:E; [|reflexivity].
      apply fltb_fleb in E. congruence.
    + reflexivity.
  - apply andb_true_iff in H. destruct H as [Hb Ha].
    apply negb_true_iff in Ha. rewrite Hb, Ha. split; [|reflexivity].
    destruct (fltb b a) eqn:E; [|reflexivity].
    destruct (fltb_not_nan _ _ E). congruence.
Qed.

Lemma lex_compare_asym (x : list F) :
  forall y, lex_compare x y = Lt -> lex_compare y x = Gt.
Proof.
  induction x as [|a x IH]; intros [|b y] H; cbn [lex_compare] in *;
    try discriminate; try reflexivity.
  unfold double_compare in *.
  destruct (np_less a b) eqn:Eab.
  - rewrite (np_less_asym _ _ Eab). reflexivity.
  - destruct (np_less b a) eqn:Eba; [discriminate|]. apply IH. exact H.
Qed.

Lemma row_less_asym (p q : LivePoint F) :
  row_less p q = true -> row_less q p = false.
Proof.
  unfold row_less. intros H.
  destruct (lex_compare (sort_key p) (sort_key q)) eqn:E; try discriminate.
  rewrite (lex_compare_asym _ _ E). reflexivity.
Qed.

Lemma row_less_logL (p q : LivePoint F) :
  row_less q p = false -> np_less (logL q) (logL p) = false.
Proof.
  unfold row_less, sort_key. cbn [lex_compare]. unfold double_compare.
  destruct (np_less (logL q) (logL p)); [discriminate|reflexivity].
Qed.

Lemma insert_row_sorted (p : LivePoint F) (l : list (LivePoint F)) :
  Sorted (fun a b => row_less b a = false) l ->
  Sorted (fun a b => row_less b a = false) (insert_row p l).
Proof.
  induction 1 as [|q l Hs IH Hh]; cbn [insert_row].
  - repeat constructor.
  - destruct (row_less q p) eqn:E.
    + constructor; [exact IH|].
      destruct Hh as [|r l' Hr]; cbn [insert_row].
      * constructor. apply row_less_asym. exact E.
      * destruct (row_less r p); constructor;
          [exact Hr|apply row_less_asym; exact E].
    + constructor; [constructor; assumption|]. constructor. exact E.
Qed.

Lemma np_sort_sorted (l : list (LivePoint F)) : np_ascending (np_sort_logL l).
Proof.
  assert (H : Sorted (fun a b => row_less b a = false) (np_sort_logL l)).
  { induction l as [|p l IH]; cbn [np_sort_logL fold_right]; [constructor|].
    apply insert_row_sorted. exact IH. }
  unfold np_ascending.
  induction H as [|q l' Hs IH Hh]; constructor; [exact IH|].
  destruct Hh; constructor. apply row_less_logL. assumption.
Qed.

(** When no likelihood is NaN, NumPy's order is the order of the doubles. *)
Lemma np_ascending_ascending (l : list (LivePoint F)) :
  Forall (fun p => isnan (logL p) = false) l ->
  np_ascending l -> ascending l.
Proof.
  intros Hn Hs. unfold ascending.
  induction Hs as [|q l' Hs IH Hh]; constructor.
  - apply IH. inversion Hn; assumption.
  - destruct Hh as [|r l'' Hr]; constructor. unfold le_logL.
    inversion Hn as [|? ? Hq Hrest]; subst. inversion Hrest; subst.
    apply fleb_total; try assumption.
    unfold np_less in Hr. apply orb_false_iff in Hr. apply Hr.
Qed.

(** C7 (amended): when [populate_live_points] completes, the store holds
    exactly [nlive] points, it is sorted by [logL] in NumPy's order (which is
    the ascending order of the doubles when no [logL] is NaN), and every
    stored point has [logP != -inf] and [logL != -inf]: that is the whole
    test, so NaN (which only logs a warning) and [+inf] are not rejected. *)
Theorem populate_contract (fuel : nat) (s s' : NestedSampler F P M) :
  populate_live_points fuel s = Ok s' ->
  exists lp,
    live_points s' = Some lp /\
    Z.of_nat (length lp) = nlive s /\
    np_ascending lp /\
    (Forall (fun p => isnan (logL p) = false) lp -> ascending lp) /\
    Forall (fun p => kept_by_populate p = true) lp.
Proof.
  unfold populate_live_points. intros H.
  destruct (Z.ltb_spec (nlive s) 0) as [|Hn]; [discriminate|].
  destruct (populate_loop fuel s []) as [[s1 stored]| |] eqn:E; try discriminate.
  cbn [bind] in H. injection H as <-.
  destruct (populate_loop_spec fuel s [] s1 stored E) as (Hk & Hl & _).
  { constructor. }
  { cbn [length]. lia. }
  exists (np_sort_logL stored). split; [reflexivity|].
  split; [rewrite np_sort_length; exact Hl|].
  split; [apply np_sort_sorted|].
  split; [intros Hnan; apply np_ascending_ascending;
          [exact Hnan|apply np_sort_sorted]|].
  apply np_sort_Forall. exact Hk.
Qed.

End Order.

End Facts.

End PopulateFacts.

Module PopulateCases.
Import LiveStore Classical Doubles PopulateFacts.

(** C7, witness: two live points drawn from a tape of candidates with
    likelihoods 3 and 1. *)
Lemma populate_contract_witness :
  let s := fresh_sampler 2
             [ {| params := [3%float]; logP := 0%float; logL := 0%float |};
               {| params := [1%float]; logP := 0%float; logL := 0%float |} ] in
  exists s',
    populate_live_points 5 s = Ok s' /\
    exists lp,
      live_points s' = Some lp /\
      Z.of_nat (length lp) = nlive s /\
      np_ascending lp /\
      (Forall (fun p => isnan (logL p) = false) lp -> ascending lp) /\
      Forall (fun p => kept_by_populate p = true) lp.
Proof.
  intros s. eexists. split; [vm_compute; reflexivity|].
  apply (populate_contract (laws:=NumberFacts.binary64_laws) 5 s).
  vm_compute. reflexivity.
Defined.

(** C7, counterexample: a candidate whose likelihood evaluates to [+inf] is
    stored: the store holds a point whose [logL] is not finite. *)
Lemma populate_keeps_infinite :
  exists (s s' : NestedSampler float (list (LivePoint float)) Z)
         (lp : list (LivePoint float)) (p : LivePoint float),
    populate_live_points 5 s = Ok s' /\
    live_points s' = Some lp /\
    In p lp /\
    isfinite (logL p) = false /\
    finite_point p = false.
Proof.
  exists (fresh_sampler 1
            [ {| params := [infinity]; logP := 0%float; logL := 0%float |} ]).
  eexists. eexists. eexists.
  split; [vm_compute; reflexivity|].
  split; [reflexivity|].
  split; [left; reflexivity|].
  split; reflexivity.
Qed.

End PopulateCases.

(** ** The importance proposal: rows and columns *)

Module RowFacts.
Import Importance.

Ltac bind_inv H :=
  repeat match type of H with
  | bind ?c _ = Ok _ =>
      let E := fresh "E" in
      destruct c eqn:E; cbn [bind] in H; [|discriminate H|discriminate H]
  end.

Ltac bind_step H x E :=
  match type of H with
  | bind ?c _ = Ok _ =>
      destruct c as [x| |] eqn:E; cbn [bind] in H;
      [|discriminate H|discriminate H]
  end.

Section Rows.
Context {F : Type} {num : Number F}.

Lemma get_column_ok (d : list string) (n : string) (a : list (Sample F))
  (v : list F) :
  get_column d n a = Ok v -> v = map (fun s => s n) a.
Proof.
  unfold get_column. destruct (has_field d n); [|discriminate].
  intros H. injection H as <-. reflexivity.
Qed.

Lemma get_column_field (d : list string) (n : string) (a : list (Sample F))
  (v : list F) :
  get_column d n a = Ok v -> has_field d n = true.
Proof.
  unfold get_column. destruct (has_field d n); [reflexivity|discriminate].
Qed.

Lemma set_fields_map (n : string) (g : Sample F -> F) (a : list (Sample F)) :
  set_fields n (map g a) a = map (fun s => upd s n (g s)) a.
Proof.
  induction a as [|s a IH]; [reflexivity|]. cbn. rewrite IH. reflexivity.
Qed.

Lemma set_fields_Forall (P : Sample F -> Prop) (n : string) (vs : list F)
  (a : list (Sample F)) :
  (forall s v, In s a -> In v vs -> P (upd s n v)) ->
  Forall P (set_fields n vs a).
Proof.
  revert a. induction vs as [|v vs IH]; intros a H; [constructor|].
  destruct a as [|s a]; [constructor|]. cbn. constructor.
  - apply H; left; reflexivity.
  - apply IH. intros s' v' Hs Hv. apply H; right; assumption.
Qed.

Lemma set_fields_length (n : string) (vs : list F) (a : list (Sample F)) :
  length vs = length a -> length (set_fields n vs a) = length a.
Proof.
  revert a. induction vs as [|v vs IH]; intros [|s a] H; try discriminate;
    [reflexivity|].
  cbn. rewrite IH; [reflexivity|]. cbn in H. lia.
Qed.

Lemma set_column_Forall (P : Sample F -> Prop) (d : list string) (n : string)
  (vs : list F) (a a' : list (Sample F)) :
  set_column d n vs a = Ok a' ->
  (forall s v, In s a -> In v vs -> P (upd s n v)) ->
  Forall P a'.
Proof.
  unfold set_column. intros H HP.
  destruct (has_field d n); [|discriminate].
  destruct (length vs =? length a).
  - injection H as <-. apply set_fields_Forall. exact HP.
  - destruct vs as [|v [|w vs]]; try discriminate.
    injection H as <-. apply Forall_forall. intros s' Hs'.
    apply in_map_iff in Hs'. destruct Hs' as (s & <- & Hs).
    apply HP; [exact Hs|left; reflexivity].
Qed.

Lemma set_column_length (d : list string) (n : string) (vs : list F)
  (a a' : list (Sample F)) :
  set_column d n vs a = Ok a' -> length a' = length a.
Proof.
  unfold set_column. intros H.
  destruct (has_field d n); [|discriminate].
  destruct (length vs =? length a) eqn:E.
  - injection H as <-. apply set_fields_length. apply Nat.eqb_eq. exact E.
  - destruct vs as [|v [|w vs]]; try discriminate.
    injection H as <-. apply length_map.
Qed.

Lemma set_column_map (d : list string) (n : string) (g : Sample F -> F)
  (a a' : list (Sample F)) :
  set_column d n (map g a) a = Ok a' ->
  a' = map (fun s => upd s n (g s)) a.
Proof.
  unfold set_column. destruct (has_field d n); [|discriminate].
  rewrite length_map, Nat.eqb_refl. intros H. injection H as <-.
  apply set_fields_map.
Qed.

Lemma set_column_no_field (d : list string) (n : string) (vs : list F)
  (a : list (Sample F)) :
  has_field d n = false ->
  set_column d n vs a = Raise (ValueError ("no field of name " ++ n)).
Proof. unfold set_column. intros ->. reflexivity. Qed.

Lemma np_mask_Forall {A : Type} (P : A -> Prop) (m : list bool) (a a' : list A) :
  np_mask m a = Ok a' -> Forall P a -> Forall P a'.
Proof.
  revert a a'. induction m as [|b m IH]; intros [|v a] a' H HP;
    cbn in H; try discriminate.
  - injection H as <-. constructor.
  - destruct (np_mask m a) as [r| |] eqn:E; try discriminate.
    cbn in H. injection H as <-. inversion HP as [|? ? Hv Ha]; subst.
    specialize (IH a r E Ha). destruct b; [constructor|]; assumption.
Qed.

Lemma np_mask_length {A : Type} (m : list bool) (a a' : list A) :
  np_mask m a = Ok a' -> length a' <= length a.
Proof.
  revert a a'. induction m as [|b m IH]; intros [|v a] a' H;
    cbn in H; try discriminate.
  - injection H as <-. cbn. lia.
  - destruct (np_mask m a) as [r| |] eqn:E; try discriminate.
    cbn in H. injection H as <-. specialize (IH a r E).
    destruct b; cbn; lia.
Qed.

Lemma Forall_firstn_keep {A : Type} (P : A -> Prop) (n : nat) (l : list A) :
  Forall P l -> Forall P (firstn n l).
Proof.
  revert l. induction n as [|n IH]; intros [|x l] H; cbn; try constructor.
  - inversion H; assumption.
  - apply IH. inversion H; assumption.
Qed.

Lemma Forall_skipn_keep {A : Type} (P : A -> Prop) (n : nat) (l : list A) :
  Forall P l -> Forall P (skipn n l).
Proof.
  revert l. induction n as [|n IH]; intros [|x l] H; cbn; try assumption.
  apply IH. inversion H; assumption.
Qed.

Lemma py_slice_Forall {A : Type} (P : A -> Prop) (l : list A)
  (start stop : option Z) :
  Forall P l -> Forall P (py_slice l start stop).
Proof.
  intros H. unfold py_slice. apply Forall_firstn_keep, Forall_skipn_keep, H.
Qed.

Lemma py_slice_prefix_length {A : Type} (l : list A) (n : Z) :
  (0 <= n)%Z ->
  (Z.of_nat (length (py_slice l None (Some n))) <= n)%Z.
Proof.
  intros Hn. unfold py_slice. cbn [py_bound]. rewrite Z.sub_0_r.
  change (Z.to_nat 0) with 0. cbn [skipn].
  rewrite length_firstn. unfold py_clip.
  destruct (n <? 0)%Z eqn:E.
  - apply Z.ltb_lt in E. lia.
  - lia.
Qed.

End Rows.

End RowFacts.

(** ** The importance proposal: [draw] and [update_samples] *)

Module ProposalFacts.
Import Importance RowFacts.

Section Facts.
Context {F : Type} {num : Number F}.
Context {Fl : Type} {fapi : FlowAPI F Fl}.
Variable np : NumPy F.
Variable md : ImportanceModel F.

Lemma add_prior_component_ok (p : ImportanceFlowProposal F Fl) (t r : list F) :
  add_prior_component np p t = Ok r ->
  existsb isnan t = false /\
  r = map (np_logaddexp np (initial_log_q p)) t /\
  existsb isnan r = false.
Proof.
  unfold add_prior_component. intros H.
  destruct (existsb isnan t); [discriminate|].
  destruct (existsb isnan (map (np_logaddexp np (initial_log_q p)) t)) eqn:E;
    [discriminate|].
  injection H as <-. auto.
Qed.

Lemma add_prior_component_raise (p : ImportanceFlowProposal F Fl) (t : list F) :
  existsb isnan t
  || existsb isnan (map (np_logaddexp np (initial_log_q p)) t) = true ->
  exists msg, add_prior_component np p t = Raise (ValueError msg).
Proof.
  unfold add_prior_component. intros H.
  destruct (existsb isnan t); [eauto|]. cbn in H. rewrite H. eauto.
Qed.

Lemma existsb_false_Forall {A : Type} (f : A -> bool) (l : list A) :
  existsb f l = false -> Forall (fun x => f x = false) l.
Proof.
  induction l as [|x l IH]; cbn; intros H; constructor;
    apply orb_false_iff in H; [apply H|apply IH, H].
Qed.

(** With the combined proposal every computed [logQ] is at least the prior
    term. *)
Lemma compute_log_Q_bound (p : ImportanceFlowProposal F Fl)
  (x_prime : list (list F)) (log_q : option (list F)) (n : option Z)
  (log_j r : list F) :
  logaddexp_bounds np ->
  combined_proposal p = true ->
  compute_log_Q np p x_prime log_q n log_j = Ok r ->
  Forall (fun v => fleb (initial_log_q p) v = true) r.
Proof.
  intros Hb Hc. unfold compute_log_Q, _compute_log_Q_combined.
  rewrite Hc. intros H. bind_inv H.
  apply add_prior_component_ok in H. destruct H as (_ & -> & Hn).
  apply existsb_false_Forall in Hn.
  apply Forall_forall. intros v Hv.
  rewrite Forall_forall in Hn. specialize (Hn v Hv).
  apply in_map_iff in Hv. destruct Hv as (u & <- & _).
  apply Hb. exact Hn.
Qed.

Section Invariant.
Variable p0 : ImportanceFlowProposal F Fl.
Variable B : F -> Prop.
Hypothesis computed :
  forall (p : ImportanceFlowProposal F Fl) x_prime log_q n log_j r,
    combined_proposal p = combined_proposal p0 ->
    initial_log_q p = initial_log_q p0 ->
    compute_log_Q np p x_prime log_q n log_j = Ok r ->
    Forall B r.

Lemma set_logW_spec (p : ImportanceFlowProposal F Fl) (a a' : list (Sample F)) :
  set_logW p a = Ok a' ->
  a' = map (fun s => upd s "logW" (fopp (s "logQ"%string))) a.
Proof.
  unfold set_logW. intros H. bind_inv H.
  apply get_column_ok in E. subst. rewrite map_map in H.
  apply set_column_map in H. exact H.
Qed.

(** Writing [logQ] from [compute_log_Q] and then [logW]. *)
Lemma set_logQ_logW (p : ImportanceFlowProposal F Fl) (log_Q : list F)
  (a a1 a2 a3 : list (Sample F)) (other : string) (vs : list F) :
  Forall B log_Q ->
  String.eqb "logQ" other = false ->
  set_column (dtype p) "logQ" log_Q a = Ok a1 ->
  set_column (dtype p) other vs a1 = Ok a2 ->
  set_logW p a2 = Ok a3 ->
  Forall (fun s => weight_consistent s /\ B (s "logQ"%string)) a3.
Proof.
  intros Hq Hne H1 H2 H3.
  assert (Q1 : Forall (fun s : Sample F => B (s "logQ"%string)) a1).
  { apply (set_column_Forall _ _ _ _ _ _ H1). intros s v _ Hv.
    rewrite Forall_forall in Hq. unfold upd. cbn. apply Hq, Hv. }
  assert (Q2 : Forall (fun s : Sample F => B (s "logQ"%string)) a2).
  { apply (set_column_Forall _ _ _ _ _ _ H2). intros s v Hs _.
    rewrite Forall_forall in Q1. unfold upd. rewrite Hne. apply Q1, Hs. }
  apply set_logW_spec in H3. subst a3.
  apply Forall_forall. intros s' Hs'. apply in_map_iff in Hs'.
  destruct Hs' as (s & <- & Hs). rewrite Forall_forall in Q2.
  split; [reflexivity|]. unfold upd. cbn. apply Q2, Hs.
Qed.

Lemma draw_batch_spec (p p' : ImportanceFlowProposal F Fl) (n n_draw : Z)
  (logL_min : option F) (r : option (list (Sample F) * Z)) :
  combined_proposal p = combined_proposal p0 ->
  initial_log_q p = initial_log_q p0 ->
  draw_batch np md p n n_draw logL_min = Ok (p', r) ->
  (dtype p' = dtype p /\
   combined_proposal p' = combined_proposal p /\
   initial_log_q p' = initial_log_q p /\
   level_count p' = level_count p /\
   n_draws p' = n_draws p) /\
  match r with
  | Some (xs, m) =>
      Forall (fun s => weight_consistent s /\ B (s "logQ"%string)) xs /\
      (logL_min <> None -> has_field (dtype p) "logl" = true)
  | None => True
  end.
Proof.
  intros Hc Hi. unfold draw_batch.
  destruct (flow_sample_and_log_prob (flow p) n_draw) as [fl [xp lq]].
  destruct (inverse_rescale md xp) as [xs lji].
  destruct (rescale md xs) as [xc lj].
  set (p1 := p <| flow := fl |>).
  assert (S1 : dtype p1 = dtype p /\
               combined_proposal p1 = combined_proposal p /\
               initial_log_q p1 = initial_log_q p /\
               level_count p1 = level_count p /\
               n_draws p1 = n_draws p) by (repeat split; reflexivity).
  intros H.
  bind_step H acc1 A1. bind_step H acc2 A2. bind_step H acc3 A3.
  bind_step H acc4 A4. bind_step H acc5 A5. bind_step H acc A6.
  destruct (negb (existsb (fun b : bool => b) acc)).
  { injection H as <- <-. split; [exact S1|exact I]. }
  bind_step H xs0 M1. bind_step H xp0 M2. bind_step H lj0 M3.
  bind_step H lq0 M4. bind_step H log_Q EQ. bind_step H xs1 W1.
  bind_step H xs2 W2. bind_step H xs3 W3. bind_step H lp G1.
  bind_step H lw G2. bind_step H accept A7.
  destruct (negb (existsb (fun b : bool => b) accept)).
  { injection H as <- <-. split; [exact S1|exact I]. }
  bind_step H xs4 M5.
  assert (Q : Forall (fun s => weight_consistent s /\ B (s "logQ"%string)) xs4).
  { apply (np_mask_Forall _ _ _ _ M5).
    apply (set_logQ_logW p1 log_Q xs0 xs1 xs2 xs3 "logP" (log_prior md xs1));
      auto.
    apply (computed p1 xp0 (Some lq0) (Some n) lj0);
      [exact Hc|exact Hi|exact EQ]. }
  destruct logL_min as [lmin|].
  - bind_step H xs5 W4. bind_step H m G3. injection H as <- <-.
    split; [exact S1|]. split.
    + apply (set_column_Forall _ _ _ _ _ _ W4). intros s v Hs _.
      rewrite Forall_forall in Q. destruct (Q s Hs) as [Qa Qb].
      split; [exact Qa|exact Qb].
    + intros _. unfold set_column in W4.
      destruct (has_field (dtype p1) "logl") eqn:Ef; [|discriminate].
      exact Ef.
  - injection H as <- <-. split; [exact S1|]. split; [exact Q|].
    intros Hn. exfalso. apply Hn. reflexivity.
Qed.

Lemma draw_loop_spec (fuel : nat) :
  forall (p p' : ImportanceFlowProposal F Fl) (n n_draw : Z)
         (logL_min : option F) (samples out : list (Sample F)) (n_accepted : Z),
    combined_proposal p = combined_proposal p0 ->
    initial_log_q p = initial_log_q p0 ->
    draw_loop np md fuel p n n_draw logL_min samples n_accepted = Ok (p', out) ->
    (dtype p' = dtype p /\
     combined_proposal p' = combined_proposal p /\
     initial_log_q p' = initial_log_q p /\
     level_count p' = level_count p /\
     n_draws p' = n_draws p) /\
    (Forall (fun s => weight_consistent s /\ B (s "logQ"%string)) samples ->
     Forall (fun s => weight_consistent s /\ B (s "logQ"%string)) out) /\
    (logL_min <> None -> has_field (dtype p) "logl" = false -> out = samples).
Proof.
  induction fuel as [|fuel IH]; intros p p' n n_draw logL_min samples out acc
    Hc Hi H; cbn [draw_loop] in H;
    destruct ((acc <? n)%Z && (0 <? n_draw)%Z); try discriminate;
    try (injection H as <- <-; repeat split; auto).
  bind_step H pb E. destruct pb as [p1 batch].
  destruct (draw_batch_spec p p1 n n_draw logL_min batch Hc Hi E)
    as ((Sd & Sc & Si & Sl & Sn) & Hb).
  assert (Hc1 : combined_proposal p1 = combined_proposal p0) by congruence.
  assert (Hi1 : initial_log_q p1 = initial_log_q p0) by congruence.
  destruct batch as [[xs m]|].
  - destruct (IH _ _ _ _ _ _ _ _ Hc1 Hi1 H)
      as ((Td & Tc & Ti & Tl & Tn) & Hq & Hl).
    destruct Hb as [Qx Hf].
    split; [repeat split; congruence|]. split.
    + intros Qs. apply Hq. apply Forall_app. split; assumption.
    + intros Hn Hno. specialize (Hf Hn). congruence.
  - destruct (IH _ _ _ _ _ _ _ _ Hc1 Hi1 H)
      as ((Td & Tc & Ti & Tl & Tn) & Hq & Hl).
    split; [repeat split; congruence|]. split; [exact Hq|].
    intros Hn Hno. apply Hl; [exact Hn|congruence].
Qed.

Lemma trim_samples_Forall (P : Sample F -> Prop)
  (p : ImportanceFlowProposal F Fl) (n : Z) (logL_min : option F)
  (samples out : list (Sample F)) :
  trim_samples p n logL_min samples = Ok out ->
  Forall P samples -> Forall P out.
Proof.
  unfold trim_samples. intros H HP. destruct logL_min as [lmin|].
  - bind_step H m E1. bind_step H idx E2. bind_step H u E3. bind_step H m' E4.
    injection H as <-. apply py_slice_Forall, HP.
  - injection H as <-. apply py_slice_Forall, HP.
Qed.

Lemma trim_samples_empty (p : ImportanceFlowProposal F Fl) (n : Z) (lmin : F) :
  is_ok (trim_samples p n (Some lmin) []) = false.
Proof.
  unfold trim_samples, above, get_column.
  destruct (has_field (dtype p) "logL"); reflexivity.
Qed.

Lemma draw_spec (fuel : nat) (p p' : ImportanceFlowProposal F Fl) (n : Z)
  (logL_min : option F) (samples : list (Sample F)) :
  combined_proposal p = combined_proposal p0 ->
  initial_log_q p = initial_log_q p0 ->
  draw np md fuel p n logL_min = Ok (p', samples) ->
  Forall (fun s => weight_consistent s /\ B (s "logQ"%string)) samples /\
  dtype p' = dtype p /\
  combined_proposal p' = combined_proposal p /\
  initial_log_q p' = initial_log_q p /\
  level_count p' = level_count p.
Proof.
  intros Hc Hi. unfold draw. intros H.
  bind_step H n_draw E1. bind_step H requested E2.
  set (p1 := p <| n_requested := requested |>) in *.
  bind_step H ps E3. destruct ps as [p2 drawn].
  destruct (draw_loop_spec fuel p1 p2 n n_draw logL_min [] drawn 0 Hc Hi E3)
    as ((Sd & Sc & Si & Sl & Sn) & Hq & _).
  specialize (Hq (Forall_nil _)).
  bind_step H kept E4.
  pose proof (trim_samples_Forall _ _ _ _ _ _ E4 Hq) as Qk.
  bind_step H total E5.
  set (p3 := p2 <| n_draws := total |>) in *.
  assert (S3 : dtype p3 = dtype p /\
               combined_proposal p3 = combined_proposal p /\
               initial_log_q p3 = initial_log_q p /\
               level_count p3 = level_count p)
    by (repeat split; [exact Sd|exact Sc|exact Si|exact Sl]).
  destruct S3 as (Td & Tc & Ti & Tl).
  bind_step H final E6. bind_step H q E7. injection H as <- <-.
  split; [|repeat split; assumption].
  destruct logL_min as [lmin|].
  - destruct (rescale md kept) as [prime lj].
    bind_step E6 log_Q EQ. bind_step E6 kept1 W1.
    apply set_logW_spec in E6. subst final.
    assert (HQ : Forall B log_Q).
    { apply (computed p3 prime None None lj); congruence. }
    assert (Q1 : Forall (fun s : Sample F => B (s "logQ"%string)) kept1).
    { apply (set_column_Forall _ _ _ _ _ _ W1). intros s v _ Hv.
      rewrite Forall_forall in HQ. unfold upd. cbn. apply HQ, Hv. }
    apply Forall_forall. intros s' Hs'. apply in_map_iff in Hs'.
    destruct Hs' as (s & <- & Hs). rewrite Forall_forall in Q1.
    split; [reflexivity|]. unfold upd. cbn. apply Q1, Hs.
  - injection E6 as <-. exact Qk.
Qed.

End Invariant.

Lemma Forall_trivial {A : Type} (l : list A) : Forall (fun _ => True) l.
Proof. apply Forall_forall. trivial. Qed.

(** With a lower bound on the likelihood, [draw] writes its likelihoods to
    the field [logl]: without such a field it returns nothing. *)
Lemma draw_above_fails (fuel : nat) (p : ImportanceFlowProposal F Fl) (n : Z)
  (lmin : F) :
  has_field (dtype p) "logl" = false ->
  is_ok (draw np md fuel p n (Some lmin)) = false.
Proof.
  intros Hf. destruct (draw np md fuel p n (Some lmin)) as [[p' out]| |] eqn:H;
    [exfalso|reflexivity|reflexivity].
  unfold draw in H.
  bind_step H n_draw E1. bind_step H requested E2.
  set (p1 := p <| n_requested := requested |>) in *.
  bind_step H ps E3. destruct ps as [p2 drawn].
  destruct (draw_loop_spec p1 (fun _ => True) (fun _ _ _ _ _ r _ _ _ => Forall_trivial r)
              fuel p1 p2 n n_draw (Some lmin) [] drawn 0
              eq_refl eq_refl E3) as (_ & _ & He).
  rewrite He in H; [|discriminate|exact Hf].
  pose proof (trim_samples_empty p2 n lmin) as Ht.
  destruct (trim_samples p2 n (Some lmin) []); [discriminate Ht| |];
    discriminate H.
Qed.


Lemma draw_prefix_length (fuel : nat) (p p' : ImportanceFlowProposal F Fl)
  (n : Z) (samples : list (Sample F)) :
  (0 <= n)%Z ->
  draw np md fuel p n None = Ok (p', samples) ->
  (Z.of_nat (length samples) <= n)%Z.
Proof.
  intros Hn. unfold draw. intros H.
  bind_step H n_draw E1. bind_step H requested E2.
  bind_step H ps E3. destruct ps as [p2 drawn].
  cbn [trim_samples bind] in H.
  bind_step H total E5. bind_step H q E7. injection H as _ <-.
  apply py_slice_prefix_length. exact Hn.
Qed.

Lemma Forall2_map_right {A B C : Type} (R : A -> B -> Prop) (g : B -> C)
  (l : list A) (l1 : list B) :
  Forall2 R l l1 ->
  Forall2 (fun a c => exists b, R a b /\ c = g b) l (map g l1).
Proof.
  induction 1 as [|a b l l1 Hab _ IH]; cbn; constructor; eauto.
Qed.

Lemma set_fields_zip (n : string) (op : F -> F -> F) :
  forall (a : list (Sample F)) (vs : list F),
    length vs = length a ->
    Forall2 (fun s s' => exists v, s' = upd s n (op (s n) v)) a
      (set_fields n (map (fun '(u, v) => op u v)
                         (combine (map (fun s => s n) a) vs)) a).
Proof.
  induction a as [|s a IH]; intros [|v vs] H; try discriminate; cbn;
    constructor; [eauto|].
  apply IH. cbn in H. lia.
Qed.

Lemma Forall2_same_map {A B : Type} (R : A -> B -> Prop) (g : A -> B)
  (l : list A) :
  (forall a, R a (g a)) -> Forall2 R l (map g l).
Proof. intros H. induction l; cbn; constructor; auto. Qed.

(** [update_samples] merges a new term into every [logQ] with
    [np.logaddexp] and negates the result into [logW]. *)
Lemma update_samples_spec (p : ImportanceFlowProposal F Fl)
  (samples samples' : list (Sample F)) :
  update_samples np md p samples = Ok samples' ->
  Forall2 (fun s s' =>
             exists v,
               s' "logQ"%string = np_logaddexp np (s "logQ"%string) v /\
               s' "logW"%string = fopp (s' "logQ"%string))
          samples samples'.
Proof.
  unfold update_samples. intros H.
  destruct (level_count p <? 0)%Z; [discriminate|].
  destruct (dict_get (n_draws p) (Level (level_count p))) as [d|e|];
    [|destruct e; discriminate|discriminate].
  destruct (rescale md samples) as [xp lj].
  bind_step H lq E1. bind_step H a E2. bind_step H weight E3.
  bind_step H lw E4. bind_step H old E5. bind_step H merged E6.
  bind_step H s1 E7. apply set_logW_spec in H. subst samples'.
  apply get_column_ok in E5.
  assert (R : Forall2 (fun s s1' : Sample F =>
                         exists v, s1' = upd s "logQ"
                                           (np_logaddexp np (s "logQ"%string) v))
                      samples s1).
  { set (new := vadd_scalar a lw) in *.
    unfold set_column in E7.
    destruct (has_field (dtype p) "logQ"); [|discriminate].
    destruct (length old =? length new) eqn:El.
    - injection E6 as <-. apply Nat.eqb_eq in El.
      assert (Hl : length new = length samples)
        by (rewrite <- El, E5; apply length_map).
      rewrite length_map, length_combine, El, Nat.min_id, Hl, Nat.eqb_refl in E7.
      injection E7 as <-. subst old.
      apply (set_fields_zip "logQ" (np_logaddexp np)). exact Hl.
    - destruct old as [|u [|u' old]].
      + destruct new as [|v [|v' new]]; try discriminate.
        injection E6 as <-. destruct samples; [|discriminate].
        cbn in E7. injection E7 as <-. constructor.
      + destruct new as [|v [|v' new]]; try discriminate.
        * injection E6 as <-. destruct samples as [|s [|s' samples]];
            discriminate.
        * injection E6 as <-. destruct samples as [|s [|s' samples]];
            discriminate.
      + destruct new as [|v [|v' new]]; try discriminate.
        injection E6 as <-.
        change (np_logaddexp np u v :: np_logaddexp np u' v
                  :: map (fun u0 : F => np_logaddexp np u0 v) old)
          with (map (fun u0 : F => np_logaddexp np u0 v) (u :: u' :: old)) in E7.
        rewrite E5, length_map, length_map, Nat.eqb_refl in E7.
        rewrite map_map in E7. injection E7 as <-.
        match goal with
        | |- Forall2 _ _ ?t =>
            assert (Hm : t = map (fun s : Sample F =>
                                    upd s "logQ"
                                      (np_logaddexp np (s "logQ"%string) v))
                                 samples)
              by apply set_fields_map;
            rewrite Hm
        end.
        apply Forall2_same_map. eauto. }
  apply Forall2_map_right
    with (g := fun s : Sample F => upd s "logW" (fopp (s "logQ"%string))) in R.
  eapply Forall2_impl; [|exact R].
  intros s s' (s1' & (v & ->) & ->). exists v. split; reflexivity.
Qed.

Lemma set_fields_merge (n : string) (op : F -> F -> F) :
  forall (a : list (Sample F)) (vs : list F),
    length vs = length a ->
    set_fields n (map (fun '(u, v) => op u v)
                      (combine (map (fun s => s n) a) vs)) a
    = map (fun '(s, v) => upd s n (op (s n) v)) (combine a vs).
Proof.
  induction a as [|s a IH]; intros [|v vs] H; try discriminate;
    [reflexivity|].
  cbn. rewrite IH; [reflexivity|]. cbn in H. lia.
Qed.

Lemma set_column_map_ok (d : list string) (n : string) (g : Sample F -> F)
  (a : list (Sample F)) :
  has_field d n = true ->
  set_column d n (map g a) a = Ok (map (fun s => upd s n (g s)) a).
Proof.
  intros H. unfold set_column. rewrite H, length_map, Nat.eqb_refl.
  rewrite set_fields_map. reflexivity.
Qed.

Lemma set_logW_ok (p : ImportanceFlowProposal F Fl) (a : list (Sample F)) :
  has_field (dtype p) "logQ" = true ->
  has_field (dtype p) "logW" = true ->
  set_logW p a = Ok (map (fun s => upd s "logW" (fopp (s "logQ"%string))) a).
Proof.
  intros Hq Hw. unfold set_logW, get_column. rewrite Hq. cbn [bind].
  rewrite map_map. apply (set_column_map_ok _ _ (fun s => fopp (s "logQ"%string))).
  exact Hw.
Qed.

(** [update_samples] has no test on the values: once a level has been
    built and drawn from, and the new term has the length of the samples,
    it returns, and every sample stores the merged [logQ] and its
    negation. *)
Lemma update_samples_returns (p : ImportanceFlowProposal F Fl)
  (samples : list (Sample F)) (d : Z) (new : list F) :
  (level_count p <? 0)%Z = false ->
  dict_get (n_draws p) (Level (level_count p)) = Ok d ->
  new_log_Q np md p samples = Ok new ->
  length new = length samples ->
  has_field (dtype p) "logQ" = true ->
  has_field (dtype p) "logW" = true ->
  update_samples np md p samples
  = Ok (map (fun '(s, v) => merged_sample np s v) (combine samples new)).
Proof.
  intros Hl Hd Hnew Hlen Hq Hw. unfold update_samples. rewrite Hl, Hd.
  unfold new_log_Q in Hnew. destruct (rescale md samples) as [xp lj].
  bind_step Hnew lq E1. bind_step Hnew a E2. bind_step Hnew weight E3.
  bind_step Hnew lw E4. injection Hnew as <-.
  cbn [bind]. rewrite E2. cbn [bind]. rewrite E4. cbn [bind]. cbv zeta.
  set (new := vadd_scalar a lw) in *.
  unfold get_column at 1. rewrite Hq. cbn [bind].
  assert (C1 : (length (map (fun s : string -> F => s "logQ"%string) samples)
                =? length new) = true).
  { apply Nat.eqb_eq. rewrite length_map. symmetry. exact Hlen. }
  rewrite C1. cbn [bind].
  assert (C2 : (length (map (fun '(u, v) => np_logaddexp np u v)
                          (combine (map (fun s : string -> F => s "logQ"%string)
                                        samples) new))
                =? length samples) = true).
  { apply Nat.eqb_eq. rewrite length_map, length_combine, length_map.
    rewrite Nat.min_l; [reflexivity|].
    exact (eq_ind _ (fun k => length samples <= k) (le_n _) _ (eq_sym Hlen)). }
  unfold set_column at 1. rewrite Hq, C2. cbn [bind].
  rewrite (set_fields_merge "logQ" (np_logaddexp np) samples new Hlen).
  rewrite (set_logW_ok p _ Hq Hw).
  f_equal. rewrite map_map. apply map_ext. intros [s v].
  unfold merged_sample. cbv zeta. f_equal.
Qed.
Section Laws.
Context {laws : NumberLaws F}.

(** C5 (amended): in a level update, every sample that [draw] returns and
    every existing sample that [update_samples] has updated stores in [logW]
    the negation of its [logQ]; with the combined proposal (the default,
    [replace_all] disabled) every new sample has [logQ >= initial_log_q];
    and [update_samples] merges the new term with [np.logaddexp], so it
    does not lower the [logQ] of an existing sample unless the result is
    NaN.  Without the combined proposal the prior term is not part of
    [logQ]. *)
Theorem meta_proposal_consistency (fuel : nat)
  (p p' : ImportanceFlowProposal F Fl) (n : Z) (logL_min : option F)
  (new_points existing existing' : list (Sample F)) :
  draw np md fuel p n logL_min = Ok (p', new_points) ->
  update_samples np md p' existing = Ok existing' ->
  Forall weight_consistent (new_points ++ existing') /\
  (combined_proposal p = true -> logaddexp_bounds np ->
   Forall (above_prior p) new_points) /\
  (logaddexp_bounds np -> Forall2 not_lowered existing existing').
Proof.
  intros Hd Hu.
  pose proof (update_samples_spec p' existing existing' Hu) as R.
  split; [|split].
  - apply Forall_app. split.
    + destruct (draw_spec p (fun _ => True)
                  (fun _ _ _ _ _ r _ _ _ => Forall_trivial r)
                  fuel p p' n logL_min new_points eq_refl eq_refl Hd) as [Q _].
      eapply Forall_impl; [|exact Q]. intros s [Hs _]. exact Hs.
    + clear Hd Hu. induction R as [|s s' l l' (v & _ & Hw) _ IH];
        constructor; assumption.
  - intros Hc Hb.
    destruct (draw_spec p (fun v => fleb (initial_log_q p) v = true)
                (fun q xp lq k lj r Hcq Hiq Hr =>
                   eq_ind _ (fun i => Forall (fun v => fleb i v = true) r)
                     (compute_log_Q_bound q xp lq k lj r Hb
                        (eq_trans Hcq Hc) Hr) _ Hiq)
                fuel p p' n logL_min new_points eq_refl eq_refl Hd) as [Q _].
    eapply Forall_impl; [|exact Q]. intros s [_ Hs]. exact Hs.
  - intros Hb. eapply Forall2_impl; [|exact R].
    intros s s' (v & Hq & _) Hn. rewrite Hq in *. apply Hb. exact Hn.
Qed.

(** C9: the integrator clamps a NaN and does not raise for it; the
    combined [logQ] raises for a NaN; [update_samples] does not.  On a
    well-shaped state [increment] returns exactly when the live-point count
    is usable, whatever [logL] and the numbers involved are, and a returning
    call pushes to [info], when the old [logZ], the new [logZ] and [logL] are
    finite, the information estimate, or [0] when that estimate is NaN, so
    that no NaN enters [info].  [_compute_log_Q_combined] fails with
    [ValueError] exactly when its [logQ] holds a NaN, before or after the
    prior term is added, and returns the [logQ] otherwise.  [update_samples]
    has no such test: once a level has been built and drawn from and the new
    term has the length of the samples, it returns, whatever the values are,
    and every sample stores the [np.logaddexp] of its old [logQ] and the new
    term, NaN or not, and the negation of it in [logW]. *)
Theorem nan_contract :
  (forall (s : Integral.NSintegralState F) (logL : F) (narg : option Z),
      Integral.history_shape s ->
      ((exists s', Integral.increment np s logL narg = Ok s') <->
       Integral.call_usable s (logL, narg) = true) /\
      (forall s',
         Integral.increment np s logL narg = Ok s' ->
         exists logt,
           Integral.neg_one_over
             (match narg with None => Integral.nlive s | Some n => n end)
           = Ok logt /\
           let Wt := fadd (fadd (Integral.logw s) logL)
                          (logsubexp np f0 logt) in
           let i := Integral.information np (Integral.logZ s)
                      (Integral.logZ s') Wt logL
                      (last (Integral.info s) f0) in
           Integral.logZ s' = np_logaddexp np (Integral.logZ s) Wt /\
           Integral.info s' =
             (if isfinite (Integral.logZ s) && isfinite (Integral.logZ s')
                 && isfinite logL
              then Integral.info s ++ [if isnan i then f0 else i]
              else Integral.info s) /\
           (Forall (fun i => isnan i = false) (Integral.info s) ->
            Forall (fun i => isnan i = false) (Integral.info s')))) /\
  (forall (p : ImportanceFlowProposal F Fl) x_prime log_q_j n log_j terms,
      combined_terms np p x_prime log_q_j n log_j = Ok terms ->
      let merged := map (np_logaddexp np (initial_log_q p)) terms in
      (existsb isnan terms || existsb isnan merged = true ->
       exists msg,
         _compute_log_Q_combined np p x_prime log_q_j n log_j
         = Raise (ValueError msg)) /\
      (existsb isnan terms || existsb isnan merged = false ->
       _compute_log_Q_combined np p x_prime log_q_j n log_j = Ok merged)) /\
  (forall (p : ImportanceFlowProposal F Fl) (samples : list (Sample F))
          (d : Z) (new : list F),
      (level_count p <? 0)%Z = false ->
      dict_get (n_draws p) (Level (level_count p)) = Ok d ->
      new_log_Q np md p samples = Ok new ->
      length new = length samples ->
      has_field (dtype p) "logQ" = true ->
      has_field (dtype p) "logW" = true ->
      update_samples np md p samples
      = Ok (map (fun '(s, v) => merged_sample np s v) (combine samples new))).
Proof.
  split; [|split].
  - intros s logL narg Hs. split.
    + apply IntegralFacts.increment_returns_iff. exact Hs.
    + intros s' E.
      destruct (IntegralFacts.increment_ok_spec np s s' logL narg Hs E)
        as (logt & Ht & _ & _ & Hz & Hinfo).
      exists logt. split; [exact Ht|]. cbv zeta.
      split; [exact Hz|]. split; [exact Hinfo|].
      intros Hi. rewrite Hinfo. cbv zeta.
      destruct (isfinite (Integral.logZ s) && isfinite (Integral.logZ s')
                && isfinite logL); [|exact Hi].
      apply Forall_app. split; [exact Hi|]. constructor; [|constructor].
      match goal with
      | |- isnan (if isnan ?w then _ else _) = false =>
          destruct (isnan w) eqn:Ew; [apply isnan_f0|exact Ew]
      end.
  - intros p x_prime log_q_j n log_j terms Ht merged.
    unfold _compute_log_Q_combined. rewrite Ht. cbn [bind]. split; intros E.
    + apply add_prior_component_raise. exact E.
    + apply orb_false_iff in E. destruct E as [E1 E2].
      unfold add_prior_component. rewrite E1. fold merged. rewrite E2.
      reflexivity.
  - apply update_samples_returns.
Qed.

End Laws.

End Facts.

End ProposalFacts.

(** ** The importance sampler: [draw_n_samples] *)

Module SamplerFacts.
Import Importance RowFacts ProposalFacts.

Section Facts.
Context {F : Type} {num : Number F}.
Context {Fl : Type} {fapi : FlowAPI F Fl}.
Variable np : NumPy F.
Variable md : ImportanceModel F.

Lemma log_likelihood_spec (s s' : ImportanceNestedSampler F Fl)
  (samples samples' : list (Sample F)) :
  log_likelihood md s samples = Ok (s', samples') ->
  proposal s' = proposal s /\
  set_column (dtype (proposal s)) "logL"
    (if pool s || negb (has_vectorised_likelihood md)
     then map (evaluate_log_likelihood_row md) samples
     else evaluate_log_likelihood md samples) samples = Ok samples'.
Proof.
  unfold log_likelihood. intros H. destruct (pool s).
  - bind_step H r E. injection H as <- <-. split; [reflexivity|exact E].
  - destruct (has_vectorised_likelihood md);
      bind_step H r E; injection H as <- <-; split; (reflexivity || exact E).
Qed.

Lemma set_other_consistent (d : list string) (name : string) (vs : list F)
  (a a' : list (Sample F)) :
  String.eqb "logW" name = false ->
  String.eqb "logQ" name = false ->
  set_column d name vs a = Ok a' ->
  Forall weight_consistent a -> Forall weight_consistent a'.
Proof.
  intros Hw Hq H Ha. apply (set_column_Forall _ _ _ _ _ _ H).
  intros s v Hs _. rewrite Forall_forall in Ha. specialize (Ha s Hs).
  unfold weight_consistent, upd in *. rewrite Hw, Hq. exact Ha.
Qed.

Lemma values_at_Forall {A : Type} (P : A -> Prop) (i : nat) (idx : list nat)
  (values : list A) :
  Forall P values -> Forall P (values_at i idx values).
Proof.
  revert values. induction idx as [|j idx IH]; intros [|v values] H; cbn;
    try constructor.
  inversion H; subst. destruct (j =? i); [constructor|]; auto.
Qed.

Lemma np_insert_Forall {A : Type} (P : A -> Prop) (a : list A) (idx : list nat)
  (values r : list A) :
  np_insert a idx values = Ok r ->
  Forall P a -> Forall P values -> Forall P r.
Proof.
  unfold np_insert. intros H Ha Hv.
  destruct (negb (length idx =? length values)); [discriminate|].
  destruct (existsb (fun j => length a <? j) idx); [discriminate|].
  injection H as <-. generalize 0. induction Ha as [|u a Hu Ha IH]; intros i; cbn.
  - apply values_at_Forall, Hv.
  - apply Forall_app. split; [apply values_at_Forall, Hv|].
    constructor; [exact Hu|apply IH].
Qed.

Lemma insert_sample_Forall (P : Sample F -> Prop) (fields : list string)
  (r : Sample F) (l : list (Sample F)) :
  P r -> Forall P l -> Forall P (insert_sample fields r l).
Proof.
  intros Hr Hl. induction Hl as [|q l Hq Hl IH]; cbn.
  - constructor; [exact Hr|constructor].
  - destruct (sample_less fields r q); repeat constructor; assumption.
Qed.

Lemma np_sort_order_Forall (P : Sample F -> Prop) (fields : list string)
  (a a' : list (Sample F)) :
  np_sort_order fields a = Ok a' -> Forall P a -> Forall P a'.
Proof.
  unfold np_sort_order. destruct (has_field fields "logL"); [|discriminate].
  intros H Ha. injection H as <-.
  assert (G : forall acc, Forall P acc ->
                Forall P (fold_left (fun acc r => insert_sample fields r acc) a acc)).
  { induction Ha as [|r a Hr Ha IH]; intros acc Hacc; cbn; [exact Hacc|].
    apply IH. apply insert_sample_Forall; assumption. }
  apply G. constructor.
Qed.

Lemma merge_points_Forall (P : Sample F -> Prop) (fields : list string)
  (live new r : list (Sample F)) :
  merge_points fields live new = Ok r ->
  Forall P live -> Forall P new -> Forall P r.
Proof.
  unfold merge_points. intros H Hl Hn.
  bind_step H keys E1. bind_step H values E2.
  apply (np_insert_Forall P _ _ _ _ H Hl Hn).
Qed.

Lemma draw_n_samples_consistent (fuel : nat) (s s' : ImportanceNestedSampler F Fl)
  (n : Z) (new_points : list (Sample F)) :
  draw_n_samples np md fuel s n = Ok (s', new_points) ->
  Forall weight_consistent new_points /\
  live_points s' = live_points s /\
  leaky s' = leaky s /\
  _update_nested_samples s' = _update_nested_samples s /\
  dtype (proposal s') = dtype (proposal s).
Proof.
  unfold draw_n_samples. intros H. bind_step H pd E. destruct pd as [p' drawn].
  destruct (draw_spec np md (proposal s) (fun _ => True)
              (fun _ _ _ _ _ r _ _ _ => Forall_trivial r)
              fuel (proposal s) p' n _ drawn eq_refl eq_refl E)
    as (Q & Hd & _).
  assert (Qd : Forall weight_consistent drawn).
  { eapply Forall_impl; [|exact Q]. intros r [Hr _]. exact Hr. }
  change (leaky (s <| proposal := p' |>)) with (leaky s) in H.
  destruct (leaky s) eqn:El.
  - unfold log_likelihood in H.
    change (pool (s <| proposal := p' |>)) with (pool s) in H.
    change (dtype (proposal (s <| proposal := p' |>))) with (dtype p') in H.
    destruct (pool s); [|destruct (has_vectorised_likelihood md)];
      bind_step H r Er; injection H as <- <-;
      (split; [apply (set_other_consistent _ "logL" _ _ _ eq_refl eq_refl Er Qd)|]);
      repeat split; (exact Hd || exact El).
  - injection H as <- <-. split; [exact Qd|].
    repeat split; (exact Hd || exact El).
Qed.

Lemma update_live_points_consistent (s s' : ImportanceNestedSampler F Fl) :
  update_live_points np md s = Ok s' ->
  match live_points s' with
  | Some lp => Forall weight_consistent lp
  | None => live_points s = None
  end /\
  leaky s' = leaky s /\
  _update_nested_samples s' = _update_nested_samples s /\
  proposal s' = proposal s /\
  min_logL s' = min_logL s.
Proof.
  unfold update_live_points. intros H.
  destruct (live_points s) as [lp|] eqn:El.
  - bind_step H lp' E. injection H as <-. cbn. split; [|repeat split].
    pose proof (update_samples_spec np md _ _ _ E) as R. clear E El.
    induction R as [|a b l l' (v & _ & Hw) _ IH]; constructor; assumption.
  - injection H as <-. rewrite El. repeat split.
Qed.

(** After [add_and_update_points], every live point stores in [logW] the
    negation of its [logQ]. *)
Lemma add_and_update_points_consistent (fuel : nat)
  (s s' : ImportanceNestedSampler F Fl) (n : Z) :
  add_and_update_points np md fuel s n = Ok s' ->
  exists lp, live_points s' = Some lp /\ Forall weight_consistent lp.
Proof.
  unfold add_and_update_points. intros H.
  bind_step H sd E1. destruct sd as [s1 drawn].
  destruct (draw_n_samples_consistent fuel s s1 n drawn E1)
    as (Qd & _ & _ & _ & _).
  bind_step H sorted E2.
  pose proof (np_sort_order_Forall _ _ _ _ E2 Qd) as Qs.
  bind_step H stamped E3.
  assert (Qt : Forall weight_consistent stamped).
  { destruct (of_int (iteration s1)); [|discriminate].
    apply (set_other_consistent _ "it" _ _ _ eq_refl eq_refl E3 Qs). }
  bind_step H lw E4. bind_step H s2 E5.
  destruct (update_live_points_consistent s1 s2 E5) as (Ql & _ & _ & _ & _).
  bind_step H s3 E6.
  assert (L3 : live_points s3 = live_points s2).
  { destruct (_update_nested_samples s2).
    - unfold update_nested_samples in E6. bind_step E6 ns E7.
      injection E6 as <-. reflexivity.
    - injection E6 as <-. reflexivity. }
  set (s4 := s3 <| history_n_added :=
                     history_n_added s3 ++ [Z.of_nat (length stamped)] |>) in *.
  change (leaky s4) with (leaky s3) in H.
  change (live_points s4) with (live_points s3) in H.
  change (min_logL s4) with (min_logL s3) in H.
  change (proposal s4) with (proposal s3) in H.
  rewrite L3 in *.
  destruct (leaky s3).
  - destruct (live_points s2) as [lp|].
    + bind_step H lp' E8. injection H as <-. exists lp'. split; [reflexivity|].
      apply (merge_points_Forall _ _ _ _ _ E8 Ql Qt).
    + injection H as <-. exists stamped. split; [reflexivity|exact Qt].
  - bind_step H m E9. bind_step H k E10.
    change (live_points (add_to_nested_samples s4
                           (py_slice stamped None (Some k))))
      with (live_points s3) in H.
    rewrite L3 in H.
    destruct (live_points s2) as [lp|]; [|discriminate].
    bind_step H lp' E8. injection H as <-. exists lp'. split; [reflexivity|].
    apply (merge_points_Forall _ _ _ _ _ E8 Ql).
    apply py_slice_Forall, Qt.
Qed.

(** C6: with [leaky] disabled, [draw] writes the likelihoods of a batch to
    the field [logl], which the dtype does not have (unless the model has a
    parameter of that name): [draw_n_samples] and [add_and_update_points]
    return nothing.  With [leaky] enabled [draw_n_samples] returns the
    samples of an unconstrained [draw], at most [n] of them, with the
    model's likelihood written to [logL]. *)
Theorem draw_n_samples_contract (fuel : nat) (s : ImportanceNestedSampler F Fl)
  (n : Z) :
  (leaky s = false ->
   has_field (dtype (proposal s)) "logl" = false ->
   is_ok (draw_n_samples np md fuel s n) = false /\
   is_ok (add_and_update_points np md fuel s n) = false) /\
  (leaky s = true ->
   forall s' new_points,
     draw_n_samples np md fuel s n = Ok (s', new_points) ->
     exists p' drawn,
       draw np md fuel (proposal s) n None = Ok (p', drawn) /\
       proposal s' = p' /\
       ((0 <= n)%Z -> (Z.of_nat (length drawn) <= n)%Z) /\
       length new_points = length drawn /\
       set_column (dtype p') "logL"
         (if pool s || negb (has_vectorised_likelihood md)
          then map (evaluate_log_likelihood_row md) drawn
          else evaluate_log_likelihood md drawn) drawn = Ok new_points).
Proof.
  split.
  - intros Hl Hf.
    assert (Hd : is_ok (draw_n_samples np md fuel s n) = false).
    { unfold draw_n_samples. rewrite Hl. cbn [negb].
      pose proof (draw_above_fails np md fuel (proposal s) n (min_logL s) Hf)
        as Hd.
      destruct (draw np md fuel (proposal s) n (Some (min_logL s)));
        [discriminate Hd|reflexivity|reflexivity]. }
    split; [exact Hd|].
    unfold add_and_update_points.
    destruct (draw_n_samples np md fuel s n);
      [discriminate Hd|reflexivity|reflexivity].
  - intros Hl s' new_points. unfold draw_n_samples. rewrite Hl. cbn [negb].
    intros H. bind_step H pd E. destruct pd as [p' drawn].
    change (leaky (s <| proposal := p' |>)) with (leaky s) in H.
    rewrite Hl in H. apply log_likelihood_spec in H.
    destruct H as [Hp Hs]. exists p', drawn.
    split; [reflexivity|]. split; [exact Hp|].
    split; [intros Hn; apply (draw_prefix_length np md fuel _ _ _ _ Hn E)|].
    split; [apply (set_column_length _ _ _ _ _ Hs)|exact Hs].
Qed.

End Facts.

End SamplerFacts.

(** ** The importance sampler on concrete inputs *)

Module ImportanceCases.
Import Importance ImportanceDoubles RowFacts ProposalFacts SamplerFacts.

Lemma tropical_logaddexp_bounds {F : Type} {num : Number F}
  {laws : NumberLaws F} : logaddexp_bounds (np_tropical (F:=F)).
Proof.
  intros a b. cbn. unfold fmax_nan.
  destruct (isnan a) eqn:Ea; cbn; [rewrite isnan_fnan; discriminate|].
  destruct (isnan b) eqn:Eb; cbn; [rewrite isnan_fnan; discriminate|].
  destruct (fltb a b) eqn:E; intros _.
  - apply fltb_fleb. exact E.
  - apply fleb_total; try assumption.
    destruct (fltb a a) eqn:Eaa; [|reflexivity].
    pose proof (fltb_fleb _ _ Eaa) as H1.
    pose proof (fltb_not_fleb _ _ Eaa) as H2. congruence.
Defined.

(** C5, witness: one sample drawn from a level of the combined proposal
    with log-density [-5], and one existing sample updated. *)
Lemma meta_proposal_consistency_witness :
  let p := level_zero true {| flows := 1; density := (-5)%float |} 0 in
  exists p' new_points existing',
    draw np_tropical line_model 5 p 1 None = Ok (p', new_points) /\
    update_samples np_tropical line_model p' [row_of 0%float] = Ok existing' /\
    Forall weight_consistent (new_points ++ existing') /\
    Forall (above_prior p) new_points /\
    Forall2 not_lowered [row_of 0%float] existing'.
Proof.
  intros p. eexists. eexists. eexists.
  assert (laws : NumberLaws float) by exact NumberFacts.binary64_laws.
  match goal with
  | |- ?G1 /\ ?G2 /\ _ =>
      assert (E1 : G1) by (vm_compute; reflexivity);
      assert (E2 : G2) by (vm_compute; reflexivity)
  end.
  split; [exact E1|]. split; [exact E2|].
  destruct (meta_proposal_consistency np_tropical line_model 5 p _ 1 None
              _ [row_of 0%float] _ E1 E2) as (A & B & C).
  split; [exact A|]. split.
  - apply B; [reflexivity|apply tropical_logaddexp_bounds].
  - apply C. apply tropical_logaddexp_bounds.
Defined.

(** C5, counterexample: without the combined proposal ([replace_all]
    enabled) a sample drawn from a level with log-density [-5] has
    [logQ = -5 + 0 + log 1], below [initial_log_q = log 1 = 0]. *)
Lemma independent_logQ_below_prior :
  exists (p p' : ImportanceFlowProposal float flat_flow)
         (new_points : list (Sample float)) (s : Sample float),
    combined_proposal p = false /\
    draw np_tropical line_model 5 p 1 None = Ok (p', new_points) /\
    In s new_points /\
    s "logQ"%string = (-5)%float /\
    initial_log_q p = 0%float /\
    fleb (initial_log_q p) (s "logQ"%string) = false.
Proof.
  exists (level_zero false {| flows := 1; density := (-5)%float |} 0).
  eexists. eexists. eexists.
  split; [reflexivity|].
  split; [vm_compute; reflexivity|].
  split; [left; reflexivity|].
  split; [vm_compute; reflexivity|].
  split; reflexivity.
Qed.

(** A whole level update on the stand-ins, from a proposal as
    [get_proposal] builds it: a flow is trained, one sample is drawn and
    merged into the live points, and both live points are consistent. *)
Lemma level_update_runs :
  let fl := {| flows := 0; density := (-5)%float |} in
  exists s' lp,
    (p <- get_proposal np_tropical all_fields fl 1 false ;;
     update_and_add np_tropical line_model 5
       ((first_level true fl) <| proposal := p |>) 1) = Ok s' /\
    iteration s' = 1%Z /\
    level_count (proposal s') = 0%Z /\
    live_points s' = Some lp /\
    length lp = 2 /\
    Forall weight_consistent lp.
Proof.
  intros fl. eexists. eexists.
  split; [vm_compute; reflexivity|].
  split; [reflexivity|]. split; [reflexivity|]. split; [reflexivity|].
  split; [reflexivity|].
  repeat constructor.
Qed.

(** C6, witness: a sampler at its first level, without and with
    [leaky]. *)
Lemma draw_n_samples_contract_witness :
  let fl := {| flows := 1; density := (-5)%float |} in
  (is_ok (draw_n_samples np_tropical line_model 5 (first_level false fl) 1)
   = false /\
   is_ok (add_and_update_points np_tropical line_model 5 (first_level false fl) 1)
   = false) /\
  exists s' new_points p' drawn,
    draw_n_samples np_tropical line_model 5 (first_level true fl) 1
    = Ok (s', new_points) /\
    draw np_tropical line_model 5 (proposal (first_level true fl)) 1 None
    = Ok (p', drawn) /\
    length new_points = length drawn.
Proof.
  intros fl. split.
  - apply (draw_n_samples_contract np_tropical line_model 5
             (first_level false fl) 1); reflexivity.
  - eexists. eexists.
    assert (E : draw_n_samples np_tropical line_model 5 (first_level true fl) 1
                = Ok _) by (vm_compute; reflexivity).
    destruct (proj2 (draw_n_samples_contract np_tropical line_model 5
                       (first_level true fl) 1) eq_refl _ _ E)
      as (p' & drawn & Hd & _ & _ & Hl & _).
    exists p', drawn. split; [exact E|]. split; [exact Hd|exact Hl].
Defined.

(** C9, witness: three increments after [reset], in an environment whose
    exponential vanishes below zero.  The second pushes an infinite
    information (an overflow); in the third the estimate is [0 * inf], a
    NaN, and [0] is pushed in its place.  Then a [logQ] of the combined
    proposal without NaN, and an [update_samples] that stores the NaN which
    the flow gives as log-density. *)
Lemma nan_contract_witness :
  (exists s2 s3,
      Integral.increments np_step (Integral.initial 10)
        [(0x1.8p+1023%float, None); (0x1.8p+1023%float, None)] = Ok s2 /\
      Integral.info s2 = [0%float; infinity] /\
      Integral.increment np_step s2 0x1.cp+1023%float None = Ok s3 /\
      isnan (Integral.information np_step (Integral.logZ s2) (Integral.logZ s3)
               (fadd (fadd (Integral.logw s2) 0x1.cp+1023%float)
                     (logsubexp np_step f0 (fdiv (fopp f1) 10%float)))
               0x1.cp+1023%float infinity) = true /\
      Integral.info s3 = [0%float; infinity; 0%float]) /\
  _compute_log_Q_combined np_tropical
    (level_zero true {| flows := 1; density := (-5)%float |} 1)
    [[0%float]] (Some [(-5)%float]) (Some 1%Z) [0%float]
  = Ok [0%float] /\
  (exists s',
      update_samples np_tropical line_model
        (level_zero true {| flows := 1; density := nan |} 1) [row_of 0%float]
      = Ok [s'] /\
      isnan (s' "logQ"%string) = true /\
      isnan (s' "logW"%string) = true).
Proof.
  destruct (nan_contract np_step line_model (laws:=NumberFacts.binary64_laws)
              (Fl:=flat_flow)) as (Hi & _ & _).
  destruct (nan_contract np_tropical line_model (laws:=NumberFacts.binary64_laws)
              (Fl:=flat_flow)) as (_ & Hq & Hu).
  split; [|split].
  - eexists. eexists.
    match goal with
    | |- ?G /\ _ => assert (E2 : G) by (vm_compute; reflexivity)
    end.
    split; [exact E2|]. split; [reflexivity|].
    match goal with
    | |- ?G /\ _ => assert (E3 : G) by (vm_compute; reflexivity)
    end.
    split; [exact E3|]. split; [vm_compute; reflexivity|].
    match type of E3 with
    | Integral.increment _ ?s2 ?L _ = Ok ?s3 =>
        destruct (proj2 (Hi s2 L None
                           (proj2 (IntegralFacts.increments_ok_shape np_step
                                     _ _ s2 (IntegralFacts.initial_shape 10)
                                     E2)))
                        s3 E3) as (logt & Ht & _ & Hinfo & _)
    end.
    vm_compute in Ht. injection Ht as <-.
    rewrite Hinfo. vm_compute. reflexivity.
  - exact (proj2 (Hq (level_zero true {| flows := 1; density := (-5)%float |} 1)
                     [[0%float]] (Some [(-5)%float]) (Some 1%Z) [0%float]
                     [(-5)%float] eq_refl) eq_refl).
  - exists (merged_sample np_tropical (row_of 0%float) nan).
    split; [|split; vm_compute; reflexivity].
    assert (H1 : dict_get
                   (n_draws (level_zero true {| flows := 1; density := nan |} 1))
                   (Level (level_count
                             (level_zero true {| flows := 1; density := nan |} 1)))
                 = Ok 1%Z) by (vm_compute; reflexivity).
    assert (H2 : new_log_Q np_tropical line_model
                   (level_zero true {| flows := 1; density := nan |} 1)
                   [row_of 0%float] = Ok [nan]) by (vm_compute; reflexivity).
    exact (Hu (level_zero true {| flows := 1; density := nan |} 1)
              [row_of 0%float] 1%Z [nan] eq_refl H1 H2 eq_refl eq_refl eq_refl).
Defined.

(** C9, the failing input: the flow gives NaN as log-density of an
    existing sample; [update_samples] raises nothing and records NaN as the
    sample's [logQ] and [logW]. *)
Lemma update_samples_records_nan :
  exists (p : ImportanceFlowProposal float flat_flow)
         (s' : Sample float),
    update_samples np_tropical line_model p [row_of 0%float] = Ok [s'] /\
    isnan (s' "logQ"%string) = true /\
    isnan (s' "logW"%string) = true.
Proof.
  exists (level_zero true {| flows := 1; density := nan |} 1).
  eexists. split; [vm_compute; reflexivity|].
  split; vm_compute; reflexivity.
Qed.

End ImportanceCases.
(** ** The classical sampler: one iteration *)

Module IterationFacts.
Import LiveStore Classical ClassicalFrames ArrayFacts LiveStoreFacts.

Ltac case_head H :=
  match type of H with (if ?b then _ else _) = _ => destruct b eqn:? end.

Ltac res_step H x E :=
  match type of H with
  | bind ?c _ = Ok _ =>
      destruct c as [x| |] eqn:E; cbn [bind] in H;
      [|discriminate H|discriminate H]
  end.

Section Facts.
Context {F : Type} {num : Number F}.
Context {P : Type} {papi : ProposalAPI F P}.
Context {M : Type} {mapi : ModelAPI F M}.
Variable np : NumPy F.
Variable compute_indices_ks_test : list Z -> Z -> F * option F.

Lemma drawing_writes_refl (s : NestedSampler F P M) : drawing_writes s s.
Proof. unfold drawing_writes. destruct s; reflexivity. Qed.

Lemma drawing_writes_trans (a b c : NestedSampler F P M) :
  drawing_writes a b -> drawing_writes b c -> drawing_writes a c.
Proof.
  unfold drawing_writes. intros Hab Hbc.
  rewrite Hbc. rewrite Hab at 1. reflexivity.
Qed.

Lemma set_proposal_writes (s : NestedSampler F P M) (p : P) :
  drawing_writes s (set_proposal s p).
Proof.
  unfold drawing_writes, set_proposal. destruct s, using_flow; reflexivity.
Qed.

Lemma accept_candidate_spec (s s' : NestedSampler F P M) (x x' : LivePoint F)
  (acc : bool) :
  accept_candidate s x = (s', x', acc) ->
  drawing_writes s s' /\
  logP x' = logP x /\
  (if acc
   then fltb (logLmin s) (logL x') = true /\
        feqb (logP x') fneginf = false /\
        logLmax s' = py_max (logLmax s) (logL x')
   else logLmax s' = logLmax s).
Proof.
  unfold accept_candidate, evaluate_candidate, drawing_writes. intros H.
  destruct (feqb (logP x) fneginf) eqn:Ep; cbn [negb] in H; cbv iota in H.
  - inversion H; subst. repeat split. destruct s'; reflexivity.
  - destruct (feqb (logL x) f0).
    + destruct (model_evaluate_log_likelihood (model s) x) as [m l].
      match type of H with
      | context [if ?b then _ else _] => destruct b eqn:El
      end; inversion H; subst; clear H; cbn in El |- *;
        (split; [first [destruct s|destruct s']; reflexivity|]); split; try reflexivity;
        repeat split; assumption.
    + match type of H with
      | context [if ?b then _ else _] => destruct b eqn:El
      end; inversion H; subst; clear H; cbn in El |- *;
        (split; [first [destruct s|destruct s']; reflexivity|]); split; try reflexivity;
        repeat split; assumption.
Qed.

Lemma yield_sample_spec (fuel : nat) :
  forall (s s' : NestedSampler F P M) (oldparam x : LivePoint F) (c counter : Z),
    yield_sample fuel s oldparam c = Ok (s', (counter, x)) ->
    drawing_writes s s' /\
    (c < counter)%Z /\
    ((fltb (logLmin s) (logL x) = true /\
      feqb (logP x) fneginf = false /\
      logLmax s' = py_max (logLmax s) (logL x)) \/
     (x = oldparam /\ logLmax s' = logLmax s)).
Proof.
  induction fuel as [|fuel IH]; intros s s' old x c counter H; [discriminate|].
  cbn [yield_sample] in H.
  destruct (prop_draw (proposal s) old) as [p newparam].
  pose proof (set_proposal_writes s p) as W0.
  set (s0 := set_proposal s p) in *.
  match type of H with
  | context [accept_candidate ?a ?b] =>
      destruct (accept_candidate a b) as [[s1 x1] acc] eqn:Ea
  end.
  apply accept_candidate_spec in Ea. destruct Ea as (W1 & _ & Ha).
  pose proof (drawing_writes_trans _ _ _ W0 W1) as W.
  assert (Hmin : logLmin s0 = logLmin s) by (rewrite W0; reflexivity).
  assert (Hmax : logLmax s0 = logLmax s)
    by (unfold s0, set_proposal; destruct (using_flow s); reflexivity).
  destruct acc.
  - injection H as <- <- <-. split; [exact W|]. split; [lia|].
    left. rewrite <- Hmin, <- Hmax. exact Ha.
  - res_step H rate Er.
    destruct (fltb rate (acceptance_threshold s1)).
    + injection H as <- <- <-. split.
      * eapply drawing_writes_trans; [exact W|].
        unfold drawing_writes. destruct s1; reflexivity.
      * split; [lia|]. right. split; [reflexivity|]. cbn. congruence.
    + destruct (negb (prop_populated (proposal s1))).
      * injection H as <- <- <-. split; [exact W|]. split; [lia|].
        right. split; [reflexivity|congruence].
      * apply IH in H. destruct H as (W2 & Hc & Hx).
        split; [eapply drawing_writes_trans; eassumption|].
        split; [lia|].
        assert (Hmin1 : logLmin s1 = logLmin s) by (rewrite W; reflexivity).
        rewrite Hmin1 in Hx.
        replace (logLmax s1) with (logLmax s) in Hx by congruence.
        exact Hx.
Qed.

(** X1: [yield_sample], as its callers start it, hands back either a
    candidate whose [logL] is strictly above [logLmin] and whose [logP] is
    not [-inf], in which case [logLmax] has taken it into account, or the old
    point itself, with [logLmax] as it was; the counter it returns is the
    number of draws made, at least one; and it writes nothing of the sampler
    but the model, the proposals, [logLmax] and [max_count]. *)
Theorem yield_sample_contract (fuel : nat) (s s' : NestedSampler F P M)
  (oldparam x : LivePoint F) (counter : Z) :
  yield_sample fuel s oldparam 0 = Ok (s', (counter, x)) ->
  drawing_writes s s' /\
  (1 <= counter)%Z /\
  ((fltb (logLmin s) (logL x) = true /\
    feqb (logP x) fneginf = false /\
    logLmax s' = py_max (logLmax s) (logL x)) \/
   (x = oldparam /\ logLmax s' = logLmax s)).
Proof.
  intros H.
  destruct (yield_sample_spec fuel s s' oldparam x 0 counter H)
    as (W & Hc & Hx).
  split; [exact W|]. split; [lia|exact Hx].
Qed.

Lemma training_writes_refl (s : NestedSampler F P M) : training_writes s s.
Proof. unfold training_writes. destruct s; reflexivity. Qed.

Lemma training_writes_trans (a b c : NestedSampler F P M) :
  training_writes a b -> training_writes b c -> training_writes a c.
Proof.
  unfold training_writes. intros Hab Hbc.
  rewrite Hbc. rewrite Hab at 1. reflexivity.
Qed.

Lemma set_proposal_training (s : NestedSampler F P M) (p : P) :
  training_writes s (set_proposal s p).
Proof.
  unfold training_writes, set_proposal. destruct s, using_flow; reflexivity.
Qed.

Lemma train_proposal_writes (s s' : NestedSampler F P M) :
  train_proposal s = Ok s' -> training_writes s s'.
Proof.
  unfold train_proposal. intros H.
  match type of H with
  | context [training_set ?a] => set (s0 := a) in *
  end.
  assert (W0 : training_writes s s0).
  { unfold s0. destruct (_ && _);
      [apply set_proposal_training|apply training_writes_refl]. }
  res_step H data E.
  injection H as <-.
  eapply training_writes_trans; [exact W0|].
  match goal with
  | |- training_writes _ (if _ then checkpoint ?a else _) =>
      assert (W1 : training_writes s0 a)
  end.
  { apply (training_writes_trans _
             (set_proposal s0 (prop_train (proposal s0) data)));
      [apply set_proposal_training|].
    unfold training_writes.
    destruct (set_proposal s0 (prop_train (proposal s0) data)); reflexivity. }
  match goal with
  | |- training_writes _ (if ?b then _ else _) => destruct b
  end; [|exact W1].
  eapply training_writes_trans; [exact W1|].
  unfold training_writes, checkpoint, emit.
  match goal with |- _ = ?a <| using_flow := _ |> <| _ := _ |> <| _ := _ |>
                        <| _ := _ |> <| _ := _ |> <| _ := _ |> <| _ := _ |>
                        <| _ := _ |> <| _ := _ |> <| _ := _ |> =>
    destruct a end.
  reflexivity.
Qed.

Lemma check_state_writes (s s' : NestedSampler F P M) (force rejected : bool) :
  check_state np s force rejected = Ok s' -> training_writes s s'.
Proof.
  unfold check_state. intros H. res_step H r E.
  destruct r as [s0|]; [|injection H as <-; apply training_writes_refl].
  assert (W0 : training_writes s s0).
  { destruct (uninformed_sampling s).
    - destruct (_ || _); [|discriminate].
      destruct (prop_pool (proposal s)); [discriminate|].
      injection E as <-.
      match goal with
      | |- training_writes _ (?a <| uninformed_sampling := false |>) =>
          apply (training_writes_trans _ a);
          [|unfold training_writes; destruct a; reflexivity]
      end.
      apply (training_writes_trans _ (s <| using_flow := true |>));
        [|apply set_proposal_training].
      unfold training_writes. destruct s; reflexivity.
    - injection E as <-. apply training_writes_refl. }
  res_step H train Et.
  match type of H with (if ?b then _ else _) = _ => destruct b end.
  - match type of H with (if ?b then _ else _) = _ => destruct b end;
      [injection H as <-; exact W0|].
    destruct (resumed s0).
    + injection H as <-. eapply training_writes_trans; [exact W0|].
      unfold training_writes. destruct s0; reflexivity.
    + eapply training_writes_trans; [exact W0|].
      apply train_proposal_writes. exact H.
  - injection H as <-. exact W0.
Qed.

Lemma replacing_writes_trans (a b c : NestedSampler F P M) :
  replacing_writes a b -> replacing_writes b c -> replacing_writes a c.
Proof.
  unfold replacing_writes. intros Hab Hbc.
  rewrite Hbc. rewrite Hab at 1. reflexivity.
Qed.

Lemma drawing_replacing (a b : NestedSampler F P M) :
  drawing_writes a b -> replacing_writes a b.
Proof.
  unfold drawing_writes, replacing_writes. intros H. rewrite H.
  destruct a; reflexivity.
Qed.

Lemma training_replacing (a b : NestedSampler F P M) :
  training_writes a b -> replacing_writes a b.
Proof.
  unfold training_writes, replacing_writes. intros H. rewrite H.
  destruct a; reflexivity.
Qed.

(** The replacement loop ends with the insertion of a point above
    [logLmin]. *)
Lemma replace_worst_spec (fuel : nat) :
  forall (s s' : NestedSampler F P M) (worst : LivePoint F) (count total : Z)
         (lp : list (LivePoint F)),
    replace_worst np fuel s worst count = Ok (s', total) ->
    live_points s = Some lp ->
    replacing_writes s s' /\
    exists proposed lp' index,
      fltb (logLmin s) (logL proposed) = true /\
      insert_live_point lp proposed = Ok (lp', index) /\
      live_points s' = Some lp' /\
      insertion_indices s' = insertion_indices s ++ [index] /\
      accepted s' = (accepted s + 1)%Z /\
      (rejected s <= rejected s')%Z.
Proof.
  induction fuel as [|fuel IH]; intros s s' worst count total lp H Hlp;
    [discriminate|].
  cbn [replace_worst] in H.
  res_step H r Ey. destruct r as [s1 [c proposed]].
  apply yield_sample_spec in Ey. destruct Ey as (W1 & _ & _).
  assert (Hlp1 : live_points s1 = Some lp) by (rewrite W1; exact Hlp).
  assert (Hmin1 : logLmin s1 = logLmin s) by (rewrite W1; reflexivity).
  assert (Hi1 : insertion_indices s1 = insertion_indices s)
    by (rewrite W1; reflexivity).
  assert (Ha1 : accepted s1 = accepted s) by (rewrite W1; reflexivity).
  assert (Hr1 : rejected s1 = rejected s) by (rewrite W1; reflexivity).
  apply drawing_replacing in W1.
  destruct (fltb (logLmin s1) (logL proposed)) eqn:Ef.
  - unfold get_live_points in H. rewrite Hlp1 in H. cbn [bind] in H.
    res_step H ins Ei. destruct ins as [lp' index].
    res_step H rate Er. injection H as <- <-.
    split.
    + eapply replacing_writes_trans; [exact W1|].
      unfold replacing_writes. destruct s1; reflexivity.
    + exists proposed, lp', index. rewrite <- Hmin1.
      split; [exact Ef|]. split; [exact Ei|]. cbn.
      split; [reflexivity|]. rewrite Hi1, Ha1, Hr1.
      split; [reflexivity|]. split; [reflexivity|lia].
  - set (s2 := s1 <| rejected := (rejected s1 + 1)%Z |>) in *.
    res_step H s3 Ec. apply check_state_writes in Ec.
    match type of H with
    | replace_worst _ _ ?a _ _ = _ => set (s4 := a) in *
    end.
    assert (W4 : training_writes s3 s4).
    { unfold s4. destruct (block_iteration s3 =? 0)%Z;
        [|apply training_writes_refl].
      unfold training_writes. destruct s3; reflexivity. }
    pose proof (training_writes_trans _ _ _ Ec W4) as W24.
    assert (Hlp4 : live_points s4 = Some lp) by (rewrite W24; exact Hlp1).
    destruct (IH s4 s' worst _ total lp H Hlp4)
      as (W & final & lp' & index & Hf & Hins & Hl & Hi & Ha & Hr).
    split.
    + eapply replacing_writes_trans; [exact W1|].
      eapply replacing_writes_trans; [|exact W].
      eapply replacing_writes_trans;
        [|apply training_replacing; exact W24].
      unfold replacing_writes, s2. destruct s1; reflexivity.
    + exists final, lp', index.
      assert (Hmin4 : logLmin s4 = logLmin s)
        by (rewrite W24; exact Hmin1).
      assert (Hi4 : insertion_indices s4 = insertion_indices s)
        by (rewrite W24; exact Hi1).
      assert (Ha4 : accepted s4 = accepted s) by (rewrite W24; exact Ha1).
      assert (Hr4 : rejected s4 = (rejected s + 1)%Z)
        by (rewrite W24; cbn; rewrite Hr1; reflexivity).
      rewrite Hmin4 in Hf. rewrite Hi4 in Hi. rewrite Ha4 in Ha.
      rewrite Hr4 in Hr.
      repeat split; try assumption. lia.
Qed.

(** The shape of an insertion above the worst point, sorted store or
    not. *)
Lemma insert_shape (store : list (LivePoint F)) (new : LivePoint F) :
  above_worst store new ->
  exists k,
    1 <= k <= length store /\
    k = np_searchsorted (map logL store) (logL new) /\
    insert_live_point store new =
      Ok (firstn (k - 1) (skipn 1 store) ++ new :: skipn k store,
          (Z.of_nat k - 1)%Z).
Proof.
  intros (worst & rest & Hstore & Hw).
  set (a := map logL store). set (v := logL new).
  assert (Hlen : length a = length store) by apply length_map.
  assert (H0 : np_less (nth 0 a fnan) v = true).
  { unfold a. rewrite Hstore. cbn. unfold np_less. fold v in Hw.
    rewrite Hw. reflexivity. }
  pose proof (binsearch_bounds a v (length a) 0 (length a) (Nat.le_0_l _)) as Hb.
  assert (Hpos : 1 <= binsearch (length a) a v 0 (length a)).
  { apply binsearch_positive; try lia; [exact H0|].
    intros _. rewrite Hlen, Hstore. cbn. lia. }
  exists (np_searchsorted a v).
  assert (Hk : 1 <= np_searchsorted a v <= length store)
    by (unfold np_searchsorted; lia).
  split; [exact Hk|]. split; [reflexivity|].
  apply insert_live_point_at; [reflexivity|exact Hk].
Qed.

(** X2: when the first point of the store is strictly below the new
    point, sorted store or not, [insert_live_point] succeeds; it drops the
    first point and nothing else, keeps the other points in their order and
    puts the new point among them at the index that it returns. *)
Theorem insert_drops_worst (store : list (LivePoint F)) (new : LivePoint F) :
  above_worst store new ->
  exists store' index before after,
    insert_live_point store new = Ok (store', Z.of_nat index) /\
    tl store = before ++ after /\
    store' = before ++ new :: after /\
    length before = index /\
    index < length store /\
    Permutation store' (new :: tl store).
Proof.
  intros Ha. destruct (insert_shape store new Ha) as (k & Hk & _ & Hi).
  exists (firstn (k - 1) (skipn 1 store) ++ new :: skipn k store), (k - 1),
         (firstn (k - 1) (skipn 1 store)), (skipn k store).
  assert (Htl : tl store
                = firstn (k - 1) (skipn 1 store) ++ skipn k store).
  { replace (skipn k store) with (skipn (k - 1) (skipn 1 store)).
    - rewrite firstn_skipn. destruct store; reflexivity.
    - rewrite skipn_skipn. f_equal. lia. }
  split; [rewrite Hi; repeat f_equal; lia|].
  split; [exact Htl|]. split; [reflexivity|].
  split; [rewrite length_firstn, length_skipn; lia|].
  split; [lia|].
  rewrite Htl. symmetry. apply Permutation_middle.
Qed.

Section Sorted.
Context {laws : NumberLaws F}.

Lemma insert_sorted (store : list (LivePoint F)) (new : LivePoint F) :
  ascending store -> above_worst store new ->
  let k := np_searchsorted (map logL store) (logL new) in
  ascending (firstn (k - 1) (skipn 1 store) ++ new :: skipn k store).
Proof.
  intros Hasc Habove k.
  destruct (searchsorted_boundary store new Hasc Habove) as (Hr & Hlo & Hhi).
  fold k in Hr, Hlo, Hhi.
  pose proof (ascending_strongly _ Hasc) as Hss.
  destruct Habove as (worst & rest & Hstore & Hw).
  apply StronglySorted_Sorted.
  rewrite <- (firstn_skipn k store) in Hss.
  apply StronglySorted_app_inv in Hss. destruct Hss as (Hs1 & Hs2 & _).
  assert (Hfirst : firstn k store = worst :: firstn (k - 1) (skipn 1 store)).
  { rewrite Hstore. destruct k as [|k']; [lia|].
    cbn. rewrite Nat.sub_0_r. reflexivity. }
  rewrite Hfirst in Hs1, Hlo.
  apply StronglySorted_inv in Hs1. destruct Hs1 as [Hs1 _].
  apply Forall_cons_iff in Hlo. destruct Hlo as [_ Hlo].
  apply StronglySorted_insert_mid.
  - intros a b c. unfold le_logL. apply fleb_trans.
  - exact Hs1.
  - exact Hs2.
  - eapply Forall_impl; [|exact Hlo]. intros p Hp. apply fltb_fleb. exact Hp.
  - eapply Forall_impl; [|exact Hhi]. intros p [_ Hp]. exact Hp.
Qed.

(** X3: one iteration of the sampler.  When [consume_sample] returns on
    an ascending store, the worst point (the first of the store) has gone
    through the integral state and has joined the nested samples, [logLmin]
    is its [logL] and the iteration has advanced by one; the store has lost
    that point and nothing else, has gained one point strictly above it, has
    kept its length and is ascending again; and the index of the new point
    has been recorded. *)
Theorem consume_sample_contract (fuel : nat) (s s' : NestedSampler F P M)
  (lp : list (LivePoint F)) :
  consume_sample np fuel s = Ok s' ->
  live_points s = Some lp ->
  ascending lp ->
  exists worst rest new lp' index,
    lp = worst :: rest /\
    Integral.increment np (state s) (logL worst) None = Ok (state s') /\
    nested_samples s' = nested_samples s ++ [worst] /\
    logLmin s' = logL worst /\
    iteration s' = (iteration s + 1)%Z /\
    nlive s' = nlive s /\
    fltb (logL worst) (logL new) = true /\
    live_points s' = Some lp' /\
    length lp' = length lp /\
    ascending lp' /\
    Permutation lp' (new :: rest) /\
    insertion_indices s' = insertion_indices s ++ [Z.of_nat index] /\
    nth_error lp' index = Some new /\
    accepted s' = (accepted s + 1)%Z.
Proof.
  unfold consume_sample, get_live_points. intros H Hlp Hasc.
  rewrite Hlp in H. cbn [bind] in H.
  res_step H worst Ew.
  destruct lp as [|w rest]; [discriminate|].
  injection Ew as <-.
  res_step H st Es. res_step H shrink Ed.
  match type of H with
  | bind (replace_worst _ _ ?a _ _) _ = _ => set (s1 := a) in *
  end.
  res_step H r Er. destruct r as [s2 count].
  res_step H acc Ea. res_step H mba Em. injection H as <-.
  destruct (replace_worst_spec fuel s1 s2 w 0 count (w :: rest) Er Hlp)
    as (W & new & lp' & index & Hf & Hins & Hl & Hi & Hacc & _).
  assert (Habove : above_worst (w :: rest) new).
  { exists w, rest. split; [reflexivity|exact Hf]. }
  destruct (insert_shape (w :: rest) new Habove) as (k & Hk & Hkk & Hshape).
  rewrite Hshape in Hins. injection Hins as <- <-.
  pose proof (insert_sorted (w :: rest) new Hasc Habove) as Hsorted.
  cbv zeta in Hsorted. rewrite <- Hkk in Hsorted.
  assert (Hlen : length (firstn (k - 1) (skipn 1 (w :: rest))) = k - 1)
    by (rewrite length_firstn, length_skipn; cbn [length] in *; lia).
  exists w, rest, new,
    (firstn (k - 1) (skipn 1 (w :: rest)) ++ new :: skipn k (w :: rest)),
    (k - 1).
  cbn [state nested_samples logLmin iteration nlive live_points
       insertion_indices accepted set].
  split; [reflexivity|].
  split; [rewrite W; exact Es|].
  split; [rewrite W; reflexivity|].
  split; [rewrite W; reflexivity|].
  split; [rewrite W; reflexivity|].
  split; [rewrite W; reflexivity|].
  split; [exact Hf|].
  split; [exact Hl|].
  split; [rewrite length_app, Hlen; cbn [length] in *;
          rewrite length_skipn; cbn [length]; lia|].
  split; [exact Hsorted|].
  split.
  { change (skipn 1 (w :: rest)) with rest.
    assert (Hsk : skipn k (w :: rest) = skipn (k - 1) rest).
    { destruct k as [|k']; [lia|]. cbn. rewrite Nat.sub_0_r. reflexivity. }
    rewrite Hsk.
    transitivity (new :: firstn (k - 1) rest ++ skipn (k - 1) rest).
    - symmetry. apply Permutation_middle.
    - rewrite firstn_skipn. reflexivity. }
  split; [rewrite Hi; cbn; repeat f_equal; lia|].
  split; [rewrite nth_error_app2 by lia; rewrite Hlen, Nat.sub_diag;
          reflexivity|].
  exact Hacc.
Qed.

End Sorted.

Lemma check_insertion_indices_recorded (s : NestedSampler F P M) (r : bool) :
  min_likelihood (check_insertion_indices compute_indices_ks_test s r)
  = min_likelihood s /\
  plot (check_insertion_indices compute_indices_ks_test s r) = plot s /\
  plot_ready (check_insertion_indices compute_indices_ks_test s r)
  = plot_ready s.
Proof.
  unfold check_insertion_indices.
  destruct (compute_indices_ks_test _ _) as [d [pv|]]; destruct r;
    repeat split.
Qed.

(** [update_diagnostics] fails only in [plot_state]: with [IndexError]
    while nothing has been recorded, with [ValueError] when the sequences
    to draw differ in length. *)
Lemma update_diagnostics_outcome (s : NestedSampler F P M) (force : bool) :
  nlive s <> 0%Z ->
  (plots_due s force && (length (min_likelihood s) =? 0) = true ->
   update_diagnostics compute_indices_ks_test s force = Raise IndexError) /\
  (plots_due s force && (length (min_likelihood s) =? 0) = false ->
   plots_due s force && negb (plot_ready s) = true ->
   update_diagnostics compute_indices_ks_test s force
   = Raise (ValueError "x and y must have same first dimension")) /\
  (plots_due s force && (length (min_likelihood s) =? 0) = false ->
   plots_due s force && negb (plot_ready s) = false ->
   exists s', update_diagnostics compute_indices_ks_test s force = Ok s').
Proof.
  intros Hn. unfold update_diagnostics, py_mod, plots_due.
  destruct (Z.eqb_spec (nlive s) 0) as [E|_]; [contradiction|].
  cbn [bind].
  destruct ((iteration s mod nlive s =? 0)%Z || force);
    rewrite ?andb_false_r; cbn [andb];
    [|split; [discriminate|split; [discriminate|eexists; reflexivity]]].
  rewrite andb_true_r.
  set (s0 := if negb force
             then check_insertion_indices compute_indices_ks_test s true
             else s).
  assert (H0 : min_likelihood s0 = min_likelihood s /\ plot s0 = plot s /\
               plot_ready s0 = plot_ready s).
  { subst s0. destruct force; cbn [negb];
      [repeat split|apply check_insertion_indices_recorded]. }
  destruct H0 as (Hm & Hp & Hr). unfold plot_diagnostics. rewrite Hp.
  destruct (plot s); cbn [andb];
    [|split; [discriminate|split; [discriminate|eexists; reflexivity]]].
  set (s1 := if negb force then emit s0 EvPlotIndices else s0).
  assert (H1 : min_likelihood s1 = min_likelihood s /\
               plot_ready s1 = plot_ready s).
  { subst s1. destruct force; cbn [negb]; split; assumption. }
  destruct H1 as [Hm1 Hr1].
  destruct (ExitFacts.plot_state_outcome s1) as (Pi & Po & Pv).
  rewrite Hm1 in Pi, Po, Pv. rewrite Hr1 in Po, Pv.
  destruct (Nat.eqb_spec (length (min_likelihood s)) 0) as [E0|E0].
  - split; [intros _; rewrite (Pi E0); reflexivity|].
    split; discriminate.
  - split; [discriminate|].
    assert (Hpos : 1 <= length (min_likelihood s)) by lia.
    destruct (plot_ready s); cbn [negb].
    + split; [discriminate|]. intros _ _.
      rewrite (Po Hpos eq_refl). cbn [bind]. eexists. reflexivity.
    + split; [|discriminate]. intros _ _.
      rewrite (Pv Hpos eq_refl). reflexivity.
Qed.

(** X4: [update_state] takes the iteration modulo [nlive // 10]: with
    fewer than ten live points (and at least none) it raises
    [ZeroDivisionError], whatever the other attributes.  With any other
    [nlive] it fails only in [plot_state]: with [IndexError] when that is
    reached with nothing recorded (plots on, no [force],
    [iteration % nlive == 0], [iteration % (nlive // 10) != 0] and empty
    histories), with [ValueError] when it is reached with histories of
    different lengths or gradients that do not match their range; otherwise
    it returns. *)
Theorem update_state_store_size (s : NestedSampler F P M) (force : bool) :
  ((0 <= nlive s < 10)%Z ->
   update_state np compute_indices_ks_test s force = Raise ZeroDivisionError) /\
  (~ (0 <= nlive s < 10)%Z ->
   (plots_unrecorded s force = true ->
    update_state np compute_indices_ks_test s force = Raise IndexError) /\
   (plots_unrecorded s force = false ->
    plots_due s force && negb (plot_ready s) = true ->
    update_state np compute_indices_ks_test s force
    = Raise (ValueError "x and y must have same first dimension")) /\
   (plots_unrecorded s force = false ->
    plots_due s force && negb (plot_ready s) = false ->
    exists s', update_state np compute_indices_ks_test s force = Ok s')).
Proof.
  assert (Hp : nlive (update_population s) = nlive s /\
               iteration (update_population s) = iteration s /\
               plot (update_population s) = plot s /\
               min_likelihood (update_population s) = min_likelihood s).
  { unfold update_population.
    destruct (prop_population_acceptance (proposal s)); repeat split. }
  destruct Hp as (Hpn & Hpi & Hpp & Hpm).
  destruct (ExitFacts.update_population_ready s) as [Hpa Hpg].
  split; intros Hn.
  - unfold update_state, update_histories, py_mod. rewrite Hpn.
    rewrite (Z.div_small (nlive s) 10 Hn). reflexivity.
  - assert (H10 : (nlive s / 10 <> 0)%Z).
    { intros E. apply Z.div_small_iff in E; lia. }
    assert (H0 : nlive s <> 0%Z) by lia.
    destruct (ExitFacts.update_histories_outcome np (update_population s) force)
      as (s1 & E1 & Hn1 & Hi1 & Hp1 & Hm1 & Hr1).
    { rewrite Hpn. exact H10. }
    rewrite Hpn, Hpi, Hpm in Hm1. rewrite Hpn in Hn1. rewrite Hpi in Hi1.
    rewrite Hpp in Hp1.
    assert (Hr1' : plot_ready s1 = plot_ready s).
    { rewrite Hr1. unfold plot_ready. rewrite Hpa, Hpg. reflexivity. }
    clear Hr1. rename Hr1' into Hr1.
    set (rec := (iteration s mod (nlive s / 10) =? 0)%Z || force) in *.
    unfold update_state. rewrite E1. cbn [bind].
    destruct (update_diagnostics_outcome s1 force) as (Hraise & Hval & Hok).
    { rewrite Hn1. exact H0. }
    unfold plots_due in Hraise, Hval, Hok.
    rewrite Hn1, Hi1, Hp1, Hm1 in Hraise, Hval, Hok.
    rewrite Hr1 in Hval, Hok.
    fold (plots_due s force) in Hraise, Hval, Hok.
    assert (Hc : plots_due s force
                 && ((if rec then S (length (min_likelihood s))
                      else length (min_likelihood s)) =? 0)
                 = plots_unrecorded s force).
    { unfold plots_unrecorded, plots_due. subst rec.
      destruct force, (plot s), (iteration s mod nlive s =? 0)%Z,
        (iteration s mod (nlive s / 10) =? 0)%Z;
        cbn [orb andb negb]; try reflexivity;
        rewrite ?andb_false_r; reflexivity. }
    rewrite Hc in Hraise, Hval, Hok. split; [|split].
    + intros Hu. rewrite (Hraise Hu). reflexivity.
    + intros Hu Hv. rewrite (Hval Hu Hv). reflexivity.
    + intros Hu Hv. destruct (Hok Hu Hv) as [s2 ->]. cbn [bind].
      eexists. reflexivity.
Qed.

Lemma set_proposal_mode (s : NestedSampler F P M) (p : P) :
  using_flow (set_proposal s p) = using_flow s /\
  uninformed_sampling (set_proposal s p) = uninformed_sampling s.
Proof.
  unfold set_proposal. destruct (using_flow s) eqn:E; cbn; rewrite ?E;
    split; reflexivity.
Qed.

Lemma train_proposal_mode (s s' : NestedSampler F P M) :
  train_proposal s = Ok s' ->
  using_flow s' = using_flow s /\
  uninformed_sampling s' = uninformed_sampling s.
Proof.
  unfold train_proposal. intros H.
  match type of H with
  | context [training_set ?a] =>
      assert (H0 : using_flow a = using_flow s /\
                   uninformed_sampling a = uninformed_sampling s)
        by (destruct (_ && _);
            [apply set_proposal_mode|split; reflexivity]);
      set (s0 := a) in *
  end.
  res_step H data Ed. injection H as <-.
  destruct (set_proposal_mode s0 (prop_train (proposal s0) data)) as [A B].
  destruct H0 as [<- <-]. rewrite <- A, <- B.
  destruct (checkpointing _); split; reflexivity.
Qed.

(** X5: leaving uninformed sampling.  While [uninformed_sampling] is set
    and the switch is not due, [check_state] changes nothing.  When the
    switch is due and the proposal in use holds a pool, [check_state] raises
    [AttributeError]: the pool is closed through the misspelt attribute
    [porposal].  When the switch is due and there is no pool, a returning
    [check_state] has made the flow proposal the proposal in use and has
    cleared [uninformed_sampling]. *)
Theorem check_state_switch (s : NestedSampler F P M) (force rejected : bool) :
  uninformed_sampling s = true ->
  let due := fltb (mean_acceptance np s) (uninformed_acceptance_threshold s)
             || (maximum_uninformed s <=? iteration s)%Z in
  (due = false -> check_state np s force rejected = Ok s) /\
  (due = true -> prop_pool (proposal s) = true ->
   check_state np s force rejected = Raise (AttributeError "porposal")) /\
  (due = true -> prop_pool (proposal s) = false ->
   forall s', check_state np s force rejected = Ok s' ->
              using_flow s' = true /\ uninformed_sampling s' = false).
Proof.
  intros Hu due. unfold check_state. rewrite Hu. fold due.
  split; [|split].
  - intros ->. reflexivity.
  - intros -> ->. reflexivity.
  - intros -> -> s' H. cbn [bind] in H.
    match type of H with
    | context [at_training_frequency ?a] => set (s0 := a) in *
    end.
    assert (H0 : using_flow s0 = true /\ uninformed_sampling s0 = false).
    { unfold s0, set_proposal. cbn. split; reflexivity. }
    res_step H train Et. case_head H; [|injection H as <-; exact H0].
    case_head H; [injection H as <-; exact H0|].
    case_head H; [injection H as <-; exact H0|].
    apply train_proposal_mode in H. destruct H0 as [A B], H as [-> ->].
    split; assumption.
Qed.

Lemma populate_loop_writes (fuel : nat) :
  forall (s s' : NestedSampler F P M) (stored out : list (LivePoint F)),
    populate_loop fuel s stored = Ok (s', out) -> drawing_writes s s'.
Proof.
  induction fuel as [|fuel IH]; intros s s' stored out H;
    cbn [populate_loop] in H; case_head H;
    try (injection H as <- _; apply drawing_writes_refl);
    try discriminate.
  destruct (model_new_point (model s)) as [m seed].
  res_step H r Ey. destruct r as [s1 [c live_point]].
  apply yield_sample_spec in Ey. destruct Ey as (W1 & _).
  assert (W0 : drawing_writes s (s <| model := m |>))
    by (unfold drawing_writes; destruct s; reflexivity).
  pose proof (drawing_writes_trans _ _ _ W0 W1) as W.
  case_head H; apply IH in H; eapply drawing_writes_trans; eassumption.
Qed.

Lemma initialise_keeps (fuel : nat) (s s' : NestedSampler F P M) (b : bool) :
  initialise fuel s b = Ok s' ->
  nlive s' = nlive s /\ prior_sampling s' = prior_sampling s.
Proof.
  unfold initialise. intros H.
  match type of H with
  | context [populate_live_points _ ?a] => set (s0 := a) in *
  end.
  assert (H0 : nlive s0 = nlive s /\ prior_sampling s0 = prior_sampling s).
  { unfold s0. destruct (negb (prop_initialised (flow_proposal s)));
      match goal with
      | |- context [negb (prop_initialised (uninformed_proposal ?a))] =>
          destruct (negb (prop_initialised (uninformed_proposal a)))
      end; split; reflexivity. }
  res_step H s1 E.
  assert (H1 : nlive s1 = nlive s0 /\ prior_sampling s1 = prior_sampling s0).
  { case_head E; [|injection E as <-; split; reflexivity].
    unfold populate_live_points in E. case_head E; [discriminate|].
    res_step E r Ep. destruct r as [s2 stored]. injection E as <-.
    apply populate_loop_writes in Ep. cbn. rewrite Ep. split; reflexivity. }
  injection H as <-. destruct H0 as [<- <-], H1 as [<- <-].
  match goal with
  | |- context [if ?c then s1 <| initialised := true |> else s1] => destruct c
  end; split; reflexivity.
Qed.

(** X6: with [prior_sampling] set and at least one live point asked for,
    [nested_sampling_loop] returns nothing: once the sampler is initialised
    the branch reads the attribute [params], which no method defines. *)
Theorem prior_sampling_unusable (fuel : nat) (s : NestedSampler F P M)
  (save : bool) :
  prior_sampling s = true ->
  (0 < nlive s)%Z ->
  is_ok (nested_sampling_loop np compute_indices_ks_test fuel s save) = false.
Proof.
  intros Hp Hn. unfold nested_sampling_loop.
  destruct (initialised s).
  - cbn [bind]. rewrite Hp.
    destruct (Z.ltb_spec 0 (nlive s)); [reflexivity|lia].
  - destruct (initialise fuel s true) as [s1| |] eqn:E;
      [|reflexivity|reflexivity].
    apply initialise_keeps in E. destruct E as [En Ep].
    cbn [bind]. rewrite Ep, Hp, En.
    destruct (Z.ltb_spec 0 (nlive s)); [reflexivity|lia].
Qed.

(** X7: the loop of [nested_sampling_loop] is left only when the test
    [condition > tolerance] fails (a NaN condition fails it too) or when the
    iteration has reached [max_iteration]. *)
Theorem sampling_loop_exit (fuel : nat) :
  forall s s' : NestedSampler F P M,
    sampling_loop np compute_indices_ks_test fuel s = Ok s' ->
    fltb (tolerance s') (condition s') = false \/
    exists mx, max_iteration s' = Some mx /\ (mx <= iteration s')%Z.
Proof.
  induction fuel as [|fuel IH]; intros s s' H; cbn [sampling_loop] in H.
  - case_head H; [discriminate|]. injection H as <-. left. assumption.
  - case_head H; [|injection H as <-; left; assumption].
    res_step H s1 E1. res_step H s2 E2. res_step H s3 E3.
    destruct (max_iteration s3) as [mx|] eqn:Em.
    + destruct (Z.leb_spec mx (iteration s3)).
      * injection H as <-. right. exists mx. split; assumption.
      * apply (IH _ _ H).
    + apply (IH _ _ H).
Qed.

End Facts.
End IterationFacts.

Module IterationCases.
Import LiveStore Classical ClassicalFrames Doubles PoolDoubles IterationFacts.

(** A candidate with one parameter whose likelihood is still to be
    evaluated. *)
Lemma yield_sample_contract_witness :
  let s := fresh_sampler 2
             [ {| params := [3%float]; logP := 0%float; logL := 0%float |} ] in
  exists s' counter x,
    yield_sample 5 s (row 0) 0 = Ok (s', (counter, x)) /\
    drawing_writes s s' /\
    (1 <= counter)%Z.
Proof.
  intros s. eexists. eexists. eexists.
  match goal with
  | |- ?G /\ _ => assert (E : G) by (vm_compute; reflexivity)
  end.
  split; [exact E|].
  destruct (yield_sample_contract 5 s _ (row 0) _ _ E) as (W & Hc & _).
  split; assumption.
Defined.

Lemma insert_drops_worst_witness :
  exists store' index,
    insert_live_point [row 1; row 2; row 4] (row 3) = Ok (store', Z.of_nat index) /\
    Permutation store' (row 3 :: tl [row 1; row 2; row 4]).
Proof.
  destruct (insert_drops_worst [row 1; row 2; row 4] (row 3))
    as (store' & index & before & after & Hi & _ & _ & _ & _ & Hp).
  - exists (row 1), [row 2; row 4]. split; reflexivity.
  - exists store', index. split; assumption.
Defined.

Lemma consume_sample_contract_witness :
  let s := (fresh_sampler 2
              [ {| params := [3%float]; logP := 0%float; logL := 0%float |} ])
           <| live_points := Some [row 1; row 2] |> in
  exists s' lp',
    consume_sample np_tropical 5 s = Ok s' /\
    live_points s' = Some lp' /\
    ascending lp' /\
    nested_samples s' = nested_samples s ++ [row 1] /\
    iteration s' = 1%Z.
Proof.
  intros s. eexists.
  assert (E : consume_sample np_tropical 5 s = Ok _)
    by (vm_compute; reflexivity).
  destruct (consume_sample_contract np_tropical
              (laws:=NumberFacts.binary64_laws) 5 s _ [row 1; row 2] E eq_refl)
    as (worst & rest & new & lp' & index & Hlp & _ & Hn & _ & Hit & _ & _ &
        Hl & _ & Hs & _).
  - repeat constructor.
  - exists lp'. injection Hlp as <- _.
    split; [exact E|]. split; [exact Hl|]. split; [exact Hs|].
    split; assumption.
Defined.

Lemma update_state_store_size_witness :
  update_state np_tropical no_ks_test (fresh_sampler (F:=float) 5 []) false
  = Raise ZeroDivisionError /\
  (exists s', update_state np_tropical no_ks_test
                (fresh_sampler (F:=float) 20 []) false = Ok s') /\
  update_state np_tropical no_ks_test
    ((fresh_sampler (F:=float) 25 []) <| iteration := 25%Z |>) false
  = Raise IndexError /\
  update_state np_tropical no_ks_test
    ((fresh_sampler (F:=float) 20 []) <| max_likelihood := [1%float] |>) false
  = Raise (ValueError "x and y must have same first dimension").
Proof.
  split; [|split; [|split]].
  - apply (update_state_store_size np_tropical no_ks_test
             (fresh_sampler (F:=float) 5 []) false). cbn. lia.
  - apply (update_state_store_size np_tropical no_ks_test
             (fresh_sampler (F:=float) 20 []) false);
      [cbn; lia|reflexivity|reflexivity].
  - apply (update_state_store_size np_tropical no_ks_test
             ((fresh_sampler (F:=float) 25 []) <| iteration := 25%Z |>) false);
      [cbn; lia|reflexivity].
  - apply (update_state_store_size np_tropical no_ks_test
             ((fresh_sampler (F:=float) 20 [])
                <| max_likelihood := [1%float] |>) false);
      [cbn; lia|reflexivity|reflexivity].
Defined.

Lemma check_state_switch_witness :
  check_state np_tropical (uninformed_sampler (F:=float) true 5) false false
  = Ok (uninformed_sampler (F:=float) true 5) /\
  check_state np_tropical (uninformed_sampler (F:=float) true 0) false false
  = Raise (AttributeError "porposal") /\
  exists s',
    check_state np_tropical (uninformed_sampler (F:=float) false 0) false false
    = Ok s' /\
    using_flow s' = true /\ uninformed_sampling s' = false.
Proof.
  split; [|split].
  - apply (check_state_switch np_tropical (uninformed_sampler (F:=float) true 5)
             false false eq_refl). vm_compute. reflexivity.
  - apply (check_state_switch np_tropical (uninformed_sampler (F:=float) true 0)
             false false eq_refl); vm_compute; reflexivity.
  - eexists.
    assert (E : check_state np_tropical
                  (uninformed_sampler (F:=float) false 0) false false = Ok _)
      by (vm_compute; reflexivity).
    split; [exact E|].
    destruct (check_state_switch np_tropical (uninformed_sampler (F:=float) false 0)
                false false eq_refl) as (_ & _ & C).
    apply (C ltac:(vm_compute; reflexivity) eq_refl _ E).
Defined.

Lemma prior_sampling_unusable_witness :
  is_ok (nested_sampling_loop np_tropical no_ks_test 10
           ((fresh_sampler 1
               [ {| params := [3%float]; logP := 0%float; logL := 0%float |} ])
            <| prior_sampling := true |>) true) = false.
Proof.
  apply prior_sampling_unusable; [reflexivity|cbn; lia].
Defined.

Lemma sampling_loop_exit_witness :
  let s := (fresh_sampler 10
              [ {| params := [30%float]; logP := 0%float; logL := 0%float |} ])
           <| live_points := Some (map row [1; 2; 3; 4; 5; 6; 7; 8; 9; 10]%float) |>
           <| max_iteration := Some 1%Z |> in
  exists s',
    sampling_loop np_tropical no_ks_test 5 s = Ok s' /\
    iteration s' = 1%Z /\
    (fltb (tolerance s') (condition s') = false \/
     exists mx, max_iteration s' = Some mx /\ (mx <= iteration s')%Z).
Proof.
  intros s. eexists.
  assert (E : sampling_loop np_tropical no_ks_test 5 s = Ok _)
    by (vm_compute; reflexivity).
  split; [exact E|]. split; [reflexivity|].
  apply (sampling_loop_exit np_tropical no_ks_test 5 s _ E).
Defined.

End IterationCases.
(** ** The integral state: errors and the running evidence *)

Module EvidenceFacts.
Import Integral IntegralFacts.

Section Facts.
Context {F : Type} {num : Number F}.
Variable np : NumPy F.

(** X8: what [increment] does with the live-point count [n] that it
    divides by (the override, or the stored [nlive]): a count that does not
    convert to a float raises [OverflowError], the count 0 raises
    [ZeroDivisionError], a count whose [-1/n] is above zero (a negative
    count) raises [RuntimeError] in [logsubexp], and with any other count
    the call returns, whatever [logL] is (non-monotonic, infinite or NaN):
    [logL] is recorded as given, the volume goes down by one step [-1/n] and
    [nlive] stays. *)
Theorem increment_contract (s : NSintegralState F) (logL : F)
  (narg : option Z) :
  history_shape s ->
  let n := match narg with None => nlive s | Some n => n end in
  (of_int n = None -> increment np s logL narg = Raise OverflowError) /\
  (n = 0%Z -> of_int n <> None ->
   increment np s logL narg = Raise ZeroDivisionError) /\
  (n <> 0%Z ->
   forall x, of_int n = Some x ->
   (fltb f0 (fdiv (fopp f1) x) = true ->
    increment np s logL narg
    = Raise (RuntimeError "cannot take log of negative number")) /\
   (fltb f0 (fdiv (fopp f1) x) = false ->
    exists s',
      increment np s logL narg = Ok s' /\
      nlive s' = nlive s /\
      iteration s' = (iteration s + 1)%Z /\
      logLs s' = logLs s ++ [logL] /\
      logw s' = fadd (logw s) (fdiv (fopp f1) x) /\
      log_vols s' = log_vols s ++ [logw s'])).
Proof.
  intros Hs n.
  destruct (py_getitem_in_range (logLs s) (-1)%Z) as [a0 Ha0].
  { destruct Hs. lia. }
  split; [|split].
  - intros Ex. unfold increment. rewrite Ha0. cbn [bind]. fold n.
    unfold neg_one_over. rewrite Ex. reflexivity.
  - intros E0 Ex. unfold increment. rewrite Ha0. cbn [bind]. fold n.
    unfold neg_one_over. destruct (of_int n); [|contradiction].
    destruct (Z.eqb_spec n 0); [reflexivity|contradiction].
  - intros E0 x Ex. split; intros Hg.
    + unfold increment. rewrite Ha0. cbn [bind]. fold n.
      unfold neg_one_over. rewrite Ex.
      destruct (Z.eqb_spec n 0); [contradiction|]. cbn [bind].
      unfold py_logsubexp. rewrite Hg. reflexivity.
    + assert (Hu : call_usable s (logL, narg) = true).
      { unfold call_usable, usable_nlive. cbn [snd]. fold n. rewrite Ex, Hg.
        destruct (Z.eqb_spec n 0); [contradiction|reflexivity]. }
      destruct (increment_shape np s logL narg Hs Hu)
        as (s' & logt & Hi & Ht & Hs' & Hn & Hw & Hl & Hv & _).
      fold n in Ht. unfold neg_one_over in Ht. rewrite Ex in Ht.
      destruct (Z.eqb_spec n 0); [contradiction|]. injection Ht as <-.
      exists s'. split; [exact Hi|]. split; [exact Hn|].
      split.
      { destruct Hs as [_ _ Hit _ _], Hs' as [_ _ Hit' _ _].
        rewrite Hit, Hit', Hl, length_app. cbn [length]. lia. }
      split; [exact Hl|]. split; [exact Hw|]. rewrite Hw. exact Hv.
Qed.

Lemma increment_logZ (s s' : NSintegralState F) (logL : F) (narg : option Z) :
  increment np s logL narg = Ok s' ->
  exists Wt, logZ s' = np_logaddexp np (logZ s) Wt.
Proof.
  unfold increment. intros H.
  destruct (py_getitem (logLs s) (-1)) as [a0| |]; try discriminate.
  cbn [bind] in H.
  destruct (neg_one_over _) as [logt| |]; try discriminate. cbn [bind] in H.
  destruct (py_logsubexp np f0 logt) as [sh| |]; try discriminate.
  cbn [bind] in H.
  match type of H with
  | bind ?c _ = _ => destruct c as [i| |]; try discriminate
  end.
  cbn [bind] in H.
  repeat match type of H with
  | bind ?c _ = _ => destruct c as [?| |]; try discriminate; cbn [bind] in H
  end.
  injection H as <-. cbn [logZ]. eexists. reflexivity.
Qed.

Section Laws.
Context {laws : NumberLaws F}.

Lemma fleb_refl (a : F) : isnan a = false -> fleb a a = true.
Proof.
  intros Ha. apply fleb_total; try assumption.
  destruct (fltb a a) eqn:E; [|reflexivity].
  pose proof (fltb_fleb _ _ E) as H1.
  pose proof (fltb_not_fleb _ _ E) as H2. congruence.
Qed.

(** X9: the running evidence never goes down.  Through any sequence of
    [increment] calls that ends with a [logZ] that is not NaN, the final
    [logZ] is at least the initial one, [np.logaddexp] being no smaller than
    its first argument. *)
Theorem evidence_never_decreases (calls : list (F * option Z)) :
  forall s s' : NSintegralState F,
    Importance.logaddexp_bounds np ->
    increments np s calls = Ok s' ->
    isnan (logZ s') = false ->
    fleb (logZ s) (logZ s') = true.
Proof.
  induction calls as [|[logL narg] calls IH]; intros s s' Hb H Hn.
  - injection H as <-. apply fleb_refl. exact Hn.
  - cbn [increments] in H.
    destruct (increment np s logL narg) as [s1| |] eqn:E1; try discriminate.
    cbn [bind] in H.
    pose proof (IH s1 s' Hb H Hn) as H1.
    destruct (fleb_not_nan _ _ H1) as [Hn1 _].
    destruct (increment_logZ s s1 logL narg E1) as [Wt Hz].
    apply fleb_trans with (b := logZ s1); [|exact H1].
    rewrite Hz in *. apply Hb. exact Hn1.
Qed.

End Laws.

End Facts.

End EvidenceFacts.

Module EvidenceCases.
Import Integral IntegralFacts EvidenceFacts.

Lemma increment_contract_witness :
  increment np_tropical (initial 0) 1%float None = Raise ZeroDivisionError /\
  increment np_tropical (initial 4) 1%float (Some (-2)%Z)
  = Raise (RuntimeError "cannot take log of negative number") /\
  exists s',
    increment np_tropical (initial 4) nan (Some 2%Z) = Ok s' /\
    nlive s' = 4%Z /\
    logLs s' = [neg_infinity; nan].
Proof.
  split; [|split].
  - apply (increment_contract np_tropical (initial 0) 1%float None);
      [apply initial_shape|reflexivity|discriminate].
  - destruct (increment_contract np_tropical (initial 4) 1%float (Some (-2)%Z)
                (initial_shape 4)) as (_ & _ & H).
    exact (proj1 (H ltac:(discriminate) (-2)%float eq_refl) eq_refl).
  - destruct (increment_contract np_tropical (initial 4) nan (Some 2%Z)
                (initial_shape 4)) as (_ & _ & H).
    destruct (proj2 (H ltac:(discriminate) 2%float eq_refl) eq_refl)
      as (s' & Hi & Hn & _ & Hl & _).
    exists s'. split; [exact Hi|]. split; assumption.
Defined.

Lemma evidence_never_decreases_witness :
  exists s',
    increments np_tropical (initial 4) [(1%float, None); (0%float, Some 2%Z)]
    = Ok s' /\
    fleb (logZ (initial 4)) (logZ s') = true.
Proof.
  eexists.
  assert (E : increments np_tropical (initial 4)
                [(1%float, None); (0%float, Some 2%Z)] = Ok _)
    by (vm_compute; reflexivity).
  split; [exact E|].
  apply (evidence_never_decreases np_tropical
           (laws:=NumberFacts.binary64_laws) _ _ _
           (ImportanceCases.tropical_logaddexp_bounds
              (laws:=NumberFacts.binary64_laws)) E).
  vm_compute. reflexivity.
Defined.

End EvidenceCases.

(** ** The importance proposal: levels, requests and draws *)

Module LevelFacts.
Import Importance ImportanceNotions RowFacts ProposalFacts.

Section Facts.
Context {F : Type} {num : Number F}.
Context {Fl : Type} {fapi : FlowAPI F Fl}.
Variable np : NumPy F.
Variable md : ImportanceModel F.

Lemma level_key_eqb_refl (k : level_key) : level_key_eqb k k = true.
Proof. destruct k; cbn; [reflexivity|apply Z.eqb_refl]. Qed.

Lemma level_key_eqb_eq (a b : level_key) : level_key_eqb a b = true -> a = b.
Proof.
  destruct a, b; cbn; intros H; try discriminate; [reflexivity|].
  apply Z.eqb_eq in H. congruence.
Qed.

Lemma dict_get_set_same (d : counts) (k : level_key) (v : Z) :
  dict_get (dict_set d k v) k = Ok v.
Proof.
  induction d as [|[k' v'] d IH]; cbn.
  - rewrite level_key_eqb_refl. reflexivity.
  - destruct (level_key_eqb k k') eqn:E; cbn; rewrite E; [reflexivity|exact IH].
Qed.

Lemma dict_get_set_other (d : counts) (k k' : level_key) (v : Z) :
  level_key_eqb k' k = false ->
  dict_get (dict_set d k v) k' = dict_get d k'.
Proof.
  intros Hk. induction d as [|[k0 v0] d IH]; cbn.
  - rewrite Hk. reflexivity.
  - destruct (level_key_eqb k k0) eqn:E; cbn.
    + apply level_key_eqb_eq in E. subst k0. rewrite Hk. reflexivity.
    + destruct (level_key_eqb k' k0); [reflexivity|exact IH].
Qed.

Lemma dict_add_ok (d d' : counts) (k : level_key) (n : Z) :
  dict_add d k n = Ok d' ->
  exists v, dict_get d k = Ok v /\ d' = dict_set d k (v + n)%Z.
Proof.
  unfold dict_add. intros H. bind_step H v E. injection H as <-.
  exists v. split; reflexivity.
Qed.

(** A batch writes the flow and nothing else of the proposal. *)
Lemma draw_batch_frame (p p' : ImportanceFlowProposal F Fl) (n n_draw : Z)
  (logL_min : option F) (r : option (list (Sample F) * Z)) :
  draw_batch np md p n n_draw logL_min = Ok (p', r) ->
  p' = p <| flow := flow p' |>.
Proof.
  unfold draw_batch.
  destruct (flow_sample_and_log_prob (flow p) n_draw) as [fl [xp lq]].
  destruct (inverse_rescale md xp) as [xs lji].
  destruct (rescale md xs) as [xc lj].
  intros H.
  bind_step H acc1 A1. bind_step H acc2 A2. bind_step H acc3 A3.
  bind_step H acc4 A4. bind_step H acc5 A5. bind_step H acc A6.
  destruct (negb (existsb (fun b : bool => b) acc)).
  { injection H as <- <-. destruct p; reflexivity. }
  bind_step H xs0 M1. bind_step H xp0 M2. bind_step H lj0 M3.
  bind_step H lq0 M4. bind_step H log_Q EQ. bind_step H xs1 W1.
  bind_step H xs2 W2. bind_step H xs3 W3. bind_step H lp G1.
  bind_step H lw G2. bind_step H accept A7.
  destruct (negb (existsb (fun b : bool => b) accept)).
  { injection H as <- <-. destruct p; reflexivity. }
  bind_step H xs4 M5.
  destruct logL_min as [lmin|].
  - bind_step H xs5 W4. bind_step H m G3. injection H as <- <-.
    destruct p; reflexivity.
  - injection H as <- <-. destruct p; reflexivity.
Qed.

Lemma draw_loop_frame (fuel : nat) :
  forall (p p' : ImportanceFlowProposal F Fl) (n n_draw : Z)
         (logL_min : option F) (samples out : list (Sample F)) (n_accepted : Z),
    draw_loop np md fuel p n n_draw logL_min samples n_accepted = Ok (p', out) ->
    p' = p <| flow := flow p' |>.
Proof.
  induction fuel as [|fuel IH]; intros p p' n n_draw logL_min samples out acc H;
    cbn [draw_loop] in H;
    destruct ((acc <? n)%Z && (0 <? n_draw)%Z); try discriminate;
    try (injection H as <- <-; destruct p; reflexivity).
  bind_step H pb E. destruct pb as [p1 batch].
  apply draw_batch_frame in E.
  assert (H' : p' = p1 <| flow := flow p' |>)
    by (destruct batch as [[xs m]|]; apply IH in H; exact H).
  rewrite H'. rewrite E at 1. destruct p; reflexivity.
Qed.

(** What a call of [draw] that returns has gone through. *)
Lemma draw_inv (fuel : nat) (p p' : ImportanceFlowProposal F Fl) (n : Z)
  (logL_min : option F) (samples : list (Sample F)) :
  draw np md fuel p n logL_min = Ok (p', samples) ->
  exists requested drawn entr,
    dict_get (n_requested p) (Level (level_count p)) = Ok requested /\
    dict_get (n_draws p) (Level (level_count p)) = Ok drawn /\
    p' = p <| n_requested :=
                dict_set (n_requested p) (Level (level_count p))
                  (requested + n)%Z |>
           <| n_draws :=
                dict_set (n_draws p) (Level (level_count p))
                  (drawn + Z.of_nat (length samples))%Z |>
           <| level_entropy := level_entropy p ++ [entr] |>
           <| draw_count := (draw_count p + 1)%Z |>
           <| flow := flow p' |> /\
    has_field (dtype p) "logQ" = true /\
    of_int n <> None /\
    (logL_min <> None ->
     combined_proposal p = true /\ has_field (dtype p) "logl" = true /\
     (n <= Z.of_nat (length samples))%Z).
Proof.
  intros H0. pose proof H0 as H. unfold draw in H.
  bind_step H n_draw E1. bind_step H requested E2.
  set (p1 := p <| n_requested := requested |>) in *.
  bind_step H ps E3. destruct ps as [p2 drawn].
  pose proof (draw_loop_frame _ _ _ _ _ _ _ _ _ E3) as Fr.
  bind_step H kept E4. bind_step H total E5.
  set (p3 := p2 <| n_draws := total |>) in *.
  bind_step H final E6. bind_step H q E7. injection H as <- <-.
  apply dict_add_ok in E2. destruct E2 as (v & G2 & ->).
  apply dict_add_ok in E5. destruct E5 as (w & G5 & ->).
  assert (Hl : level_count p2 = level_count p) by (rewrite Fr; reflexivity).
  assert (Hn : n_draws p2 = n_draws p) by (rewrite Fr; reflexivity).
  assert (Hd : dtype p2 = dtype p) by (rewrite Fr; reflexivity).
  assert (Hc : combined_proposal p2 = combined_proposal p)
    by (rewrite Fr; reflexivity).
  rewrite Hl, Hn in *.
  assert (Hlen : length final = length kept).
  { destruct logL_min as [lmin|]; [|injection E6 as <-; reflexivity].
    destruct (rescale md kept) as [prime lj].
    bind_step E6 log_Q EQ. bind_step E6 kept1 W1.
    apply set_logW_spec in E6. subst final. rewrite length_map.
    unfold set_column in W1.
    destruct (has_field (dtype p3) "logQ"); [|discriminate].
    destruct (length log_Q =? length kept) eqn:El.
    - injection W1 as <-. apply set_fields_length.
      apply Nat.eqb_eq. exact El.
    - destruct log_Q as [|c [|? ?]]; try discriminate.
      injection W1 as <-. apply length_map. }
  exists v, w, (sp_entropy np (map (np_exp np) q)).
  split; [exact G2|]. split; [exact G5|]. split; [|split; [|split]].
  - rewrite Hlen. subst p3 p1. rewrite Fr. destruct p; reflexivity.
  - apply get_column_field in E7. rewrite <- Hd. exact E7.
  - unfold scaled_count in E1.
    destruct (of_int n); [discriminate|].
    destruct (match logL_min with Some v0 => negb (feqb v0 f0) | None => false end);
      discriminate.
  - intros Hs. destruct logL_min as [lmin|]; [|contradiction].
    split; [|split].
    + destruct (rescale md kept) as [prime lj].
      bind_step E6 log_Q EQ. unfold compute_log_Q in EQ.
      change (combined_proposal p3) with (combined_proposal p2) in EQ.
      rewrite Hc in EQ.
      destruct (combined_proposal p); [reflexivity|discriminate].
    + destruct (has_field (dtype p) "logl") eqn:Ef; [reflexivity|].
      pose proof (draw_above_fails np md fuel p n lmin Ef) as Hx.
      rewrite H0 in Hx. discriminate.
    + rewrite Hlen. unfold trim_samples in E4.
      bind_step E4 m A1. bind_step E4 idx A2. bind_step E4 u A3.
      bind_step E4 m' A4. injection E4 as <-.
      unfold check in A3.
      destruct (n <=? Z.of_nat (length (py_slice drawn None (Some (idx + 1)%Z))))%Z
        eqn:Ec; [|discriminate].
      apply Z.leb_le in Ec. exact Ec.
Qed.


Lemma update_annealing_frame (p p' : ImportanceFlowProposal F Fl) (b : option F) :
  update_annealing p b = Ok p' -> p' = p <| beta := beta p' |>.
Proof.
  unfold update_annealing. destruct b as [v|].
  - destruct (feqb v f0); [intros H; injection H as <-; destruct p; reflexivity|].
    destruct (fltb f0 v && fltb v f1); [|discriminate].
    intros H; injection H as <-. destruct p; reflexivity.
  - intros H; injection H as <-. destruct p; reflexivity.
Qed.

(** What a call of [train] that returns has written. *)
Lemma train_inv (p p' : ImportanceFlowProposal F Fl) (samples : list (Sample F)) :
  train np md p samples = Ok p' ->
  p' = p <| level_count := (level_count p + 1)%Z |>
         <| n_draws := dict_set (n_draws p) (Level (level_count p + 1)) 0 |>
         <| n_requested :=
              dict_set (n_requested p) (Level (level_count p + 1)) 0 |>
         <| flow := flow p' |>.
Proof.
  unfold train. destruct (rescale md samples) as [xp lj]. intros H.
  bind_step H u E1. bind_step H weights E2. bind_step H u' E3.
  injection H as <-. destruct p; reflexivity.
Qed.

(** [update_samples] raises [RuntimeError] in its two checks only. *)
Lemma bind_no_runtime_error {A B : Type} (c : result A) (k : A -> result B) :
  no_runtime_error c -> (forall a, no_runtime_error (k a)) ->
  no_runtime_error (bind c k).
Proof.
  intros Hc Hk msg. destruct c as [a|e|]; cbn [bind];
    [apply Hk|intros H; injection H as ->; apply (Hc msg); reflexivity|discriminate].
Qed.

Lemma dict_get_no_runtime_error (d : counts) (k : level_key) :
  no_runtime_error (dict_get d k).
Proof.
  intros msg. induction d as [|[k' v'] d IH]; cbn; [discriminate|].
  destruct (level_key_eqb k k'); [discriminate|exact IH].
Qed.

Lemma set_column_no_runtime_error (d : list string) (nm : string)
  (vs : list F) (a : list (Sample F)) :
  no_runtime_error (set_column d nm vs a).
Proof.
  intros msg. unfold set_column. destruct (has_field d nm); [|discriminate].
  destruct (length vs =? length a); [discriminate|].
  destruct vs as [|? [|? ?]]; discriminate.
Qed.

Lemma get_column_no_runtime_error (d : list string) (nm : string)
  (a : list (Sample F)) :
  no_runtime_error (get_column d nm a).
Proof.
  intros msg. unfold get_column. destruct (has_field d nm); discriminate.
Qed.

Lemma update_samples_checked (p : ImportanceFlowProposal F Fl)
  (samples : list (Sample F)) (v : Z) :
  (0 <= level_count p)%Z ->
  dict_get (n_draws p) (Level (level_count p)) = Ok v ->
  no_runtime_error (update_samples np md p samples).
Proof.
  intros Hl Hg. unfold update_samples.
  destruct (Z.ltb_spec (level_count p) 0) as [Hn|_]; [lia|].
  rewrite Hg. destruct (rescale md samples) as [xp lj].
  apply bind_no_runtime_error.
  { intros msg. unfold proposal_log_prob.
    destruct (level_count p =? -1)%Z; [discriminate|].
    destruct (level_count p <? Z.of_nat (flow_n_models (flow p)))%Z;
      discriminate. }
  intros log_q. apply bind_no_runtime_error.
  { intros msg. unfold vadd. destruct (length log_q =? length lj);
      [discriminate|].
    destruct log_q as [|? [|? ?]]; destruct lj as [|? [|? ?]]; discriminate. }
  intros a. apply bind_no_runtime_error; [apply dict_get_no_runtime_error|].
  intros weight. apply bind_no_runtime_error.
  { intros msg. unfold np_log_int.
    destruct ((- 2 ^ 63 <=? weight)%Z && (weight <? 2 ^ 64)%Z); [|discriminate].
    destruct (of_int weight); discriminate. }
  intros lw. apply bind_no_runtime_error; [apply get_column_no_runtime_error|].
  intros old. apply bind_no_runtime_error.
  { intros msg. destruct (length old =? length (vadd_scalar a lw));
      [discriminate|].
    destruct old as [|? [|? ?]]; destruct (vadd_scalar a lw) as [|? [|? ?]];
      discriminate. }
  intros merged. apply bind_no_runtime_error;
    [apply set_column_no_runtime_error|].
  intros samples'. unfold set_logW.
  apply bind_no_runtime_error; [apply get_column_no_runtime_error|].
  intros q. apply set_column_no_runtime_error.
Qed.

Lemma draw_prefix (fuel : nat) (p p' : ImportanceFlowProposal F Fl)
  (n : Z) (samples : list (Sample F)) :
  (0 <= n)%Z ->
  draw np md fuel p n None = Ok (p', samples) ->
  (Z.of_nat (length samples) <= n)%Z.
Proof.
  intros Hn. unfold draw. intros H.
  bind_step H n_draw E1. bind_step H requested E2.
  bind_step H ps E3. destruct ps as [p2 drawn].
  cbn [trim_samples bind] in H.
  bind_step H total E5. bind_step H q E7. injection H as _ <-.
  apply py_slice_prefix_length. exact Hn.
Qed.

(** X10: a call of [draw] that returns has added [n] to the requests of
    the current level and the number of returned samples to its draws,
    appended one entropy and counted one draw; of the other attributes of
    the proposal only the flow may have changed.  Without a lower bound on
    the likelihood at most [n] samples are returned, with one at least
    [n]. *)
Theorem draw_accounting (fuel : nat) (p p' : ImportanceFlowProposal F Fl)
  (n : Z) (logL_min : option F) (samples : list (Sample F)) :
  draw np md fuel p n logL_min = Ok (p', samples) ->
  exists requested drawn entr,
    dict_get (n_requested p) (Level (level_count p)) = Ok requested /\
    dict_get (n_draws p) (Level (level_count p)) = Ok drawn /\
    p' = p <| n_requested :=
                dict_set (n_requested p) (Level (level_count p))
                  (requested + n)%Z |>
           <| n_draws :=
                dict_set (n_draws p) (Level (level_count p))
                  (drawn + Z.of_nat (length samples))%Z |>
           <| level_entropy := level_entropy p ++ [entr] |>
           <| draw_count := (draw_count p + 1)%Z |>
           <| flow := flow p' |> /\
    (logL_min = None -> (0 <= n)%Z -> (Z.of_nat (length samples) <= n)%Z) /\
    (logL_min <> None -> (n <= Z.of_nat (length samples))%Z).
Proof.
  intros H.
  destruct (draw_inv fuel p p' n logL_min samples H)
    as (requested & drawn & entr & G1 & G2 & Fr & _ & _ & Hs).
  exists requested, drawn, entr.
  split; [exact G1|]. split; [exact G2|]. split; [exact Fr|]. split.
  - intros -> Hn. apply (draw_prefix fuel p p' n samples Hn H).
  - intros Hn. apply Hs, Hn.
Qed.

(** X11: [draw] returns only when the dtype has a field [logQ], the
    current level has an entry in [n_requested] and in [n_draws] (so a
    level has been opened by [train]) and [n] converts to a float; with a
    lower bound on the likelihood it moreover needs the combined proposal
    and a field [logl]. *)
Theorem draw_requirements (fuel : nat) (p : ImportanceFlowProposal F Fl)
  (n : Z) (logL_min : option F) :
  is_ok (draw np md fuel p n logL_min) = true ->
  has_field (dtype p) "logQ" = true /\
  is_ok (dict_get (n_requested p) (Level (level_count p))) = true /\
  is_ok (dict_get (n_draws p) (Level (level_count p))) = true /\
  of_int n <> None /\
  (logL_min <> None ->
   combined_proposal p = true /\ has_field (dtype p) "logl" = true).
Proof.
  intros H.
  destruct (draw np md fuel p n logL_min) as [[p' samples]| |] eqn:E;
    try discriminate.
  destruct (draw_inv fuel p p' n logL_min samples E)
    as (requested & drawn & entr & G1 & G2 & _ & Hq & Hn & Hs).
  rewrite G1, G2. repeat split; try assumption; apply Hs; assumption.
Qed.

(** X12: a proposal as [__init__] leaves it has no level yet:
    [update_samples] raises [RuntimeError], and [draw] raises [KeyError]
    for its missing entry in [n_requested], or [OverflowError] when the
    number of samples does not convert. *)
Theorem fresh_proposal_has_no_level (fields : list string) (fl : Fl) (draws : Z)
  (weighted include_likelihood reset combined reweight : bool) (b : option F)
  (p : ImportanceFlowProposal F Fl) :
  new_proposal np fields fl draws weighted include_likelihood reset combined
    reweight b = Ok p ->
  level_count p = (-1)%Z /\
  n_draws p = [(Initial, draws)] /\
  n_requested p = [(Initial, draws)] /\
  (forall samples,
      update_samples np md p samples
      = Raise (RuntimeError
                 "Cannot update samples unless a level has been constructed!")) /\
  (forall fuel n logL_min,
      draw np md fuel p n logL_min = Raise KeyError \/
      draw np md fuel p n logL_min = Raise OverflowError).
Proof.
  unfold new_proposal. intros H. bind_step H log_q E.
  apply update_annealing_frame in H.
  assert (Hl : level_count p = (-1)%Z) by (rewrite H; reflexivity).
  assert (Hd : n_draws p = [(Initial, draws)]) by (rewrite H; reflexivity).
  assert (Hr : n_requested p = [(Initial, draws)]) by (rewrite H; reflexivity).
  split; [exact Hl|]. split; [exact Hd|]. split; [exact Hr|]. split.
  - intros samples. unfold update_samples. rewrite Hl. reflexivity.
  - intros fuel n logL_min. unfold draw. rewrite Hr, Hl.
    unfold scaled_count.
    destruct (match logL_min with Some v => negb (feqb v f0) | None => false end);
      (destruct (of_int n); [|right; reflexivity]).
    + destruct (ftrunc (fmul (literal 12 10) f)); [|right; reflexivity].
      left. reflexivity.
    + destruct (ftrunc (fmul (literal 101 100) f)); [|right; reflexivity].
      left. reflexivity.
Qed.

(** A level opened by [train] and drawn from once. *)
Lemma train_draw_counts (fuel : nat) (p p1 p2 : ImportanceFlowProposal F Fl)
  (training samples : list (Sample F)) (n : Z) (logL_min : option F) :
  train np md p training = Ok p1 ->
  draw np md fuel p1 n logL_min = Ok (p2, samples) ->
  level_count p2 = (level_count p + 1)%Z /\
  dict_get (n_requested p2) (Level (level_count p2)) = Ok n /\
  dict_get (n_draws p2) (Level (level_count p2))
  = Ok (Z.of_nat (length samples)) /\
  (forall k, k <> Level (level_count p2) ->
             dict_get (n_requested p2) k = dict_get (n_requested p) k /\
             dict_get (n_draws p2) k = dict_get (n_draws p) k) /\
  draw_count p2 = (draw_count p + 1)%Z.
Proof.
  intros Ht Hd. apply train_inv in Ht.
  destruct (draw_inv fuel p1 p2 n logL_min samples Hd)
    as (requested & drawn & entr & G1 & G2 & Fr & _ & _ & _).
  assert (L1 : level_count p1 = (level_count p + 1)%Z)
    by (rewrite Ht; reflexivity).
  assert (R1 : n_requested p1
               = dict_set (n_requested p) (Level (level_count p + 1)) 0)
    by (rewrite Ht; reflexivity).
  assert (D1 : n_draws p1 = dict_set (n_draws p) (Level (level_count p + 1)) 0)
    by (rewrite Ht; reflexivity).
  assert (C1 : draw_count p1 = draw_count p) by (rewrite Ht; reflexivity).
  rewrite L1, R1, dict_get_set_same in G1. injection G1 as <-.
  rewrite L1, D1, dict_get_set_same in G2. injection G2 as <-.
  assert (L2 : level_count p2 = (level_count p + 1)%Z)
    by (rewrite Fr; cbn; exact L1).
  assert (R2 : n_requested p2
               = dict_set (n_requested p1) (Level (level_count p1)) (0 + n)%Z)
    by (rewrite Fr; reflexivity).
  assert (D2 : n_draws p2
               = dict_set (n_draws p1) (Level (level_count p1))
                   (0 + Z.of_nat (length samples))%Z)
    by (rewrite Fr; reflexivity).
  assert (C2 : draw_count p2 = (draw_count p1 + 1)%Z)
    by (rewrite Fr; reflexivity).
  split; [exact L2|]. rewrite L2, R2, D2, L1.
  split; [apply dict_get_set_same|]. split; [apply dict_get_set_same|].
  split.
  - intros k Hk.
    assert (Hne : level_key_eqb k (Level (level_count p + 1)) = false).
    { destruct (level_key_eqb k (Level (level_count p + 1))) eqn:E;
        [|reflexivity]. apply level_key_eqb_eq in E. contradiction. }
    rewrite !dict_get_set_other by exact Hne. rewrite R1, D1.
    rewrite !dict_get_set_other by exact Hne. split; reflexivity.
  - rewrite C2, C1. reflexivity.
Qed.

(** X13: [train] opens the next level with no requests and no draws, and
    a [draw] that follows records its own: after the two calls the new
    level holds the number of samples requested and the number returned,
    the entries of the other levels are as before, and [update_samples]
    raises no [RuntimeError]. *)
Theorem train_then_draw (fuel : nat) (p p1 p2 : ImportanceFlowProposal F Fl)
  (training samples : list (Sample F)) (n : Z) (logL_min : option F) :
  (-1 <= level_count p)%Z ->
  train np md p training = Ok p1 ->
  draw np md fuel p1 n logL_min = Ok (p2, samples) ->
  level_count p2 = (level_count p + 1)%Z /\
  dict_get (n_requested p2) (Level (level_count p2)) = Ok n /\
  dict_get (n_draws p2) (Level (level_count p2))
  = Ok (Z.of_nat (length samples)) /\
  (forall k, k <> Level (level_count p2) ->
             dict_get (n_requested p2) k = dict_get (n_requested p) k /\
             dict_get (n_draws p2) k = dict_get (n_draws p) k) /\
  draw_count p2 = (draw_count p + 1)%Z /\
  (forall existing msg,
      update_samples np md p2 existing <> Raise (RuntimeError msg)).
Proof.
  intros Hl Ht Hd.
  destruct (train_draw_counts fuel p p1 p2 training samples n logL_min Ht Hd)
    as (L2 & R2 & D2 & Hk & C2).
  repeat (split; [assumption|]).
  intros existing.
  apply (update_samples_checked p2 existing (Z.of_nat (length samples)));
    [lia|exact D2].
Qed.

End Facts.

End LevelFacts.

(** ** The importance sampler: merging new samples into the live points *)

Module MergeFacts.
Import Importance ImportanceNotions RowFacts ProposalFacts SamplerFacts LevelFacts.

Section Lists.
Context {A : Type}.

Lemma values_at_where (i : nat) (idx : list nat) (values : list A) :
  values_at i idx values = values_where (fun j => j =? i) idx values.
Proof.
  revert values. induction idx as [|j idx IH]; intros [|v values]; cbn;
    try reflexivity.
  rewrite IH. reflexivity.
Qed.

Lemma values_where_ext (P Q : nat -> bool) (idx : list nat) (values : list A) :
  (forall j, In j idx -> P j = Q j) ->
  values_where P idx values = values_where Q idx values.
Proof.
  revert values. induction idx as [|j idx IH]; intros [|v values] H; cbn;
    try reflexivity.
  rewrite (H j) by (left; reflexivity).
  rewrite IH by (intros k Hk; apply H; right; exact Hk). reflexivity.
Qed.

Lemma values_where_split (P P1 P2 : nat -> bool) (idx : list nat)
  (values : list A) :
  (forall j, P j = P1 j || P2 j) ->
  (forall j, P1 j && P2 j = false) ->
  Permutation (values_where P idx values)
    (values_where P1 idx values ++ values_where P2 idx values).
Proof.
  intros Hp Hd. revert values.
  induction idx as [|j idx IH]; intros [|v values]; cbn; try constructor.
  rewrite Hp. specialize (Hd j).
  destruct (P1 j), (P2 j); try discriminate; cbn.
  - constructor. apply IH.
  - apply Permutation_cons_app. apply IH.
  - apply IH.
Qed.

Lemma values_where_all (P : nat -> bool) (idx : list nat) (values : list A) :
  length idx = length values ->
  (forall j, In j idx -> P j = true) ->
  values_where P idx values = values.
Proof.
  revert values. induction idx as [|j idx IH]; intros [|v values] Hl H;
    try discriminate; cbn; [reflexivity|].
  rewrite (H j) by (left; reflexivity). f_equal. apply IH.
  - cbn in Hl. lia.
  - intros k Hk. apply H. right. exact Hk.
Qed.

Lemma np_insert_from_Permutation (a : list A) (idx : list nat) (values : list A) :
  forall i,
    Permutation (np_insert_from i a idx values)
      (a ++ values_where (fun j => (i <=? j) && (j <=? i + length a))
              idx values).
Proof.
  induction a as [|u a IH]; intros i; cbn [np_insert_from length app].
  - rewrite values_at_where.
    rewrite (values_where_ext (fun j => j =? i)
               (fun j => (i <=? j) && (j <=? i + 0))); [reflexivity|].
    intros j _. destruct (Nat.eqb_spec j i), (Nat.leb_spec i j),
      (Nat.leb_spec j (i + 0)); cbn; try reflexivity; lia.
  - rewrite values_at_where.
    apply Permutation_sym. apply Permutation_cons_app.
    apply Permutation_sym.
    rewrite (IH (S i)).
    rewrite (Permutation_app_comm (values_where _ idx values) (a ++ _)).
    rewrite <- app_assoc. apply Permutation_app_head.
    rewrite Permutation_app_comm. apply Permutation_sym.
    apply values_where_split.
    + intros j. destruct (Nat.eqb_spec j i), (Nat.leb_spec i j),
        (Nat.leb_spec j (i + S (length a))), (Nat.leb_spec (S i) j),
        (Nat.leb_spec j (S i + length a)); cbn; try reflexivity; lia.
    + intros j. destruct (Nat.eqb_spec j i), (Nat.leb_spec (S i) j);
        cbn; try reflexivity; lia.
Qed.

(** [np.insert] keeps every entry of the array and every value. *)
Lemma np_insert_Permutation (a : list A) (idx : list nat) (values r : list A) :
  np_insert a idx values = Ok r -> Permutation r (a ++ values).
Proof.
  unfold np_insert. intros H.
  destruct (Nat.eqb_spec (length idx) (length values)) as [Hl|]; cbn [negb] in H;
    [|discriminate].
  destruct (existsb (fun j => length a <? j) idx) eqn:Hb; [discriminate|].
  injection H as <-. rewrite np_insert_from_Permutation.
  rewrite values_where_all; [reflexivity|exact Hl|].
  intros j Hj. cbn.
  destruct (Nat.leb_spec j (length a)) as [_|Hgt]; [reflexivity|].
  exfalso. assert (Ht : existsb (fun j => length a <? j) idx = true).
  { apply existsb_exists. exists j. split; [exact Hj|].
    apply Nat.ltb_lt. exact Hgt. }
  congruence.
Qed.

End Lists.

Section Facts.
Context {F : Type} {num : Number F}.
Context {Fl : Type} {fapi : FlowAPI F Fl}.
Variable np : NumPy F.
Variable md : ImportanceModel F.

Lemma insert_sample_Permutation (fields : list string) (r : Sample F)
  (l : list (Sample F)) :
  Permutation (insert_sample fields r l) (r :: l).
Proof.
  induction l as [|q l IH]; cbn; [reflexivity|].
  destruct (sample_less fields r q); [reflexivity|].
  rewrite IH. apply perm_swap.
Qed.

Lemma np_sort_order_Permutation (fields : list string)
  (a a' : list (Sample F)) :
  np_sort_order fields a = Ok a' -> Permutation a' a.
Proof.
  unfold np_sort_order. destruct (has_field fields "logL"); [|discriminate].
  intros H. injection H as <-.
  assert (G : forall acc,
             Permutation
               (fold_left (fun acc r => insert_sample fields r acc) a acc)
               (acc ++ a)).
  { induction a as [|r a IH]; intros acc; cbn.
    - rewrite app_nil_r. reflexivity.
    - rewrite IH, insert_sample_Permutation.
      cbn. apply Permutation_middle. }
  apply (G []).
Qed.

Lemma set_column_same_length (d : list string) (nm : string) (vs : list F)
  (a a' : list (Sample F)) :
  set_column d nm vs a = Ok a' -> length a' = length a.
Proof.
  unfold set_column. destruct (has_field d nm); [|discriminate].
  destruct (Nat.eqb_spec (length vs) (length a)) as [Hl|].
  - intros H. injection H as <-. apply set_fields_length, Hl.
  - destruct vs as [|v [|? ?]]; try discriminate.
    intros H. injection H as <-. apply length_map.
Qed.

Lemma set_column_field (d : list string) (nm : string) (v : F)
  (a a' : list (Sample F)) :
  set_column d nm [v] a = Ok a' -> Forall (fun r => r nm = v) a'.
Proof.
  unfold set_column. destruct (has_field d nm); [|discriminate].
  assert (Hu : forall s : Sample F, upd s nm v nm = v)
    by (intros s; unfold upd; rewrite String.eqb_refl; reflexivity).
  destruct (Nat.eqb_spec (length [v]) (length a)) as [Hl|].
  - destruct a as [|s [|? ?]]; try discriminate.
    intros H. injection H as <-. cbn. constructor; [apply Hu|constructor].
  - intros H. injection H as <-. apply Forall_forall. intros r Hr.
    apply in_map_iff in Hr. destruct Hr as (s & <- & _). apply Hu.
Qed.

Lemma update_samples_length (p : ImportanceFlowProposal F Fl)
  (samples samples' : list (Sample F)) :
  update_samples np md p samples = Ok samples' ->
  length samples' = length samples.
Proof.
  intros H. apply update_samples_spec in H.
  symmetry. apply (Forall2_length H).
Qed.

Lemma set_column_other (d : list string) (nm k : string) (vs : list F)
  (a a' : list (Sample F)) :
  String.eqb k nm = false ->
  set_column d nm vs a = Ok a' ->
  map (fun r : Sample F => r k) a' = map (fun r : Sample F => r k) a.
Proof.
  intros Hk. unfold set_column. destruct (has_field d nm); [|discriminate].
  assert (Hu : forall (s : Sample F) v, upd s nm v k = s k)
    by (intros s v; unfold upd; rewrite Hk; reflexivity).
  destruct (Nat.eqb_spec (length vs) (length a)) as [Hl|].
  - intros H. injection H as <-. revert a Hl.
    induction vs as [|v vs IH]; intros [|s a] Hl; try discriminate;
      [reflexivity|].
    cbn. rewrite Hu. f_equal. apply IH. cbn in Hl. lia.
  - destruct vs as [|v [|? ?]]; try discriminate.
    intros H. injection H as <-. rewrite map_map. apply map_ext.
    intros s. apply Hu.
Qed.

(** [update_samples] writes [logQ] and [logW] only. *)
Lemma update_samples_other (p : ImportanceFlowProposal F Fl) (k : string)
  (samples samples' : list (Sample F)) :
  String.eqb k "logQ" = false ->
  String.eqb k "logW" = false ->
  update_samples np md p samples = Ok samples' ->
  map (fun r : Sample F => r k) samples' = map (fun r : Sample F => r k) samples.
Proof.
  intros Hq Hw. unfold update_samples. intros H.
  destruct (level_count p <? 0)%Z; [discriminate|].
  destruct (dict_get (n_draws p) (Level (level_count p))) as [d|e|];
    [|destruct e; discriminate|discriminate].
  destruct (rescale md samples) as [xp lj].
  bind_step H lq E1. bind_step H a E2. bind_step H weight E3.
  bind_step H lw E4. bind_step H old E5. bind_step H merged E6.
  bind_step H s1 E7. unfold set_logW in H. bind_step H q E8.
  rewrite (set_column_other _ _ _ _ _ _ Hw H).
  apply (set_column_other _ _ _ _ _ _ Hq E7).
Qed.

(** What a call of [add_and_update_points] that returns has gone through,
    with [leaky] enabled. *)
Lemma add_and_update_points_inv (fuel : nat)
  (s s' : ImportanceNestedSampler F Fl) (n : Z) :
  leaky s = true ->
  add_and_update_points np md fuel s n = Ok s' ->
  exists p1 drawn new i,
    draw np md fuel (proposal s) n None = Ok (p1, drawn) /\
    length new = length drawn /\
    of_int (iteration s) = Some i /\
    Forall (fun r => r "it"%string = i) new /\
    Forall weight_consistent new /\
    (exists unsorted srt,
        np_sort_order (dtype p1) unsorted = Ok srt /\
        map (fun r : Sample F => r "logL"%string) new
        = map (fun r : Sample F => r "logL"%string) srt) /\
    proposal s' = p1 /\
    iteration s' = iteration s /\
    nlive s' = nlive s /\
    leaky s' = true /\
    replace_all s' = replace_all s /\
    history_kl_proposals s' = history_kl_proposals s /\
    history_n_added s' = history_n_added s ++ [Z.of_nat (length new)] /\
    (_update_nested_samples s = false -> nested_samples s' = nested_samples s) /\
    match live_points s with
    | None => live_points s' = Some new
    | Some lp =>
        exists updated lp',
          update_samples np md p1 lp = Ok updated /\
          merge_points (dtype p1) updated new = Ok lp' /\
          live_points s' = Some lp' /\
          Permutation lp' (updated ++ new)
    end.
Proof.
  intros Hleak H. unfold add_and_update_points in H.
  bind_step H sd E1. destruct sd as [s1 new1].
  pose proof (draw_n_samples_consistent np md fuel s s1 n new1 E1)
    as (Q1 & _).
  unfold draw_n_samples in E1. rewrite Hleak in E1. cbn [negb] in E1.
  bind_step E1 pd Ed. destruct pd as [p1 drawn].
  change (leaky (s <| proposal := p1 |>)) with (leaky s) in E1.
  rewrite Hleak in E1.
  assert (S1 : s1 = s <| proposal := p1 |>
                      <| likelihood_evaluations := likelihood_evaluations s1 |>
               /\ length new1 = length drawn).
  { unfold log_likelihood in E1.
    change (pool (s <| proposal := p1 |>)) with (pool s) in E1.
    destruct (pool s); [|destruct (has_vectorised_likelihood md)];
      bind_step E1 r Er; injection E1 as <- <-;
      (split; [destruct s; reflexivity|
               apply (set_column_same_length _ _ _ _ _ Er)]). }
  destruct S1 as [S1 L1].
  bind_step H sorted E2.
  pose proof (np_sort_order_Permutation _ _ _ E2) as P2.
  pose proof (np_sort_order_Forall _ _ _ _ E2 Q1) as Q2.
  bind_step H stamped E3.
  destruct (of_int (iteration s1)) as [i|] eqn:Ei; [|discriminate].
  pose proof (set_column_same_length _ _ _ _ _ E3) as L3.
  pose proof (set_column_field _ _ _ _ _ E3) as I3.
  pose proof (set_other_consistent _ "it" _ _ _ eq_refl eq_refl E3 Q2) as Q3.
  bind_step H lw E4. bind_step H s2 E5. bind_step H s3 E6.
  assert (S3 : s3 = s2 <| nested_samples := nested_samples s3 |> /\
               (_update_nested_samples s2 = false ->
                nested_samples s3 = nested_samples s2)).
  { destruct (_update_nested_samples s2).
    - unfold update_nested_samples in E6. bind_step E6 ns E7.
      injection E6 as <-. split; [destruct s2; reflexivity|discriminate].
    - injection E6 as <-. split; [destruct s2; reflexivity|reflexivity]. }
  destruct S3 as [S3 N3].
  assert (S2 : s2 = s1 <| live_points := live_points s2 |>).
  { unfold update_live_points in E5. destruct (live_points s1) eqn:El.
    - bind_step E5 lp' E7. injection E5 as <-. destruct s1; reflexivity.
    - injection E5 as <-. destruct s1; cbn in *; subst; reflexivity. }
  set (s4 := s3 <| history_n_added :=
                     history_n_added s3 ++ [Z.of_nat (length stamped)] |>) in *.
  change (leaky s4) with (leaky s3) in H.
  change (live_points s4) with (live_points s3) in H.
  assert (Lk : leaky s3 = true)
    by (rewrite S3; cbn; rewrite S2; cbn; rewrite S1; cbn; exact Hleak).
  rewrite Lk in H.
  assert (Hit : iteration s1 = iteration s) by (rewrite S1; reflexivity).
  assert (Hp1 : proposal s1 = p1) by (rewrite S1; reflexivity).
  assert (Hlp1 : live_points s1 = live_points s) by (rewrite S1; reflexivity).
  assert (Hlp3 : live_points s3 = live_points s2) by (rewrite S3; reflexivity).
  assert (G : forall lp',
             s' = s4 <| live_points := Some lp' |> ->
             proposal s' = p1 /\ iteration s' = iteration s /\
             nlive s' = nlive s /\ leaky s' = true /\
             replace_all s' = replace_all s /\
             history_kl_proposals s' = history_kl_proposals s /\
             history_n_added s' = history_n_added s ++ [Z.of_nat (length stamped)] /\
             (_update_nested_samples s = false ->
              nested_samples s' = nested_samples s) /\
             live_points s' = Some lp').
  { intros lp' ->. subst s4. cbn.
    assert (Hu : _update_nested_samples s2 = _update_nested_samples s)
      by (rewrite S2; cbn; rewrite S1; reflexivity).
    rewrite Hu in N3.
    rewrite S3; cbn. rewrite S2; cbn. rewrite S1; cbn.
    repeat split; try assumption.
    intros Hn. rewrite (N3 Hn). rewrite S2; cbn. rewrite S1; reflexivity. }
  exists p1, drawn, stamped, i.
  split; [reflexivity|].
  split; [exact (eq_trans L3 (eq_trans (Permutation_length P2) L1))|].
  split; [rewrite <- Hit; exact Ei|].
  split; [exact I3|]. split; [exact Q3|].
  split.
  { exists new1, sorted. rewrite <- Hp1. split; [exact E2|].
    apply (set_column_other _ "it" "logL" _ _ _ eq_refl E3). }
  rewrite Hlp3 in H. unfold update_live_points in E5. rewrite Hlp1 in E5.
  destruct (live_points s) as [lp|] eqn:El.
  - bind_step E5 updated E7. injection E5 as <-. cbn in H.
    bind_step H lp' E8. injection H as <-.
    destruct (G lp' eq_refl) as (G1 & G2 & G3 & G4 & G5 & G6 & G7 & G8 & G9).
    repeat (split; [assumption|]).
    exists updated, lp'. rewrite Hp1 in E7. split; [exact E7|].
    rewrite Hp1 in E8. split; [exact E8|].
    split; [exact G9|].
    unfold merge_points in E8. bind_step E8 keys K1. bind_step E8 vals K2.
    apply np_insert_Permutation in E8. exact E8.
  - injection E5 as <-. rewrite Hlp1 in H. injection H as <-.
    destruct (G stamped eq_refl) as (G1 & G2 & G3 & G4 & G5 & G6 & G7 & G8 & G9).
    repeat (split; [assumption|]). exact G9.
Qed.

(** X14: with [leaky] enabled and live points present,
    [add_and_update_points] loses and invents nothing: the new live points
    are the old ones, updated by [update_samples], together with the
    samples drawn, in some order.  There are at most [n] new samples, each
    carries the iteration in [it], their number is appended to the history,
    and every live point stores in [logW] the negation of its [logQ]. *)
Theorem merge_keeps_points (fuel : nat) (s s' : ImportanceNestedSampler F Fl)
  (n : Z) (lp : list (Sample F)) :
  leaky s = true ->
  live_points s = Some lp ->
  add_and_update_points np md fuel s n = Ok s' ->
  exists updated new lp' i,
    update_samples np md (proposal s') lp = Ok updated /\
    length updated = length lp /\
    live_points s' = Some lp' /\
    Permutation lp' (updated ++ new) /\
    Forall weight_consistent lp' /\
    ((0 <= n)%Z -> (Z.of_nat (length new) <= n)%Z) /\
    of_int (iteration s) = Some i /\
    Forall (fun r => r "it"%string = i) new /\
    history_n_added s' = history_n_added s ++ [Z.of_nat (length new)].
Proof.
  intros Hleak Hlp H.
  destruct (add_and_update_points_consistent np md fuel s s' n H)
    as (lp0 & Hlp0 & Qlp).
  destruct (add_and_update_points_inv fuel s s' n Hleak H)
    as (p1 & drawn & new & i & Hd & Hlen & Hi & Hit & _ & _ & Hp & _ & _ & _
        & _ & _ & Hh & _ & Hm).
  rewrite Hlp in Hm. destruct Hm as (updated & lp' & Hu & _ & Hl' & Hperm).
  exists updated, new, lp', i. rewrite Hp.
  split; [exact Hu|].
  split; [apply (update_samples_length _ _ _ Hu)|].
  split; [exact Hl'|]. split; [exact Hperm|].
  split; [congruence|].
  split; [|split; [exact Hi|split; [exact Hit|exact Hh]]].
  intros Hn. pose proof (draw_prefix np md fuel _ _ _ _ Hn Hd) as Hb.
  exact (eq_ind_r (fun k => (Z.of_nat k <= n)%Z) Hb Hlen).
Qed.

(** X15: a pass of the level update with [leaky] enabled keeps the
    counters in step: the iteration and the level count of the proposal
    both grow by one, one KL divergence and one number of added samples
    enter the history, and that number is what the proposal has recorded as
    drawn from the new level, out of the number requested.  The pass
    returns only from an iteration that is not negative. *)
Theorem level_update_in_step (fuel : nat) (s s' : ImportanceNestedSampler F Fl)
  (n_remove : Z) :
  leaky s = true ->
  update_and_add np md fuel s n_remove = Ok s' ->
  let n_add := if replace_all s then nlive s else n_remove in
  exists kl added,
    (0 <= iteration s)%Z /\
    iteration s' = (iteration s + 1)%Z /\
    level_count (proposal s') = (level_count (proposal s) + 1)%Z /\
    history_kl_proposals s' = history_kl_proposals s ++ [kl] /\
    history_n_added s' = history_n_added s ++ [added] /\
    dict_get (n_draws (proposal s')) (Level (level_count (proposal s')))
    = Ok added /\
    dict_get (n_requested (proposal s')) (Level (level_count (proposal s')))
    = Ok n_add /\
    ((0 <= n_add)%Z -> (added <= n_add)%Z) /\
    nlive s' = nlive s.
Proof.
  intros Hleak H n_add. unfold update_and_add in H.
  bind_step H s1 E1. bind_step H s2 E2. injection H as <-.
  unfold update_level in E1.
  bind_step E1 lw G1. bind_step E1 p G2. bind_step E1 kl G3.
  injection E1 as <-.
  assert (Hit : (0 <= iteration s)%Z).
  { unfold compute_kl_between_proposals in G3.
    destruct (rescale md (training_points s)) as [xp lj].
    destruct (iteration s - 1 =? iteration s)%Z; [discriminate|].
    destruct (Z.ltb_spec (iteration s - 1) (-1)) as [|Hge]; [discriminate|].
    lia. }
  set (s1 := s <| proposal := p |>
               <| history_kl_proposals := history_kl_proposals s ++ [kl] |>)
    in *.
  change (replace_all s1) with (replace_all s) in E2.
  change (nlive s1) with (nlive s) in E2.
  fold n_add in E2.
  destruct (add_and_update_points_inv fuel s1 s2 n_add Hleak E2)
    as (p1 & drawn & new & i & Hd & Hlen & _ & _ & _ & _ & Hp & Hi & Hn & _
        & _ & Hk & Hh & _ & _).
  cbn in Hd, Hi, Hn, Hk, Hh.
  destruct (train_draw_counts np md fuel _ p p1 _ drawn n_add None G2 Hd)
    as (L2 & R2 & D2 & _ & _).
  pose proof (eq_trans Hh
                (f_equal (fun k => history_n_added s ++ [Z.of_nat k]) Hlen))
    as Hh'.
  exists kl, (Z.of_nat (length drawn)). cbn. rewrite Hp, Hi, Hn, Hk, Hh'.
  repeat (split; [first [assumption|reflexivity]|]).
  split; [|reflexivity].
  intros Hge. apply (draw_prefix np md fuel _ _ _ _ Hge Hd).
Qed.

End Facts.
End MergeFacts.

(** ** The importance sampler: the order of the live points *)

Module OrderFacts.
Import Importance ImportanceNotions RowFacts ProposalFacts SamplerFacts LevelFacts MergeFacts.
Import NumPyOrder ArrayFacts.

Section Order.
Context {F : Type} {num : Number F} {laws : NumberLaws F}.

Lemma np_less_antisym (a b : F) : np_less a b = true -> np_less b a = false.
Proof.
  unfold np_less. intros H. apply orb_true_iff in H.
  apply orb_false_iff. destruct H as [H|H].
  - destruct (fltb_not_nan _ _ H) as [Ha Hb]. rewrite Ha. split.
    + pose proof (fltb_not_fleb _ _ H) as Hn.
      destruct (fltb b a) eqn:E; [|reflexivity].
      apply fltb_fleb in E. congruence.
    + reflexivity.
  - apply andb_true_iff in H. destruct H as [Hb Ha].
    apply negb_true_iff in Ha. rewrite Hb, Ha. split; [|reflexivity].
    destruct (fltb b a) eqn:E; [|reflexivity].
    destruct (fltb_not_nan _ _ E). congruence.
Qed.

(** NumPy's order is a strict weak order: what lies below [c] lies below
    any [b], or [b] lies below [c]. *)
Lemma np_less_cotrans (a b c : F) :
  np_less a c = true -> np_less a b = true \/ np_less b c = true.
Proof.
  unfold np_less. intros H. apply orb_true_iff in H. destruct H as [H|H].
  - destruct (fltb_not_nan _ _ H) as [Ha Hc].
    destruct (isnan b) eqn:Hb.
    + left. rewrite Ha. cbn. apply orb_true_r.
    + destruct (fltb a b) eqn:E; [left; reflexivity|]. right.
      rewrite (fleb_fltb_trans b a c); [reflexivity| |exact H].
      apply fleb_total; assumption.
  - apply andb_true_iff in H. destruct H as [Hc Ha].
    destruct (isnan b) eqn:Hb.
    + left. rewrite Ha. apply orb_true_r.
    + right. rewrite Hc. cbn. apply orb_true_r.
Qed.

Lemma np_less_trans (a b c : F) :
  np_less a b = true -> np_less b c = true -> np_less a c = true.
Proof.
  intros Hab Hbc. destruct (np_less_cotrans b a c Hbc) as [H|H]; [|exact H].
  rewrite (np_less_antisym _ _ Hab) in H. discriminate.
Qed.

Lemma np_le_trans (a b c : F) : np_le a b -> np_le b c -> np_le a c.
Proof.
  unfold np_le. intros Hab Hbc. destruct (np_less c a) eqn:E; [|reflexivity].
  destruct (np_less_cotrans c b a E) as [H|H]; congruence.
Qed.

Lemma np_less_le (a b : F) : np_less a b = true -> np_le a b.
Proof. apply np_less_antisym. Qed.

Lemma np_le_less_trans (a b c : F) :
  np_le a b -> np_less b c = true -> np_less a c = true.
Proof.
  unfold np_le. intros Hab Hbc.
  destruct (np_less_cotrans b a c Hbc) as [H|H]; congruence.
Qed.

Lemma np_sorted_strongly (a : list F) : np_sorted a -> StronglySorted np_le a.
Proof.
  apply Sorted_StronglySorted. intros x y z. apply np_le_trans.
Qed.

Lemma StronglySorted_nth (a : list F) :
  StronglySorted np_le a ->
  forall i j, i < j -> j < length a -> np_le (nth i a fnan) (nth j a fnan).
Proof.
  induction 1 as [|p l Hs IH Hp]; intros i j Hij Hj.
  - cbn in Hj. lia.
  - destruct j as [|j]; [lia|]. cbn in Hj. destruct i as [|i].
    + cbn. rewrite Forall_forall in Hp. apply Hp. apply nth_In. lia.
    + cbn. apply IH; lia.
Qed.

(** On a sorted array [np.searchsorted] returns the boundary between the
    entries below the value and the others. *)
Lemma searchsorted_spec (a : list F) (v : F) :
  StronglySorted np_le a ->
  let r := np_searchsorted a v in
  r <= length a /\
  (forall i, i < r -> np_less (nth i a fnan) v = true) /\
  (forall i, r <= i < length a -> np_less (nth i a fnan) v = false).
Proof.
  intros Hs. unfold np_searchsorted.
  pose proof (binsearch_bounds a v (length a) 0 (length a) (Nat.le_0_l _)) as Hb.
  destruct (binsearch_boundary a v (length a)) with (lo := 0) (hi := length a)
    as [Hlo Hhi]; try lia.
  - intros i j Hij Hj Hbelow.
    destruct (Nat.eq_dec i j) as [->|Hne]; [exact Hbelow|].
    apply (np_le_less_trans _ (nth j a fnan)); [|exact Hbelow].
    apply StronglySorted_nth; [exact Hs|lia|exact Hj].
  - split; [lia|]. split; assumption.
Qed.

(** The boundary is unique. *)
Lemma boundary_unique (a : list F) (v : F) (r1 r2 : nat) :
  r1 <= length a -> r2 <= length a ->
  (forall i, i < r1 -> np_less (nth i a fnan) v = true) ->
  (forall i, r1 <= i < length a -> np_less (nth i a fnan) v = false) ->
  (forall i, i < r2 -> np_less (nth i a fnan) v = true) ->
  (forall i, r2 <= i < length a -> np_less (nth i a fnan) v = false) ->
  r1 = r2.
Proof.
  intros H1 H2 A1 B1 A2 B2.
  destruct (Nat.lt_trichotomy r1 r2) as [Hlt|[Heq|Hgt]]; [|exact Heq|].
  - pose proof (A2 r1 Hlt) as Ha. rewrite (B1 r1) in Ha by lia. discriminate.
  - pose proof (A1 r2 Hgt) as Ha. rewrite (B2 r2) in Ha by lia. discriminate.
Qed.

(** On a sorted array the search for several keys, which narrows its
    interval from one key to the next, gives every key the position that a
    search of its own gives. *)
Lemma searchsorted_from_sorted (a : list F) :
  StronglySorted np_le a ->
  forall (keys : list F) (last : F) (lo hi : nat),
    lo <= length a -> hi <= length a ->
    (forall i, i < lo -> np_less (nth i a fnan) last = true) ->
    (forall i, hi <= i < length a -> np_less (nth i a fnan) last = false) ->
    searchsorted_from a last lo hi keys = map (np_searchsorted a) keys.
Proof.
  intros Hs.
  assert (Hmono : forall v i j, i <= j -> j < length a ->
            np_less (nth j a fnan) v = true -> np_less (nth i a fnan) v = true).
  { intros v i j Hij Hj Hbelow.
    destruct (Nat.eq_dec i j) as [->|Hne]; [exact Hbelow|].
    apply (np_le_less_trans _ (nth j a fnan)); [|exact Hbelow].
    apply StronglySorted_nth; [exact Hs|lia|exact Hj]. }
  induction keys as [|v keys IH]; intros last lo hi Hlo Hhi Hbelow Habove;
    [reflexivity|].
  cbn [searchsorted_from map].
  set (lo' := if np_less last v then lo else 0).
  set (hi' := if np_less last v then length a
              else if hi <? length a then S hi else length a).
  assert (Hb : lo' <= hi' <= length a).
  { subst lo' hi'. destruct (np_less last v); [lia|].
    destruct (Nat.ltb_spec hi (length a)); lia. }
  assert (Hlo' : forall i, i < lo' -> np_less (nth i a fnan) v = true).
  { subst lo'. destruct (np_less last v) eqn:E; [|intros i Hi; lia].
    intros i Hi. apply (np_less_trans _ last); [apply Hbelow, Hi|exact E]. }
  assert (Hhi' : forall i, hi' <= i < length a ->
                           np_less (nth i a fnan) v = false).
  { subst hi'. destruct (np_less last v) eqn:E; [intros i Hi; lia|].
    intros i Hi. destruct (np_less (nth i a fnan) v) eqn:Ei; [|reflexivity].
    destruct (np_less_cotrans _ last _ Ei) as [H|H]; [|congruence].
    rewrite Habove in H; [discriminate|].
    destruct (Nat.ltb_spec hi (length a)); lia. }
  pose proof (binsearch_bounds a v (length a) lo' hi' (proj1 Hb)) as Hr.
  destruct (binsearch_boundary a v (length a) (Hmono v) lo' hi')
    as [Rlo Rhi]; [lia|exact Hb|exact Hlo'|exact Hhi'|].
  set (r := binsearch (length a) a v lo' hi') in *.
  destruct (searchsorted_spec a v Hs) as (Sr & Slo & Shi).
  assert (Er : r = np_searchsorted a v).
  { apply (boundary_unique a v); try assumption; lia. }
  rewrite (IH v r r); [rewrite Er; reflexivity|lia|lia|exact Rlo|exact Rhi].
Qed.

Lemma searchsorted_keys_sorted (a keys : list F) :
  StronglySorted np_le a ->
  np_searchsorted_keys a keys = map (np_searchsorted a) keys.
Proof.
  intros Hs. destruct keys as [|v keys]; [reflexivity|].
  unfold np_searchsorted_keys.
  apply searchsorted_from_sorted; [exact Hs|lia|lia| |]; intros i Hi; lia.
Qed.

Lemma values_where_In (P : nat -> bool) (idx : list nat) (values : list F) (w : F) :
  In w (values_where P idx values) ->
  exists j, In (j, w) (combine idx values) /\ P j = true.
Proof.
  revert values. induction idx as [|j idx IH]; intros [|v values] H; cbn in H;
    try contradiction.
  destruct (P j) eqn:E.
  - destruct H as [<-|H].
    + exists j. split; [left; reflexivity|exact E].
    + destruct (IH _ H) as (j' & Hin & Hp). exists j'.
      split; [right; exact Hin|exact Hp].
  - destruct (IH _ H) as (j' & Hin & Hp). exists j'.
    split; [right; exact Hin|exact Hp].
Qed.

Lemma values_where_sorted (P : nat -> bool) (idx : list nat) (values : list F) :
  StronglySorted np_le values ->
  StronglySorted np_le (values_where P idx values).
Proof.
  intros Hs. revert idx. induction Hs as [|v values Hs IH Hv]; intros [|j idx];
    cbn; try constructor.
  destruct (P j); [|apply IH]. constructor; [apply IH|].
  apply Forall_forall. intros w Hw.
  apply values_where_In in Hw. destruct Hw as (j' & Hin & _).
  apply in_combine_r in Hin. rewrite Forall_forall in Hv. apply Hv, Hin.
Qed.

Lemma np_insert_from_In (a : list F) (idx : list nat) (values : list F) (w : F) :
  forall i, In w (np_insert_from i a idx values) ->
            In w a \/ exists j, In (j, w) (combine idx values) /\ i <= j.
Proof.
  intros i H.
  apply (Permutation_in _ (np_insert_from_Permutation a idx values i)) in H.
  apply in_app_or in H. destruct H as [H|H]; [left; exact H|right].
  apply values_where_In in H. destruct H as (j & Hin & Hp).
  exists j. split; [exact Hin|].
  apply andb_true_iff in Hp. destruct Hp as [Hp _].
  apply Nat.leb_le. exact Hp.
Qed.

Lemma StronglySorted_app_cons (l1 l2 : list F) (x : F) :
  StronglySorted np_le l1 ->
  StronglySorted np_le (x :: l2) ->
  Forall (fun y => np_le y x) l1 ->
  StronglySorted np_le (l1 ++ x :: l2).
Proof.
  intros H1 H2 Hx. induction H1 as [|y l1 Hs IH Hy]; cbn; [exact H2|].
  inversion Hx as [|? ? Hyx Hx']; subst.
  constructor; [apply IH; exact Hx'|].
  apply Forall_app. split; [exact Hy|].
  constructor; [exact Hyx|].
  inversion H2 as [|? ? _ Hl2]; subst.
  eapply Forall_impl; [|exact Hl2]. intros z Hz.
  apply (np_le_trans _ x); assumption.
Qed.

(** Values inserted at the boundaries that the search gives keep a sorted
    array sorted. *)
Lemma np_insert_from_sorted (a : list F) (idx : list nat) (values : list F) :
  StronglySorted np_le values ->
  forall i,
    StronglySorted np_le a ->
    (forall j v, In (j, v) (combine idx values) ->
       forall m u, nth_error a m = Some u ->
                   (i + m < j -> np_less u v = true) /\
                   (j <= i + m -> np_less u v = false)) ->
    StronglySorted np_le (np_insert_from i a idx values).
Proof.
  intros Hv. induction a as [|u a IH]; intros i Ha Hb;
    cbn [np_insert_from]; rewrite values_at_where.
  - apply values_where_sorted, Hv.
  - inversion Ha as [|? ? Ha' Hu]; subst.
    assert (Hrest : StronglySorted np_le (np_insert_from (S i) a idx values)).
    { apply IH; [exact Ha'|]. intros j v Hin m w Hm.
      destruct (Hb j v Hin (S m) w Hm) as [B1 B2].
      split; intros Hj; [apply B1|apply B2]; lia. }
    apply StronglySorted_app_cons.
    + apply values_where_sorted, Hv.
    + constructor; [exact Hrest|].
      apply Forall_forall. intros w Hw.
      apply np_insert_from_In in Hw. destruct Hw as [Hw|(j & Hin & Hj)].
      * rewrite Forall_forall in Hu. apply Hu, Hw.
      * apply np_less_le. apply (Hb j w Hin 0 u eq_refl). lia.
    + apply Forall_forall. intros y Hy.
      apply values_where_In in Hy. destruct Hy as (j & Hin & Hj).
      apply Nat.eqb_eq in Hj. subst j.
      apply (Hb i y Hin 0 u eq_refl). lia.
Qed.

Lemma In_combine_map (g : F -> nat) (values : list F) (j : nat) (v : F) :
  In (j, v) (combine (map g values) values) -> j = g v.
Proof.
  induction values as [|w values IH]; cbn; [contradiction|].
  intros [H|H]; [injection H as <- <-; reflexivity|apply IH, H].
Qed.

(** Merging a sorted array into a sorted array, as [np.insert] does at the
    positions that [np.searchsorted] gives. *)
Lemma np_insert_sorted (keys values r : list F) :
  np_sorted keys -> np_sorted values ->
  np_insert keys (map (np_searchsorted keys) values) values = Ok r ->
  np_sorted r.
Proof.
  intros Hk Hv H. apply np_sorted_strongly in Hk. apply np_sorted_strongly in Hv.
  unfold np_insert in H.
  destruct (negb _); [discriminate|]. destruct (existsb _ _); [discriminate|].
  injection H as <-. apply StronglySorted_Sorted.
  apply np_insert_from_sorted; [exact Hv|exact Hk|].
  intros j v Hin m u Hm. apply In_combine_map in Hin. subst j.
  destruct (searchsorted_spec keys v Hk) as (Hr & Hlo & Hhi).
  assert (Hlt : m < length keys) by (apply nth_error_Some; congruence).
  assert (Hu : nth m keys fnan = u) by (apply nth_error_nth; exact Hm).
  rewrite <- Hu. split; intros Hj; [apply Hlo|apply Hhi]; lia.
Qed.

Lemma np_insert_from_map {A : Type} (g : A -> F) (a : list A) (idx : list nat)
  (values : list A) :
  forall i, map g (np_insert_from i a idx values)
            = np_insert_from i (map g a) idx (map g values).
Proof.
  assert (Hv : forall i, map g (values_at i idx values)
                         = values_at i idx (map g values)).
  { intros i. revert values. induction idx as [|j idx IH]; intros [|v values];
      cbn; try reflexivity.
    destruct (j =? i); cbn; rewrite IH; reflexivity. }
  induction a as [|u a IH]; intros i; cbn; [apply Hv|].
  rewrite map_app, Hv. cbn. rewrite IH. reflexivity.
Qed.

Lemma lex_compare_antisym (x : list F) :
  forall y, LiveStore.lex_compare x y = Lt -> LiveStore.lex_compare y x = Gt.
Proof.
  induction x as [|a x IH]; intros [|b y] H; cbn [LiveStore.lex_compare] in *;
    try discriminate; try reflexivity.
  unfold LiveStore.double_compare in *.
  destruct (np_less a b) eqn:Eab.
  - rewrite (np_less_antisym _ _ Eab). reflexivity.
  - destruct (np_less b a) eqn:Eba; [discriminate|]. apply IH. exact H.
Qed.

Lemma sample_less_antisym (fields : list string) (p q : Sample F) :
  sample_less fields p q = true -> sample_less fields q p = false.
Proof.
  unfold sample_less. intros H.
  destruct (LiveStore.lex_compare (order_key fields p) (order_key fields q))
    eqn:E; try discriminate.
  rewrite (lex_compare_antisym _ _ E). reflexivity.
Qed.

Lemma sample_less_logL (fields : list string) (p q : Sample F) :
  sample_less fields q p = false ->
  np_le (p "logL"%string) (q "logL"%string).
Proof.
  unfold sample_less, order_key, np_le. cbn [LiveStore.lex_compare].
  unfold LiveStore.double_compare.
  destruct (np_less (q "logL"%string) (p "logL"%string));
    [discriminate|reflexivity].
Qed.

Lemma insert_sample_sorted (fields : list string) (r : Sample F)
  (l : list (Sample F)) :
  Sorted (fun a b => sample_less fields b a = false) l ->
  Sorted (fun a b => sample_less fields b a = false) (insert_sample fields r l).
Proof.
  induction 1 as [|q l Hs IH Hh]; cbn [insert_sample].
  - repeat constructor.
  - destruct (sample_less fields r q) eqn:E.
    + constructor; [constructor; assumption|]. constructor.
      apply sample_less_antisym. exact E.
    + constructor; [exact IH|].
      destruct Hh as [|q' l' Hq]; cbn [insert_sample].
      * constructor. exact E.
      * destruct (sample_less fields r q'); constructor; assumption.
Qed.

(** [a.sort(order='logL')] leaves the array in NumPy's order on
    [logL]. *)
Lemma np_sort_order_sorted (fields : list string) (a a' : list (Sample F)) :
  np_sort_order fields a = Ok a' ->
  np_sorted (map (fun r : Sample F => r "logL"%string) a').
Proof.
  unfold np_sort_order. destruct (has_field fields "logL"); [|discriminate].
  intros H. injection H as <-.
  assert (G : forall acc,
             Sorted (fun a b => sample_less fields b a = false) acc ->
             Sorted (fun a b => sample_less fields b a = false)
               (fold_left (fun acc r => insert_sample fields r acc) a acc)).
  { induction a as [|r a IH]; intros acc Hacc; cbn; [exact Hacc|].
    apply IH. apply insert_sample_sorted. exact Hacc. }
  specialize (G [] (Sorted_nil _)).
  unfold np_sorted.
  induction G as [|q l Hs IH Hh]; cbn; constructor; [exact IH|].
  destruct Hh; cbn; constructor. apply (sample_less_logL fields). assumption.
Qed.

End Order.

Section Facts.
Context {F : Type} {num : Number F} {laws : NumberLaws F}.
Context {Fl : Type} {fapi : FlowAPI F Fl}.
Variable np : NumPy F.
Variable md : ImportanceModel F.

(** X16: with [leaky] enabled, [add_and_update_points] keeps the live
    points in NumPy's order on [logL] (ascending, NaN last): the new
    samples are sorted and merged into the old. *)
Theorem merge_keeps_order (fuel : nat) (s s' : ImportanceNestedSampler F Fl)
  (n : Z) (lp : list (Sample F)) :
  leaky s = true ->
  live_points s = Some lp ->
  np_sorted (map (fun r : Sample F => r "logL"%string) lp) ->
  add_and_update_points np md fuel s n = Ok s' ->
  exists lp',
    live_points s' = Some lp' /\
    np_sorted (map (fun r : Sample F => r "logL"%string) lp').
Proof.
  intros Hleak Hlp Hs H.
  destruct (add_and_update_points_inv np md fuel s s' n Hleak H)
    as (p1 & drawn & new & i & _ & _ & _ & _ & _ & Hsrt & _ & _ & _ & _
        & _ & _ & _ & _ & Hm).
  rewrite Hlp in Hm. destruct Hm as (updated & lp' & Hu & Hmerge & Hl' & _).
  exists lp'. split; [exact Hl'|].
  destruct Hsrt as (unsorted & srt & Hso & Hkeys).
  apply np_sort_order_sorted in Hso. rewrite <- Hkeys in Hso.
  pose proof (update_samples_other np md p1 "logL" lp updated eq_refl eq_refl Hu)
    as Hk.
  rewrite <- Hk in Hs.
  unfold merge_points in Hmerge.
  bind_step Hmerge keys K1. bind_step Hmerge vals K2.
  apply get_column_ok in K1. apply get_column_ok in K2. subst keys vals.
  rewrite (searchsorted_keys_sorted _ _ (np_sorted_strongly _ Hs)) in Hmerge.
  apply (np_insert_sorted _ _ _ Hs Hso).
  unfold np_insert in *.
  rewrite !length_map in *.
  destruct (negb _); [discriminate|].
  destruct (existsb _ _); [discriminate|].
  injection Hmerge as <-. rewrite np_insert_from_map. reflexivity.
Qed.

End Facts.
End OrderFacts.

(** ** The importance sampler on the stand-ins *)

Module LevelCases.
Import Importance ImportanceDoubles NumPyOrder.
Import RowFacts ProposalFacts SamplerFacts LevelFacts MergeFacts OrderFacts.

(** X10, witness: three samples drawn from a trained level. *)
Lemma draw_accounting_witness :
  let p := level_zero true {| flows := 1; density := (-5)%float |} 0 in
  exists p' samples,
    draw np_tropical line_model 5 p 3 None = Ok (p', samples) /\
    exists requested drawn entr,
      dict_get (n_requested p) (Level (level_count p)) = Ok requested /\
      dict_get (n_draws p) (Level (level_count p)) = Ok drawn /\
      p' = p <| n_requested :=
                  dict_set (n_requested p) (Level (level_count p))
                    (requested + 3)%Z |>
             <| n_draws :=
                  dict_set (n_draws p) (Level (level_count p))
                    (drawn + Z.of_nat (length samples))%Z |>
             <| level_entropy := level_entropy p ++ [entr] |>
             <| draw_count := (draw_count p + 1)%Z |>
             <| flow := flow p' |> /\
      (@None float = None -> (0 <= 3)%Z -> (Z.of_nat (length samples) <= 3)%Z) /\
      (@None float <> None -> (3 <= Z.of_nat (length samples))%Z).
Proof.
  intros p. eexists. eexists.
  match goal with
  | |- ?G /\ _ => assert (E : G) by (vm_compute; reflexivity)
  end.
  split; [exact E|].
  exact (draw_accounting np_tropical line_model 5 p _ 3 None _ E).
Defined.

(** X11, witness: a draw that returns, from a trained level. *)
Lemma draw_requirements_witness :
  let p := level_zero true {| flows := 1; density := (-5)%float |} 0 in
  has_field (dtype p) "logQ" = true /\
  is_ok (dict_get (n_requested p) (Level (level_count p))) = true /\
  is_ok (dict_get (n_draws p) (Level (level_count p))) = true /\
  of_int (F:=float) 3 <> None /\
  (@None float <> None ->
   combined_proposal p = true /\ has_field (dtype p) "logl" = true).
Proof.
  intros p.
  apply (draw_requirements np_tropical line_model 5 p 3 None).
  vm_compute. reflexivity.
Defined.

(** X12, witness: the proposal that [get_proposal] builds. *)
Lemma fresh_proposal_has_no_level_witness :
  let fl := {| flows := 0; density := (-5)%float |} in
  exists p,
    new_proposal np_tropical all_fields fl 1 true false false true false None
    = Ok p /\
    level_count p = (-1)%Z /\
    (forall samples,
        update_samples np_tropical line_model p samples
        = Raise (RuntimeError
                   "Cannot update samples unless a level has been constructed!")) /\
    (forall fuel n logL_min,
        draw np_tropical line_model fuel p n logL_min = Raise KeyError \/
        draw np_tropical line_model fuel p n logL_min = Raise OverflowError).
Proof.
  intros fl. eexists.
  match goal with
  | |- ?G /\ _ => assert (E : G) by (vm_compute; reflexivity)
  end.
  split; [exact E|].
  destruct (fresh_proposal_has_no_level np_tropical line_model _ _ _ _ _ _ _ _
              _ _ E) as (H1 & _ & _ & H4 & H5).
  split; [exact H1|]. split; [exact H4|exact H5].
Defined.

(** X13, witness: a first level is trained on one sample and one sample is
    drawn from it. *)
Lemma train_then_draw_witness :
  let fl := {| flows := 0; density := (-5)%float |} in
  exists p p1 p2 samples,
    get_proposal np_tropical all_fields fl 1 false = Ok p /\
    train np_tropical line_model p [row_of 0%float] = Ok p1 /\
    draw np_tropical line_model 5 p1 1 None = Ok (p2, samples) /\
    level_count p2 = 0%Z /\
    dict_get (n_requested p2) (Level 0) = Ok 1%Z /\
    dict_get (n_draws p2) (Level 0) = Ok (Z.of_nat (length samples)) /\
    dict_get (n_draws p2) Initial = Ok 1%Z /\
    (forall existing msg,
        update_samples np_tropical line_model p2 existing
        <> Raise (RuntimeError msg)).
Proof.
  intros fl. eexists. eexists. eexists. eexists.
  match goal with
  | |- ?G0 /\ _ => assert (E0 : G0) by (vm_compute; reflexivity)
  end.
  split; [exact E0|].
  match goal with
  | |- ?G1 /\ _ => assert (E1 : G1) by (vm_compute; reflexivity)
  end.
  split; [exact E1|].
  match goal with
  | |- ?G2 /\ _ => assert (E2 : G2) by (vm_compute; reflexivity)
  end.
  split; [exact E2|].
  match type of E0 with
  | _ = Ok ?p =>
      assert (Hl : (-1 <= level_count p)%Z) by (vm_compute; discriminate)
  end.
  destruct (train_then_draw np_tropical line_model 5 _ _ _ _ _ 1 None
              Hl E1 E2)
    as (L & R & D & K & _ & U).
  split; [exact L|]. rewrite L in R, D, K.
  split; [exact R|]. split; [exact D|]. split; [|exact U].
  rewrite (proj2 (K Initial ltac:(discriminate))). reflexivity.
Defined.

(** X14, witness: one sample is drawn and merged into the one live
    point. *)
Lemma merge_keeps_points_witness :
  let s := first_level true {| flows := 1; density := (-5)%float |} in
  exists s' updated new lp',
    add_and_update_points np_tropical line_model 5 s 1 = Ok s' /\
    update_samples np_tropical line_model (proposal s') [row_of 0%float]
    = Ok updated /\
    live_points s' = Some lp' /\
    Permutation lp' (updated ++ new) /\
    Forall weight_consistent lp' /\
    length lp' = 2 /\
    (Z.of_nat (length new) <= 1)%Z /\
    history_n_added s' = [Z.of_nat (length new)].
Proof.
  intros s. eexists.
  assert (E : add_and_update_points np_tropical line_model 5 s 1 = Ok _)
    by (vm_compute; reflexivity).
  destruct (merge_keeps_points np_tropical line_model 5 s _ 1 [row_of 0%float]
              eq_refl eq_refl E)
    as (updated & new & lp' & i & Hu & Hl & Hlp & Hp & Hw & Hn & _ & _ & Hh).
  exists updated, new, lp'.
  split; [exact E|]. split; [exact Hu|]. split; [exact Hlp|].
  split; [exact Hp|]. split; [exact Hw|].
  split; [|split; [apply Hn; lia|exact Hh]].
  cbn in Hlp. injection Hlp as <-. reflexivity.
Defined.

(** X15, witness: a whole pass on a sampler with the proposal that
    [get_proposal] builds. *)
Lemma level_update_in_step_witness :
  let fl := {| flows := 0; density := (-5)%float |} in
  exists p s' kl added,
    get_proposal np_tropical all_fields fl 1 false = Ok p /\
    update_and_add np_tropical line_model 5
      ((first_level true fl) <| proposal := p |>) 1 = Ok s' /\
    iteration s' = 1%Z /\
    level_count (proposal s') = 0%Z /\
    history_kl_proposals s' = [kl] /\
    history_n_added s' = [added] /\
    dict_get (n_draws (proposal s')) (Level 0) = Ok added /\
    dict_get (n_requested (proposal s')) (Level 0) = Ok 1%Z /\
    (added <= 1)%Z.
Proof.
  intros fl. eexists. eexists.
  match goal with
  | |- exists kl added, ?G0 /\ _ =>
      assert (E0 : G0) by (vm_compute; reflexivity)
  end.
  match goal with
  | |- exists kl added, _ /\ ?G /\ _ =>
      assert (E : G) by (vm_compute; reflexivity)
  end.
  match type of E with
  | update_and_add _ _ _ ?s _ = Ok ?s' =>
      destruct (level_update_in_step np_tropical line_model 5 s s' 1 eq_refl E)
        as (kl & added & _ & Hi & Hl & Hk & Hh & Hd & Hr & Hb & _)
  end.
  exists kl, added.
  split; [exact E0|]. split; [exact E|]. split; [exact Hi|].
  split; [exact Hl|]. split; [exact Hk|]. split; [exact Hh|].
  rewrite Hl in Hd, Hr.
  split; [exact Hd|]. split; [exact Hr|]. apply Hb. cbn. lia.
Defined.

(** X16, witness: the one live point and the sample merged into it. *)
Lemma merge_keeps_order_witness :
  let s := first_level true {| flows := 1; density := (-5)%float |} in
  exists s' lp',
    add_and_update_points np_tropical line_model 5 s 1 = Ok s' /\
    live_points s' = Some lp' /\
    np_sorted (map (fun r : Sample float => r "logL"%string) lp').
Proof.
  intros s. eexists.
  assert (E : add_and_update_points np_tropical line_model 5 s 1 = Ok _)
    by (vm_compute; reflexivity).
  destruct (merge_keeps_order (laws:=NumberFacts.binary64_laws)
              np_tropical line_model 5 s _ 1 [row_of 0%float]
              eq_refl eq_refl ltac:(repeat constructor) E)
    as (lp' & Hlp & Hs).
  exists lp'. split; [exact E|]. split; [exact Hlp|exact Hs].
Defined.

End LevelCases.

(** ** Conversions between arrays and live points *)

Module LivePointFacts.
Import Importance LivePointArrays RowFacts.

Section Facts.
Context {F : Type} {num : Number F}.

Lemma nodupb_NoDup (l : list string) : nodupb l = true -> NoDup l.
Proof.
  induction l as [|x l IH]; cbn; intros H; constructor.
  - apply andb_true_iff in H. destruct H as [H _].
    intros Hin. apply negb_true_iff in H.
    assert (E : existsb (String.eqb x) l = true).
    { apply existsb_exists. exists x. split; [exact Hin|apply String.eqb_refl]. }
    congruence.
  - apply IH. apply andb_true_iff in H. apply H.
Qed.

Lemma NoDup_nodupb (l : list string) : NoDup l -> nodupb l = true.
Proof.
  induction 1 as [|x l Hx _ IH]; cbn; [reflexivity|].
  rewrite IH, andb_true_r. apply negb_true_iff.
  destruct (existsb (String.eqb x) l) eqn:E; [|reflexivity].
  apply existsb_exists in E. destruct E as (y & Hy & E).
  apply String.eqb_eq in E. subst y. contradiction.
Qed.

Lemma has_field_In (d : list string) (n : string) :
  has_field d n = true <-> In n d.
Proof.
  unfold has_field. rewrite existsb_exists. split.
  - intros (y & Hy & E). apply String.eqb_eq in E. subst y. exact Hy.
  - intros H. exists n. split; [exact H|apply String.eqb_refl].
Qed.

Lemma fill_row_other (r : list F) (names : list string) :
  forall i s n, ~ In n names -> fill_row r i names s n = s n.
Proof.
  induction names as [|m rest IH]; intros i s n Hn; cbn; [reflexivity|].
  rewrite IH by (intros H; apply Hn; right; exact H).
  unfold upd. destruct (String.eqb n m) eqn:E; [|reflexivity].
  apply String.eqb_eq in E. subst m. exfalso. apply Hn. left. reflexivity.
Qed.

Lemma firstn_skipn_cons (r : list F) (i k : nat) :
  i < length r ->
  firstn (S k) (skipn i r) = nth i r f0 :: firstn k (skipn (S i) r).
Proof.
  revert i. induction r as [|x r IH]; intros i Hi; cbn in Hi; [lia|].
  destruct i as [|i]; [reflexivity|].
  cbn [skipn nth]. apply IH. lia.
Qed.

Lemma fill_row_read (r : list F) (names : list string) :
  forall i s, NoDup names -> i + length names <= length r ->
  map (fill_row r i names s) names = firstn (length names) (skipn i r).
Proof.
  induction names as [|n rest IH]; intros i s Hd Hl; [reflexivity|].
  inversion Hd as [|? ? Hn Hd']; subst. cbn [length] in Hl.
  cbn [map fill_row length].
  rewrite firstn_skipn_cons by lia. f_equal.
  - rewrite fill_row_other by exact Hn. unfold upd.
    rewrite String.eqb_refl. reflexivity.
  - apply IH; [exact Hd'|lia].
Qed.

Lemma set_fields_combine (n : string) (g : list F -> F) (R : list (list F)) :
  forall rows, length rows = length R ->
  set_fields n (map g R) rows
  = map (fun '(r, s) => upd s n (g r)) (combine R rows).
Proof.
  induction R as [|r R IH]; intros [|s rows] Hl; try discriminate; cbn;
    [reflexivity|].
  f_equal. apply IH. cbn in Hl. lia.
Qed.

Lemma combine_map_again {A B : Type} (f : A * B -> B) (g : A * B -> B)
  (R : list A) :
  forall rows, 
  map g (combine R (map f (combine R rows)))
  = map (fun '(r, s) => g (r, f (r, s))) (combine R rows).
Proof.
  induction R as [|r R IH]; intros [|s rows]; cbn; try reflexivity.
  f_equal. apply IH.
Qed.

(** The loop over the names fills every record from its row. *)
Lemma fill_columns_ok (d : list string) (m : matrix F) (names : list string) :
  forall i rows,
    Forall (fun n => has_field d n = true) names ->
    i + length names <= ncols m ->
    length rows = length (mrows m) ->
    fill_columns d m i names rows
    = Ok (map (fun '(r, s) => fill_row r i names s) (combine (mrows m) rows)).
Proof.
  induction names as [|n rest IH]; intros i rows Hf Hl Hr.
  - cbn. f_equal. clear Hl. revert rows Hr.
    induction (mrows m) as [|r R IHR]; intros [|s rows] Hr; try discriminate;
      cbn; [reflexivity|]. f_equal. apply IHR. cbn in Hr. lia.
  - inversion Hf as [|? ? Hn Hf']; subst. cbn [length] in Hl.
    cbn [fill_columns]. unfold column.
    destruct (Nat.ltb_spec i (ncols m)) as [_|Hc]; [|lia].
    cbn [bind]. unfold set_column. rewrite Hn.
    rewrite length_map, <- Hr, Nat.eqb_refl. cbn [bind].
    rewrite set_fields_combine by exact Hr.
    rewrite IH; [|exact Hf'|lia|].
    + f_equal.
      rewrite (combine_map_again
                 (fun '(r, s) => upd s n (nth i r f0))
                 (fun '(r, s) => fill_row r (S i) rest s)).
      apply map_ext. intros [r s]. reflexivity.
    + rewrite length_map, length_combine. lia.
Qed.

(** When the array has fewer columns than there are names, the loop ends
    with [IndexError]. *)
Lemma fill_columns_short (d : list string) (m : matrix F) (names : list string) :
  forall i rows,
    Forall (fun n => has_field d n = true) names ->
    i <= ncols m ->
    ncols m < i + length names ->
    length rows = length (mrows m) ->
    fill_columns d m i names rows = Raise IndexError.
Proof.
  induction names as [|n rest IH]; intros i rows Hf Hi Hl Hr.
  - cbn in Hl. lia.
  - inversion Hf as [|? ? Hn Hf']; subst. cbn [length] in Hl.
    cbn [fill_columns]. unfold column.
    destruct (Nat.ltb_spec i (ncols m)) as [Hc|Hc]; [|reflexivity].
    cbn [bind]. unfold set_column. rewrite Hn.
    rewrite length_map, <- Hr, Nat.eqb_refl. cbn [bind].
    apply IH; [exact Hf'|lia|lia|].
    rewrite set_fields_combine by exact Hr.
    rewrite length_map, length_combine. lia.
Qed.

Lemma get_dtype_fields (names : list string) :
  Forall (fun n => has_field (get_dtype names true) n = true) names.
Proof.
  apply Forall_forall. intros n Hn. apply has_field_In.
  unfold get_dtype. apply in_or_app. left. exact Hn.
Qed.

Lemma get_dtype_NoDup (names : list string) :
  nodupb (get_dtype names true) = true ->
  NoDup names /\ ~ In "logP"%string names /\ ~ In "logL"%string names.
Proof.
  intros H. apply nodupb_NoDup in H. unfold get_dtype in H.
  split; [apply NoDup_app_remove_r in H; exact H|].
  split; intros Hin.
  - apply NoDup_remove_2 in H. apply H. apply in_or_app. left. exact Hin.
  - assert (H' : NoDup ((names ++ ["logP"%string]) ++ ["logL"%string]))
      by (rewrite <- app_assoc; exact H).
    apply NoDup_remove_2 in H'. apply H'. rewrite app_nil_r.
    apply in_or_app. left. exact Hin.
Qed.

(** The round trip for at least one name. *)
Lemma named_round_trip (m : matrix F) (names : list string) :
  nodupb (get_dtype names true) = true ->
  names <> [] ->
  length names <= ncols m ->
  Forall (fun r => length r = ncols m) (mrows m) ->
  exists live_points,
    numpy_array_to_live_points (Array2 m) names = Ok live_points /\
    fields live_points = get_dtype names true /\
    length (records live_points) = length (mrows m) /\
    Forall (fun s => s "logP"%string = f0 /\ s "logL"%string = f0)
      (records live_points) /\
    live_points_to_array live_points (Some names)
    = Ok {| ncols := length names;
            mrows := map (firstn (length names)) (mrows m) |}.
Proof.
  intros Hd Hne Hl Hrows.
  destruct (get_dtype_NoDup names Hd) as (Hnd & HP & HL).
  unfold numpy_array_to_live_points, np_dtype. rewrite Hd. cbn [bind size].
  assert (Hread : forall rows : list (Sample F),
             live_points_to_array
               {| fields := get_dtype names true; records := rows |} (Some names)
             = Ok {| ncols := length names;
                     mrows := map (fun s => map s names) rows |}).
  { intros rows. unfold live_points_to_array. cbn [fields records].
    assert (Ha : forallb (has_field (get_dtype names true)) names = true).
    { apply forallb_forall. intros n Hn.
      pose proof (get_dtype_fields names) as Hf. rewrite Forall_forall in Hf.
      apply Hf, Hn. }
    rewrite Ha, (NoDup_nodupb names Hnd). cbn [negb].
    destruct names; [contradiction|reflexivity]. }
  destruct (Nat.eqb_spec (length (mrows m) * ncols m) 0) as [Hz|Hz].
  - assert (Hm : mrows m = []).
    { destruct (mrows m); [reflexivity|]. destruct names; [contradiction|].
      cbn in Hl, Hz. lia. }
    eexists. split; [reflexivity|]. cbn [fields records].
    split; [reflexivity|]. rewrite Hm. split; [reflexivity|].
    split; [constructor|]. apply Hread.
  - rewrite fill_columns_ok;
      [|apply get_dtype_fields|cbn; lia|apply repeat_length].
    cbn [bind]. eexists. split; [reflexivity|]. cbn [fields records].
    split; [reflexivity|].
    split; [rewrite length_map, length_combine, repeat_length; lia|].
    split.
    + apply Forall_forall. intros s Hs. apply in_map_iff in Hs.
      destruct Hs as ([r s0] & <- & Hin). apply in_combine_r in Hin.
      apply repeat_spec in Hin. subst s0.
      rewrite !fill_row_other by assumption. split; reflexivity.
    + rewrite Hread. do 2 f_equal. rewrite map_map.
      assert (Hgen : forall rows : list (Sample F),
                length rows = length (mrows m) ->
                map (fun x => map ((fun '(r, s) => fill_row r 0 names s) x) names)
                  (combine (mrows m) rows)
                = map (firstn (length names)) (mrows m)).
      { clear Hz Hread. induction Hrows as [|r R Hr _ IH];
          intros [|s rows] Hlen; try discriminate; [reflexivity|].
        cbn [combine map]. f_equal; [|apply IH; cbn in Hlen; lia].
        rewrite fill_row_read; [reflexivity|exact Hnd|lia]. }
      apply Hgen, repeat_length.
Qed.

(** X20: an array with a column for every name, converted by
    [numpy_array_to_live_points] and back by [live_points_to_array], gives
    the columns of the names again; columns beyond the names are dropped
    without an error, one record is made per row (none when the array has
    no columns, its size being zero), and every record has [logP] and
    [logL] zero.  Without any name the records hold [logP] and [logL] only,
    and the conversion back, whose empty list of names selects no record,
    gives an array without rows and with these two columns. *)
Theorem array_round_trip (m : matrix F) (names : list string) :
  nodupb (get_dtype names true) = true ->
  length names <= ncols m ->
  Forall (fun r => length r = ncols m) (mrows m) ->
  exists live_points,
    numpy_array_to_live_points (Array2 m) names = Ok live_points /\
    fields live_points = get_dtype names true /\
    length (records live_points)
    = (if ncols m =? 0 then 0 else length (mrows m)) /\
    Forall (fun s => s "logP"%string = f0 /\ s "logL"%string = f0)
      (records live_points) /\
    live_points_to_array live_points (Some names)
    = Ok (match names with
          | [] => {| ncols := 2; mrows := [] |}
          | _ :: _ => {| ncols := length names;
                         mrows := map (firstn (length names)) (mrows m) |}
          end).
Proof.
  intros Hd Hl Hrows. destruct names as [|n rest].
  - unfold numpy_array_to_live_points, np_dtype. cbn [get_dtype app nodupb
      existsb String.eqb Ascii.eqb Bool.eqb negb andb bind size fill_columns].
    destruct (length (mrows m) * ncols m =? 0) eqn:Ez.
    + apply Nat.eqb_eq in Ez. eexists. split; [reflexivity|].
      cbn [fields records]. split; [reflexivity|]. split.
      * destruct (Nat.eqb_spec (ncols m) 0) as [Hc|Hc]; [reflexivity|].
        cbn [length]. nia.
      * split; [constructor|reflexivity].
    + apply Nat.eqb_neq in Ez.
      eexists. split; [reflexivity|]. cbn [fields records].
      split; [reflexivity|]. split.
      * rewrite repeat_length.
        destruct (Nat.eqb_spec (ncols m) 0) as [Hc|Hc]; [|reflexivity].
        rewrite Hc in Ez. lia.
      * split; [|reflexivity].
        apply Forall_forall. intros s Hs. apply repeat_spec in Hs. subst s.
        split; reflexivity.
  - destruct (named_round_trip m (n :: rest) Hd ltac:(discriminate) Hl Hrows)
      as (lp & E & Hf & Hlen & Hz & Hback).
    exists lp. split; [exact E|]. split; [exact Hf|]. split.
    + rewrite Hlen. cbn [length] in Hl.
      destruct (Nat.eqb_spec (ncols m) 0) as [Hc|Hc]; [lia|reflexivity].
    + split; [exact Hz|exact Hback].
Qed.

(** X21: [numpy_array_to_live_points] fails with [ValueError] when a
    name occurs twice or is [logP] or [logL], the two fields that it adds
    itself; an array that is not empty and has fewer columns than there are
    names fails with [IndexError]; an empty array gives no records,
    whatever its shape. *)
Theorem array_conversion_errors (array : plain_array F) (names : list string) :
  (In "logP"%string names \/ In "logL"%string names \/ ~ NoDup names ->
   exists msg, numpy_array_to_live_points array names = Raise (ValueError msg)) /\
  (nodupb (get_dtype names true) = true ->
   size array <> 0 ->
   columns array < length names ->
   numpy_array_to_live_points array names = Raise IndexError) /\
  (nodupb (get_dtype names true) = true ->
   size array = 0 ->
   numpy_array_to_live_points array names
   = Ok {| fields := get_dtype names true; records := [] |}).
Proof.
  unfold numpy_array_to_live_points, np_dtype. split; [|split].
  - intros H. destruct (nodupb (get_dtype names true)) eqn:E.
    + exfalso. destruct (get_dtype_NoDup names E) as (Hnd & HP & HL).
      destruct H as [H|[H|H]]; contradiction.
    + eexists. reflexivity.
  - intros -> Hs Hc. cbn [bind].
    destruct (Nat.eqb_spec (size array) 0) as [|_]; [contradiction|].
    rewrite fill_columns_short; [reflexivity|apply get_dtype_fields|lia| |].
    + destruct array; cbn in *; lia.
    + apply repeat_length.
  - intros -> Hs. cbn [bind]. rewrite Hs. reflexivity.
Qed.

End Facts.
End LivePointFacts.

Module LivePointCases.
Import Importance LivePointArrays LivePointFacts.

(** X20, witness: an array of two rows and three columns, two of them
    named; and the same array without any name. *)
Lemma array_round_trip_witness :
  let m := {| ncols := 3;
              mrows := [[1%float; 2%float; 3%float];
                        [4%float; 5%float; 6%float]] |} in
  (exists live_points,
     numpy_array_to_live_points (Array2 m) ["x"; "y"]%string = Ok live_points /\
     fields live_points = ["x"; "y"; "logP"; "logL"]%string /\
     length (records live_points) = 2 /\
     Forall (fun s => s "logP"%string = 0%float /\ s "logL"%string = 0%float)
       (records live_points) /\
     live_points_to_array live_points (Some ["x"; "y"]%string)
     = Ok {| ncols := 2;
             mrows := [[1%float; 2%float]; [4%float; 5%float]] |}) /\
  (exists live_points,
     numpy_array_to_live_points (Array2 m) [] = Ok live_points /\
     fields live_points = ["logP"; "logL"]%string /\
     length (records live_points) = 2 /\
     Forall (fun s => s "logP"%string = 0%float /\ s "logL"%string = 0%float)
       (records live_points) /\
     live_points_to_array live_points (Some [])
     = Ok {| ncols := 2; mrows := [] |}).
Proof.
  intros m. split.
  - exact (array_round_trip m ["x"; "y"]%string eq_refl
             ltac:(cbn; lia) ltac:(repeat constructor)).
  - exact (array_round_trip m [] eq_refl
             ltac:(cbn; lia) ltac:(repeat constructor)).
Defined.

(** X21, witness: a parameter named [logL], an array of one column for
    two names, and an array without rows. *)
Lemma array_conversion_errors_witness :
  (exists msg,
      numpy_array_to_live_points (Array1 [1%float]) ["x"; "logL"]%string
      = Raise (ValueError msg)) /\
  numpy_array_to_live_points (Array1 [1%float]) ["x"; "y"]%string
  = Raise IndexError /\
  numpy_array_to_live_points (F:=float) (Array2 {| ncols := 2; mrows := [] |})
    ["x"]%string
  = Ok {| fields := ["x"; "logP"; "logL"]%string; records := [] |}.
Proof.
  split; [|split].
  - apply (proj1 (array_conversion_errors (Array1 [1%float])
                    ["x"; "logL"]%string)).
    right. left. right. left. reflexivity.
  - apply (proj1 (proj2 (array_conversion_errors (Array1 [1%float])
                           ["x"; "y"]%string))).
    + reflexivity.
    + discriminate.
    + cbn. lia.
  - apply (proj2 (proj2 (array_conversion_errors
                           (F:=float) (Array2 {| ncols := 2; mrows := [] |})
                           ["x"]%string))); reflexivity.
Defined.

End LivePointCases.

(** ** The categorical distribution *)

Module CategoricalFacts.
Import Categorical RowFacts.

Lemma insert_unique_In (v x : Z) (l : list Z) :
  In x (insert_unique v l) <-> x = v \/ In x l.
Proof.
  induction l as [|u l IH]; cbn.
  - split; intros [H|H]; auto; contradiction.
  - destruct (Z.ltb_spec v u); [cbn; intuition|].
    destruct (Z.eqb_spec v u) as [->|]; cbn; [intuition|].
    rewrite IH. intuition.
Qed.

Lemma np_unique_In (x : Z) (l : list Z) : In x (np_unique l) <-> In x l.
Proof.
  induction l as [|v l IH]; cbn; [reflexivity|].
  rewrite insert_unique_In, IH. intuition.
Qed.

Lemma insert_unique_sorted (v : Z) (l : list Z) :
  StronglySorted Z.lt l -> StronglySorted Z.lt (insert_unique v l).
Proof.
  induction 1 as [|u l Hs IH Hu]; cbn; [repeat constructor|].
  destruct (Z.ltb_spec v u) as [Hlt|Hge].
  - constructor; [constructor; assumption|].
    constructor; [exact Hlt|]. eapply Forall_impl; [|exact Hu].
    intros w Hw. lia.
  - destruct (Z.eqb_spec v u) as [->|Hne]; [constructor; assumption|].
    constructor; [exact IH|]. apply Forall_forall. intros w Hw.
    apply insert_unique_In in Hw. destruct Hw as [->|Hw]; [lia|].
    rewrite Forall_forall in Hu. apply Hu, Hw.
Qed.

Lemma np_unique_sorted (l : list Z) : StronglySorted Z.lt (np_unique l).
Proof.
  induction l as [|v l IH]; cbn; [constructor|].
  apply insert_unique_sorted, IH.
Qed.

Lemma np_unique_NoDup (l : list Z) : NoDup (np_unique l).
Proof.
  pose proof (np_unique_sorted l) as H.
  induction H as [|u r Hs IH Hu]; constructor; [|exact IH].
  intros Hin. rewrite Forall_forall in Hu. specialize (Hu u Hin). lia.
Qed.

Lemma to_list_squeeze (l : list Z) : to_list (np_squeeze l) = l.
Proof. destruct l as [|v [|w l]]; reflexivity. Qed.

Lemma py_index_app (pre rest : list Z) (u : Z) :
  ~ In u pre -> py_index (pre ++ u :: rest) u = Ok (length pre).
Proof.
  induction pre as [|w pre IH]; intros Hn; cbn.
  - rewrite Z.eqb_refl. reflexivity.
  - destruct (Z.eqb_spec w u) as [->|Hne]; [exfalso; apply Hn; left; reflexivity|].
    rewrite IH by (intros H; apply Hn; right; exact H). reflexivity.
Qed.

Lemma list_setitem_app {A : Type} (done rest : list A) (old v : A) :
  list_setitem (done ++ old :: rest) (length done) v = Ok (done ++ v :: rest).
Proof.
  induction done as [|w done IH]; cbn; [reflexivity|].
  rewrite IH. reflexivity.
Qed.

Section Facts.
Context {F : Type} {num : Number F}.
Variable np : NumPy F.

Lemma assign_probabilities_spec (stored : list Z) (pend : list Z) :
  forall (pre : list Z) (done probs : list F),
    NoDup (pre ++ pend) ->
    length done = length pre ->
    assign_probabilities (pre ++ pend) stored pend
      (done ++ repeat f0 (length pend)) = Ok probs ->
    exists qs, probs = done ++ qs /\ Forall2 (frequency_of stored) pend qs.
Proof.
  induction pend as [|u rest IH]; intros pre done probs Hnd Hl H;
    cbn [assign_probabilities] in H.
  - injection H as <-. exists []. split; [reflexivity|constructor].
  - bind_step H v E1. bind_step H i E2. bind_step H probs1 E3.
    rewrite py_index_app in E2
      by (apply NoDup_remove_2 in Hnd; intros Hin; apply Hnd;
          apply in_or_app; left; exact Hin).
    injection E2 as <-. cbn [length repeat] in E3.
    rewrite <- Hl, list_setitem_app in E3. injection E3 as <-.
    change (done ++ v :: repeat f0 (length rest))
      with (done ++ [v] ++ repeat f0 (length rest)) in H.
    rewrite app_assoc in H.
    change (pre ++ u :: rest) with (pre ++ [u] ++ rest) in H, Hnd.
    rewrite app_assoc in H, Hnd.
    destruct (IH (pre ++ [u]) (done ++ [v]) probs Hnd) as (qs & -> & Hq);
      [rewrite !length_app; cbn; lia|exact H|].
    exists (v :: qs). split; [rewrite <- app_assoc; reflexivity|].
    constructor; [|exact Hq].
    unfold np_true_divide in E1.
    destruct (of_int (np_count u stored)) as [x|] eqn:Ex; [|discriminate].
    destruct (of_int (Z.of_nat (length stored))) as [y|] eqn:Ey; [|discriminate].
    injection E1 as <-. exists x, y. repeat split; assumption.
Qed.

(** The first samples of a distribution without classes. *)
Lemma first_update_inv (d d' : CategoricalDistribution F)
  (new : list Z) (reset : bool) :
  classes d = None ->
  n d = None ->
  reset = true \/ samples d = None ->
  update_samples d new reset = Ok d' ->
  classes d' = Some (np_unique new) /\
  n d' = Some (Z.of_nat (length (np_unique new))) /\
  NoDup (np_unique new) /\
  (forall x, In x (np_unique new) <-> In x new) /\
  exists probs,
    p d' = Some probs /\
    Forall2 (frequency_of new) (np_unique new) probs.
Proof.
  intros Hc Hn Hs H. unfold update_samples in H. rewrite Hc, Hn in H.
  cbn [bind] in H.
  assert (Hst : (if reset then Ok (np_squeeze new)
                 else match samples d with
                      | None => Ok (np_squeeze new)
                      | Some old => np_concatenate old (np_squeeze new)
                      end) = Ok (np_squeeze new)).
  { destruct Hs as [->| ->]; [reflexivity|]. destruct reset; reflexivity. }
  rewrite Hst in H. cbn [bind] in H. rewrite to_list_squeeze in H.
  bind_step H probs E. injection H as <-. cbn.
  split; [reflexivity|]. split; [reflexivity|].
  split; [apply np_unique_NoDup|]. split; [intros x; apply np_unique_In|].
  exists probs. split; [reflexivity|].
  rewrite Nat2Z.id in E.
  destruct (assign_probabilities_spec new (np_unique new) [] [] probs) as
    (qs & -> & Hq); [apply np_unique_NoDup|reflexivity|exact E|exact Hq].
Qed.

(** X17: the first samples that a distribution without classes is
    given fix its classes, the values of the samples in ascending order,
    and their number; the probability of each class is its frequency among
    the samples. *)
Theorem first_samples_fix_classes (d d' : CategoricalDistribution F)
  (new : list Z) (reset : bool) :
  classes d = None ->
  n d = None ->
  reset = true \/ samples d = None ->
  update_samples d new reset = Ok d' ->
  classes d' = Some (np_unique new) /\
  n d' = Some (Z.of_nat (length (np_unique new))) /\
  NoDup (np_unique new) /\
  (forall x, In x (np_unique new) <-> In x new) /\
  exists probs,
    p d' = Some probs /\
    Forall2 (frequency_of new) (np_unique new) probs.
Proof. apply first_update_inv. Qed.

(** X18: a single sample is stored as an array of no dimension, which
    [np.concatenate] refuses: once a distribution has been given one sample
    alone, no later call of [update_samples] without [reset] returns, and
    on a distribution that holds samples no such call with one sample
    alone returns. *)
Theorem single_sample_blocks_updates :
  (forall (d d' : CategoricalDistribution F) (v : Z) (reset : bool),
      update_samples d [v] reset = Ok d' ->
      forall new, is_ok (update_samples d' new false) = false) /\
  (forall (d : CategoricalDistribution F) (v : Z),
      samples d <> None ->
      is_ok (update_samples d [v] false) = false).
Proof.
  assert (Hfail : forall (d : CategoricalDistribution F) new,
             (exists old, samples d = Some old /\
                          forall r, np_concatenate old (np_squeeze new) <> Ok r) ->
             is_ok (update_samples d new false) = false).
  { intros d new (old & Ho & Hc). unfold update_samples. rewrite Ho.
    destruct (match classes d with Some _ => _ | None => _ end); cbn [bind];
      [|reflexivity|reflexivity].
    destruct (match n d with Some _ => _ | None => _ end); cbn [bind];
      [|reflexivity|reflexivity].
    destruct (np_concatenate old (np_squeeze new)) as [r| |] eqn:E;
      [exfalso; apply (Hc r); reflexivity|reflexivity|reflexivity]. }
  split.
  - intros d d' v reset H new. apply Hfail.
    unfold update_samples in H.
    bind_step H known E1. bind_step H count E2. bind_step H stored E3.
    bind_step H probs E4. injection H as <-. cbn [samples].
    exists stored. split; [reflexivity|].
    assert (Hs : stored = Scalar v).
    { destruct reset; [injection E3 as <-; reflexivity|].
      destruct (samples d) as [[w|l]|]; cbn in E3;
        [discriminate|discriminate|injection E3 as <-; reflexivity]. }
    subst stored. intros r. discriminate.
  - intros d v Hs. apply Hfail.
    destruct (samples d) as [old|]; [|contradiction].
    exists old. split; [reflexivity|]. intros r. destruct old; discriminate.
Qed.

Lemma combine_keep {A : Type} (xs : list A) (acc : list F) :
  length acc = length xs ->
  map (fun '(_, lp) => lp) (combine xs acc) = acc.
Proof.
  revert acc. induction xs as [|x xs IH]; intros [|a acc] Hl;
    try discriminate; [reflexivity|].
  cbn. f_equal. apply IH. cbn in Hl. lia.
Qed.

Lemma combine_twice {A : Type} (f g : A * F -> F) (xs : list A) (acc : list F) :
  map g (combine xs (map f (combine xs acc)))
  = map (fun '(x, lp) => g (x, f (x, lp))) (combine xs acc).
Proof.
  revert acc. induction xs as [|x xs IH]; intros [|a acc]; cbn;
    try reflexivity.
  f_equal. apply IH.
Qed.

Lemma log_prob_fold (xs : list Z) (cs : list Z) :
  forall (ps : list F) (acc : list F),
    length acc = length xs ->
    fold_left
      (fun acc '(c, q) =>
         map (fun '(x, lp) => if (x =? c)%Z then np_log np q else lp)
           (combine xs acc))
      (combine cs ps) acc
    = map (fun '(x, lp) => class_log_prob np cs ps x lp) (combine xs acc).
Proof.
  induction cs as [|c cs IH]; intros ps acc Hl.
  - cbn. symmetry. apply combine_keep, Hl.
  - destruct ps as [|q ps].
    + cbn. symmetry. apply combine_keep, Hl.
    + cbn [combine fold_left]. rewrite IH
        by (rewrite length_map, length_combine; lia).
      rewrite (combine_twice
                 (fun '(x, lp) => if (x =? c)%Z then np_log np q else lp)
                 (fun '(x, lp) => class_log_prob np cs ps x lp)).
      apply map_ext. intros [x lp]. reflexivity.
Qed.

Lemma class_log_prob_absent (cs : list Z) :
  forall (ps : list F) (x : Z) (dflt : F),
    (forall i, nth_error cs i = Some x -> nth_error ps i = None) ->
    class_log_prob np cs ps x dflt = dflt.
Proof.
  induction cs as [|c cs IH]; intros [|q ps] x dflt H; try reflexivity.
  cbn. destruct (Z.eqb_spec x c) as [->|Hne].
  - specialize (H 0 eq_refl). discriminate.
  - apply IH. intros i Hi. apply (H (S i)). exact Hi.
Qed.

Lemma class_log_prob_found (cs : list Z) :
  forall (ps : list F) (x : Z) (dflt : F) (i : nat) (q : F),
    NoDup cs ->
    nth_error cs i = Some x -> nth_error ps i = Some q ->
    class_log_prob np cs ps x dflt = np_log np q.
Proof.
  induction cs as [|c cs IH]; intros [|q0 ps] x dflt i q Hnd Hc Hp;
    try (destruct i; discriminate).
  inversion Hnd as [|? ? Hn Hnd']; subst. destruct i as [|i]; cbn in Hc, Hp.
  - injection Hc as ->. injection Hp as ->. cbn. rewrite Z.eqb_refl.
    apply class_log_prob_absent. intros j Hj.
    exfalso. apply Hn. apply (nth_error_In _ _ Hj).
  - cbn. apply (IH ps x _ i q Hnd' Hc Hp).
Qed.

(** X19: with classes that are all different, [log_prob] gives a sample
    the logarithm of the probability of its class, and 0 (the logarithm of
    probability one) to a sample of no class, or of a class without a
    probability. *)
Theorem log_prob_of_classes (d : CategoricalDistribution F)
  (cs : list Z) (ps : list F) (xs : list Z) :
  classes d = Some cs ->
  p d = Some ps ->
  NoDup cs ->
  exists r,
    log_prob np d xs = Ok r /\
    length r = length xs /\
    forall k x,
      nth_error xs k = Some x ->
      (forall i q, nth_error cs i = Some x -> nth_error ps i = Some q ->
                   nth_error r k = Some (np_log np q)) /\
      ((forall i, nth_error cs i = Some x -> nth_error ps i = None) ->
       nth_error r k = Some f0).
Proof.
  intros Hc Hp Hnd. unfold log_prob. rewrite Hc, Hp.
  eexists. split; [reflexivity|].
  rewrite log_prob_fold by apply repeat_length.
  split; [rewrite length_map, length_combine, repeat_length; lia|].
  intros k x Hk.
  assert (Hr : nth_error
                 (map (fun '(x0, lp) => class_log_prob np cs ps x0 lp)
                    (combine xs (repeat f0 (length xs)))) k
               = Some (class_log_prob np cs ps x f0)).
  { clear -Hk. revert k Hk. induction xs as [|y xs IH]; intros [|k] Hk;
      try discriminate; cbn in *.
    - injection Hk as ->. reflexivity.
    - apply IH, Hk. }
  rewrite Hr. split.
  - intros i q Hi Hq. f_equal. apply (class_log_prob_found cs ps x f0 i q);
      assumption.
  - intros Ha. f_equal. apply class_log_prob_absent. exact Ha.
Qed.

End Facts.

Section Exact.

Lemma count_sum (l : list Z) :
  forall U : list Z,
    NoDup U -> (forall x, In x l -> In x U) ->
    fold_right Z.add 0%Z (map (fun c => np_count c l) U)
    = Z.of_nat (length l).
Proof.
  assert (Hone : forall (U : list Z) v, NoDup U -> In v U ->
             fold_right Z.add 0%Z
               (map (fun c => if (c =? v)%Z then 1%Z else 0%Z) U) = 1%Z).
  { induction U as [|u U IH]; intros v Hnd Hin; [contradiction|].
    inversion Hnd as [|? ? Hn Hnd']; subst. cbn.
    destruct (Z.eqb_spec u v) as [->|Hne].
    - assert (Hz : fold_right Z.add 0%Z
                     (map (fun c => if (c =? v)%Z then 1%Z else 0%Z) U) = 0%Z).
      { clear -Hn. induction U as [|w U IHU]; [reflexivity|]. cbn.
        destruct (Z.eqb_spec w v) as [->|_];
          [exfalso; apply Hn; left; reflexivity|].
        rewrite IHU; [reflexivity|]. intros H. apply Hn. right. exact H. }
      rewrite Hz. reflexivity.
    - destruct Hin as [->|Hin]; [contradiction|].
      rewrite (IH v Hnd' Hin). reflexivity. }
  induction l as [|v l IH]; intros U Hnd Hin.
  - cbn. induction U as [|u U IHU]; [reflexivity|]. cbn.
    inversion Hnd; subst. rewrite IHU; [reflexivity|assumption|].
    intros x [].
  - assert (Hsplit : forall U',
               fold_right Z.add 0%Z (map (fun c => np_count c (v :: l)) U')
               = (fold_right Z.add 0%Z
                    (map (fun c => if (c =? v)%Z then 1%Z else 0%Z) U')
                  + fold_right Z.add 0%Z (map (fun c => np_count c l) U'))%Z).
    { induction U' as [|u U' IHU]; [reflexivity|]. cbn [map fold_right].
      rewrite IHU. unfold np_count. cbn [filter].
      destruct (Z.eqb_spec u v); cbn [length]; lia. }
    rewrite Hsplit, (Hone U v Hnd) by (apply Hin; left; reflexivity).
    rewrite IH; [cbn [length]; lia|exact Hnd|].
    intros x Hx. apply Hin. right. exact Hx.
Qed.

Lemma frequency_sum (new : list Z) (U : list Z) (probs : list xreal) :
  new <> [] ->
  Forall2 (frequency_of new) U probs ->
  forall a : Qc,
    fold_left xadd probs (XFin a)
    = XFin (a + Qc_of_Z (fold_right Z.add 0%Z (map (fun c => np_count c new) U))
                / Qc_of_Z (Z.of_nat (length new)))%Qc.
Proof.
  intros Hne.
  assert (Hq : Qc_of_Z (Z.of_nat (length new)) <> 0%Qc).
  { apply VolumeFacts.Qc_of_Z_nonzero. destruct new; [contradiction|].
    cbn [length]. lia. }
  induction 1 as [|c q U probs (x & y & Hx & Hy & ->) _ IH]; intros a.
  - cbn. f_equal. change (Qc_of_Z 0) with 0%Qc. field. exact Hq.
  - cbn [fold_left fold_right map]. cbn in Hx, Hy.
    injection Hx as <-. injection Hy as <-. cbn [fdiv exact xdiv].
    destruct (Qc_eq_dec (Qc_of_Z (Z.of_nat (length new))) 0) as [E|_];
      [contradiction|].
    cbn [xadd]. rewrite IH. f_equal. rewrite VolumeFacts.Qc_of_Z_add.
    field. exact Hq.
Qed.

(** X22: the first samples give every class its count divided by the
    number of samples, in the arithmetic of the code, and the counts of the
    classes add up to the number of samples.  In exact arithmetic the
    probabilities therefore sum to one; in double precision the sum can
    miss one in the last place, as it does for ten classes of one sample
    each. *)
Theorem frequencies_sum_to_one :
  (forall (F : Type) (num : Number F) (d d' : CategoricalDistribution F)
          (new : list Z) (reset : bool),
      classes d = None ->
      n d = None ->
      reset = true \/ samples d = None ->
      update_samples d new reset = Ok d' ->
      exists cls probs,
        classes d' = Some cls /\
        p d' = Some probs /\
        Forall2 (frequency_of new) cls probs /\
        fold_right Z.add 0%Z (map (fun c => np_count c new) cls)
        = Z.of_nat (length new)) /\
  (forall (d d' : CategoricalDistribution xreal) (new : list Z) (reset : bool),
      classes d = None ->
      n d = None ->
      reset = true \/ samples d = None ->
      new <> [] ->
      update_samples d new reset = Ok d' ->
      exists probs, p d' = Some probs /\ py_sum probs = XFin 1) /\
  (exists (d' : CategoricalDistribution float) (probs : list float),
      update_samples unset [0; 1; 2; 3; 4; 5; 6; 7; 8; 9]%Z false = Ok d' /\
      p d' = Some probs /\
      py_sum probs = 0x1.fffffffffffffp-1%float /\
      feqb (py_sum probs) f1 = false).
Proof.
  split; [|split].
  - intros F num d d' new reset Hc Hn Hs H.
    destruct (first_update_inv d d' new reset Hc Hn Hs H)
      as (Hcl & _ & Hnd & Hin & probs & Hp & Hf).
    exists (np_unique new), probs. split; [exact Hcl|]. split; [exact Hp|].
    split; [exact Hf|].
    apply count_sum; [exact Hnd|intros x Hx; apply Hin, Hx].
  - intros d d' new reset Hc Hn Hs Hne H.
    destruct (first_update_inv d d' new reset Hc Hn Hs H)
      as (_ & _ & Hnd & Hin & probs & Hp & Hf).
    exists probs. split; [exact Hp|]. unfold py_sum.
    change (f0 (F:=xreal)) with (XFin 0).
    rewrite (frequency_sum new _ probs Hne Hf).
    rewrite count_sum; [|exact Hnd|intros x Hx; apply Hin, Hx].
    f_equal. field.
    apply VolumeFacts.Qc_of_Z_nonzero. destruct new; [contradiction|].
    cbn [length]. lia.
  - eexists. eexists. split; [vm_compute; reflexivity|].
    split; [reflexivity|]. split; vm_compute; reflexivity.
Qed.

End Exact.

End CategoricalFacts.

Module CategoricalCases.
Import Categorical CategoricalFacts.

(** X17, witness: three samples of two classes. *)
Lemma first_samples_fix_classes_witness :
  exists d' probs,
    update_samples (F:=float) unset [2; 1; 2]%Z false = Ok d' /\
    classes d' = Some [1; 2]%Z /\
    n d' = Some 2%Z /\
    p d' = Some probs /\
    Forall2 (frequency_of [2; 1; 2]%Z) [1; 2]%Z probs.
Proof.
  eexists.
  assert (E : update_samples (F:=float) unset [2; 1; 2]%Z false = Ok _)
    by (vm_compute; reflexivity).
  destruct (first_samples_fix_classes unset _ [2; 1; 2]%Z false
              eq_refl eq_refl (or_intror eq_refl) E)
    as (Hc & Hn & _ & _ & probs & Hp & Hf).
  exists probs. split; [exact E|]. split; [exact Hc|].
  split; [exact Hn|]. split; [exact Hp|exact Hf].
Defined.

(** X18, witness: a distribution given the single sample 3. *)
Lemma single_sample_blocks_updates_witness :
  exists d' : CategoricalDistribution float,
    update_samples unset [3]%Z false = Ok d' /\
    is_ok (update_samples d' [3; 3]%Z false) = false /\
    is_ok (update_samples
             {| n := Some 1%Z; classes := Some [3]%Z; p := Some [1%float];
                samples := Some (Vector [3; 3]%Z) |} [3]%Z false) = false.
Proof.
  eexists.
  assert (E : update_samples (F:=float) unset [3]%Z false = Ok _)
    by (vm_compute; reflexivity).
  split; [exact E|]. split.
  - apply (proj1 (single_sample_blocks_updates (F:=float)) unset _ 3%Z false E).
  - apply (proj2 (single_sample_blocks_updates (F:=float))). discriminate.
Defined.

(** X19, witness: two classes, and samples of the second and of
    neither. *)
Lemma log_prob_of_classes_witness :
  let d := {| n := Some 2%Z; classes := Some [1; 2]%Z;
              p := Some [0.25%float; 0.75%float]; samples := None |} in
  exists r,
    log_prob np_tropical d [2; 5]%Z = Ok r /\
    nth_error r 0 = Some (np_log np_tropical 0.75%float) /\
    nth_error r 1 = Some 0%float.
Proof.
  intros d.
  assert (Hnd : NoDup [1; 2]%Z).
  { constructor; [|constructor; [intros []|constructor]].
    intros [H|[]]. discriminate. }
  destruct (log_prob_of_classes np_tropical d [1; 2]%Z
              [0.25%float; 0.75%float] [2; 5]%Z eq_refl eq_refl Hnd)
    as (r & Hr & _ & Hk).
  exists r. split; [exact Hr|]. split.
  - apply (proj1 (Hk 0 2%Z eq_refl) 1 0.75%float); reflexivity.
  - apply (proj2 (Hk 1 5%Z eq_refl)).
    intros [|[|[|i]]] H; try discriminate H; destruct i; discriminate H.
Defined.

(** X22, witness: three samples of two classes, in double precision and
    in exact arithmetic. *)
Lemma frequencies_sum_to_one_witness :
  (exists d' cls probs,
     update_samples (F:=float) unset [2; 1; 2]%Z false = Ok d' /\
     classes d' = Some cls /\
     p d' = Some probs /\
     Forall2 (frequency_of [2; 1; 2]%Z) cls probs /\
     fold_right Z.add 0%Z (map (fun c => np_count c [2; 1; 2]%Z) cls) = 3%Z) /\
  (exists d' probs,
     update_samples (F:=xreal) unset [2; 1; 2]%Z false = Ok d' /\
     p d' = Some probs /\
     py_sum probs = XFin 1).
Proof.
  destruct frequencies_sum_to_one as (Hg & Hx & _). split.
  - eexists.
    assert (E : update_samples (F:=float) unset [2; 1; 2]%Z false = Ok _)
      by (vm_compute; reflexivity).
    destruct (Hg float _ unset _ [2; 1; 2]%Z false
                eq_refl eq_refl (or_intror eq_refl) E)
      as (cls & probs & Hc & Hp & Hf & Hs).
    exists cls, probs. split; [exact E|]. repeat split; assumption.
  - eexists.
    assert (E : update_samples (F:=xreal) unset [2; 1; 2]%Z false = Ok _)
      by (cbv - [Qc_of_Z xdiv]; reflexivity).
    destruct (Hx unset _ [2; 1; 2]%Z false
                eq_refl eq_refl (or_intror eq_refl) ltac:(discriminate) E)
      as (probs & Hp & Hs).
    exists probs. split; [exact E|]. split; [exact Hp|exact Hs].
Defined.

End CategoricalCases.

(** ** The importance sampler: a level added after sampling *)

Module PostSamplingFacts.
Import Importance RowFacts ProposalFacts SamplerFacts LevelFacts PostSampling.

Section Facts.
Context {F : Type} {num : Number F}.
Context {Fl : Type} {fapi : FlowAPI F Fl}.
Variable np : NumPy F.
Variable md : ImportanceModel F.
Variable update_evidence : list (Sample F) -> result unit.

Lemma draw_n_samples_frame (fuel : nat) (s s' : ImportanceNestedSampler F Fl)
  (n : Z) (new_points : list (Sample F)) :
  draw_n_samples np md fuel s n = Ok (s', new_points) ->
  exists p' drawn logL_min,
    draw np md fuel (proposal s) n logL_min = Ok (p', drawn) /\
    length new_points = length drawn /\
    s' = s <| proposal := p' |>
           <| likelihood_evaluations := likelihood_evaluations s' |>.
Proof.
  unfold draw_n_samples. intros H. bind_step H pd E. destruct pd as [p' drawn].
  exists p', drawn, (if negb (leaky s) then Some (min_logL s) else None).
  split; [exact E|].
  change (leaky (s <| proposal := p' |>)) with (leaky s) in H.
  destruct (leaky s).
  - unfold log_likelihood in H.
    change (pool (s <| proposal := p' |>)) with (pool s) in H.
    destruct (pool s); [|destruct (has_vectorised_likelihood md)];
      bind_step H r Er; injection H as <- <-;
      (split; [apply (MergeFacts.set_column_same_length _ _ _ _ _ Er)
              |destruct s; reflexivity]).
  - injection H as <- <-. split; [reflexivity|destruct s; reflexivity].
Qed.

(** X23: [add_level_post_sampling] calls [update_nested_samples], which
    takes no argument, with [n]: with [update_nested_samples] enabled it
    returns nothing.  With it disabled, a call that returns has opened one
    level of the proposal, has left the live points alone and has appended
    to the nested samples the samples drawn, each with [logW] the negation
    of its [logQ]. *)
Theorem add_level_post_sampling_contract (fuel : nat)
  (s : ImportanceNestedSampler F Fl) (samples : list (Sample F)) (n : Z) :
  (_update_nested_samples s = true ->
   is_ok (add_level_post_sampling np md update_evidence fuel s samples n)
   = false) /\
  (_update_nested_samples s = false ->
   forall s',
     add_level_post_sampling np md update_evidence fuel s samples n = Ok s' ->
     level_count (proposal s') = (level_count (proposal s) + 1)%Z /\
     live_points s' = live_points s /\
     exists new,
       nested_samples s' = nested_samples s ++ new /\
       Forall weight_consistent new /\
       dict_get (n_draws (proposal s')) (Level (level_count (proposal s')))
       = Ok (Z.of_nat (length new))).
Proof.
  assert (Hinv : forall s',
             add_level_post_sampling np md update_evidence fuel s samples n
             = Ok s' ->
             _update_nested_samples s = false /\
             level_count (proposal s') = (level_count (proposal s) + 1)%Z /\
             live_points s' = live_points s /\
             exists new,
               nested_samples s' = nested_samples s ++ new /\
               Forall weight_consistent new /\
               dict_get (n_draws (proposal s'))
                 (Level (level_count (proposal s')))
               = Ok (Z.of_nat (length new))).
  { intros s' H. unfold add_level_post_sampling in H.
    bind_step H p E1. bind_step H sd E2. destruct sd as [s1 drawn].
    bind_step H updated E3. bind_step H u E4. bind_step H u' E5.
    injection H as <-.
    destruct (draw_n_samples_frame fuel _ s1 n drawn E2)
      as (p' & raw & lmin & Hd & Hdl & Hs1).
    cbn [proposal] in Hd.
    change (proposal (s <| proposal := p |>)) with p in Hd.
    assert (Hf : _update_nested_samples s1 = _update_nested_samples s)
      by (rewrite Hs1; reflexivity).
    rewrite Hf in E4.
    destruct (_update_nested_samples s); [discriminate|].
    split; [reflexivity|].
    destruct (train_draw_counts np md fuel _ p p' samples raw n lmin E1 Hd)
      as (L2 & _ & D2 & _ & _).
    assert (Hp : proposal s1 = p') by (rewrite Hs1; reflexivity).
    assert (Hlen : length updated = length raw).
    { pose proof (update_samples_spec np md _ _ _ E3) as R.
      exact (eq_trans (eq_sym (Forall2_length R)) Hdl). }
    unfold add_to_nested_samples. cbn. rewrite Hp.
    split; [exact L2|].
    split; [rewrite Hs1; reflexivity|].
    exists updated. split; [rewrite Hs1; reflexivity|]. split.
    - pose proof (update_samples_spec np md _ _ _ E3) as R. clear -R.
      induction R as [|a b l l' (v & _ & Hw) _ IH]; constructor; assumption.
    - rewrite Hlen. exact D2. }
  split.
  - intros Hu.
    destruct (add_level_post_sampling np md update_evidence fuel s samples n)
      as [s'| |] eqn:E; [|reflexivity|reflexivity].
    destruct (Hinv s' eq_refl) as [Hf _]. congruence.
  - intros _ s' H. apply (Hinv s' H).
Qed.

End Facts.
End PostSamplingFacts.

Module PostSamplingCases.
Import Importance ImportanceDoubles PostSampling PostSamplingFacts.

(** X23, witness: a sampler with the proposal that [get_proposal] builds,
    with and without [update_nested_samples]. *)
Lemma add_level_post_sampling_contract_witness :
  let fl := {| flows := 0; density := (-5)%float |} in
  exists p s',
    get_proposal np_tropical all_fields fl 1 false = Ok p /\
    is_ok (add_level_post_sampling np_tropical line_model (fun _ => Ok tt) 5
             ((first_level true fl) <| proposal := p |>
                                    <| _update_nested_samples := true |>)
             [row_of 0%float] 1) = false /\
    add_level_post_sampling np_tropical line_model (fun _ => Ok tt) 5
      ((first_level true fl) <| proposal := p |>) [row_of 0%float] 1 = Ok s' /\
    level_count (proposal s') = 0%Z /\
    length (nested_samples s') = 1.
Proof.
  intros fl. eexists. eexists.
  match goal with
  | |- ?G0 /\ _ => assert (E0 : G0) by (vm_compute; reflexivity)
  end.
  split; [exact E0|]. split.
  - match goal with
    | |- is_ok (add_level_post_sampling _ _ ?u ?f ?s ?x ?n) = false =>
        exact (proj1 (add_level_post_sampling_contract np_tropical line_model
                        u f s x n) eq_refl)
    end.
  - match goal with
    | |- ?G /\ _ => assert (E : G) by (vm_compute; reflexivity)
    end.
    split; [exact E|].
    match type of E with
    | add_level_post_sampling _ _ ?u ?f ?s ?x ?n = Ok ?s' =>
        destruct (proj2 (add_level_post_sampling_contract np_tropical
                           line_model u f s x n) eq_refl s' E)
          as (Hl & _ & new & Hn & _ & Hd)
    end.
    split; [exact Hl|]. reflexivity.
Defined.

End PostSamplingCases.
